(* ===== verification/_CoqProject ===== *)
-Q . S2P
Prelude.v
GoStrings.v
Utf8.v
GoFmt.v
GoPath.v
GoTime.v
GoFloat.v
Redact.v
GoError.v
GoOs.v
Json.v
JsonRoundTrip.v
Http.v
Docker.v
Service.v
Executor.v
Components.v
Tunnel.v
Health.v
Firewall.v
Certs.v
Handlers.v
Main.v
Api.v
State.v
Config.v
Enroll.v
Heartbeat.v
Observe.v
Agent.v
Frame.v
Runtime.v
Command.v
