(* ===== verification/Prelude.v ===== *)
(** * A verification development for the RouteStack node agent

    The agent runs on a node, enrolls it with a controller, reports heartbeats,
    claims operations one at a time and executes them: containers are managed
    through the Docker Engine API, firewall chains through iptables,
    certificates through Certbot, tunnels through a helper script inside a
    container.  The program is modelled by translation: one definition per Go
    function, with the guards, the order of the calls and the error texts of
    the source.

    ** How the program is modelled

    A Go function with effects is [M W A], a function from a world [W] to a
    result and a new world ([Prelude]).  The world is abstract: what the
    program reaches outside of itself are the methods of type classes over
    [W], so a theorem holds for every environment, every failing one included.
    A pair of a value and an error is [result] or, when both may be present,
    the pair; [x <- c orelse h ;; k] is [if err != nil { return h(err) }].
    Strings are byte strings and integers are [Z] with the wrap-around of their
    width written out where the code computes with them.  A panic or an exit
    of the process is a value of its own ([executor.outcome], [enroll.Panic],
    [command.ending]).  Loops that need not end are bounded by a number of turns
    over which the theorems quantify; the retry loop and the searches of the
    regular expressions recurse on bounds the source gives (the number of
    attempts, the runes that are left), which [star_loop_fuel] shows to be
    enough.  Maps whose order Go leaves open go through [GoMaps].

    ** The files

    The language and its standard library, as far as the program uses them:
    - [GoStrings]: strings, UTF-8 runes, [bufio.Scanner], [strings.Fields];
      [Utf8]: that decoding and encoding runes are inverse; [GoFmt]: [strconv]
      and [fmt]; [GoPath]: [filepath.Clean] and [filepath.Dir]; [GoTime]: the
      text of a time; [GoFloat]: binary64 arithmetic, [strconv.ParseFloat] and
      the shortest decimal; [GoError]: error values, [errors.Is] and
      [errors.As];
    - [GoOs]: the file system as the interface [FileSystem], its contract
      [Files], and [Watched] worlds, which record every state in between, so
      that a crash can be placed anywhere;
    - [Json], [JsonRoundTrip]: [encoding/json]: the printer, the parser with its
      errors, struct decoders with case folding, that printing and parsing are
      inverse on valid UTF-8, and that nothing else is ever parsed;
    - [Http]: requests, responses, contexts with deadlines, transports.
    Not of the language, but for statements about runs:
    - [Observe]: a world with a trail ([Observed]), in which the exchanges of a
      transport or the calls of a client are recorded while the program runs.

    The program, a module for each Go package or file:
    - [Redact]: internal/redact/redact.go;
    - [Docker] (module [docker]): internal/docker/client.go;
    - [Service] ([service]): internal/service/spec.go, manager.go;
    - [Executor] ([executor]): internal/executor/executor.go;
    - [Components] ([components], [installer]): internal/components/spec.go,
      internal/installer/installer.go;
    - [Tunnel], [Health], [Firewall], [Certs]: the managers of the packages of
      the same names;
    - [Handlers] ([handlers]): internal/executor/handlers.go;
    - [Main] ([main]): the wiring of cmd/routestack-agent/main.go;
    - [Api] ([api]): internal/api/client.go; [Enroll] ([enroll]):
      internal/api/enroll.go and the constructors of client.go; [Heartbeat]
      ([heartbeat]): internal/api/heartbeat.go, heartbeat_linux.go,
      heartbeat_other.go;
    - [State] ([state]): internal/state/state.go; [Config] ([config],
      [filesystem]): internal/agent/config.go, internal/filesystem/paths.go;
    - [Agent] ([agent]): the operation loop of internal/agent/agent.go, over
      any client and ([agent.http_api]) over the one of package api;
      [Runtime] ([runtime]): its heartbeat loop, start and shutdown;
    - [Frame] ([frame]): no code of its own; what every registered handler
      leaves alone, and with it the HTTP exchanges of the loop over the wired
      executor;
    - [Command] ([command]): the commands of cmd/routestack-agent/main.go.

    The components meet at interfaces, as in the source: a manager is written
    over the class of the operations it needs ([service.ContainerClient],
    [installer.ImageClient], [tunnel.ContainerExec], [health.ContainerInspector],
    [firewall.CommandRunner], [certs.commandRunner], [agent.APIClient],
    [runtime.StateStore]), and the Docker client gives the instances
    ([service.docker_containers], ...).  Contracts are classes with laws:
    [Files] (what the calls do to the table of files), [firewall.Iptables]
    (the rules of a chain), [service.Daemon] (the containers behind the
    operations of a client), which [service.docker_daemon] proves of the Docker
    client from [service.Engine] (the containers behind its HTTP requests).
    Nothing is assumed of the controller.

    ** What is shown

    - Execution: in every interleaving of calls, evictions and the clock an
      operation id is not executed twice within its hour; [Execute] refines the
      locked step of that transition system; the wired executor answers every
      operation with a result of a known status or an error.
    - The loops: over any client, every claim that yields an operation is
      followed by one call that completes it, before the next claim; over the
      HTTP client and the wired executor, the requests that leave the agent are
      claims and, for each operation handed out, a report of it with a known
      status and a redacted text, each sent up to six times, and not at all
      where the URL is refused.  Delivery is not promised.  A heartbeat goes
      out at the start and at each tick, with the same limits.
    - Containers: applying a revision to a service with a plain id leaves one
      container of the service, running and created from the request for its
      specification, and no other touched; [FindContainer] equals a
      declarative search; the members of the creation request, with the host
      ports that a later mapping of the same container port replaces.
    - The controller: the retry schedule with its doubling waits, which answers
      are tried again, which answer decides, and that it ends.
    - Files: state, key and certificate are replaced atomically, whatever call
      fails and wherever the process stops; a saved state is read back; what
      [enroll] leaves is the key it asked for, the certificate and the node id
      of the answer, which a later start reads; [run] serves only with a state
      and an identity it found, and does not panic before that.
    - Redaction: no UUID is left standing in a redacted text, by way of a
      declarative reading of regular expressions for which the matcher is
      sound and complete ([mt_sound], [mt_complete]).
    - Firewall, certificates, health, tunnels, components: which requests are
      accepted, what is run for them, and what is left after a failure.  The
      jump to the chain is added unless the text of a rule mentions the name of
      the chain; no value of a certificate request but the e-mail address, which
      is not checked, becomes an option.
    - The host: the metrics are numbers within bounds, so that heartbeats can
      be encoded unless the load average is not finite; memory and processor
      figures are what the files under /proc say.

    Witnesses apply the theorems that have hypotheses to concrete worlds: a
    table of files, scripted transports, an iptables table, a silent host.

    ** What is not modelled

    Cryptography, X.509 and PEM ([enroll.Crypto]), the settings of TLS
    transports ([enroll.Transports], [newClientWithTLS]), YAML decoding
    ([config.Yaml]), the processes behind [os/exec] ([certs.OsExec],
    [firewall.OsExec]), sockets ([health.Dialer], [HttpClient]), the calls
    to the kernel ([heartbeat.Host]), the tables of Unicode outside ASCII
    ([UnicodeTables]), the JSON log lines themselves (a record is a value given
    to [Log]), and the text package [flag] prints.  Goroutines are modelled
    where they share state: the executor's lock and eviction as a transition
    system, the two loops and the shutdown as another, of which only an
    invariant is shown ([run_reachable_inv]); each loop by itself is
    sequential.  The stub methods of heartbeat_other.go return constants.  Tests,
    packaging and service units are left out. *)

From Stdlib Require Import Ascii.
From stdpp Require Export base gmap strings list.

(** ** Effects: Go functions as state-passing functions over a world

    A Go function with side effects is [M W A]: it reads and updates a world
    [W] (the services, files, processes and clocks the agent talks to) and
    returns an [A].  Every component is a section over its own abstract world,
    so its theorems hold for every environment. *)

Definition M (W A : Type) : Type := W → A * W.

#[export] Instance M_ret (W : Type) : MRet (M W) := λ A a w, (a, w).
#[export] Instance M_bind (W : Type) : MBind (M W) :=
  λ A B f c w, let '(a, w') := c w in f a w'.

Arguments M_ret W A a w /.
Arguments M_bind W A B f c w /.

(** Go's pair of a value and an error: on success the value, otherwise the
    error. *)
Inductive result (E A : Type) : Type :=
| Ok (a : A)
| Err (e : E).
Arguments Ok {E A} a.
Arguments Err {E A} e.

(** [if err := c; err != nil { return h(err) }; k], the shape of nearly every
    fallible call of the program. *)
Definition try_or {W E A B} (c : M W (result E A)) (h : E → E)
    (k : A → M W (result E B)) : M W (result E B) :=
  λ w, match c w with
       | (Ok a, w') => k a w'
       | (Err e, w') => (Err (h e), w')
       end.

Declare Scope go_scope.
Delimit Scope go_scope with go.
Open Scope go_scope.

Notation "x <- c 'orelse' h ;; k" := (try_or c h (λ x, k))
  (at level 100, c at next level, h at next level, k at level 200,
   right associativity) : go_scope.
(** The same shape for pure functions. *)
Definition rtry {E A B} (c : result E A) (h : E → E) (k : A → result E B) : result E B :=
  match c with Ok a => k a | Err e => Err (h e) end.

Notation "x <-? c 'orelse' h ;; k" := (rtry c h (λ x, k))
  (at level 100, c at next level, h at next level, k at level 200,
   right associativity) : go_scope.

Definition is_ok {E A} (r : result E A) : bool :=
  match r with Ok _ => true | Err _ => false end.

(** ** Machine integers: Go's [int], [int64] and [uint64] as [Z] *)

Definition int64_min : Z := (- 2 ^ 63)%Z.
Definition int64_max : Z := (2 ^ 63 - 1)%Z.
Definition in_int64 (z : Z) : bool := ((int64_min <=? z) && (z <=? int64_max))%Z.
Definition wrap64 (z : Z) : Z := ((z + 2 ^ 63) `mod` 2 ^ 64 - 2 ^ 63)%Z.
Definition wrapu64 (z : Z) : Z := (z `mod` 2 ^ 64)%Z.

Lemma in_int64_spec z : in_int64 z = true ↔ (int64_min ≤ z ≤ int64_max)%Z.
Proof. unfold in_int64. rewrite andb_true_iff, !Z.leb_le. done. Qed.

Lemma wrap64_id z : in_int64 z = true → wrap64 z = z.
Proof.
  rewrite in_int64_spec. unfold wrap64, int64_min, int64_max. intros ?.
  rewrite Z.mod_small; lia.
Qed.

Lemma wrap64_range z : in_int64 (wrap64 z) = true.
Proof.
  apply in_int64_spec. unfold wrap64, int64_min, int64_max.
  pose proof (Z.mod_pos_bound (z + 2 ^ 63) (2 ^ 64) ltac:(lia)). lia.
Qed.

(** ** Ranging over a Go map: some order of its entries, chosen by the runtime. *)
Class GoMaps := {
  range : gmap string string → list (string * string);
  range_perm : ∀ m, range m ≡ₚ map_to_list m;
}.

(** One such order. *)
Definition sorted_maps : GoMaps := {| range := map_to_list; range_perm := λ m, Permutation_refl _ |}.

(** ** Tactics *)

(** Split the innermost call of an effectful function in the goal or in a
    hypothesis, naming its result and the world after it. *)
Ltac step_call :=
  match goal with
  | |- context [match ?c with pair _ _ => _ end] =>
      lazymatch c with
      | context [match _ with pair _ _ => _ end] => fail
      | _ => destruct c as [? ?] eqn:?
      end
  end.

Ltac step_call_in H :=
  match type of H with
  | context [match ?c with pair _ _ => _ end] =>
      lazymatch c with
      | context [match _ with pair _ _ => _ end] => fail
      | _ => destruct c as [? ?] eqn:?
      end
  end.

(** Reduce the monadic plumbing. *)
Ltac mred := unfold try_or, rtry, mbind, mret, M_bind, M_ret in *; simpl in *.

(** Case analysis on every scrutinee of a hypothesis. *)
Ltac split_in H :=
  repeat (match type of H with
          | context [match ?x with _ => _ end] => destruct x eqn:?; simplify_eq/=
          end).

(** ** Lemmas on lists and booleans shared by the components *)

Lemma forallb_True {A} (f : A → bool) l : forallb f l = true ↔ ∀ x, x ∈ l → f x = true.
Proof.
  rewrite forallb_forall. split; intros H x Hx; apply H; by apply list_elem_of_In.
Qed.

Lemma existsb_True {A} (f : A → bool) l : existsb f l = true ↔ ∃ x, x ∈ l ∧ f x = true.
Proof.
  rewrite existsb_exists. split; intros (x & Hx & ?); exists x; by rewrite list_elem_of_In in *.
Qed.

Lemma exists_cons {A} (P : A → Prop) a l : (∃ x, x ∈ a :: l ∧ P x) ↔ P a ∨ ∃ x, x ∈ l ∧ P x.
Proof.
  split.
  - intros (x & [->|?]%elem_of_cons & ?); eauto.
  - intros [?|(x & ? & ?)]; [exists a|exists x]; (split; [by constructor|done]).
Qed.

Create HintDb agent.
#[export] Hint Resolve wrap64_range : agent.
