(* ===== verification/GoStrings.v ===== *)
(** * GoStrings: the parts of Go's [strings], [unicode/utf8] and [unicode]
    packages the agent calls, over byte strings.

    A Go string is a sequence of bytes, modelled as [string].  Functions that
    look at runes decode UTF-8 as Go does, an ill-formed byte being the rune
    U+FFFD of width one. *)

From Stdlib Require Import Ascii NArith.
From S2P Require Import Prelude.

#[global] Arguments String.eqb : simpl never.
#[global] Arguments Ascii.eqb : simpl never.

Definition byte (a : ascii) : N := N_of_ascii a.

(** ** Prefixes, suffixes, substrings *)

Fixpoint HasPrefix (s p : string) : bool :=
  match p, s with
  | EmptyString, _ => true
  | String a p', String b s' => Ascii.eqb a b && HasPrefix s' p'
  | String _ _, EmptyString => false
  end.

Fixpoint HasSuffix (s suf : string) : bool :=
  String.eqb s suf || match s with String _ s' => HasSuffix s' suf | EmptyString => false end.

Fixpoint Contains (s sub : string) : bool :=
  HasPrefix s sub || match s with String _ s' => Contains s' sub | EmptyString => false end.

Fixpoint drop_bytes (n : nat) (s : string) : string :=
  match n, s with
  | S n', String _ s' => drop_bytes n' s'
  | _, _ => s
  end.

Fixpoint take_bytes (n : nat) (s : string) : string :=
  match n, s with
  | S n', String a s' => String a (take_bytes n' s')
  | _, _ => EmptyString
  end.

Definition TrimPrefix (s p : string) : string :=
  if HasPrefix s p then drop_bytes (String.length p) s else s.

Definition TrimSuffix (s suf : string) : string :=
  if HasSuffix s suf then take_bytes (String.length s - String.length suf) s else s.

(** [strings.Split(s, sep)] for a separator of one byte. *)
Fixpoint Split (s : string) (sep : ascii) : list string :=
  match s with
  | EmptyString => [EmptyString]
  | String a s' =>
      if Ascii.eqb a sep then EmptyString :: Split s' sep
      else match Split s' sep with
           | w :: ws => String a w :: ws
           | [] => [String a EmptyString]
           end
  end.

Definition concat_strings (l : list string) : string := foldr String.append EmptyString l.

(** [string] to bytes and back, so that byte lists and strings can be mixed. *)
Definition bytes_of (s : string) : list ascii := String.list_ascii_of_string s.
Definition string_of (l : list ascii) : string := String.string_of_list_ascii l.

(** ** UTF-8 *)

Definition RuneError : N := 0xFFFD.

Definition cont (a : ascii) : bool := ((0x80 <=? byte a) && (byte a <=? 0xBF))%N.
Definition in_range (lo hi : N) (a : ascii) : bool := ((lo <=? byte a) && (byte a <=? hi))%N.

(** What a first byte announces: an ASCII rune, a sequence of two, three or
    four bytes (with the range its second byte must lie in), or nothing
    valid. *)
Inductive lead_kind : Type :=
| L1
| L2
| L3 (lo hi : N)
| L4 (lo hi : N)
| LBad.

Definition lead (a : ascii) : lead_kind :=
  let b := byte a in
  (if b <? 0x80 then L1
   else if b <? 0xC2 then LBad
   else if b <? 0xE0 then L2
   else if b =? 0xE0 then L3 0xA0 0xBF
   else if b =? 0xED then L3 0x80 0x9F
   else if b <? 0xF0 then L3 0x80 0xBF
   else if b =? 0xF0 then L4 0x90 0xBF
   else if b <? 0xF4 then L4 0x80 0xBF
   else if b =? 0xF4 then L4 0x80 0x8F
   else LBad)%N.

Definition low6 (a : ascii) : N := N.land (byte a) 0x3F.

(** The runes of a string, each with the bytes it was decoded from. *)
Fixpoint runes (s : string) : list (N * string) :=
  match s with
  | EmptyString => []
  | String c0 r0 =>
      let bad := λ _ : unit, (RuneError, String c0 EmptyString) :: runes r0 in
      match lead c0 with
      | L1 => (byte c0, String c0 EmptyString) :: runes r0
      | LBad => bad tt
      | L2 =>
          match r0 with
          | String c1 r1 =>
              if cont c1
              then (N.lor (N.shiftl (N.land (byte c0) 0x1F) 6) (low6 c1),
                    String c0 (String c1 EmptyString)) :: runes r1
              else bad tt
          | EmptyString => bad tt
          end
      | L3 lo hi =>
          match r0 with
          | String c1 (String c2 r2) =>
              if in_range lo hi c1 && cont c2
              then (N.lor (N.lor (N.shiftl (N.land (byte c0) 0x0F) 12) (N.shiftl (low6 c1) 6))
                          (low6 c2),
                    String c0 (String c1 (String c2 EmptyString))) :: runes r2
              else bad tt
          | _ => bad tt
          end
      | L4 lo hi =>
          match r0 with
          | String c1 (String c2 (String c3 r3)) =>
              if in_range lo hi c1 && cont c2 && cont c3
              then (N.lor (N.lor (N.lor (N.shiftl (N.land (byte c0) 0x07) 18)
                                        (N.shiftl (low6 c1) 12))
                                 (N.shiftl (low6 c2) 6)) (low6 c3),
                    String c0 (String c1 (String c2 (String c3 EmptyString)))) :: runes r3
              else bad tt
          | _ => bad tt
          end
      end
  end.

Definition mk (n : N) : ascii := ascii_of_N n.

(** [utf8.AppendRune]: runes outside the Unicode range and surrogates are
    written as U+FFFD. *)
Definition encode_rune (r : N) : string :=
  let r := (if (0x10FFFF <? r) || ((0xD800 <=? r) && (r <=? 0xDFFF)) then RuneError else r)%N in
  (if r <? 0x80 then string_of [mk r]
   else if r <? 0x800 then
     string_of [mk (N.lor 0xC0 (N.shiftr r 6)); mk (N.lor 0x80 (N.land r 0x3F))]
   else if r <? 0x10000 then
     string_of [mk (N.lor 0xE0 (N.shiftr r 12));
                mk (N.lor 0x80 (N.land (N.shiftr r 6) 0x3F));
                mk (N.lor 0x80 (N.land r 0x3F))]
   else
     string_of [mk (N.lor 0xF0 (N.shiftr r 18));
                mk (N.lor 0x80 (N.land (N.shiftr r 12) 0x3F));
                mk (N.lor 0x80 (N.land (N.shiftr r 6) 0x3F));
                mk (N.lor 0x80 (N.land r 0x3F))])%N.

(** ** Lines *)

(** [bufio.Scanner] over lines, with its 64 KiB limit: an over-long line
    ends the scan, and so does a read error after the last piece. *)
Definition fits (line : string) : bool := (N.of_nat (String.length line) <? 65536)%N.

Definition drop_cr (line : string) : string := TrimSuffix line (String (mk 13) EmptyString).

Fixpoint scan (pieces : list string) : list string :=
  match pieces with
  | [] => []
  | [p] => if String.eqb p EmptyString || negb (fits p) then [] else [drop_cr p]
  | p :: ps => if fits p then drop_cr p :: scan ps else []
  end.

Definition scan_lines (body : string) : list string := scan (Split body (mk 10)).

(** ** Spaces and case *)

(** [unicode.IsSpace]. *)
Definition IsSpace (r : N) : bool :=
  (((9 <=? r) && (r <=? 13)) || (r =? 0x20) || (r =? 0x85) || (r =? 0xA0) || (r =? 0x1680)
   || ((0x2000 <=? r) && (r <=? 0x200A)) || (r =? 0x2028) || (r =? 0x2029) || (r =? 0x202F)
   || (r =? 0x205F) || (r =? 0x3000))%N.

Fixpoint drop_while {A} (f : A → bool) (l : list A) : list A :=
  match l with
  | [] => []
  | x :: l' => if f x then drop_while f l' else l
  end.

Definition trim {A} (f : A → bool) (l : list A) : list A :=
  reverse (drop_while f (reverse (drop_while f l))).

(** [strings.TrimSpace]. *)
Definition TrimSpace (s : string) : string :=
  concat_strings (map snd (trim (λ r, IsSpace r.1) (runes s))).

(** [strings.Fields]: the pieces between runs of spaces; [cur] is the piece
    being read, reversed. *)
Fixpoint fields_from (l : list (N * string)) (cur : list (N * string)) : list string :=
  let piece := concat_strings (map snd (reverse cur)) in
  match l with
  | [] => match cur with [] => [] | _ => [piece] end
  | c :: l' =>
      if IsSpace c.1 then match cur with [] => fields_from l' [] | _ => piece :: fields_from l' [] end
      else fields_from l' (c :: cur)
  end.

Definition Fields (s : string) : list string := fields_from (runes s) [].

(** [strings.Trim(s, cut)] for a cutset of one ASCII byte. *)
Definition TrimByte (s : string) (cut : ascii) : string :=
  string_of (trim (Ascii.eqb cut) (bytes_of s)).

(** The Unicode tables behind [unicode.ToLower] and [unicode.IsPrint], for
    runes outside ASCII. *)
Class UnicodeTables := {
  unicode_lower : N → N;
  unicode_print : N → bool;
}.

Definition lower_ascii (a : ascii) : ascii :=
  if in_range 65 90 a then mk (byte a + 32) else a.

Fixpoint map_bytes (f : ascii → ascii) (s : string) : string :=
  match s with EmptyString => EmptyString | String a s' => String (f a) (map_bytes f s') end.

Fixpoint all_bytes (f : ascii → bool) (s : string) : bool :=
  match s with EmptyString => true | String a s' => f a && all_bytes f s' end.

Definition is_ascii (a : ascii) : bool := (byte a <? 0x80)%N.

(** [strings.ToLower]: bytewise on ASCII strings, otherwise rune by rune. *)
Definition ToLower `{UnicodeTables} (s : string) : string :=
  if all_bytes is_ascii s then map_bytes lower_ascii s
  else concat_strings
         (map (λ r : N * string,
                 encode_rune (if (r.1 <? 0x80)%N then byte (lower_ascii (mk r.1))
                              else unicode_lower r.1)) (runes s)).

(** ** Lemmas *)

Lemma app_nil_str s : EmptyString +:+ s = s.
Proof. done. Qed.
Lemma app_cons_str a s t : String a s +:+ t = String a (s +:+ t).
Proof. done. Qed.
Lemma app_str_nil_r s : s +:+ EmptyString = s.
Proof. induction s as [|a s IH]; [done|]. by rewrite app_cons_str, IH. Qed.
Lemma app_str_assoc s t u : (s +:+ t) +:+ u = s +:+ (t +:+ u).
Proof. induction s as [|a s IH]; [done|]. by rewrite !app_cons_str, IH. Qed.
Lemma length_app_str s t : String.length (s +:+ t) = String.length s + String.length t.
Proof. induction s as [|a s IH]; [done|]. rewrite app_cons_str. simpl. by rewrite IH. Qed.
Lemma app_str_inj_l s t u : s +:+ t = s +:+ u → t = u.
Proof. induction s as [|a s IH]; [done|]. rewrite !app_cons_str. naive_solver. Qed.

Create Rewrite HintDb gostr.
#[export] Hint Rewrite app_nil_str app_cons_str app_str_nil_r app_str_assoc length_app_str : gostr.
Ltac str_simpl := autorewrite with gostr in *.

Lemma string_of_bytes_of s : string_of (bytes_of s) = s.
Proof. apply String.string_of_list_ascii_of_string. Qed.
Lemma bytes_of_app s t : bytes_of (s +:+ t) = bytes_of s ++ bytes_of t.
Proof. induction s as [|a s IH]; [done|]. rewrite app_cons_str. simpl. by f_equal. Qed.
Lemma bytes_of_inj s t : bytes_of s = bytes_of t → s = t.
Proof. intros H. rewrite <-(string_of_bytes_of s), <-(string_of_bytes_of t). by f_equal. Qed.

Lemma HasPrefix_spec s p : HasPrefix s p = true ↔ ∃ r, s = p +:+ r.
Proof.
  revert s. induction p as [|a p IH]; intros [|b s]; simpl.
  - naive_solver.
  - split; [by eexists|done].
  - split; [done|]. intros [r Hr]. by rewrite app_cons_str in Hr.
  - rewrite andb_true_iff, IH, Ascii.eqb_eq. setoid_rewrite app_cons_str.
    split; [intros [-> [r ->]]; by exists r|intros [r [= -> ->]]; eauto].
Qed.

Lemma HasPrefix_app p r : HasPrefix (p +:+ r) p = true.
Proof. apply HasPrefix_spec. eauto. Qed.

Lemma drop_bytes_app p r : drop_bytes (String.length p) (p +:+ r) = r.
Proof. induction p as [|a p IH]; [by destruct r|]. by rewrite app_cons_str. Qed.

Lemma TrimPrefix_app p r : TrimPrefix (p +:+ r) p = r.
Proof. unfold TrimPrefix. by rewrite HasPrefix_app, drop_bytes_app. Qed.

Lemma HasSuffix_spec s suf : HasSuffix s suf = true ↔ ∃ p, s = p +:+ suf.
Proof.
  induction s as [|a s IH]; simpl; rewrite orb_true_iff, String.eqb_eq.
  - split.
    + intros [<-|]; [by exists EmptyString|done].
    + intros [[|b p] Hp]; [by left|done].
  - rewrite IH. split.
    + intros [<-|[p ->]]; [by exists EmptyString|]. exists (String a p). by rewrite app_cons_str.
    + intros [[|b p] Hp]; [by left|]. rewrite app_cons_str in Hp. simplify_eq. eauto.
Qed.

Lemma Contains_spec s sub : Contains s sub = true ↔ ∃ p r, s = p +:+ sub +:+ r.
Proof.
  induction s as [|a s IH]; cbn [Contains]; rewrite orb_true_iff, HasPrefix_spec.
  - split.
    + intros [[r ->]|]; [by exists EmptyString, r|done].
    + intros ([|b p] & r & Hp); rewrite ?app_cons_str in Hp; [|done]. rewrite app_nil_str in Hp. eauto.
  - rewrite IH. split.
    + intros [[r ->]|(p & r & ->)]; [by exists EmptyString, r|]. exists (String a p), r. done.
    + intros ([|b p] & r & Hp); rewrite ?app_nil_str, ?app_cons_str in Hp; simplify_eq; eauto.
Qed.

(** A separator that the pattern does not contain splits a search. *)
Lemma HasPrefix_app_sep s c t sub :
  all_bytes (λ a, negb (Ascii.eqb a c)) sub = true →
  HasPrefix (s +:+ String c t) sub = HasPrefix s sub.
Proof.
  revert sub. induction s as [|x s IH]; intros [|y sub] Hs; try done;
    cbn [all_bytes] in Hs; apply andb_true_iff in Hs as [Hs Hs'].
  - rewrite app_nil_str. cbn [HasPrefix]. by destruct (Ascii.eqb y c).
  - rewrite app_cons_str. cbn [HasPrefix]. f_equal. by apply IH.
Qed.

Lemma Contains_app_sep s c t sub :
  all_bytes (λ a, negb (Ascii.eqb a c)) sub = true → sub ≠ EmptyString →
  Contains (s +:+ String c t) sub = Contains s sub || Contains t sub.
Proof.
  intros Hs Hne. induction s as [|x s IH].
  - rewrite app_nil_str. cbn [Contains].
    pose proof (HasPrefix_app_sep EmptyString c t sub Hs) as E. rewrite app_nil_str in E.
    rewrite E. by destruct sub.
  - rewrite app_cons_str. cbn [Contains]. rewrite IH, orb_assoc. f_equal. f_equal.
    apply (HasPrefix_app_sep (String x s) c t sub Hs).
Qed.

Lemma all_bytes_spec f s : all_bytes f s = true ↔ ∀ a, a ∈ bytes_of s → f a = true.
Proof.
  induction s as [|a s IH]; simpl; [by split; [intros _ a Ha; inv Ha|]|].
  rewrite andb_true_iff, IH. setoid_rewrite elem_of_cons. naive_solver.
Qed.

Lemma all_bytes_impl f g s :
  (∀ a, f a = true → g a = true) → all_bytes f s = true → all_bytes g s = true.
Proof. rewrite !all_bytes_spec. naive_solver. Qed.

Lemma all_bytes_app f s t : all_bytes f (s +:+ t) = all_bytes f s && all_bytes f t.
Proof. induction s as [|a s IH]; [done|]. rewrite app_cons_str. simpl. by rewrite IH, andb_assoc. Qed.

Lemma map_bytes_id f s : all_bytes (λ a, Ascii.eqb (f a) a) s = true → map_bytes f s = s.
Proof.
  induction s as [|a s IH]; [done|]. simpl. rewrite andb_true_iff, Ascii.eqb_eq.
  intros [-> ?]. by rewrite IH.
Qed.

(** Splitting never loses a byte, and no piece contains the separator. *)
Fixpoint join (sep : string) (l : list string) : string :=
  match l with
  | [] => EmptyString
  | [x] => x
  | x :: l' => x +:+ sep +:+ join sep l'
  end.

Lemma Split_ne s sep : Split s sep ≠ [].
Proof. destruct s as [|a s]; simpl; [done|]. repeat case_match; done. Qed.

Lemma join_Split s sep : join (String sep EmptyString) (Split s sep) = s.
Proof.
  induction s as [|a s IH]; [done|]. simpl. pose proof (Split_ne s sep).
  destruct (Ascii.eqb_spec a sep) as [->|].
  - destruct (Split s sep) as [|w ws] eqn:E; [done|]. simpl in *. by rewrite app_nil_str, app_cons_str, IH.
  - destruct (Split s sep) as [|w [|v ws]]; [done| |]; simpl in *; rewrite ?app_cons_str; by f_equal.
Qed.

Definition without (sep : ascii) (s : string) : bool := all_bytes (λ a, negb (Ascii.eqb a sep)) s.

Lemma Split_without c sep : without sep c = true → Split c sep = [c].
Proof.
  induction c as [|a c IH]; [done|]. unfold without in *. cbn [all_bytes Split].
  intros [Ha Hc]%andb_true_iff. apply negb_true_iff in Ha. by rewrite Ha, IH.
Qed.

Lemma Split_app_sep c sep s : without sep c = true → Split (c +:+ String sep s) sep = c :: Split s sep.
Proof.
  induction c as [|a c IH]; intros Hc.
  - rewrite app_nil_str. cbn [Split]. by rewrite Ascii.eqb_refl.
  - unfold without in *. cbn [all_bytes] in Hc. apply andb_true_iff in Hc as [Ha Hc].
    apply negb_true_iff in Ha. rewrite app_cons_str. cbn [Split]. by rewrite Ha, IH.
Qed.

Lemma Split_join l sep :
  l ≠ [] → forallb (without sep) l = true → Split (join (String sep EmptyString) l) sep = l.
Proof.
  induction l as [|c [|c' l] IH]; [done| |]; intros _; cbn [forallb]; intros [Hc Hl]%andb_true_iff.
  - by apply Split_without.
  - cbn [join]. rewrite app_cons_str, app_nil_str, Split_app_sep by done. f_equal. by apply IH.
Qed.

Lemma Split_last s sep : Split (s +:+ String sep EmptyString) sep = Split s sep ++ [EmptyString].
Proof.
  induction s as [|a s IH].
  - rewrite app_nil_str. cbn [Split]. by rewrite Ascii.eqb_refl.
  - rewrite app_cons_str. cbn [Split]. rewrite IH. pose proof (Split_ne s sep).
    destruct (Ascii.eqb a sep); [done|]. by destruct (Split s sep).
Qed.

Lemma Split_no_sep s sep w : w ∈ Split s sep → sep ∉ bytes_of w.
Proof.
  revert w. induction s as [|a s IH]; intros w; simpl.
  { rewrite list_elem_of_singleton. intros ->. simpl. apply not_elem_of_nil. }
  pose proof (Split_ne s sep). destruct (Ascii.eqb_spec a sep) as [->|Hne].
  - rewrite elem_of_cons. intros [->|?]; [apply not_elem_of_nil|auto].
  - destruct (Split s sep) as [|v vs]; [done|]. rewrite elem_of_cons. intros [->|Hin].
    + simpl. rewrite not_elem_of_cons. split; [done|]. apply IH. by left.
    + apply IH. by right.
Qed.

Lemma Split_bytes s sep w a : w ∈ Split s sep → a ∈ bytes_of w → a ∈ bytes_of s.
Proof.
  revert w. induction s as [|b s IH]; intros w; simpl.
  { rewrite list_elem_of_singleton. intros ->. done. }
  pose proof (Split_ne s sep). destruct (Ascii.eqb b sep).
  - rewrite !elem_of_cons. intros [->|?] Ha; [by apply elem_of_nil in Ha|eauto].
  - destruct (Split s sep) as [|v vs]; [done|]. rewrite !elem_of_cons. intros [->|Hin] Ha.
    + simpl in Ha. apply elem_of_cons in Ha as [->|Ha]; [by left|]. right. eapply IH; [by left|done].
    + right. eapply IH; [by right|done].
Qed.

Lemma all_bytes_Split f s sep :
  all_bytes (λ a, f a || Ascii.eqb a sep) s = true ↔ forallb (all_bytes f) (Split s sep) = true.
Proof.
  induction s as [|a s IH]; [done|]. simpl. pose proof (Split_ne s sep).
  rewrite andb_true_iff, IH. destruct (Ascii.eqb a sep) eqn:E; simpl.
  - rewrite orb_true_r. naive_solver.
  - rewrite orb_false_r. destruct (Split s sep) as [|v vs]; [done|]. simpl.
    rewrite !andb_true_iff. naive_solver.
Qed.

(** *** Runes *)

Lemma concat_strings_cons s l : concat_strings (s :: l) = s +:+ concat_strings l.
Proof. done. Qed.

Lemma concat_strings_elem x l : x ∈ l → ∃ p r, concat_strings l = p +:+ x +:+ r.
Proof.
  induction 1 as [x l|x y l _ (p & r & IH)]; rewrite concat_strings_cons.
  - by exists EmptyString, (concat_strings l).
  - exists (y +:+ p), r. by rewrite IH, app_str_assoc.
Qed.

Lemma runes_concat s : concat_strings (map snd (runes s)) = s.
Proof.
  enough (∀ n s, String.length s ≤ n → concat_strings (map snd (runes s)) = s) by eauto.
  clear s. intros n. induction n as [|n IH]; intros [|a s] Hn; simpl in *; try done; [lia|].
  assert (Hbad : concat_strings (map snd ((RuneError, String a EmptyString) :: runes s)) = String a s).
  { cbn [map concat_strings foldr snd]. rewrite app_cons_str, app_nil_str. f_equal. apply IH. lia. }
  repeat case_match; subst; try exact Hbad; cbn [map snd] in *;
    rewrite concat_strings_cons, ?app_cons_str, app_nil_str; rewrite IH; simpl in *; try lia; done.
Qed.

Lemma lead_ascii a : is_ascii a = true → lead a = L1.
Proof. unfold is_ascii, lead. by intros ->. Qed.

Lemma runes_ascii s :
  all_bytes is_ascii s = true → runes s = map (λ a, (byte a, String a EmptyString)) (bytes_of s).
Proof.
  induction s as [|a s IH]; [done|]. cbn [all_bytes]. rewrite andb_true_iff. intros [Ha Hs].
  cbn [runes bytes_of String.list_ascii_of_string map]. rewrite (lead_ascii a Ha). by rewrite IH.
Qed.

Lemma runes_cons_ascii a s : is_ascii a = true → runes (String a s) = (byte a, String a EmptyString) :: runes s.
Proof. intros Ha. cbn [runes]. by rewrite (lead_ascii a Ha). Qed.

Lemma concat_singletons l : concat_strings (map (λ a, String a EmptyString) l) = string_of l.
Proof. induction l as [|a l IH]; [done|]. cbn [map]. by rewrite concat_strings_cons, IH. Qed.

(** *** Trimming *)

Lemma drop_while_id {A} (f : A → bool) l :
  (∀ x, head l = Some x → f x = false) → drop_while f l = l.
Proof. destruct l as [|x l]; simpl; [done|]. intros H. by rewrite H. Qed.

Lemma trim_id {A} (f : A → bool) l :
  (∀ x, head l = Some x → f x = false) → (∀ x, last l = Some x → f x = false) → trim f l = l.
Proof.
  intros Hh Hl. unfold trim. rewrite (drop_while_id f l Hh).
  rewrite drop_while_id; [apply reverse_involutive|]. intros x. rewrite head_reverse. apply Hl.
Qed.

Lemma drop_while_all {A} (f : A → bool) l : drop_while f l = [] ↔ forallb f l = true.
Proof.
  induction l as [|x l IH]; simpl; [done|]. destruct (f x); simpl; [done|]. by split.
Qed.

(** What remains after dropping starts with an element that fails the test. *)
Lemma drop_while_none {A} (f : A → bool) l : forallb f (drop_while f l) = true → drop_while f l = [].
Proof. induction l as [|x l IH]; simpl; [done|]. destruct (f x) eqn:E; simpl; [done|]. by rewrite E. Qed.

Lemma reverse_nil_iff {A} (l : list A) : reverse l = [] ↔ l = [].
Proof. split; [|by intros ->]. intros H. by rewrite <-(reverse_involutive l), H. Qed.

Lemma forallb_reverse {A} (f : A → bool) l : forallb f (reverse l) = forallb f l.
Proof.
  apply eq_bool_prop_intro. rewrite !Is_true_true, !forallb_True.
  by setoid_rewrite elem_of_reverse.
Qed.

Lemma drop_while_sublist {A} (f : A → bool) l : drop_while f l `sublist_of` l.
Proof. induction l as [|x l IH]; simpl; [done|]. destruct (f x); [by apply sublist_cons|done]. Qed.

(** A string of ASCII bytes that neither starts nor ends with a space. *)
Definition trimmed (s : string) : Prop :=
  (∀ a, head (bytes_of s) = Some a → IsSpace (byte a) = false) ∧
  (∀ a, last (bytes_of s) = Some a → IsSpace (byte a) = false).

Lemma TrimSpace_ascii_id s : all_bytes is_ascii s = true → trimmed s → TrimSpace s = s.
Proof.
  intros Ha [Hh Hl]. unfold TrimSpace. rewrite runes_ascii by done. rewrite trim_id.
  - rewrite map_map. simpl. rewrite concat_singletons. apply string_of_bytes_of.
  - intros [r b]. destruct (bytes_of s) as [|a l]; [done|]; simpl; intros [= <- <-]; simpl; by apply Hh.
  - intros [r b]. change (map ?f ?l) with (f <$> l). rewrite fmap_last.
    intros (a & ? & ?)%fmap_Some. simplify_eq/=. eauto.
Qed.

(** A string is blank when all its runes are spaces; this is what a guard
    [strings.TrimSpace(x) == ""] tests. *)
Definition blank (s : string) : bool := forallb (λ r, IsSpace r.1) (runes s).

(** Words, and the fields of a line of words. *)
Definition graphic (a : ascii) : bool := is_ascii a && negb (IsSpace (byte a)).
Definition word (s : string) : Prop := s ≠ EmptyString ∧ all_bytes graphic s = true.

Fixpoint spaces (n : nat) : string := match n with O => EmptyString | S n' => String " " (spaces n') end.

Lemma Fields_spaces n s : Fields (spaces n +:+ s) = Fields s.
Proof. unfold Fields. induction n as [|n IH]; [done|]. cbn [spaces]. rewrite app_cons_str, runes_cons_ascii by done. exact IH. Qed.

Lemma fields_from_word w s cur :
  all_bytes graphic w = true →
  fields_from (runes (w +:+ s)) cur
  = fields_from (runes s) (reverse (map (λ a, (byte a, String a EmptyString)) (bytes_of w)) ++ cur).
Proof.
  revert cur. induction w as [|a w IH]; intros cur; [done|]. cbn [all_bytes]. rewrite andb_true_iff.
  unfold graphic at 1. rewrite andb_true_iff. intros [[Ha Hs] Hw].
  rewrite app_cons_str, runes_cons_ascii by done. cbn [fields_from fst]. rewrite negb_true_iff in Hs. rewrite Hs, IH by done.
  f_equal. cbn [bytes_of String.list_ascii_of_string map]. by rewrite reverse_cons, <- (assoc_L (++)).
Qed.

Lemma field_piece w :
  concat_strings (map snd (reverse (reverse (map (λ a, (byte a, String a EmptyString)) (bytes_of w)) ++ []))) = w.
Proof.
  rewrite app_nil_r, reverse_involutive, map_map. cbn [snd]. rewrite concat_singletons. apply string_of_bytes_of.
Qed.

Lemma field_cur w : w ≠ EmptyString →
  ∃ c l, reverse (map (λ a, (byte a, String a EmptyString)) (bytes_of w)) ++ [] = c :: l.
Proof.
  intros Hw. destruct (reverse _ ++ []) as [|c l] eqn:E; [|by eauto]. rewrite app_nil_r, reverse_nil_iff in E.
  by destruct w.
Qed.

Lemma Fields_word w n s : word w → Fields (w +:+ spaces (S n) +:+ s) = w :: Fields s.
Proof.
  intros [Hne Hw]. unfold Fields. rewrite fields_from_word by done. cbn [spaces].
  rewrite app_cons_str, runes_cons_ascii by done. cbn [fields_from fst].
  change (IsSpace (byte " ")) with true. cbn iota. destruct (field_cur w Hne) as (c & l & E).
  rewrite field_piece, E. f_equal. apply (Fields_spaces n).
Qed.

Lemma Fields_last w : word w → Fields w = [w].
Proof.
  intros [Hne Hw]. unfold Fields. rewrite <- (app_str_nil_r w) at 1. rewrite fields_from_word by done.
  cbn [runes fields_from]. destruct (field_cur w Hne) as (c & l & E). by rewrite field_piece, E.
Qed.

Lemma runes_nonempty s r : r ∈ runes s → r.2 ≠ EmptyString.
Proof.
  enough (∀ n s, String.length s ≤ n → ∀ r, r ∈ runes s → r.2 ≠ EmptyString) by eauto.
  clear s r. intros n. induction n as [|n IH]; intros [|a s] Hn r; simpl in *; try (by inversion 1); [lia|].
  repeat case_match; subst; intros [->|Hr]%elem_of_cons; try done; (eapply IH; [|exact Hr]; simpl in *; lia).
Qed.

Lemma TrimSpace_blank s : String.eqb (TrimSpace s) EmptyString = blank s.
Proof.
  apply eq_bool_prop_intro. rewrite !Is_true_true, String.eqb_eq. unfold TrimSpace, blank.
  assert (Hc : ∀ l : list (N * string), (∀ r, r ∈ l → r.2 ≠ EmptyString) →
             concat_strings (map snd l) = EmptyString → l = []).
  { intros [|[? []] l] Hl; [done| |done]. exfalso. by eapply Hl; [by left|]. }
  set (f := λ r : N * string, IsSpace r.1).
  assert (Ht : trim f (runes s) = [] ↔ forallb f (runes s) = true).
  { unfold trim. rewrite reverse_nil_iff, drop_while_all.
    rewrite forallb_reverse. split; [|intros H; by rewrite (proj2 (drop_while_all f _) H)].
    intros H%drop_while_none; exact (proj1 (drop_while_all f _) H). }
  rewrite <-Ht. split; [|by intros ->]. apply Hc. intros r Hr. apply (runes_nonempty s).
  unfold trim in Hr. rewrite elem_of_reverse in Hr.
  eapply elem_of_sublist in Hr; [|apply drop_while_sublist].
  rewrite elem_of_reverse in Hr. by eapply elem_of_sublist in Hr; [|apply drop_while_sublist].
Qed.

(** *** Case *)

Definition no_upper (s : string) : bool := all_bytes (λ a, is_ascii a && negb (in_range 65 90 a)) s.

Lemma ToLower_id `{UnicodeTables} s : no_upper s = true → ToLower s = s.
Proof.
  intros Hs. unfold ToLower.
  assert (all_bytes is_ascii s = true) as ->.
  { eapply all_bytes_impl, Hs. intros a. simpl. by destruct (is_ascii a). }
  apply map_bytes_id. eapply all_bytes_impl, Hs. intros a. simpl.
  rewrite andb_true_iff, negb_true_iff. unfold lower_ascii. intros [_ ->]. apply Ascii.eqb_refl.
Qed.

(** *** ASCII runes are single bytes *)

Lemma lor_le_l a b : (a ≤ N.lor a b)%N.
Proof.
  apply N.ldiff_le. apply N.bits_inj. intros i.
  rewrite N.ldiff_spec, N.lor_spec, N.bits_0. by destruct (N.testbit a i), (N.testbit b i).
Qed.

Lemma lor_le_r a b : (b ≤ N.lor a b)%N.
Proof. rewrite N.lor_comm. apply lor_le_l. Qed.

(** A property of all bytes, by evaluation. *)
Lemma ascii_all (f : ascii → bool) :
  forallb (λ n, f (ascii_of_nat n)) (seq 0 256) = true → ∀ a, f a = true.
Proof.
  rewrite forallb_forall. intros H a. rewrite <-(ascii_nat_embedding a). apply H.
  apply in_seq. pose proof (nat_ascii_bounded a). lia.
Qed.

Definition lead_big (a : ascii) : bool :=
  match lead a with
  | L2 => (0x80 <=? N.shiftl (N.land (byte a) 0x1F) 6)%N
  | L3 lo _ => ((0x80 <=? N.shiftl (N.land (byte a) 0x0F) 12) || (0xA0 <=? lo))%N
  | L4 lo _ => ((0x80 <=? N.shiftl (N.land (byte a) 0x07) 18) || (0x90 <=? lo))%N
  | L1 => (byte a <? 0x80)%N
  | LBad => true
  end.

Definition low6_big (a : ascii) : bool :=
  ((byte a <? 0x90) || (0xBF <? byte a) || (0x10 <=? low6 a))%N.

Lemma lead_big_all a : lead_big a = true.
Proof. revert a. apply ascii_all. vm_compute. done. Qed.
Lemma low6_big_all a : low6_big a = true.
Proof. revert a. apply ascii_all. vm_compute. done. Qed.

Lemma low6_big_in lo hi a :
  in_range lo hi a = true → (0x90 ≤ lo)%N → (hi ≤ 0xBF)%N → (0x10 ≤ low6 a)%N.
Proof.
  unfold in_range. rewrite andb_true_iff, !N.leb_le. intros [? ?] ? ?.
  pose proof (low6_big_all a) as Hl. unfold low6_big in Hl.
  rewrite !orb_true_iff, !N.ltb_lt, N.leb_le in Hl. lia.
Qed.

Lemma lead_hi a lo hi : lead a = L3 lo hi ∨ lead a = L4 lo hi → (hi ≤ 0xBF)%N.
Proof. unfold lead. repeat case_match; intros [|]; simplify_eq; lia. Qed.

Lemma runes_small s r bs :
  (r, bs) ∈ runes s → (r < 0x80)%N → ∃ a, bs = String a EmptyString ∧ byte a = r.
Proof.
  enough (∀ n s, String.length s ≤ n → (r, bs) ∈ runes s → (r < 0x80)%N →
            ∃ a, bs = String a EmptyString ∧ byte a = r) by eauto.
  clear s. intros n. induction n as [|n IH]; intros [|c0 s] Hn Hin Hr; simpl in Hn;
    try (by apply elem_of_nil in Hin); [lia|].
  pose proof (lead_big_all c0) as Hl. unfold lead_big in Hl. cbn [runes] in Hin.
  assert (Hbad : (r, bs) ∈ (RuneError, String c0 EmptyString) :: runes s →
                 ∃ a, bs = String a EmptyString ∧ byte a = r).
  { intros [[= -> ->]|H']%elem_of_cons; [unfold RuneError in Hr; lia|]. apply (IH s); [lia|done..]. }
  destruct (lead c0) as [| |lo hi|lo hi|] eqn:El; [| | | |by apply Hbad].
  - apply elem_of_cons in Hin as [[= -> ->]|Hin]; [eauto|]. apply (IH s); [lia|done..].
  - apply N.leb_le in Hl. destruct s as [|c1 s]; [by apply Hbad|].
    destruct (cont c1); [|by apply Hbad].
    apply elem_of_cons in Hin as [[= -> ->]|Hin]; [|apply (IH s); simpl in *; [lia|done..]].
    pose proof (lor_le_l (N.shiftl (N.land (byte c0) 0x1F) 6) (low6 c1)). lia.
  - destruct s as [|c1 [|c2 s]]; [by apply Hbad..|].
    destruct (in_range lo hi c1) eqn:Ei; cbn [andb] in Hin; [|by apply Hbad].
    destruct (cont c2); [|by apply Hbad]. cbn [andb] in Hin.
    apply elem_of_cons in Hin as [[= -> ->]|Hin]; [|apply (IH s); simpl in *; [lia|done..]].
    pose proof (lor_le_l (N.lor (N.shiftl (N.land (byte c0) 0x0F) 12) (N.shiftl (low6 c1) 6)) (low6 c2)).
    pose proof (lor_le_l (N.shiftl (N.land (byte c0) 0x0F) 12) (N.shiftl (low6 c1) 6)).
    pose proof (lor_le_r (N.shiftl (N.land (byte c0) 0x0F) 12) (N.shiftl (low6 c1) 6)).
    apply orb_true_iff in Hl as [Hl|Hl]; apply N.leb_le in Hl; [lia|].
    pose proof (low6_big_in lo hi c1 Ei ltac:(lia) (lead_hi _ _ _ (or_introl El))).
    rewrite (N.shiftl_mul_pow2 (low6 c1) 6) in *. change (2 ^ 6)%N with 64%N in *. lia.
  - destruct s as [|c1 [|c2 [|c3 s]]]; [by apply Hbad..|].
    destruct (in_range lo hi c1) eqn:Ei; cbn [andb] in Hin; [|by apply Hbad].
    destruct (cont c2); cbn [andb] in Hin; [|by apply Hbad]. destruct (cont c3); [|by apply Hbad]. cbn [andb] in Hin.
    apply elem_of_cons in Hin as [[= -> ->]|Hin]; [|apply (IH s); simpl in *; [lia|done..]].
    set (x := N.shiftl (N.land (byte c0) 0x07) 18) in *. set (y := N.shiftl (low6 c1) 12) in *.
    pose proof (lor_le_l (N.lor (N.lor x y) (N.shiftl (low6 c2) 6)) (low6 c3)).
    pose proof (lor_le_l (N.lor x y) (N.shiftl (low6 c2) 6)).
    pose proof (lor_le_l x y). pose proof (lor_le_r x y).
    apply orb_true_iff in Hl as [Hl|Hl]; apply N.leb_le in Hl; [lia|].
    pose proof (low6_big_in lo hi c1 Ei ltac:(lia) (lead_hi _ _ _ (or_intror El))).
    assert (y = low6 c1 * 4096)%N by apply N.shiftl_mul_pow2. lia.
Qed.

(** A test on runes that only ASCII passes is a test on bytes. *)
Lemma runes_forallb_ascii (p : N → bool) s :
  (∀ r, p r = true → (r < 0x80)%N) →
  forallb (λ r : N * string, p r.1) (runes s) = all_bytes (λ a, p (byte a)) s.
Proof.
  intros Hp. apply eq_bool_prop_intro. rewrite !Is_true_true. split.
  - intros Ha. rewrite forallb_True in Ha.
    assert (∀ l, (∀ x, x ∈ l → x ∈ runes s) →
              all_bytes (λ a, p (byte a)) (concat_strings (map snd l)) = true) as Hl.
    { induction l as [|[r bs] l IH]; intros Hin; [done|]. cbn [map]. rewrite concat_strings_cons, all_bytes_app.
      destruct (runes_small s r bs) as (a & -> & <-).
      - apply Hin. by left.
      - apply Hp, (Ha (r, bs)), Hin. by left.
      - simpl. assert (p (byte a) = true) as ->.
        { apply (Ha (byte a, String a EmptyString)), Hin. by left. }
        apply IH.
        intros x Hx. apply Hin. by right. }
    specialize (Hl (runes s) (λ _ H, H)). by rewrite runes_concat in Hl.
  - intros Ha. rewrite runes_ascii.
    + rewrite all_bytes_spec in Ha. apply forallb_True. intros x Hx.
      apply list_elem_of_fmap in Hx as (a & -> & Hin). by apply Ha.
    + eapply all_bytes_impl, Ha. intros a Hpa. apply N.ltb_lt. by apply Hp.
Qed.

(** ** How a string of runes starts *)

Definition high (a : ascii) : bool := (0x80 <=? byte a)%N.

Lemma lead_high a : lead a ≠ L1 → high a = true.
Proof.
  unfold lead, high. destruct (N.ltb_spec (byte a) 0x80); [done|]. intros _. by apply N.leb_le.
Qed.

Lemma lead_range a lo hi b :
  lead a = L3 lo hi ∨ lead a = L4 lo hi → in_range lo hi b = true → high b = true.
Proof.
  intros Hl Hb. unfold in_range in Hb. apply andb_true_iff in Hb as [Hb%N.leb_le _]. apply N.leb_le.
  enough (0x80 ≤ lo)%N by lia. unfold lead in Hl.
  repeat match type of Hl with context [if ?b then _ else _] => destruct b end; destruct Hl as [Hl|Hl]; simplify_eq; lia.
Qed.

Lemma cont_high a : cont a = true → high a = true.
Proof. unfold cont, high. by intros [? _]%andb_true_iff. Qed.

(** How a string starts: with an ASCII byte, an invalid one, or the bytes of a
    longer sequence. *)
Lemma runes_view s :
  s = EmptyString ∨
  (∃ a s', s = String a s' ∧ is_ascii a = true ∧ runes s = (byte a, String a EmptyString) :: runes s') ∨
  (∃ a s', s = String a s' ∧ runes s = (RuneError, String a EmptyString) :: runes s') ∨
  (∃ r a b bs s', s = String a (String b bs) +:+ s' ∧ runes s = (r, String a (String b bs)) :: runes s' ∧
     all_bytes high (String a (String b bs)) = true).
Proof.
  destruct s as [|c0 s]; [by left|right].
  pose proof (lead_high c0) as H0. remember (runes (String c0 s)) as rs eqn:Hrs. cbn [runes] in Hrs.
  assert (Hbad : rs = (RuneError, String c0 EmptyString) :: runes s →
    ∃ a s', String c0 s = String a s' ∧ rs = (RuneError, String a EmptyString) :: runes s') by eauto.
  destruct (lead c0) as [| |lo hi|lo hi|] eqn:El; [| | | |right; left; by apply Hbad]; try specialize (H0 ltac:(done)).
  - left. exists c0, s. split_and!; [done| |done]. unfold lead in El. unfold is_ascii.
    destruct (byte c0 <? 0x80)%N; [done|]. by split_in El.
  - destruct s as [|c1 s]; [right; left; by apply Hbad|]. destruct (cont c1) eqn:E1; [|right; left; by apply Hbad].
    right; right. eexists _, c0, c1, EmptyString, s. split_and!; [done|exact Hrs|]. cbn [all_bytes].
    by rewrite H0, (cont_high c1).
  - destruct s as [|c1 [|c2 s]]; [right; left; by apply Hbad..|].
    destruct (in_range lo hi c1 && cont c2) eqn:E1; [|right; left; by apply Hbad]. apply andb_true_iff in E1 as [E1 E2].
    right; right. eexists _, c0, c1, (String c2 EmptyString), s. split_and!; [done|exact Hrs|]. cbn [all_bytes].
    by rewrite H0, (lead_range c0 lo hi c1 (or_introl El) E1), (cont_high c2).
  - destruct s as [|c1 [|c2 [|c3 s]]]; [right; left; by apply Hbad..|].
    destruct (in_range lo hi c1 && cont c2 && cont c3) eqn:E1; [|right; left; by apply Hbad].
    apply andb_true_iff in E1 as [E1 E3]. apply andb_true_iff in E1 as [E1 E2].
    right; right. eexists _, c0, c1, (String c2 (String c3 EmptyString)), s. split_and!; [done|exact Hrs|]. cbn [all_bytes].
    by rewrite H0, (lead_range c0 lo hi c1 (or_intror El) E1), (cont_high c2), (cont_high c3).
Qed.

#[global] Arguments TrimSpace : simpl never.
#[global] Arguments ToLower : simpl never.
#[global] Arguments runes : simpl never.
