(* ===== verification/Utf8.v ===== *)
(** * Utf8: decoding a string into runes and encoding runes are inverse.

    A chunk is a rune with the bytes it was decoded from.  Every chunk but that
    of an ill-formed byte is what encoding its rune gives, and is decoded as
    that rune whatever follows. *)

From Stdlib Require Import Ascii NArith ZArith.
From S2P Require Import Prelude GoStrings.

(** ** Bits *)

Lemma lor_shiftl a b n : (b < 2 ^ n)%N → N.lor (N.shiftl a n) b = (a * 2 ^ n + b)%N.
Proof.
  intros Hb. rewrite N.shiftl_mul_pow2. assert (Hl : N.land (a * 2 ^ n) b = 0%N).
  { apply N.bits_inj_0. intros i. rewrite N.land_spec.
    destruct (N.lt_ge_cases i n); [by rewrite N.mul_pow2_bits_low|].
    rewrite <-(N.mod_small b (2 ^ n)), N.mod_pow2_bits_high, andb_false_r by done. done. }
  rewrite <-N.lxor_lor by done. symmetry. by apply N.add_nocarry_lxor.
Qed.

Lemma land_63 n : N.land n 0x3F = (n mod 64)%N.
Proof. change 0x3F%N with (N.ones 6). by rewrite N.land_ones. Qed.
Lemma land_31 n : N.land n 0x1F = (n mod 32)%N.
Proof. change 0x1F%N with (N.ones 5). by rewrite N.land_ones. Qed.
Lemma land_15 n : N.land n 0x0F = (n mod 16)%N.
Proof. change 0x0F%N with (N.ones 4). by rewrite N.land_ones. Qed.
Lemma land_7 n : N.land n 0x07 = (n mod 8)%N.
Proof. change 0x07%N with (N.ones 3). by rewrite N.land_ones. Qed.

Lemma cont_byte c : cont c = true → byte c = (0x80 + low6 c)%N ∧ (low6 c < 64)%N.
Proof.
  unfold cont, low6. rewrite andb_true_iff, !N.leb_le, land_63. intros [].
  split; [|by apply N.mod_lt]. pose proof (N.div_mod (byte c) 64). 
  assert (byte c / 64 = 2)%N by (symmetry; apply (N.div_unique _ _ _ (byte c - 128)); lia). lia.
Qed.

Lemma mk_byte c : mk (byte c) = c.
Proof. apply ascii_N_embedding. Qed.

(** A continuation byte from six bits. *)
Lemma mk_cont c : cont c = true → mk (N.lor 0x80 (low6 c)) = c.
Proof.
  intros Hc. destruct (cont_byte c Hc) as [E Hl]. rewrite <-(mk_byte c) at 2. f_equal. rewrite E.
  change 0x80%N with (N.shiftl 2 6). rewrite lor_shiftl by done. done.
Qed.

Lemma encode_rune_valid r :
  (r < 0xD800 ∨ 0xDFFF < r ≤ 0x10FFFF)%N →
  encode_rune r =
  (if r <? 0x80 then string_of [mk r]
   else if r <? 0x800 then string_of [mk (N.lor 0xC0 (N.shiftr r 6)); mk (N.lor 0x80 (N.land r 0x3F))]
   else if r <? 0x10000 then
     string_of [mk (N.lor 0xE0 (N.shiftr r 12)); mk (N.lor 0x80 (N.land (N.shiftr r 6) 0x3F)); mk (N.lor 0x80 (N.land r 0x3F))]
   else
     string_of [mk (N.lor 0xF0 (N.shiftr r 18)); mk (N.lor 0x80 (N.land (N.shiftr r 12) 0x3F));
                mk (N.lor 0x80 (N.land (N.shiftr r 6) 0x3F)); mk (N.lor 0x80 (N.land r 0x3F))])%N.
Proof.
  intros Hr. unfold encode_rune.
  replace ((0x10FFFF <? r) || ((0xD800 <=? r) && (r <=? 0xDFFF)))%N with false; [done|].
  symmetry. rewrite orb_false_iff, andb_false_iff, N.ltb_ge, !N.leb_gt. lia.
Qed.

(** The six bits at a place of a number. *)
Lemma six_bits n hi z : (z < 64)%N → n = (hi * 64 + z)%N → N.land n 0x3F = z ∧ N.shiftr n 6 = hi.
Proof.
  intros Hz ->. rewrite land_63, N.shiftr_div_pow2. change (2 ^ 6)%N with 64%N.
  split; [symmetry; apply (N.mod_unique _ _ hi)|symmetry; apply (N.div_unique _ _ _ z)]; lia.
Qed.

Lemma encode_2 c0 c1 : lead c0 = L2 → cont c1 = true →
  encode_rune (N.lor (N.shiftl (N.land (byte c0) 0x1F) 6) (low6 c1)) = String c0 (String c1 EmptyString).
Proof.
  intros H0 H1. destruct (cont_byte c1 H1) as [_ Hz]. rewrite lor_shiftl by done. rewrite land_31.
  assert (Hb : (0xC2 ≤ byte c0 < 0xE0)%N).
  { unfold lead in H0. destruct (N.ltb_spec (byte c0) 0x80); [done|]. destruct (N.ltb_spec (byte c0) 0xC2); [done|].
    destruct (N.ltb_spec (byte c0) 0xE0); [lia|]. repeat case_match; done. }
  assert (Hx : (byte c0 mod 32 = byte c0 - 0xC0)%N) by (symmetry; apply (N.mod_unique _ _ 6); lia).
  rewrite Hx. set (r := ((byte c0 - 0xC0) * 2 ^ 6 + low6 c1)%N).
  assert (Hr : r = ((byte c0 - 0xC0) * 64 + low6 c1)%N) by done.
  rewrite encode_rune_valid by lia. destruct (six_bits r _ _ Hz Hr) as [-> ->].
  rewrite (proj2 (N.ltb_ge r 0x80)), (proj2 (N.ltb_lt r 0x800)) by lia. cbn [string_of String.string_of_list_ascii].
  rewrite mk_cont by done. f_equal. rewrite <-(mk_byte c0) at 2. f_equal.
  change 0xC0%N with (N.shiftl 6 5) at 1. rewrite lor_shiftl by (change (2 ^ 5)%N with 32%N; lia).
  change (6 * 2 ^ 5)%N with 192%N. lia.
Qed.

Lemma encode_3 c0 c1 c2 lo hi : lead c0 = L3 lo hi → in_range lo hi c1 = true → cont c2 = true →
  encode_rune (N.lor (N.lor (N.shiftl (N.land (byte c0) 0x0F) 12) (N.shiftl (low6 c1) 6)) (low6 c2))
  = String c0 (String c1 (String c2 EmptyString)).
Proof.
  intros H0 H1 H2. destruct (cont_byte c2 H2) as [_ Hz].
  assert (Hb : (0xE0 ≤ byte c0 < 0xF0)%N ∧ (0x80 ≤ lo)%N ∧ (hi ≤ 0xBF)%N ∧ (byte c0 = 0xE0 → lo = 0xA0)%N ∧ (byte c0 = 0xED → hi = 0x9F)%N).
  { unfold lead in H0. repeat match type of H0 with context [(?a <? ?b)%N] => destruct (N.ltb_spec a b) end;
    repeat match type of H0 with context [(?a =? ?b)%N] => destruct (N.eqb_spec a b) end; simplify_eq; lia. }
  unfold in_range in H1. apply andb_true_iff in H1 as [H1a%N.leb_le H1b%N.leb_le].
  assert (Hc1 : cont c1 = true) by (unfold cont; apply andb_true_iff; rewrite !N.leb_le; lia).
  destruct (cont_byte c1 Hc1) as [E1 Hy].
  rewrite <-N.lor_assoc. rewrite (lor_shiftl (low6 c1)) by done. rewrite lor_shiftl.
  2: { change (2 ^ 12)%N with 4096%N. change (2 ^ 6)%N with 64%N. lia. }
  rewrite land_15.
  assert (Hx : (byte c0 mod 16 = byte c0 - 0xE0)%N) by (symmetry; apply (N.mod_unique _ _ 14); lia).
  rewrite Hx. change (2 ^ 12)%N with 4096%N. change (2 ^ 6)%N with 64%N.
  set (r := ((byte c0 - 0xE0) * 4096 + (low6 c1 * 64 + low6 c2))%N).
  assert (Hr : r = (((byte c0 - 0xE0) * 64 + low6 c1) * 64 + low6 c2)%N) by lia.
  rewrite encode_rune_valid by lia. change 12%N with (6 + 6)%N. rewrite <-N.shiftr_shiftr.
  destruct (six_bits r _ _ Hz Hr) as [-> ->].
  destruct (six_bits _ (byte c0 - 0xE0)%N _ Hy eq_refl) as [-> ->].
  rewrite (proj2 (N.ltb_ge r 0x80)), (proj2 (N.ltb_ge r 0x800)), (proj2 (N.ltb_lt r 0x10000)) by lia.
  cbn [string_of String.string_of_list_ascii]. rewrite !mk_cont by done. f_equal. rewrite <-(mk_byte c0) at 2. f_equal.
  change 0xE0%N with (N.shiftl 14 4) at 1. rewrite lor_shiftl by (change (2 ^ 4)%N with 16%N; lia).
  change (14 * 2 ^ 4)%N with 224%N. lia.
Qed.

Lemma encode_4 c0 c1 c2 c3 lo hi : lead c0 = L4 lo hi → in_range lo hi c1 = true → cont c2 = true → cont c3 = true →
  encode_rune (N.lor (N.lor (N.lor (N.shiftl (N.land (byte c0) 0x07) 18) (N.shiftl (low6 c1) 12))
                            (N.shiftl (low6 c2) 6)) (low6 c3))
  = String c0 (String c1 (String c2 (String c3 EmptyString))).
Proof.
  intros H0 H1 H2 H3. destruct (cont_byte c3 H3) as [_ Hz]. destruct (cont_byte c2 H2) as [_ Hw].
  assert (Hb : (0xF0 ≤ byte c0 < 0xF5)%N ∧ (0x80 ≤ lo)%N ∧ (hi ≤ 0xBF)%N ∧ (byte c0 = 0xF0 → lo = 0x90)%N ∧ (byte c0 = 0xF4 → hi = 0x8F)%N).
  { unfold lead in H0. repeat match type of H0 with context [(?a <? ?b)%N] => destruct (N.ltb_spec a b) end;
    repeat match type of H0 with context [(?a =? ?b)%N] => destruct (N.eqb_spec a b) end; simplify_eq; lia. }
  unfold in_range in H1. apply andb_true_iff in H1 as [H1a%N.leb_le H1b%N.leb_le].
  assert (Hc1 : cont c1 = true) by (unfold cont; apply andb_true_iff; rewrite !N.leb_le; lia).
  destruct (cont_byte c1 Hc1) as [E1 Hy].
  rewrite <-!N.lor_assoc. rewrite (lor_shiftl (low6 c2)) by done. rewrite (lor_shiftl (low6 c1)).
  2: { change (2 ^ 12)%N with 4096%N. change (2 ^ 6)%N with 64%N. lia. }
  rewrite lor_shiftl.
  2: { change (2 ^ 18)%N with 262144%N. change (2 ^ 12)%N with 4096%N. change (2 ^ 6)%N with 64%N. lia. }
  rewrite land_7.
  assert (Hx : (byte c0 mod 8 = byte c0 - 0xF0)%N) by (symmetry; apply (N.mod_unique _ _ 30); lia).
  rewrite Hx. change (2 ^ 18)%N with 262144%N. change (2 ^ 12)%N with 4096%N. change (2 ^ 6)%N with 64%N.
  set (r := ((byte c0 - 0xF0) * 262144 + (low6 c1 * 4096 + (low6 c2 * 64 + low6 c3)))%N).
  assert (Hr : r = ((((byte c0 - 0xF0) * 64 + low6 c1) * 64 + low6 c2) * 64 + low6 c3)%N) by lia.
  rewrite encode_rune_valid by lia. change 18%N with (6 + (6 + 6))%N. change 12%N with (6 + 6)%N. rewrite <-!N.shiftr_shiftr.
  destruct (six_bits r _ _ Hz Hr) as [-> ->].
  destruct (six_bits _ ((byte c0 - 0xF0) * 64 + low6 c1)%N _ Hw eq_refl) as [-> ->].
  destruct (six_bits _ (byte c0 - 0xF0)%N _ Hy eq_refl) as [-> ->].
  rewrite (proj2 (N.ltb_ge r 0x80)), (proj2 (N.ltb_ge r 0x800)), (proj2 (N.ltb_ge r 0x10000)) by lia.
  cbn [string_of String.string_of_list_ascii]. rewrite !mk_cont by done. f_equal. rewrite <-(mk_byte c0) at 2. f_equal.
  change 0xF0%N with (N.shiftl 30 3) at 1. rewrite lor_shiftl by (change (2 ^ 3)%N with 8%N; lia).
  change (30 * 2 ^ 3)%N with 240%N. lia.
Qed.

(** ** Chunks *)

(** The chunk is decoded as such, whatever follows. *)
Definition whole (c : N * string) : Prop := ∀ t, runes (c.2 +:+ t) = c :: runes t.

(** How a string starts: with an ASCII byte, an ill-formed byte, or the
    encoding of a rune in several bytes. *)
Lemma runes_chunk s :
  s = EmptyString ∨
  (∃ a s', s = String a s' ∧ is_ascii a = true) ∨
  (∃ a s', s = String a s' ∧ high a = true ∧ runes s = (RuneError, String a EmptyString) :: runes s') ∨
  (∃ r bs s', s = bs +:+ s' ∧ 2 ≤ String.length bs ∧ all_bytes high bs = true ∧ encode_rune r = bs ∧ whole (r, bs)).
Proof.
  destruct s as [|c0 s]; [by left|right].
  pose proof (lead_high c0) as H0. remember (runes (String c0 s)) as rs eqn:Hrs. unfold runes in Hrs; fold runes in Hrs.
  assert (Hbad : lead c0 ≠ L1 → rs = (RuneError, String c0 EmptyString) :: runes s →
    ∃ a s', String c0 s = String a s' ∧ high a = true ∧ rs = (RuneError, String a EmptyString) :: runes s').
  { intros Hl ->. exists c0, s. split_and!; [done|by apply H0|done]. }
  destruct (lead c0) as [| |lo hi|lo hi|] eqn:El; [| | | |right; left; by apply Hbad]; try specialize (H0 ltac:(done)).
  - left. exists c0, s. split; [done|]. unfold lead in El. unfold is_ascii.
    destruct (byte c0 <? 0x80)%N; [done|]. by split_in El.
  - destruct s as [|c1 s]; [right; left; by apply Hbad|]. destruct (cont c1) eqn:E1; [|right; left; by apply Hbad].
    right; right. eexists _, (String c0 (String c1 EmptyString)), s. split_and!; [done|simpl; lia| |by apply encode_2|].
    + cbn [all_bytes]. by rewrite H0, (cont_high c1).
    + intros t. cbn [snd]. rewrite !app_cons_str, app_nil_str. unfold runes; fold runes. by rewrite El, E1.
  - destruct s as [|c1 [|c2 s]]; [right; left; by apply Hbad..|].
    destruct (in_range lo hi c1 && cont c2) eqn:E; [|right; left; by apply Hbad]. apply andb_true_iff in E as E'.
    destruct E' as [E1 E2]. right; right.
    eexists _, (String c0 (String c1 (String c2 EmptyString))), s. split_and!; [done|simpl; lia| |by eapply encode_3|].
    + cbn [all_bytes]. by rewrite H0, (lead_range c0 lo hi c1 (or_introl El) E1), (cont_high c2).
    + intros t. cbn [snd]. rewrite !app_cons_str, app_nil_str. unfold runes; fold runes. by rewrite El, E.
  - destruct s as [|c1 [|c2 [|c3 s]]]; [right; left; by apply Hbad..|].
    destruct (in_range lo hi c1 && cont c2 && cont c3) eqn:E; [|right; left; by apply Hbad].
    apply andb_true_iff in E as E'. destruct E' as [E1 E3]. apply andb_true_iff in E1 as [E1 E2].
    right; right. eexists _, (String c0 (String c1 (String c2 (String c3 EmptyString)))), s.
    split_and!; [done|simpl; lia| |by eapply encode_4|].
    + cbn [all_bytes]. by rewrite H0, (lead_range c0 lo hi c1 (or_intror El) E1), (cont_high c2), (cont_high c3).
    + intros t. cbn [snd]. rewrite !app_cons_str, app_nil_str. unfold runes; fold runes. by rewrite El, E.
Qed.

Lemma whole_ascii a : is_ascii a = true → whole (byte a, String a EmptyString).
Proof. intros Ha t. cbn [snd]. rewrite app_cons_str, app_nil_str. by apply runes_cons_ascii. Qed.

(** The chunk of an ill-formed byte. *)
Definition broken (c : N * string) : bool := (c.1 =? RuneError)%N && (String.length c.2 =? 1).

(** Every chunk is broken, or it is the encoding of its rune and whole. *)
Definition chunk_ok (c : N * string) : Prop :=
  broken c = true ∨ (broken c = false ∧ encode_rune c.1 = c.2 ∧ whole c).

Lemma encode_ascii a : is_ascii a = true → encode_rune (byte a) = String a EmptyString.
Proof.
  unfold is_ascii. intros Ha%N.ltb_lt. rewrite encode_rune_valid by lia.
  rewrite (proj2 (N.ltb_lt (byte a) 0x80)) by lia. cbn. by rewrite mk_byte.
Qed.

Lemma runes_chunks s : Forall chunk_ok (runes s).
Proof.
  induction s as [s IH] using (induction_ltof1 _ String.length). unfold ltof in IH.
  destruct (runes_chunk s) as [->|[(a & s' & -> & Ha)|[(a & s' & -> & Ha & E)|(r & bs & s' & -> & Hl & Hh & He & Hw)]]].
  - constructor.
  - rewrite runes_cons_ascii by done. constructor; [right|apply IH; simpl; lia].
    split_and!; [|by apply encode_ascii|by apply whole_ascii]. unfold broken. cbn [fst snd].
    unfold is_ascii in Ha. apply N.ltb_lt in Ha. by rewrite (proj2 (N.eqb_neq (byte a) RuneError)) by (unfold RuneError; lia).
  - rewrite E. constructor; [by left|apply IH; simpl; lia].
  - specialize (Hw s') as E. cbn [snd] in E. rewrite E. constructor; [right|apply IH; rewrite length_app_str; lia]. split_and!; [|done|done].
    unfold broken. cbn [fst snd]. rewrite (proj2 (Nat.eqb_neq _ _)) by lia. apply andb_false_r.
Qed.

(** Whole chunks, put one after the other, are decoded as they are. *)
Lemma runes_wholes l : Forall whole l → runes (concat_strings (map snd l)) = l.
Proof.
  induction 1 as [|c l Hc _ IH]; [done|]. cbn [map]. by rewrite concat_strings_cons, Hc, IH.
Qed.

(** Valid UTF-8. *)
Definition valid_utf8 (s : string) : bool := forallb (λ c, negb (broken c)) (runes s).

(** Encoding the runes of a valid string gives the string. *)
Lemma encode_runes s : valid_utf8 s = true → concat_strings (map (λ c, encode_rune c.1) (runes s)) = s.
Proof.
  intros Hv. rewrite <-(runes_concat s) at 2. f_equal. unfold valid_utf8 in Hv.
  pose proof (runes_chunks s) as HF. induction HF as [|c l Hc _ IH]; [done|].
  cbn [forallb map] in *. apply andb_true_iff in Hv as [Hb%negb_true_iff Hv]. rewrite IH by done.
  destruct Hc as [Hc|(_ & -> & _)]; [congruence|done].
Qed.
