(* ===== verification/GoFmt.v ===== *)
(** * GoFmt: the parts of Go's [strconv] and [fmt] packages the agent uses:
    decimal integers in both directions, quoting, and the formatting of string
    slices. *)

From Stdlib Require Import Ascii NArith ZArith.
From stdpp Require Import pretty.
From S2P Require Import Prelude GoStrings.

(** ** Integers *)

(** [%d] and [strconv.Itoa]. *)
Definition itoa (z : Z) : string := pretty z.

Inductive num_error : Type :=
| ErrSyntax
| ErrRange.

Definition is_digit (a : ascii) : bool := in_range 48 57 a.
Definition digit_val (a : ascii) : Z := Z.of_N (byte a - 48).

Definition max_uint64 : Z := (2 ^ 64 - 1)%Z.

(** The digit loop of [strconv.ParseUint] in base 10: the first byte that is
    not a digit, or the first overflow, decides the error. *)
Fixpoint parse_uint_loop (s : string) (n : Z) : Z * option num_error :=
  match s with
  | EmptyString => (n, None)
  | String c s' =>
      if is_digit c then
        let n1 := (n * 10 + digit_val c)%Z in
        if (max_uint64 <? n1)%Z then (max_uint64, Some ErrRange) else parse_uint_loop s' n1
      else (0%Z, Some ErrSyntax)
  end.

(** [strconv.ParseUint(s, 10, 64)]. *)
Definition ParseUint (s : string) : Z * option num_error :=
  match s with
  | EmptyString => (0%Z, Some ErrSyntax)
  | _ => parse_uint_loop s 0
  end.

Definition sign_split (s : string) : bool * string :=
  match s with
  | String a s' =>
      if Ascii.eqb a "+" then (false, s') else if Ascii.eqb a "-" then (true, s') else (false, s)
  | EmptyString => (false, s)
  end.

(** [strconv.ParseInt(s, 10, 64)], and [strconv.Atoi] where [int] has 64 bits:
    the value comes with the error, clamped to the range when that is the
    error. *)
Definition ParseInt (s : string) : Z * option num_error :=
  let '(neg, ds) := sign_split s in
  match ParseUint ds with
  | (_, Some ErrSyntax) => (0%Z, Some ErrSyntax)
  | (un, _) =>
      if (negb neg && (int64_max <? un))%Z then (int64_max, Some ErrRange)
      else if (neg && (- int64_min <? un))%Z then (int64_min, Some ErrRange)
      else ((if neg then - un else un)%Z, None)
  end.

(** ** Quoting *)

Definition hex_digit (n : N) : ascii := if (n <? 10)%N then mk (48 + n) else mk (87 + n).

(** The [k] low hexadecimal digits of [n], most significant first. *)
Fixpoint hex_digits (k : nat) (n : N) : string :=
  match k with
  | O => EmptyString
  | S k' => hex_digits k' (n / 16) +:+ String (hex_digit (n mod 16)) EmptyString
  end.

Section Quote.
Context `{UnicodeTables}.

Definition IsPrint (r : N) : bool :=
  if (r <? 0x80)%N then ((0x20 <=? r) && (r <? 0x7F))%N else unicode_print r.

Definition backslash (s : string) : string := String (mk 92) s.

(** [strconv.appendEscapedRune] for the quote character [q]. *)
Definition escape_rune (q : N) (r : N) : string :=
  (if (r =? q) || (r =? 92) then backslash (encode_rune r)
   else if IsPrint r then encode_rune r
   else if r =? 7 then backslash "a"
   else if r =? 8 then backslash "b"
   else if r =? 12 then backslash "f"
   else if r =? 10 then backslash "n"
   else if r =? 13 then backslash "r"
   else if r =? 9 then backslash "t"
   else if r =? 11 then backslash "v"
   else if (r <? 32) || (r =? 127) then backslash ("x" +:+ hex_digits 2 r)
   else if r <? 0x10000 then backslash ("u" +:+ hex_digits 4 r)
   else backslash ("U" +:+ hex_digits 8 r))%N.

Definition quote_chunk (q : N) (c : N * string) : string :=
  match c with
  | (r, String a EmptyString) =>
      if (r =? RuneError)%N then backslash ("x" +:+ hex_digits 2 (byte a)) else escape_rune q r
  | (r, _) => escape_rune q r
  end.

Definition dquote : string := String (mk 34) EmptyString.
Definition squote : string := String (mk 39) EmptyString.

(** [%q] of a string, [strconv.Quote]. *)
Definition Quote (s : string) : string :=
  dquote +:+ concat_strings (map (quote_chunk 34) (runes s)) +:+ dquote.

(** [%q] of a byte. *)
Definition QuoteByte (a : ascii) : string := squote +:+ escape_rune 39 (byte a) +:+ squote.
End Quote.

(** ** Slices: [%v] of a []string *)
Definition FmtSlice (l : list string) : string := "[" +:+ join " " l +:+ "]".

(** ** Lemmas *)

Lemma pretty_char_digit n :
  (n < 10)%N → is_digit (pretty_N_char n) = true ∧ digit_val (pretty_N_char n) = Z.of_N n.
Proof.
  intros Hn. assert (n = 0 ∨ n = 1 ∨ n = 2 ∨ n = 3 ∨ n = 4 ∨ n = 5 ∨ n = 6 ∨ n = 7 ∨ n = 8 ∨ n = 9)%N
    as Hc by lia. by destruct_or!; subst.
Qed.

(** The digit loop reads back what the decimal printer writes. *)
Lemma parse_uint_loop_pretty x s :
  (Z.of_N x ≤ max_uint64)%Z → parse_uint_loop (pretty_N_go x s) 0 = parse_uint_loop s (Z.of_N x).
Proof.
  revert s. induction (N.lt_wf_0 x) as [x _ IH]. intros s Hx.
  destruct (decide (x = 0)%N) as [->|Hne]; [by rewrite pretty_N_go_0|].
  rewrite pretty_N_go_step by lia.
  assert (x / 10 < x)%N by (apply N.div_lt; lia).
  rewrite IH by lia. cbn [parse_uint_loop].
  destruct (pretty_char_digit (x mod 10)) as [-> ->]; [apply N.mod_lt; lia|].
  assert (Z.of_N (x / 10) * 10 + Z.of_N (x mod 10) = Z.of_N x)%Z as ->.
  { pose proof (N.div_mod x 10 ltac:(lia)). lia. }
  by rewrite (proj2 (Z.ltb_ge _ _)) by done.
Qed.

Lemma ParseUint_pretty (x : N) :
  (Z.of_N x ≤ max_uint64)%Z → ParseUint (pretty x) = (Z.of_N x, None).
Proof.
  intros Hx. unfold pretty, pretty_N. case_decide as H0; [by subst|].
  pose proof (parse_uint_loop_pretty x EmptyString Hx) as Hp. cbn [parse_uint_loop] in Hp.
  unfold ParseUint. destruct (pretty_N_go x EmptyString) as [|a s] eqn:E; [|done].
  cbn [parse_uint_loop] in Hp. injection Hp as Hp. exfalso. lia.
Qed.

(** The first character written for a number is a digit, never a sign. *)
Lemma pretty_N_head (x : N) : ∃ a s, pretty x = String a s ∧ is_digit a = true.
Proof.
  unfold pretty, pretty_N. case_decide as H0; [by eexists _, _|].
  assert (∀ x s, (0 < x)%N → ∃ a s', pretty_N_go x s = String a s' ∧ is_digit a = true) as Hg;
    [|apply Hg; lia].
  clear. intros x. induction (N.lt_wf_0 x) as [x _ IH]. intros s Hx.
  rewrite pretty_N_go_step by lia.
  destruct (decide (x / 10 = 0)%N) as [->|?].
  - rewrite pretty_N_go_0. eexists _, _. split; [done|].
    apply pretty_char_digit, N.mod_lt. lia.
  - apply IH; [apply N.div_lt; lia|]. by apply N.neq_0_lt_0.
Qed.

(** Only digits are written. *)
Lemma pretty_N_go_digits x s :
  all_bytes is_digit s = true → all_bytes is_digit (pretty_N_go x s) = true.
Proof.
  revert s. induction (N.lt_wf_0 x) as [x _ IH]. intros s Hs.
  destruct (decide (x = 0)%N) as [->|Hne]; [by rewrite pretty_N_go_0|].
  rewrite pretty_N_go_step by lia. apply IH; [apply N.div_lt; lia|]. cbn [all_bytes].
  rewrite Hs, andb_true_r. apply pretty_char_digit, N.mod_lt. lia.
Qed.

Lemma pretty_N_digits (x : N) : all_bytes is_digit (pretty x) = true.
Proof. unfold pretty, pretty_N. case_decide; [done|]. by apply pretty_N_go_digits. Qed.

Lemma itoa_digits z : (0 ≤ z)%Z → itoa z = pretty (Z.to_N z).
Proof. by destruct z. Qed.

Lemma ParseInt_itoa z : in_int64 z = true → ParseInt (itoa z) = (z, None).
Proof.
  rewrite in_int64_spec. unfold int64_min, int64_max. intros Hz.
  destruct (decide (0 ≤ z)%Z) as [Hp|Hn].
  - rewrite itoa_digits by done. destruct (pretty_N_head (Z.to_N z)) as (a & s & E & Ha).
    unfold ParseInt. assert (sign_split (pretty (Z.to_N z)) = (false, pretty (Z.to_N z))) as ->.
    { rewrite E. simpl. destruct (Ascii.eqb_spec a "+") as [->|]; [done|].
      by destruct (Ascii.eqb_spec a "-") as [->|]. }
    rewrite ParseUint_pretty by (unfold max_uint64; lia). unfold int64_max, int64_min.
    rewrite Z2N.id by done. simpl. rewrite (proj2 (Z.ltb_ge _ _)) by lia. done.
  - destruct z as [| |p]; [lia..|].
    change (itoa (Z.neg p)) with (String "-" (pretty (N.pos p))). unfold ParseInt.
    change (sign_split (String "-" (pretty (N.pos p)))) with (true, pretty (N.pos p)). cbv iota beta.
    rewrite ParseUint_pretty by (unfold max_uint64; lia). cbn [negb andb].
    unfold int64_max, int64_min. by rewrite (proj2 (Z.ltb_ge _ _)) by lia.
Qed.

Lemma ParseInt_range s : in_int64 (ParseInt s).1 = true.
Proof.
  unfold ParseInt. destruct (sign_split s) as [neg ds].
  assert (Hu : ∀ s n, (0 ≤ n)%Z → (0 ≤ (parse_uint_loop s n).1)%Z).
  { clear. induction s as [|c s IH]; intros n Hn; simpl; [done|].
    repeat case_match; simpl; try done. apply IH. unfold digit_val. lia. }
  assert (0 ≤ (ParseUint ds).1)%Z as Hd.
  { unfold ParseUint. destruct ds; [done|]. by apply Hu. }
  assert (Hr : ∀ un : Z, (0 ≤ un)%Z → in_int64
    (if (negb neg && (int64_max <? un))%Z then (int64_max, Some ErrRange)
     else if (neg && (- int64_min <? un))%Z then (int64_min, Some ErrRange)
     else ((if neg then - un else un)%Z, None)).1 = true).
  { intros un Hun. apply in_int64_spec. unfold int64_min, int64_max.
    destruct neg; cbn [negb andb]; case_match eqn:E; simpl;
      rewrite ?Z.ltb_lt, ?Z.ltb_ge in E; lia. }
  destruct (ParseUint ds) as [un [[]|]]; simpl in Hd; [done|by apply Hr..].
Qed.

Example ParseInt_examples :
  ParseInt "-42" = (-42, None)%Z ∧ ParseInt "9223372036854775808" = (int64_max, Some ErrRange) ∧
  ParseInt "1.5" = (0%Z, Some ErrSyntax) ∧ ParseInt "" = (0%Z, Some ErrSyntax).
Proof. vm_compute. done. Qed.

#[global] Arguments itoa : simpl never.
#[global] Arguments Quote : simpl never.
#[global] Arguments ParseInt : simpl never.
