(* ===== verification/GoPath.v ===== *)
(** * GoPath: the lexical path functions of path/filepath on Unix. *)

From Stdlib Require Import Ascii NArith ZArith.
From S2P Require Import Prelude GoStrings.

Definition IsAbs (path : string) : bool := HasPrefix path "/".

(** One component of a path against the components kept so far, innermost
    first. *)
Definition clean_step (rooted : bool) (kept : list string) (c : string) : list string :=
  if String.eqb c "" || String.eqb c "." then kept
  else if String.eqb c ".." then
    match kept with
    | [] => if rooted then [] else [".."]
    | top :: rest => if String.eqb top ".." then ".." :: kept else rest
    end
  else c :: kept.

Definition Clean (path : string) : string :=
  let rooted := IsAbs path in
  let body := join "/" (reverse (foldl (clean_step rooted) [] (Split path "/"))) in
  if rooted then "/" +:+ body else if String.eqb body "" then "." else body.

(** [filepath.Join]: the elements from the first that is not empty. *)
Fixpoint Join (elem : list string) : string :=
  match elem with
  | [] => ""
  | e :: rest => if String.eqb e "" then Join rest else Clean (join "/" elem)
  end.

(** [filepath.Dir]: up to and including the last slash, cleaned. *)
Definition Dir (path : string) : string :=
  Clean (concat_strings (map (λ c, c +:+ "/") (removelast (Split path "/")))).

(** A component that [Clean] keeps as it is. *)
Definition plain_component (c : string) : bool :=
  negb (String.eqb c "") && negb (String.eqb c ".") && negb (String.eqb c "..") && without "/" c.

Lemma clean_step_plain r kept c : plain_component c = true → clean_step r kept c = c :: kept.
Proof.
  unfold plain_component, clean_step. rewrite !andb_true_iff, !negb_true_iff.
  intros [[[-> ->] ->] _]. done.
Qed.

Lemma clean_steps_plain r l kept :
  forallb plain_component l = true → foldl (clean_step r) kept l = reverse l ++ kept.
Proof.
  revert kept. induction l as [|c l IH]; intros kept; cbn [forallb foldl]; [done|].
  intros [Hc Hl]%andb_true_iff. by rewrite clean_step_plain, IH, reverse_cons, <-app_assoc.
Qed.

(** A rooted path of plain components is clean. *)
Lemma Clean_plain l :
  forallb plain_component l = true → l ≠ [] → Clean ("/" +:+ join "/" l) = "/" +:+ join "/" l.
Proof.
  intros Hl Hne. unfold Clean. rewrite (HasPrefix_app "/" (join "/" l) : IsAbs _ = true). do 2 f_equal.
  pose proof (Split_app_sep "" "/" (join "/" l) eq_refl) as E. rewrite app_nil_str in E.
  rewrite (app_cons_str "/" "" _), app_nil_str, E. rewrite Split_join; [|done|].
  - cbn [foldl]. by rewrite clean_steps_plain, app_nil_r, reverse_involutive.
  - apply forallb_True. intros c Hc. rewrite forallb_True in Hl. apply Hl in Hc.
    unfold plain_component in Hc. by apply andb_true_iff in Hc as [_ ?].
Qed.

Example Dir_ex : map Dir ["/a/b/c"; "c"; "/c"; "a/../b/c"; "/a//b/"] = ["/a/b"; "."; "/"; "b"; "/a/b"].
Proof. reflexivity. Qed.
Example Clean_ex : map Clean ["/.."; "../a/.."; "a//b/./c/"; "/../../x"; ""] = ["/"; ".."; "a/b/c"; "/x"; "."].
Proof. reflexivity. Qed.
