(* ===== verification/GoTime.v ===== *)
(** * GoTime: instants as nanoseconds since 1970 in UTC, as they are printed. *)

From Stdlib Require Import Ascii NArith ZArith.
From S2P Require Import Prelude GoStrings GoFmt.

(** Year, month and day of a day number counted from 1970-01-01 in the
    Gregorian calendar. *)
Definition civil (days : Z) : Z * Z * Z :=
  (let z := days + 719468 in
   let era := z / 146097 in
   let doe := z mod 146097 in
   let yoe := (doe - doe / 1460 + doe / 36524 - doe / 146096) / 365 in
   let doy := doe - (365 * yoe + yoe / 4 - yoe / 100) in
   let mp := (5 * doy + 2) / 153 in
   let d := doy - (153 * mp + 2) / 5 + 1 in
   let m := if mp <? 10 then mp + 3 else mp - 9 in
   ((if m <=? 2 then yoe + era * 400 + 1 else yoe + era * 400), m, d))%Z.

(** At least [k] decimal digits. *)
Definition pad (k : nat) (n : Z) : string :=
  let s := itoa n in
  string_of (repeat "0"%char (k - String.length s)) +:+ s.

Definition is_zero_digit (a : ascii) : bool := Ascii.eqb a "0".

(** The fraction of a second without its final zeros. *)
Definition fraction (nanos : Z) : string :=
  if (nanos =? 0)%Z then "" else
  "." +:+ string_of (reverse (drop_while is_zero_digit (reverse (bytes_of (pad 9 nanos))))).

(** [time.Time.MarshalJSON] of a UTC time, without the quotes: RFC 3339. *)
Definition RFC3339Nano (t : Z) : string :=
  (let secs := t / 1000000000 in
   let '(y, m, d) := civil (secs / 86400) in
   let s := secs mod 86400 in
   pad 4 y +:+ "-" +:+ pad 2 m +:+ "-" +:+ pad 2 d +:+ "T" +:+
   pad 2 (s / 3600) +:+ ":" +:+ pad 2 (s / 60 mod 60) +:+ ":" +:+ pad 2 (s mod 60) +:+
   fraction (t mod 1000000000) +:+ "Z")%Z.

Example time_examples :
  map RFC3339Nano [0; 951782400000000001; 1767225599120000000]%Z
  = ["1970-01-01T00:00:00Z"; "2000-02-29T00:00:00.000000001Z"; "2025-12-31T23:59:59.12Z"].
Proof. vm_compute. reflexivity. Qed.
