(* ===== verification/GoFloat.v ===== *)
(** * GoFloat: [float64] and the parts of [math] and [strconv] on it that the
    agent uses.

    A [float64] is a binary64 number of the specification of floating-point
    arithmetic in the Standard Library; the text conversions compute with
    exact integers and round once. *)

From Stdlib Require Import Ascii NArith ZArith.
From Stdlib Require Import Floats.SpecFloat.
From S2P Require Import Prelude GoStrings GoFmt.

Definition float64 : Type := spec_float.

Definition f_zero : float64 := S754_zero false.
Definition f_finite (f : float64) : bool :=
  match f with S754_zero _ | S754_finite _ _ _ => true | _ => false end.

(** ** Conversion and arithmetic, rounding to nearest even *)

(** [float64(n)] and a decimal or binary constant. *)
Definition f_of_Z (n : Z) : float64 := binary_normalize 53 1024 n 0 false.

Definition f_sub : float64 → float64 → float64 := SFsub 53 1024.
Definition f_mul : float64 → float64 → float64 := SFmul 53 1024.
Definition f_div : float64 → float64 → float64 := SFdiv 53 1024.

(** [math.Round]: the nearest integer, halves away from zero. *)
Definition f_Round (f : float64) : float64 :=
  match f with
  | S754_finite s m e =>
      if (0 <=? e)%Z then f
      else
        let q := Z.shiftr (Z.pos m + Z.shiftl 1 (- e - 1)) (- e) in
        match q with Z.pos p => binary_round 53 1024 s p 0 | _ => S754_zero s end
  | _ => f
  end.

(** ** Decimal numbers to floats *)

Definition pow10 (k : Z) : Z := (10 ^ k)%Z.

(** The number of decimal digits of a positive integer. *)
Definition num_digits (m : Z) : Z := Z.of_nat (String.length (itoa m)).

(** [m * 10^e], rounded; numbers beyond every float are not computed. *)
Definition round_decimal (neg : bool) (m e : Z) : float64 :=
  match m with
  | Z.pos p =>
      let dp := (num_digits m + e)%Z in
      if (310 <? dp)%Z then S754_infinity neg
      else if (dp <? -330)%Z then S754_zero neg
      else if (0 <=? e)%Z then binary_round 53 1024 neg (Z.to_pos (m * pow10 e)) 0
      else
        let '(mz, ez, lz) := SFdiv_core_binary 53 1024 m 0 (pow10 (- e)) 0 in
        binary_round_aux 53 1024 neg mz ez lz
  | _ => S754_zero neg
  end.

(** ** Parsing: [strconv.ParseFloat(s, 64)] *)

Definition lower (a : ascii) : ascii := lower_ascii a.
Definition hex_val (a : ascii) : option Z :=
  if is_digit a then Some (digit_val a)
  else if in_range 97 102 (lower a) then Some (Z.of_N (byte (lower a)) - 87)%Z
  else None.

(** A digit of the base. *)
Definition digit_of (hex : bool) (a : ascii) : option Z :=
  if hex then hex_val a else if is_digit a then Some (digit_val a) else None.

(** What the mantissa loop has read: the digits as a number, how many of them
    follow the point, and what was seen. *)
Record mantissa : Type := mkMantissa {
  digits : Z;
  after_point : Z;
  saw_dot : bool;
  saw_digits : bool;
  saw_underscore : bool;
}.

Fixpoint read_mantissa (hex : bool) (s : string) (m : mantissa) : mantissa * string :=
  match s with
  | EmptyString => (m, s)
  | String a s' =>
      if Ascii.eqb a "_" then
        read_mantissa hex s' (mkMantissa (digits m) (after_point m) (saw_dot m) (saw_digits m) true)
      else if Ascii.eqb a "." then
        if saw_dot m then (m, s)
        else read_mantissa hex s' (mkMantissa (digits m) (after_point m) true (saw_digits m) (saw_underscore m))
      else match digit_of hex a with
           | Some d =>
               read_mantissa hex s'
                 (mkMantissa (digits m * (if hex then 16 else 10) + d)
                    (after_point m + (if saw_dot m then 1 else 0)) (saw_dot m) true (saw_underscore m))
           | None => (m, s)
           end
  end.

(** The digits of an exponent, which stops growing at 10000. *)
Fixpoint read_exponent (s : string) (e : Z) (under : bool) : Z * bool * string :=
  match s with
  | EmptyString => (e, under, s)
  | String a s' =>
      if Ascii.eqb a "_" then read_exponent s' e true
      else if is_digit a then
        read_exponent s' (if (e <? 10000)%Z then e * 10 + digit_val a else e)%Z under
      else (e, under, s)
  end.

(** The exponent part, if there is one: [None] is a syntax error. *)
Definition exponent_part (hex : bool) (s : string) : option (Z * bool * string) :=
  match s with
  | String a s' =>
      if Ascii.eqb (lower a) (if hex then "p" else "e") then
        let '(neg, ds) := sign_split s' in
        match ds with
        | String d _ =>
            if is_digit d then
              let '(e, under, rest) := read_exponent ds 0 false in
              Some ((if neg then - e else e)%Z, under, rest)
            else None
        | EmptyString => None
        end
      else if hex then None else Some (0%Z, false, s)
  | EmptyString => if hex then None else Some (0%Z, false, s)
  end.

(** [underscoreOK]: an underscore stands between digits, or after the base
    prefix.  [saw] is the kind of the byte before: [0] for a digit. *)
Fixpoint underscores_ok (hex : bool) (s : string) (saw : ascii) : bool :=
  match s with
  | EmptyString => negb (Ascii.eqb saw "_")
  | String a s' =>
      if is_digit a || (hex && in_range 97 102 (lower a)) then underscores_ok hex s' "0"
      else if Ascii.eqb a "_" then Ascii.eqb saw "0" && underscores_ok hex s' "_"
      else if Ascii.eqb saw "_" then false
      else underscores_ok hex s' "!"
  end.

Definition hex_prefix (s : string) : option string :=
  match s with
  | String a (String b (String c s')) =>
      if Ascii.eqb a "0" && Ascii.eqb (lower b) "x" then Some (String c s') else None
  | _ => None
  end.

(** A number without its sign. *)
Definition parse_unsigned (neg : bool) (s : string) : float64 * option num_error :=
  let hex := match hex_prefix s with Some _ => true | None => false end in
  let body := default s (hex_prefix s) in
  let '(m, rest) := read_mantissa hex body (mkMantissa 0 0 false false false) in
  match (if saw_digits m then exponent_part hex rest else None) with
  | Some (e, under, EmptyString) =>
      if (saw_underscore m || under) && negb (underscores_ok hex body (if hex then "0" else "^"))
      then (f_zero, Some ErrSyntax)
      else
        let f :=
          if hex then
            match digits m with
            | Z.pos p => binary_round 53 1024 neg p (e - 4 * after_point m)
            | _ => S754_zero neg
            end
          else round_decimal neg (digits m) (e - after_point m) in
        (f, if f_finite f then None else Some ErrRange)
  | _ => (f_zero, Some ErrSyntax)
  end.

Definition ParseFloat (s : string) : float64 * option num_error :=
  let '(neg, u) := sign_split s in
  let l := map_bytes lower u in
  if String.eqb l "inf" || String.eqb l "infinity" then (S754_infinity neg, None)
  else if String.eqb (map_bytes lower s) "nan" then (S754_nan, None)
  else parse_unsigned neg u.

(** ** Floats to decimal numbers *)

(** [num / den * 10^k], rounded down, and whether anything was lost. *)
Definition scaled (num den k : Z) : Z * Z * Z :=
  let n := if (0 <=? k)%Z then (num * pow10 k)%Z else num in
  let d := if (0 <=? k)%Z then den else (den * pow10 (- k))%Z in
  (n / d, n mod d, d)%Z.

(** The position of the decimal point: the [dp] with
    [10^(dp-1) <= num/den < 10^dp], searched upwards from an estimate. *)
Fixpoint point_from (n : nat) (num den k : Z) : Z :=
  match n with
  | O => k
  | S n' =>
      if (if (0 <=? k)%Z then (num <? den * pow10 k) else (num * pow10 (- k) <? den))%Z then k
      else point_from n' num den (k + 1)
  end.

Definition decimal_point (m : positive) (e : Z) : Z :=
  let num := if (0 <=? e)%Z then Z.shiftl (Z.pos m) e else Z.pos m in
  let den := if (0 <=? e)%Z then 1%Z else Z.shiftl 1 (- e) in
  point_from 8 num den ((Zdigits2 (Z.pos m) + e - 1) * 30103 / 100000 - 2).

(** The shortest decimal, of [n] digits or more, that is read back as the
    float: its digits as a number and the position of the point. *)
Fixpoint shortest_from (fuel : nat) (n : Z) (m : positive) (e dp : Z) : Z * Z :=
  let num := if (0 <=? e)%Z then Z.shiftl (Z.pos m) e else Z.pos m in
  let den := if (0 <=? e)%Z then 1%Z else Z.shiftl 1 (- e) in
  let '(down, r, d) := scaled num den (n - dp) in
  let reads x := match round_decimal false x (dp - n) with
                 | S754_finite _ m' e' => Pos.eqb m' m && Z.eqb e' e
                 | _ => false
                 end in
  let nearest := if (2 * r <? d)%Z then down
                 else if (d <? 2 * r)%Z then (down + 1)%Z
                 else if Z.even down then down else (down + 1)%Z in
  let okdown := reads down in let okup := reads (down + 1)%Z in
  if okdown && okup then (nearest, n)
  else if okdown then (down, n)
  else if okup then ((down + 1)%Z, n)
  else match fuel with O => (nearest, n) | S f' => shortest_from f' (n + 1) m e dp end.

Fixpoint strip_zeros (fuel : nat) (x : Z) : Z :=
  match fuel with
  | O => x
  | S f => if (x mod 10 =? 0)%Z && negb (x =? 0)%Z then strip_zeros f (x / 10) else x
  end.

(** The digits and the position of the point; the digits of zero are none. *)
Definition decimal_of (m : positive) (e : Z) : string * Z :=
  let dp := decimal_point m e in
  let '(x, n) := shortest_from 17 1 m e dp in
  (itoa (strip_zeros 18 x), dp + (num_digits x - n))%Z.

Fixpoint zeros (n : nat) : string := match n with O => EmptyString | S n' => String "0" (zeros n') end.

(** [strconv.AppendFloat(b, f, 'f', -1, 64)] of a finite number. *)
Definition format_f (neg : bool) (ds : string) (dp : Z) : string :=
  let nd := Z.of_nat (String.length ds) in
  let whole := if (0 <? dp)%Z
               then take_bytes (Z.to_nat dp) ds +:+ zeros (Z.to_nat (dp - nd)) else "0" in
  let frac := if (dp <? nd)%Z
              then "." +:+ zeros (Z.to_nat (- dp)) +:+ drop_bytes (Z.to_nat dp) ds else "" in
  (if neg then "-" else "") +:+ whole +:+ frac.

(** [strconv.AppendFloat(b, f, 'e', -1, 64)], with the exponent's leading zero
    removed as package json does. *)
Definition format_e (neg : bool) (ds : string) (dp : Z) : string :=
  let exp := (dp - 1)%Z in
  (if neg then "-" else "") +:+ take_bytes 1 ds
    +:+ (if (String.length ds <=? 1)%nat then "" else "." +:+ drop_bytes 1 ds)
    +:+ "e" +:+ (if (exp <? 0)%Z then "-" else "+") +:+ itoa (Z.abs exp).

(** Whether package json writes a magnitude with an exponent:
    [abs < 1e-6 || abs >= 1e21]. *)
Definition exponent_format (f : float64) : bool :=
  SFltb (SFabs f) (round_decimal false 1 (-6)) || SFleb (round_decimal false 1 21) (SFabs f).

(** The text of a float in JSON, or of the number package json refuses. *)
Definition json_float (f : float64) : result string string :=
  match f with
  | S754_nan => Err "NaN"
  | S754_infinity s => Err (if s then "-Inf" else "+Inf")
  | S754_zero s => Ok (if s then "-0" else "0")
  | S754_finite s m e =>
      let '(ds, dp) := decimal_of m e in
      Ok (if exponent_format f then format_e s ds dp else format_f s ds dp)
  end.

(** ** Values, checked by computation *)

Definition shown (s : string) : option string :=
  match json_float (ParseFloat s).1 with Ok t => Some t | Err _ => None end.

Example float_decimal : shown "0.15" = Some "0.15".
Proof. vm_compute. done. Qed.
Example float_integer : shown "100" = Some "100".
Proof. vm_compute. done. Qed.
Example float_third : shown "0.3333333333333333148" = Some "0.3333333333333333".
Proof. vm_compute. done. Qed.
Example float_large : shown "1e21" = Some "1e+21".
Proof. vm_compute. done. Qed.
Example float_below : shown "123456789012345678901" = Some "123456789012345680000".
Proof. vm_compute. done. Qed.
Example float_small : shown "0.00000012" = Some "1.2e-7".
Proof. vm_compute. done. Qed.
Example float_least : shown "4.9e-324" = Some "5e-324".
Proof. vm_compute. done. Qed.
Example float_greatest : shown "1.7976931348623157e308" = Some "1.7976931348623157e+308".
Proof. vm_compute. done. Qed.
Example float_overflow : ParseFloat "1e400" = (S754_infinity false, Some ErrRange).
Proof. vm_compute. done. Qed.
Example float_hex : shown "0x1.8p1" = Some "3".
Proof. vm_compute. done. Qed.
Example float_underscore : shown "1_23.50_0_0e+1_2" = Some "123500000000000".
Proof. vm_compute. done. Qed.
Example float_garbage : ParseFloat "-_1" = (f_zero, Some ErrSyntax).
Proof. vm_compute. done. Qed.
Example float_round_half : f_Round (f_div (f_of_Z (-5)) (f_of_Z 2)) = f_of_Z (-3).
Proof. vm_compute. done. Qed.

(** ** Bounds

    Every operation of the agent stays far from the largest float, so that its
    results are numbers. *)

(** The value [m * 2^e] is below [2^k]. *)
Definition fits (k m e : Z) : Prop := (0 ≤ m < 2 ^ (k - e) ∧ e ≤ k)%Z.

Definition sized (k : Z) (f : float64) : Prop :=
  match f with S754_zero _ => True | S754_finite _ m e => fits k (Z.pos m) e | _ => False end.

(** A nonzero float whose unit in the last place is at least [2^c]. *)
Definition coarse (c : Z) (f : float64) : Prop :=
  match f with S754_finite _ _ e => (c ≤ e)%Z | _ => False end.

Lemma sized_finite k f : sized k f → f_finite f = true.
Proof. by destruct f. Qed.

Lemma fits_mono k k' m e : (k ≤ k')%Z → fits k m e → fits k' m e.
Proof.
  unfold fits. intros Hk [[H0 Hm] He]. split; [split; [done|]|lia].
  eapply Z.lt_le_trans; [exact Hm|]. apply Z.pow_le_mono_r; lia.
Qed.

Lemma sized_mono k k' f : (k ≤ k')%Z → sized k f → sized k' f.
Proof. destruct f; simpl; try done. apply fits_mono. Qed.

(** Shifting the mantissa right by [p] keeps the value below the bound. *)
Lemma shr_1_m r : (0 ≤ shr_m r)%Z → shr_m (shr_1 r) = (shr_m r / 2)%Z.
Proof.
  destruct r as [m a b]; simpl. intros Hm. destruct m as [|[p|p|]|]; try done; try lia; cbn [shr_m];
    by rewrite <- Z.div2_div.
Qed.

Lemma iter_shr p r : (0 ≤ shr_m r)%Z → shr_m (SpecFloat.iter_pos shr_1 p r) = (shr_m r / 2 ^ Z.pos p)%Z.
Proof.
  revert r. induction p as [p IH|p IH|]; intros r Hr; cbn [SpecFloat.iter_pos].
  - assert (0 ≤ shr_m (shr_1 r))%Z by (rewrite shr_1_m by done; apply Z.div_pos; lia).
    assert (0 ≤ shr_m (SpecFloat.iter_pos shr_1 p (shr_1 r)))%Z by (rewrite IH by done; apply Z.div_pos; lia).
    rewrite !IH, shr_1_m by done. rewrite !Z.div_div by lia. f_equal.
    replace (Z.pos p~1) with (1 + Z.pos p + Z.pos p)%Z by lia. rewrite !Z.pow_add_r by lia. lia.
  - assert (0 ≤ shr_m (SpecFloat.iter_pos shr_1 p r))%Z by (rewrite IH by done; apply Z.div_pos; lia).
    rewrite !IH by done. rewrite !Z.div_div by lia. f_equal.
    replace (Z.pos p~0) with (Z.pos p + Z.pos p)%Z by lia. rewrite !Z.pow_add_r by lia. lia.
  - by rewrite shr_1_m.
Qed.

(** One normalisation: the exponent grows to [fexp] at least, and no further. *)
Lemma shr_fexp_spec m e l :
  (0 ≤ m)%Z →
  let f := fexp 53 1024 (Zdigits2 m + e) in
  let r := shr_fexp 53 1024 m e l in
  r.2 = Z.max e f ∧ shr_m r.1 = (m / 2 ^ (Z.max e f - e))%Z.
Proof.
  intros Hm. cbv zeta. unfold shr_fexp, shr.
  assert (Hr : shr_m (shr_record_of_loc m l) = m) by (by destruct l as [|[]]).
  destruct (fexp 53 1024 (Zdigits2 m + e) - e)%Z as [|p|p] eqn:E; cbn [fst snd].
  - rewrite Z.max_l by lia. by rewrite Hr, Z.sub_diag, Z.div_1_r.
  - rewrite Z.max_r by lia. rewrite iter_shr, Hr by (by rewrite Hr). rewrite E. split; [lia|done].
  - rewrite Z.max_l by lia. by rewrite Hr, Z.sub_diag, Z.div_1_r.
Qed.

Lemma round_up_by_one m l : (m ≤ round_nearest_even m l ≤ m + 1)%Z.
Proof. destruct l as [|[]]; simpl; repeat case_match; lia. Qed.

Lemma digits2_log2 p : Z.pos (digits2_pos p) = (Z.log2 (Z.pos p) + 1)%Z.
Proof.
  assert (H : ∀ q, digits2_pos q = Pos.size q) by (induction q; simpl; congruence).
  rewrite H. destruct p; simpl; lia.
Qed.

Lemma digits_fits k m e : fits k m e → (Zdigits2 m + e ≤ k)%Z.
Proof.
  intros [[H0 Hm] He]. destruct m as [|p|p]; simpl; [lia| |lia]. rewrite digits2_log2.
  apply Z.log2_lt_pow2 in Hm; lia.
Qed.

Lemma fits_shr k m e d : fits k m e → (0 ≤ d)%Z → (e + d ≤ k)%Z → fits k (m / 2 ^ d) (e + d).
Proof.
  intros [[H0 Hm] He] Hd Hk. split; [|done]. split; [apply Z.div_pos; lia|].
  apply Z.div_lt_upper_bound; [lia|]. rewrite <- Z.pow_add_r by lia. by replace (d + (k - (e + d)))%Z with (k - e)%Z by lia.
Qed.

Lemma fits_S k m e : fits k m e → fits (k + 1) (m + 1) e.
Proof.
  intros [[H0 Hm] He]. split; [|lia]. replace (k + 1 - e)%Z with (Z.succ (k - e)) by lia.
  rewrite Z.pow_succ_r by lia. assert (0 < 2 ^ (k - e))%Z by (apply Z.pow_pos_nonneg; lia). lia.
Qed.

(** Rounding: the result is a number, not much larger, whose exponent is not
    smaller. *)
Lemma sized_round_aux k s m e l :
  fits k m e → (-900 ≤ k ≤ 960)%Z → sized (k + 1) (binary_round_aux 53 1024 s m e l).
Proof.
  intros Hf Hk. pose proof (digits_fits _ _ _ Hf) as Hd. pose proof Hf as [[H0 Hm] He].
  unfold binary_round_aux. destruct (shr_fexp_spec m e l H0) as [E2 E1].
  destruct (shr_fexp 53 1024 m e l) as [mrs e1]; cbn [fst snd] in *.
  set (d := (Z.max e (fexp 53 1024 (Zdigits2 m + e)) - e)%Z) in *.
  assert (Hd1 : (0 ≤ d ∧ e + d ≤ k)%Z) by (unfold d, fexp, emin; lia).
  assert (Hf1 : fits k (shr_m mrs) e1).
  { rewrite E1, E2. replace (Z.max _ _) with (e + d)%Z by (unfold d; lia). apply fits_shr; [by split|lia|lia]. }
  assert (Hf2 : fits (k + 1) (round_nearest_even (shr_m mrs) (loc_of_shr_record mrs)) e1).
  { apply fits_S in Hf1. destruct Hf1 as [[_ Hlt] Hle]. pose proof (round_up_by_one (shr_m mrs) (loc_of_shr_record mrs)).
    assert (0 ≤ shr_m mrs)%Z by (rewrite E1; apply Z.div_pos; lia). split; [split; lia|lia]. }
  set (m2 := round_nearest_even _ _) in *. pose proof (digits_fits _ _ _ Hf2) as Hd2.
  destruct (shr_fexp_spec m2 e1 loc_Exact) as [E4 E3]; [by destruct Hf2 as [[] _]|].
  destruct (shr_fexp 53 1024 m2 e1 loc_Exact) as [mrs' e2]; cbn [fst snd] in *.
  set (d' := (Z.max e1 (fexp 53 1024 (Zdigits2 m2 + e1)) - e1)%Z) in *.
  assert (He1 : (e1 ≤ k + 1)%Z) by apply Hf2.
  assert (Hd3 : (0 ≤ d' ∧ e1 + d' ≤ k + 1)%Z) by (unfold d', fexp, emin; lia).
  assert (Hf3 : fits (k + 1) (shr_m mrs') e2).
  { rewrite E3, E4. replace (Z.max _ _) with (e1 + d')%Z by (unfold d'; lia). apply fits_shr; [done|lia|lia]. }
  destruct (shr_m mrs') as [|p|p] eqn:Em; [done| |by destruct Hf3 as [[] _]].
  rewrite (proj2 (Z.leb_le _ _)); [done|]. destruct Hf3 as [_ ?]. lia.
Qed.

Lemma shl_align_spec m e e' :
  (Z.pos (shl_align m e e').1 = Z.pos m * 2 ^ (e - (shl_align m e e').2))%Z ∧ (shl_align m e e').2 = Z.min e e'.
Proof.
  unfold shl_align. destruct (e' - e)%Z as [|d|d] eqn:E; cbn [fst snd].
  - rewrite Z.sub_diag. split; lia.
  - rewrite Z.sub_diag. split; lia.
  - replace (e - e')%Z with (Z.pos d) by lia. split; [|lia]. clear E.
    induction d as [|d IH] using Pos.peano_ind; [cbn; lia|].
    rewrite Pos.iter_succ, Pos2Z.inj_succ, Z.pow_succ_r by lia. rewrite Pos2Z.inj_xO, IH. lia.
Qed.

Lemma fits_shl k m e e' : fits k (Z.pos m) e → fits k (Z.pos (shl_align m e e').1) (shl_align m e e').2.
Proof.
  intros [[H0 Hm] He]. destruct (shl_align_spec m e e') as [E1 E2]. split; [|lia]. split; [lia|].
  rewrite E1. assert (0 ≤ e - (shl_align m e e').2)%Z by lia.
  replace (k - (shl_align m e e').2)%Z with ((k - e) + (e - (shl_align m e e').2))%Z by lia.
  rewrite Z.pow_add_r by lia. apply Z.mul_lt_mono_pos_r; [apply Z.pow_pos_nonneg; lia|done].
Qed.

Lemma sized_round k s m e :
  fits k (Z.pos m) e → (-900 ≤ k ≤ 960)%Z → sized (k + 1) (binary_round 53 1024 s m e).
Proof.
  intros Hf Hk. unfold binary_round.
  pose proof (fits_shl k m e (fexp 53 1024 (Z.pos (digits2_pos m) + e)) Hf) as H.
  destruct (shl_align m e _) as [mz ez]. by apply sized_round_aux.
Qed.

Lemma sized_normalize k n e sz :
  fits k (Z.abs n) e → (-900 ≤ k ≤ 960)%Z → sized (k + 1) (binary_normalize 53 1024 n e sz).
Proof. intros Hf Hk. destruct n as [|p|p]; [done| |]; by apply sized_round. Qed.

Lemma fits_abs_0 k n : (Z.abs n < 2 ^ k)%Z → (0 ≤ k)%Z → fits k (Z.abs n) 0.
Proof. intros ? ?. split; [|lia]. rewrite Z.sub_0_r. lia. Qed.

Lemma sized_of_Z k n : (Z.abs n < 2 ^ k)%Z → (0 ≤ k ≤ 960)%Z → sized (k + 1) (f_of_Z n).
Proof. intros Hn Hk. apply sized_normalize; [|lia]. apply fits_abs_0; lia. Qed.

Lemma sized_mul a b f g :
  sized a f → sized b g → (-900 ≤ a + b ≤ 960)%Z → sized (a + b + 1) (f_mul f g).
Proof.
  intros Hf Hg Hk. destruct f as [s|s| |s m e], g as [s'|s'| |s' m' e']; try done.
  destruct Hf as [[_ Hm] He], Hg as [[_ Hm'] He']. apply sized_round_aux; [|done].
  split; [|lia]. split; [lia|]. replace (a + b - (e + e'))%Z with ((a - e) + (b - e'))%Z by lia.
  rewrite Z.pow_add_r, Pos2Z.inj_mul by lia. apply Z.mul_lt_mono_nonneg; lia.
Qed.

Lemma sized_sub k f g :
  sized k f → sized k g → (-900 ≤ k ≤ 950)%Z → sized (k + 2) (f_sub f g).
Proof.
  intros Hf Hg Hk. destruct f as [s|s| |s m e], g as [s'|s'| |s' m' e']; try done.
  - by destruct s, s'.
  - simpl. eapply fits_mono, Hg. lia.
  - simpl. eapply fits_mono, Hf. lia.
  - unfold f_sub, SFsub. cbv zeta.
    pose proof (fits_shl k m e (Z.min e e') Hf) as [[_ H1] _]. destruct (shl_align_spec m e (Z.min e e')) as [_ E1].
    pose proof (fits_shl k m' e' (Z.min e e') Hg) as [[_ H2] _]. destruct (shl_align_spec m' e' (Z.min e e')) as [_ E2].
    destruct Hf as [_ He], Hg as [_ He'].
    replace (Z.min e (Z.min e e')) with (Z.min e e') in E1 by lia.
    replace (Z.min e' (Z.min e e')) with (Z.min e e') in E2 by lia. rewrite E1 in H1. rewrite E2 in H2.
    replace (k + 2)%Z with ((k + 1) + 1)%Z by lia. apply sized_normalize; [|lia]. split; [|lia].
    replace (k + 1 - Z.min e e')%Z with (Z.succ (k - Z.min e e')) by lia. rewrite Z.pow_succ_r by lia.
    generalize dependent (2 ^ (k - Z.min e e'))%Z. intros p H1 H2.
    destruct s, s'; cbn [cond_Zopp]; lia.
Qed.

Lemma new_exponent_le e1 e2 d1 d2 : (Z.min (fexp 53 1024 (d1 + e1 - (d2 + e2))) (e1 - e2) ≤ e1 - e2)%Z.
Proof. lia. Qed.

(** Dividing by a number whose last place is worth [2^c] at least. *)
Lemma sized_div k c f g :
  sized k f → coarse c g → (-900 ≤ k - c ≤ 960)%Z → sized (k - c + 1) (f_div f g).
Proof.
  intros Hf Hg Hk. destruct f as [s|s| |s m e], g as [s'|s'| |s' m' e']; try done.
  destruct Hf as [[_ Hm] He]. simpl in Hg. unfold f_div, SFdiv, SFdiv_core_binary.
  set (ez := Z.min _ _). assert (Hez : (ez ≤ e - e')%Z) by apply new_exponent_le.
  set (mm := match _ with Z0 => _ | Zpos _ => _ | Zneg _ => _ end).
  assert (Hmm : (0 ≤ mm < 2 ^ (k - c - ez))%Z).
  { assert (mm = Z.pos m * 2 ^ (e - e' - ez))%Z as ->.
    { unfold mm. destruct (e - e' - ez)%Z eqn:E; [lia| |lia]. rewrite Z.shiftl_mul_pow2 by lia. done. }
    split; [apply Z.mul_nonneg_nonneg; [lia|apply Z.pow_nonneg; lia]|].
    eapply Z.lt_le_trans; [apply Z.mul_lt_mono_pos_r; [apply Z.pow_pos_nonneg; lia|exact Hm]|].
    rewrite <- Z.pow_add_r by lia. apply Z.pow_le_mono_r; lia. }
  pose proof (Z_div_mod mm (Z.pos m') ltac:(lia)) as Hdiv.
  destruct (Z.div_eucl mm (Z.pos m')) as [q r]. destruct Hdiv as [Hq Hr].
  apply sized_round_aux; [|done]. split; [|lia]. split; nia.
Qed.

Lemma sized_Round k f : sized k f → (0 ≤ k ≤ 950)%Z → sized (k + 2) (f_Round f).
Proof.
  intros Hf Hk. destruct f as [s|s| |s m e]; try done. unfold f_Round.
  destruct (Z.leb_spec 0 e); [by apply (sized_mono k); [lia|]|].
  destruct Hf as [[_ Hm] He]. rewrite Z.shiftr_div_pow2, Z.shiftl_mul_pow2 by lia.
  set (q := ((Z.pos m + 1 * 2 ^ (- e - 1)) / 2 ^ (- e))%Z).
  assert (Hp : (0 < 2 ^ (- e))%Z) by (apply Z.pow_pos_nonneg; lia).
  assert (Hq : (q < 2 ^ (k + 1))%Z).
  { apply Z.div_lt_upper_bound; [done|]. rewrite <- Z.pow_add_r by lia.
    replace (- e + (k + 1))%Z with (Z.succ (k - e)) by lia. rewrite Z.pow_succ_r by lia.
    assert (2 ^ (- e - 1) ≤ 2 ^ (k - e))%Z by (apply Z.pow_le_mono_r; lia). lia. }
  destruct q as [|p|p]; [done| |done]. replace (k + 2)%Z with ((k + 1) + 1)%Z by lia.
  apply sized_round; [|lia]. split; [|lia]. rewrite Z.sub_0_r. lia.
Qed.

(** A positive mantissa whose exponent is not tiny is not lost. *)
Lemma shr_fexp_pos m e l :
  (0 < m)%Z → (-1020 ≤ e)%Z →
  (0 < shr_m (shr_fexp 53 1024 m e l).1)%Z ∧ (e ≤ (shr_fexp 53 1024 m e l).2)%Z.
Proof.
  intros Hm He. destruct (shr_fexp_spec m e l) as [-> ->]; [lia|]. split; [|lia].
  destruct m as [|p|p]; try lia. simpl (Zdigits2 _). rewrite digits2_log2.
  apply Z.div_str_pos. pose proof (Z.log2_spec (Z.pos p) ltac:(lia)) as [Hl _]. pose proof (Z.log2_nonneg (Z.pos p)).
  split; [apply Z.pow_pos_nonneg; lia|]. etrans; [|exact Hl]. apply Z.pow_le_mono_r; [lia|]. unfold fexp, emin. lia.
Qed.

Lemma coarse_round_aux k s m e l :
  fits k m e → (0 < m)%Z → (-1020 ≤ e)%Z → (-900 ≤ k ≤ 960)%Z → coarse e (binary_round_aux 53 1024 s m e l).
Proof.
  intros Hf Hm He Hk. pose proof (sized_round_aux k s m e l Hf Hk) as Hs. revert Hs. unfold binary_round_aux.
  destruct (shr_fexp_pos m e l Hm He) as [H1 H2]. destruct (shr_fexp 53 1024 m e l) as [mrs e1]; cbn [fst snd] in *.
  pose proof (round_up_by_one (shr_m mrs) (loc_of_shr_record mrs)).
  set (m2 := round_nearest_even _ _) in *.
  destruct (shr_fexp_pos m2 e1 loc_Exact) as [H3 H4]; [lia|lia|].
  destruct (shr_fexp 53 1024 m2 e1 loc_Exact) as [mrs' e2]; cbn [fst snd] in *.
  destruct (shr_m mrs') as [|p|p]; [lia| |lia]. case_match; [|done]. intros _. simpl. lia.
Qed.

Lemma coarse_of_Z n : (0 < n < 2 ^ 64)%Z → coarse (-53) (f_of_Z n).
Proof.
  intros [H0 Hn]. destruct n as [|p|p]; try lia. unfold f_of_Z, binary_normalize, binary_round.
  assert (Hf : fits 64 (Z.pos p) 0) by (split; [rewrite Z.sub_0_r|]; lia).
  pose proof (fits_shl 64 p 0 (fexp 53 1024 (Z.pos (digits2_pos p) + 0)) Hf) as Hs.
  destruct (shl_align_spec p 0 (fexp 53 1024 (Z.pos (digits2_pos p) + 0))) as [E1 E2].
  destruct (shl_align p 0 _) as [mz ez]; cbn [fst snd] in *.
  assert (-53 ≤ ez)%Z by (rewrite E2; unfold fexp, emin; lia).
  pose proof (coarse_round_aux 64 false (Z.pos mz) ez loc_Exact Hs ltac:(lia) ltac:(lia) ltac:(lia)) as Hc.
  destruct (binary_round_aux _ _ _ _ _ _); simpl in *; try done; lia.
Qed.

Lemma wrapu64_range z : (0 ≤ wrapu64 z < 2 ^ 64)%Z.
Proof. apply Z.mod_pos_bound. lia. Qed.

(** *** Exact results *)

Lemma f_div_self f c : coarse c f → f_div f f = f_of_Z 1.
Proof.
  destruct f as [s|s| |s m e]; try done. intros _. unfold f_div, SFdiv, SFdiv_core_binary.
  rewrite xorb_nilpotent, !Z.sub_diag. change (Z.min (fexp 53 1024 0) 0) with (-53)%Z.
  change (0 - -53)%Z with 53%Z. cbn iota. rewrite Z.shiftl_mul_pow2 by lia.
  pose proof (Z_div_mod (Z.pos m * 2 ^ 53) (Z.pos m) ltac:(lia)) as Hd.
  destruct (Z.div_eucl _ _) as [q r]. destruct Hd as [Hq Hr].
  destruct (Z.div_mod_unique (Z.pos m) q (2 ^ 53) r 0) as [-> ->]; [lia|lia|lia|].
  unfold new_location. by destruct (Z.even (Z.pos m)).
Qed.

Lemma f_sub_div_zero s c f g : coarse c f → coarse c g → f_sub f (f_div (S754_zero s) g) = f.
Proof. by destruct f, g. Qed.
