(* ===== verification/Redact.v ===== *)
(** * Redact: internal/redact/redact.go, with the regular expressions it
    compiles and the leftmost-first matching of Go's [regexp] package.

    A pattern is matched on the runes of the text.  The four patterns of the
    package all have the shape "a prefix that is kept, then a secret", so a
    rule is a prefix expression, a secret expression and the text that
    replaces the secret. *)

From Stdlib Require Import Ascii NArith.
From S2P Require Import Prelude GoStrings.

(** ** Regular expressions *)

Inductive re : Type :=
| Eps
| Cls (f : N → bool)
| Seq (a b : re)
| Alt (a b : re)
| Star (a : re)
| WordB.

Definition Plus (a : re) : re := Seq a (Star a).

Fixpoint Rep (n : nat) (a : re) : re :=
  match n with O => Eps | S n' => Seq a (Rep n' a) end.

(** A position in a text: the rune before it and the runes after it. *)
Record pos : Type := Pos { prev : option N; rest : list (N * string) }.

(** Word characters of [\b] are ASCII. *)
Definition is_word (r : N) : bool :=
  (((48 <=? r) && (r <=? 57)) || ((65 <=? r) && (r <=? 90)) || ((97 <=? r) && (r <=? 122))
   || (r =? 95))%N.

Definition word_at (o : option N) : bool := match o with Some r => is_word r | None => false end.

Definition boundary (p : pos) : bool :=
  xorb (word_at (prev p)) (word_at (fst <$> head (rest p))).

Definition advance (p : pos) : pos :=
  match rest p with c :: t => Pos (Some c.1) t | [] => p end.

(** Repetition, greedy: after each turn that has moved on, another one is tried
    before [k]. *)
Definition star_loop {A} (turn : pos → (pos → option A) → option A) (k : pos → option A) :=
  fix loop (n : nat) (p : pos) : option A :=
    match n with
    | O => k p
    | S n' =>
        match turn p (λ q, if length (rest q) <? length (rest p) then loop n' q else None) with
        | Some x => Some x
        | None => k p
        end
    end.

(** Backtracking search in the order of preference of a leftmost-first
    engine; [k] is what must match after [r]. *)
Fixpoint mt {A} (r : re) (p : pos) (k : pos → option A) : option A :=
  match r with
  | Eps => k p
  | Cls f =>
      match rest p with
      | c :: _ => if f c.1 then k (advance p) else None
      | [] => None
      end
  | Seq a b => mt a p (λ q, mt b q k)
  | Alt a b => match mt a p k with Some x => Some x | None => mt b p k end
  | Star a => star_loop (mt a) k (length (rest p)) p
  | WordB => if boundary p then k p else None
  end.

(** ** Rules *)

Record rule : Type := Rule { keep : re; secret : re; mask : string }.

(** A match at [p]: where the kept prefix ends and where the match ends. *)
Definition match_here (ru : rule) (p : pos) : option (pos * pos) :=
  mt (keep ru) p (λ q, mt (secret ru) q (λ e, Some (q, e))).

Definition taken (p q : pos) : list (N * string) :=
  take (length (rest p) - length (rest q)) (rest p).

Definition text (l : list (N * string)) : string := concat_strings (map snd l).

(** [MatchString]. *)
Fixpoint search (ru : rule) (n : nat) (p : pos) : bool :=
  match match_here ru p with
  | Some _ => true
  | None => match n with O => false | S n' => search ru n' (advance p) end
  end.

Definition start (s : string) : pos := Pos None (runes s).

Definition MatchString (ru : rule) (s : string) : bool := search ru (String.length s) (start s).

(** [ReplaceAllString], for a template that is the kept prefix followed by
    the mask.  [n] bounds the runes left. *)
Fixpoint replace (ru : rule) (n : nat) (p : pos) : string :=
  match n with
  | O => text (rest p)
  | S n' =>
      match rest p with
      | [] => EmptyString
      | c :: _ =>
          match match_here ru p with
          | Some (q, e) => text (taken p q) +:+ mask ru +:+ replace ru n' e
          | None => c.2 +:+ replace ru n' (advance p)
          end
      end
  end.

Definition ReplaceAll (ru : rule) (s : string) : string := replace ru (String.length s) (start s).

(** ** The patterns of the package *)

Definition rune (a : ascii) : N := byte a.
Definition chr (a : ascii) : re := Cls (λ r, (r =? rune a)%N).

(** Simple case folding: an ASCII letter folds with its other case, [s] also
    with U+017F and [k] with U+212A. *)
Definition fold_eq (a : ascii) (r : N) : bool :=
  (let l := byte (lower_ascii a) in
   (r =? l) || ((97 <=? l) && (l <=? 122) && (r =? l - 32))
   || ((l =? 115) && (r =? 0x17F)) || ((l =? 107) && (r =? 0x212A)))%N.

Definition chr_ci (a : ascii) : re := Cls (fold_eq a).

Fixpoint lit (s : string) : re :=
  match s with EmptyString => Eps | String a s' => Seq (chr a) (lit s') end.
Fixpoint lit_ci (s : string) : re :=
  match s with EmptyString => Eps | String a s' => Seq (chr_ci a) (lit_ci s') end.

Definition one_of (s : string) (r : N) : bool := existsb (λ a, (r =? rune a)%N) (bytes_of s).
Definition between (lo hi : ascii) (r : N) : bool := ((rune lo <=? r) && (r <=? rune hi))%N.

(** [\s] *)
Definition re_space (r : N) : bool := ((r =? 9) || (r =? 10) || (r =? 12) || (r =? 13) || (r =? 32))%N.
Definition quote : string := String (mk 34) EmptyString.
Definition bslash : string := String (mk 92) EmptyString.

Definition marker : string := "[REDACTED]".

Definition alnum (r : N) : bool := between "A" "Z" r || between "a" "z" r || between "0" "9" r.
Definition key_char (r : N) : bool := alnum r || one_of "+/=_-" r.

Definition wireGuardKeyPattern : rule := Rule
  (Seq WordB (Seq (Alt (lit "PrivateKey") (lit "PresharedKey"))
     (Seq (Star (Cls re_space)) (Seq (chr "=") (Star (Cls re_space))))))
  (Plus (Cls key_char)) marker.

Definition password_char (r : N) : bool := negb (re_space r || one_of ",;&" r).

Definition passwordPattern : rule := Rule
  (Seq WordB (lit_ci "password=")) (Plus (Cls password_char)) marker.

Definition not_quote_bslash (r : N) : bool := negb (one_of (quote +:+ bslash) r).
Definition json_bare (r : N) : bool := negb (re_space r || one_of ",}]" r).
Definition re_dot (r : N) : bool := negb (r =? 10)%N.

Definition json_string : re :=
  Seq (lit quote) (Seq (Star (Cls not_quote_bslash))
    (Seq (Star (Seq (lit bslash) (Seq (Cls re_dot) (Star (Cls not_quote_bslash))))) (lit quote))).

Definition jsonSecretPattern : rule := Rule
  (Seq (lit quote) (Seq
     (Alt (lit_ci "privateKey") (Alt (lit_ci "preshared_key") (Alt (lit_ci "secret")
       (Alt (lit_ci "password") (lit_ci "uuid")))))
     (Seq (lit quote) (Seq (Star (Cls re_space)) (Seq (chr ":") (Star (Cls re_space)))))))
  (Alt json_string (Plus (Cls json_bare))) (quote +:+ marker +:+ quote).

Definition hex_char (r : N) : bool := between "0" "9" r || between "a" "f" r || between "A" "F" r.
Definition hexes (n : nat) : re := Rep n (Cls hex_char).

Definition uuidPattern : rule := Rule WordB
  (Seq (hexes 8) (Seq (chr "-") (Seq (hexes 4) (Seq (chr "-") (Seq (hexes 4) (Seq (chr "-")
    (Seq (hexes 4) (Seq (chr "-") (Seq (hexes 12) WordB))))))))) marker.

(** One step of [RedactSecrets]: test, then replace. *)
Definition redact_pass (ru : rule) (s : string) : string :=
  if MatchString ru s then ReplaceAll ru s else s.

Definition RedactSecrets (s : string) : string :=
  if String.eqb s EmptyString then s
  else redact_pass uuidPattern
         (redact_pass jsonSecretPattern
            (redact_pass passwordPattern (redact_pass wireGuardKeyPattern s))).

(** ** The package's tests *)

Example redact_wireguard :
  RedactSecrets "PrivateKey = abcdefghijklmnopqrstuvwxyz0123456789+/= PresharedKey=zyx9+/="
  = "PrivateKey = [REDACTED] PresharedKey=[REDACTED]".
Proof. vm_compute. done. Qed.

Example redact_password :
  RedactSecrets "dial failed: user=agent password=correct-horse-battery-staple host=example"
  = "dial failed: user=agent password=[REDACTED] host=example".
Proof. vm_compute. done. Qed.

Example redact_uuid :
  RedactSecrets "operation 123e4567-e89b-12d3-a456-426614174000 failed" = "operation [REDACTED] failed".
Proof. vm_compute. done. Qed.

Example redact_json :
  RedactSecrets ("{" +:+ quote +:+ "privateKey" +:+ quote +:+ ":" +:+ quote +:+ "abc" +:+ quote +:+ "}")
  = "{" +:+ quote +:+ "privateKey" +:+ quote +:+ ":" +:+ quote +:+ "[REDACTED]" +:+ quote +:+ "}".
Proof. vm_compute. done. Qed.

(** ** What the matcher finds *)

(** The declarative reading of an expression: what it matches between two
    positions, whatever the order of preference. *)
Inductive matches : re → pos → pos → Prop :=
| M_eps p : matches Eps p p
| M_cls f o c t : f c.1 = true → matches (Cls f) (Pos o (c :: t)) (Pos (Some c.1) t)
| M_seq a b p q e : matches a p q → matches b q e → matches (Seq a b) p e
| M_alt_l a b p q : matches a p q → matches (Alt a b) p q
| M_alt_r a b p q : matches b p q → matches (Alt a b) p q
| M_star_nil a p : matches (Star a) p p
| M_star_more a p q e :
    matches a p q → length (rest q) < length (rest p) → matches (Star a) q e → matches (Star a) p e
| M_word p : boundary p = true → matches WordB p p.

Create HintDb redact.
#[export] Hint Constructors matches : redact.

Lemma star_loop_S {A} turn (k : pos → option A) n p :
  star_loop turn k (S n) p =
  match turn p (λ q, if length (rest q) <? length (rest p) then star_loop turn k n q else None) with
  | Some x => Some x
  | None => k p
  end.
Proof. done. Qed.

Lemma star_loop_ext {A} turn (k k' : pos → option A) n p :
  (∀ p j j', (∀ q, j q = j' q) → turn p j = turn p j') → (∀ q, k q = k' q) →
  star_loop turn k n p = star_loop turn k' n p.
Proof.
  intros Ht Hk. revert p. induction n as [|n IH]; intros p; [by apply Hk|]. rewrite !star_loop_S.
  rewrite (Ht p _ (λ q, if length (rest q) <? length (rest p) then star_loop turn k' n q else None)).
  - by rewrite Hk.
  - intros q. by rewrite IH.
Qed.

Lemma mt_ext {A} r p (k k' : pos → option A) : (∀ q, k q = k' q) → mt r p k = mt r p k'.
Proof.
  revert A p k k'. induction r as [|f|a IHa b IHb|a IHa b IHb|a IHa|]; intros A p k k' Hk; cbn [mt].
  - done.
  - destruct (rest p) as [|c t]; [done|]. by rewrite Hk.
  - apply IHa. intros q. by apply IHb.
  - by rewrite (IHa A p k k'), (IHb A p k k').
  - apply star_loop_ext; [intros; by apply IHa|done].
  - by rewrite Hk.
Qed.

(** A search succeeds at a position the expression matches up to. *)
Lemma mt_sound {A} r p (k : pos → option A) x :
  mt r p k = Some x → ∃ q, matches r p q ∧ k q = Some x.
Proof.
  revert A p k x. induction r as [|f|a IHa b IHb|a IHa b IHb|a IHa|]; intros A p k x; cbn [mt].
  - eauto with redact.
  - destruct p as [o [|c t]]; cbn [rest]; [done|]. destruct (f c.1) eqn:E; [|done]. eauto with redact.
  - intros (q & Hq & (e & He & Hk)%IHb)%IHa. eauto with redact.
  - destruct (mt a p k) as [y|] eqn:E; [intros [= ->]; apply IHa in E as (q & ? & ?)|intros (q & ? & ?)%IHb]; eauto with redact.
  - generalize (length (rest p)). intros n. revert p. induction n as [|n IHn]; intros p; [cbn; eauto with redact|]. rewrite star_loop_S.
    match goal with |- context [mt a p ?k'] => destruct (mt a p k') as [y|] eqn:E end; [|eauto with redact].
    intros [= ->]. apply IHa in E as (q & Hq & E). revert E. cbv beta.
    destruct (Nat.ltb_spec (length (rest q)) (length (rest p))); [|done].
    intros (e & ? & ?)%IHn. eauto with redact.
  - destruct (boundary p) eqn:E; [eauto with redact|done].
Qed.

(** As many turns as there are runes left are enough. *)
Lemma star_loop_fuel {A} a (k : pos → option A) n m p :
  length (rest p) ≤ n → length (rest p) ≤ m → star_loop (mt a) k n p = star_loop (mt a) k m p.
Proof.
  assert (Hend : ∀ n p, length (rest p) = 0 → star_loop (mt a) k n p = k p).
  { intros [|n'] p' Hp'; [done|]. rewrite star_loop_S. destruct (mt a p' _) as [x|] eqn:E; [|done].
    apply mt_sound in E as (q & _ & E). by rewrite Hp' in E. }
  revert m p. induction n as [|n IH]; intros [|m] p Hn Hm; [done| | |].
  1,2: transitivity (k p); [apply Hend; lia|symmetry; apply Hend; lia].
  rewrite !star_loop_S. erewrite mt_ext; [done|]. intros q. cbv beta. destruct (Nat.ltb_spec (length (rest q)) (length (rest p))); [|done].
  apply IH; lia.
Qed.

(** A search does not fail where the expression matches. *)
Lemma mt_complete {A} r p q (k : pos → option A) : matches r p q → k q ≠ None → mt r p k ≠ None.
Proof.
  intros Hm. revert A k. induction Hm as [p|f o c t Hf|a b p q e Ha IHa Hb IHb|a b p q Ha IHa|a b p q Hb IHb|a p|
    a p q e Ha IHa Hl Hs IHs|p Hp]; intros A k Hk; cbn [mt rest].
  - done.
  - by rewrite Hf.
  - by apply IHa, IHb.
  - specialize (IHa A k Hk). by destruct (mt a p k).
  - specialize (IHb A k Hk). by destruct (mt a p k).
  - destruct (length (rest p)); [done|]. rewrite star_loop_S. by case_match.
  - rewrite (star_loop_fuel a k _ (S (length (rest p)))) by lia. rewrite star_loop_S.
    match goal with |- context [mt a p ?k'] => pose proof (IHa A k') as Hx; destruct (mt a p k'); [done|] end.
    destruct Hx; [|done]. cbv beta. destruct (Nat.ltb_spec (length (rest q)) (length (rest p))); [|lia].
    rewrite (star_loop_fuel a k _ (length (rest q))) by lia. by apply IHs.
  - by rewrite Hp.
Qed.

(** A match moves over runes, and knows the last of them. *)
Lemma matches_moves r p q :
  matches r p q → ∃ m, rest p = m ++ rest q ∧ prev q = from_option (λ c, Some c.1) (prev p) (last m).
Proof.
  induction 1 as [p|f o c t Hf|a b p q e Ha (m & E1 & P1) Hb (m' & E2 & P2)|a b p q Ha IHa|a b p q Hb IHb|a p|
    a p q e Ha (m & E1 & P1) Hl Hs (m' & E2 & P2)|p Hp]; try done; try by exists [].
  - by exists [c].
  - exists (m ++ m'). rewrite E1, E2, <-app_assoc. split; [done|]. rewrite last_app. destruct (last m'); by rewrite P2, ?P1.
  - exists (m ++ m'). rewrite E1, E2, <-app_assoc. split; [done|]. rewrite last_app. destruct (last m'); by rewrite P2, ?P1.
Qed.

(** A rule applies at a position exactly when its prefix and its secret match
    there, one after the other. *)
Lemma match_here_iff ru p :
  match_here ru p ≠ None ↔ ∃ q e, matches (keep ru) p q ∧ matches (secret ru) q e.
Proof.
  unfold match_here. split.
  - destruct (mt (keep ru) p _) as [x|] eqn:E; [|done]. intros _.
    apply mt_sound in E as (q & Hq & (e & He & _)%mt_sound). eauto.
  - intros (q & e & Hq & He). apply (mt_complete _ _ q); [done|]. by apply (mt_complete _ _ e).
Qed.

(** The test before a replacement changes nothing. *)
Lemma search_replace ru n p : search ru n p = false → replace ru n p = text (rest p).
Proof.
  revert p. induction n as [|n IH]; intros p; [done|]. cbn [search replace].
  destruct (match_here ru p) as [[q e]|]; [done|]. destruct (rest p) as [|c t] eqn:E; [done|].
  intros Hs. rewrite (IH _ Hs). unfold advance. by rewrite E.
Qed.

Lemma redact_pass_ReplaceAll ru s : redact_pass ru s = ReplaceAll ru s.
Proof.
  unfold redact_pass, MatchString. destruct (search ru _ (start s)) eqn:E; [done|].
  unfold ReplaceAll. rewrite (search_replace _ _ _ E). symmetry. apply runes_concat.
Qed.

(** ** UUIDs in a text, byte by byte *)

Definition hex_byte (a : ascii) : bool := hex_char (byte a).
Definition uuid_byte (a : ascii) : bool := hex_byte a || Ascii.eqb a "-".

(** Five groups of hexadecimal digits with hyphens between them. *)
Definition uuid_text (u : string) : bool :=
  match Split u "-" with
  | [a; b; c; d; e] =>
      forallb (all_bytes hex_byte) [a; b; c; d; e] &&
      bool_decide (map String.length [a; b; c; d; e] = [8; 4; 4; 4; 12])
  | _ => false
  end.

(** Whether a text ends, after what [before] says, or starts with a word
    character. *)
Fixpoint ends_word (before : bool) (s : string) : bool :=
  match s with EmptyString => before | String a s' => ends_word (is_word (byte a)) s' end.
Definition starts_word (s : string) : bool :=
  match s with EmptyString => false | String a _ => is_word (byte a) end.

(** Single-byte runes, and the rune before a position behind them. *)
Definition one (a : ascii) : N * string := (byte a, String a EmptyString).
Definition ones (v : string) : list (N * string) := map one (bytes_of v).
Fixpoint lastp (o : option N) (v : string) : option N :=
  match v with EmptyString => o | String a v' => lastp (Some (byte a)) v' end.

Lemma ends_word_app b s t : ends_word b (s +:+ t) = ends_word (ends_word b s) t.
Proof. revert b. induction s as [|a s IH]; intros b; [done|]. apply IH. Qed.

Lemma lastp_word o v : word_at (lastp o v) = ends_word (word_at o) v.
Proof. revert o. induction v as [|a v IH]; intros o; [done|]. apply IH. Qed.

Lemma ones_app v w : ones (v +:+ w) = ones v ++ ones w.
Proof. unfold ones. by rewrite bytes_of_app, map_app. Qed.

Lemma hex_byte_word a : hex_byte a = true → is_word (byte a) = true.
Proof.
  intros H. assert (implb (hex_byte a) (is_word (byte a)) = true) as Hi
    by (revert a H; intros a _; revert a; apply ascii_all; vm_compute; reflexivity).
  by rewrite H in Hi.
Qed.

Lemma high_foreign a : high a = true → uuid_byte a = false ∧ is_word (byte a) = false.
Proof.
  intros H. assert (implb (high a) (negb (uuid_byte a) && negb (is_word (byte a))) = true) as Hi
    by (revert a H; intros a _; revert a; apply ascii_all; vm_compute; reflexivity).
  rewrite H in Hi. by apply andb_true_iff in Hi as [?%negb_true_iff ?%negb_true_iff].
Qed.

Lemma ends_hex b v : v ≠ EmptyString → all_bytes hex_byte v = true → ends_word b v = true.
Proof.
  revert b. induction v as [|a v IH]; intros b Hne Hv; [done|]. cbn in Hv. apply andb_true_iff in Hv as [Ha Hv].
  cbn. rewrite (hex_byte_word a Ha). destruct v; [done|]. by apply IH.
Qed.

Lemma ends_high b v : v ≠ EmptyString → all_bytes high v = true → ends_word b v = false.
Proof.
  revert b. induction v as [|a v IH]; intros b Hne Hv; [done|]. cbn in Hv. apply andb_true_iff in Hv as [Ha Hv].
  cbn. destruct (high_foreign a Ha) as [_ ->]. destruct v; [done|]. by apply IH.
Qed.

(** The groups of a UUID. *)
Lemma uuid_groups u :
  uuid_text u = true → ∃ a b c d e,
    u = a +:+ String "-" (b +:+ String "-" (c +:+ String "-" (d +:+ String "-" e))) ∧
    String.length a = 8 ∧ String.length b = 4 ∧ String.length c = 4 ∧ String.length d = 4 ∧ String.length e = 12 ∧
    all_bytes hex_byte a = true ∧ all_bytes hex_byte b = true ∧ all_bytes hex_byte c = true ∧
    all_bytes hex_byte d = true ∧ all_bytes hex_byte e = true.
Proof.
  unfold uuid_text. pose proof (join_Split u "-") as E. destruct (Split u "-") as [|a [|b [|c [|d [|e [|]]]]]]; try done.
  rewrite andb_true_iff, bool_decide_eq_true. cbn. rewrite !andb_true_iff. intros [(? & ? & ? & ? & ? & _) [=]].
  exists a, b, c, d, e. by rewrite <-E.
Qed.

Lemma uuid_bytes u : uuid_text u = true →
  all_bytes uuid_byte u = true ∧ String.length u = 36 ∧ (∀ b, ends_word b u = true) ∧
  ∃ a u', u = String a u' ∧ hex_byte a = true.
Proof.
  intros (a & b & c & d & e & -> & La & Lb & Lc & Ld & Le & Ha & Hb & Hc & Hd & He)%uuid_groups.
  assert (Hx : ∀ v, all_bytes hex_byte v = true → all_bytes uuid_byte v = true).
  { intros v. apply all_bytes_impl. unfold uuid_byte. by intros x ->. }
  split_and!.
  - repeat (rewrite all_bytes_app; cbn [all_bytes]). by rewrite !Hx.
  - repeat (rewrite length_app_str; cbn [String.length]). lia.
  - intros o. repeat (rewrite ends_word_app; cbn [ends_word]). apply ends_hex; [by destruct e|done].
  - destruct a as [|x a]; [done|]. exists x. eexists. split; [done|]. cbn in Ha. by apply andb_true_iff in Ha as [? _].
Qed.

(** ** Where the UUID pattern applies *)

(** What decoding yields: a single ASCII byte, or bytes of which none is. *)
Definition rune_ok (c : N * string) : Prop :=
  (∃ a, c = one a) ∨ ((128 ≤ c.1)%N ∧ c.2 ≠ EmptyString ∧ all_bytes high c.2 = true).

Lemma runes_ok s : Forall rune_ok (runes s).
Proof.
  induction s as [s IH] using (induction_ltof1 _ String.length). unfold ltof in IH.
  destruct (runes_view s) as [->|[(a & s' & -> & _ & E)|[(a & s' & -> & E)|(r & a & b & bs & s' & -> & E & Hh)]]].
  - constructor.
  - rewrite E. constructor; [left; by exists a|apply IH; simpl; lia].
  - rewrite E. constructor; [|apply IH; simpl; lia]. right. split_and!; [done|done|].
    cbn. rewrite andb_true_r. destruct (is_ascii a) eqn:Ea.
    + rewrite (runes_cons_ascii a s' Ea) in E. injection E as E. unfold is_ascii in Ea. by rewrite E in Ea.
    + unfold is_ascii in Ea. apply N.leb_le. by apply N.ltb_ge in Ea.
  - rewrite E. constructor; [|apply IH; rewrite length_app_str; simpl; lia]. right. cbn [fst snd]. split_and!; [|done|done].
    destruct (N.lt_ge_cases r 128) as [Hlt|]; [|done].
    destruct (runes_small (String a (String b bs) +:+ s') r (String a (String b bs))) as (x & Hx & _); [|done|done].
    rewrite E. by apply list_elem_of_here.
Qed.

Lemma hexes_complete v o l :
  all_bytes hex_byte v = true → matches (hexes (String.length v)) (Pos o (ones v ++ l)) (Pos (lastp o v) l).
Proof.
  revert o. induction v as [|a v IH]; intros o Hv; [constructor|]. cbn in Hv. apply andb_true_iff in Hv as [Ha Hv].
  apply (M_seq _ _ _ (Pos (Some (byte a)) (ones v ++ l))); [by apply (M_cls _ o (one a))|by apply IH].
Qed.

(** A group of digits and the hyphen after it. *)
Lemma group_complete n v s o l r e :
  String.length v = n → all_bytes hex_byte v = true →
  matches r (Pos (Some (byte "-")) (ones s ++ l)) e →
  matches (Seq (hexes n) (Seq (chr "-") r)) (Pos o (ones (v +:+ String "-" s) ++ l)) e.
Proof.
  intros <- Hv Hr. rewrite ones_app, <-app_assoc. eapply M_seq; [by apply hexes_complete|].
  eapply M_seq; [|exact Hr]. by apply (M_cls _ _ (one "-")).
Qed.

(** A UUID between non-word characters is found. *)
Lemma uuid_complete u o l :
  uuid_text u = true → word_at o = false → word_at (fst <$> head l) = false →
  match_here uuidPattern (Pos o (ones u ++ l)) ≠ None.
Proof.
  intros Hu Ho Hl. apply match_here_iff.
  destruct (uuid_groups u Hu) as (a & b & c & d & e & -> & La & Lb & Lc & Ld & Le & Ha & Hb & Hc & Hd & He).
  eexists _, (Pos (lastp (Some (byte "-")) e) l). split.
  - apply M_word. unfold boundary. destruct a as [|x a]; [done|]. cbn in Ha. apply andb_true_iff in Ha as [Hx _].
    change (xorb (word_at o) (is_word (byte x)) = true). by rewrite Ho, (hex_byte_word x Hx).
  - do 4 (apply group_complete; [done|done|]). rewrite <-Le. eapply M_seq; [by apply hexes_complete|].
    apply M_word. unfold boundary. cbn [prev rest]. by rewrite Hl, lastp_word, ends_hex by (by destruct e).
Qed.

Lemma Rep_last n f p q :
  matches (Rep (S n) (Cls f)) p q → ∃ c, prev q = Some c ∧ f c = true.
Proof.
  revert p. induction n as [|n IH]; intros p Hm; inversion Hm as [| |? ? ? m ? H1 H2| | | | |]; subst.
  - inversion H2; subst. inversion H1; subst. eauto.
  - by apply IH in H2.
Qed.

Lemma matches_shorter r p q : matches r p q → length (rest q) ≤ length (rest p).
Proof. intros (m & E & _)%matches_moves. rewrite E, length_app. lia. Qed.

Lemma matches_suffix r p q : matches r p q → Forall rune_ok (rest p) → Forall rune_ok (rest q).
Proof. intros (m & E & _)%matches_moves. rewrite E, Forall_app. naive_solver. Qed.

(** What is found ends with a digit, before a non-word character. *)
Lemma uuid_sound p e :
  matches (secret uuidPattern) p e →
  length (rest e) < length (rest p) ∧ word_at (prev e) = true ∧ word_at (fst <$> head (rest e)) = false.
Proof.
  intros Hm. cbn [secret uuidPattern] in Hm.
  assert (Hend : ∀ r p, matches (Seq (hexes 4) (Seq (chr "-") r)) p e → ∃ q, matches r q e).
  { intros r p' Hp. inversion Hp as [| |? ? ? m ? _ H2| | | | |]; subst. inversion H2; subst. eauto. }
  inversion Hm as [| |? ? ? q1 ? H1 H2| | | | |]; subst. inversion H2 as [| |? ? ? q2 ? H3 H4| | | | |]; subst.
  pose proof (matches_shorter _ _ _ H1). pose proof (matches_shorter _ _ _ H4).
  inversion H3 as [|? ? c l Hc| | | | | |]; subst. cbn [rest length] in *.
  apply Hend in H4 as (q & H4). apply Hend in H4 as (q' & H4). apply Hend in H4 as (q'' & H4).
  inversion H4 as [| |? ? ? m ? H5 H6| | | | |]; subst. apply Rep_last in H5 as (x & Hx & Hhex).
  inversion H6 as [| | | | | | |? Hb]; subst. assert (Hw : word_at (prev e) = true).
  { rewrite Hx. cbn. unfold hex_char, between, rune, is_word in *. clear -Hhex. cbn in Hhex. unfold byte in *. cbn in Hhex.
    rewrite !orb_true_iff, !andb_true_iff, !N.leb_le in *. lia. }
  split_and!; [lia|done|]. unfold boundary in Hb. rewrite Hw in Hb. by apply negb_true_iff.
Qed.

(** One step of the replacement: a match at the position, or one rune. *)
Lemma replace_view n o c t :
  (∃ e, length (rest e) ≤ length t ∧ (Forall rune_ok (c :: t) → Forall rune_ok (rest e)) ∧
        boundary (Pos o (c :: t)) = true ∧ word_at (prev e) = true ∧ word_at (fst <$> head (rest e)) = false ∧
        replace uuidPattern (S n) (Pos o (c :: t)) = marker +:+ replace uuidPattern n e) ∨
  (match_here uuidPattern (Pos o (c :: t)) = None ∧
   replace uuidPattern (S n) (Pos o (c :: t)) = c.2 +:+ replace uuidPattern n (Pos (Some c.1) t)).
Proof.
  cbn [replace rest]. destruct (match_here uuidPattern (Pos o (c :: t))) as [[q e]|] eqn:E; [left|by right].
  unfold match_here in E. apply mt_sound in E as (q' & Hq & (e' & He & [= -> ->])%mt_sound).
  inversion Hq as [| | | | | | |? Hb]; subst. exists e. pose proof (matches_suffix _ _ _ He).
  apply uuid_sound in He as (? & ? & ?). cbn [rest length] in *. split_and!; try done; [lia|].
  unfold taken. by rewrite Nat.sub_diag.
Qed.
(** ** What the replacement leaves *)

(** Characters that a UUID has not cannot be inside an occurrence of one. *)
Lemma occurrence_after m t x u y :
  all_bytes uuid_byte u = true → u ≠ EmptyString → all_bytes (λ a, negb (uuid_byte a)) m = true →
  x +:+ u +:+ y = m +:+ t → ∃ x', x = m +:+ x' ∧ x' +:+ u +:+ y = t.
Proof.
  intros Hu Hne. revert x. induction m as [|a m IH]; intros x Hm; [by exists x|].
  cbn in Hm. apply andb_true_iff in Hm as [Ha%negb_true_iff Hm]. rewrite app_cons_str. destruct x as [|b x].
  - destruct u as [|b u]; [done|]. intros [= -> _]. cbn in Hu. by rewrite Ha in Hu.
  - rewrite app_cons_str. intros [= -> E]. destruct (IH x Hm E) as (x' & -> & E'). by exists x'.
Qed.

(** Nor can a shorter text that ends with such a character. *)
Lemma occurrence_after_end m a t x u y :
  all_bytes uuid_byte u = true → String.length m < String.length u → uuid_byte a = false →
  x +:+ u +:+ y = m +:+ String a t → ∃ x', x = m +:+ String a x' ∧ x' +:+ u +:+ y = t.
Proof.
  intros Hu Hlen Ha.
  assert (Hin : ∀ m u, all_bytes uuid_byte u = true → String.length m < String.length u →
            u +:+ y ≠ m +:+ String a t).
  { clear -Ha. intros m. induction m as [|c m IH]; intros [|b u] Hu Hlen E; cbn in *; try lia;
      apply andb_true_iff in Hu as [Hb Hu]; injection E as -> E.
    - by rewrite Ha in Hb.
    - apply (IH u Hu); [lia|done]. }
  revert x Hlen. induction m as [|c m IH]; intros [|b x] Hlen; rewrite ?app_cons_str, ?app_nil_str; intros E.
  - by destruct (Hin EmptyString u Hu Hlen).
  - injection E as -> E. by exists x.
  - by destruct (Hin (String c m) u Hu Hlen).
  - injection E as -> E. destruct (IH x) as (x' & -> & E'); [simpl in Hlen; lia|done|]. by exists x'.
Qed.

(** Digits and hyphens in the result were in the text. *)
Lemma replace_kept v n o l r :
  length l ≤ n → Forall rune_ok l → all_bytes uuid_byte v = true →
  replace uuidPattern n (Pos o l) = v +:+ r →
  ∃ l' n', l = ones v ++ l' ∧ length l' ≤ n' ∧ r = replace uuidPattern n' (Pos (lastp o v) l').
Proof.
  revert n o l. induction v as [|a v IH]; intros n o l Hn Hl Hv E; [by exists l, n|].
  cbn in Hv. apply andb_true_iff in Hv as [Ha Hv]. destruct l as [|c t]; [by destruct n|].
  destruct n as [|n]; [simpl in Hn; lia|]. apply Forall_cons in Hl as [Hc Ht].
  destruct (replace_view n o c t) as [(e & _ & _ & _ & _ & _ & E')|[_ E']]; rewrite E' in E.
  - injection E as <- _. by vm_compute in Ha.
  - destruct Hc as [(b & ->)|(_ & Hne & Hh)].
    + injection E as -> E. destruct (IH n _ t ltac:(simpl in Hn; lia) Ht Hv E) as (l' & n' & -> & ? & ->).
      by exists l', n'.
    + destruct (c.2) as [|b bs]; [done|]. injection E as -> _. cbn in Hh. apply andb_true_iff in Hh as [Hh _].
      apply high_foreign in Hh as [Hh _]. by rewrite Hh in Ha.
Qed.

(** After a digit that was kept, the result goes on with a word character
    when the text does. *)
Lemma replace_starts n o l :
  length l ≤ n → Forall rune_ok l → word_at o = true →
  starts_word (replace uuidPattern n (Pos o l)) = false → word_at (fst <$> head l) = false.
Proof.
  intros Hn Hl Ho. destruct l as [|c t]; [done|]. destruct n as [|n]; [simpl in Hn; lia|].
  apply Forall_cons in Hl as [Hc _]. destruct (replace_view n o c t) as [(e & _ & _ & Hb & _)|[_ ->]].
  - intros _. unfold boundary in Hb. cbn [prev rest] in Hb. rewrite Ho in Hb. by apply negb_true_iff in Hb.
  - destruct Hc as [(b & ->)|(Hc & _)]; [done|]. intros _. cbn. unfold is_word.
    rewrite !orb_false_iff, !andb_false_iff, N.eqb_neq, !N.leb_gt. lia.
Qed.

(** No UUID stands alone in the result. *)
Lemma replace_no_uuid n o l x u y :
  length l ≤ n → Forall rune_ok l → uuid_text u = true →
  replace uuidPattern n (Pos o l) = x +:+ u +:+ y →
  ends_word (word_at o) x = true ∨ starts_word y = true.
Proof.
  intros Hn Hl Hu. destruct (uuid_bytes u Hu) as (Hub & Hlen & Hend & a & u' & Eu & Ha).
  revert o l x Hn Hl. induction n as [|n IH]; intros o [|c t] x Hn Hl; try (simpl in Hn; lia);
    try (subst u; by destruct x).
  pose proof Hl as Hl'. apply Forall_cons in Hl as [Hc Ht].
  destruct (replace_view n o c t) as [(e & Hle & Hok & Hb & Hw & Hh & ->)|[Hnone ->]]; intros E.
  - destruct (occurrence_after_end "[REDACTED" "]" (replace uuidPattern n e) x u y Hub) as (x' & -> & E');
      [rewrite Hlen; simpl; lia|done|done|].
    destruct x' as [|b x']; [exfalso|].
    + destruct e as [oe le]. rewrite Eu in E'. cbn [rest prev] in *.
      destruct (replace_kept (String a EmptyString) n oe le (u' +:+ y)) as (l' & n' & -> & _); [simpl in Hn; lia|by apply Hok| | |].
      * cbn. unfold uuid_byte. by rewrite Ha.
      * by rewrite <-E'.
      * change (is_word (byte a) = false) in Hh. by rewrite (hex_byte_word a Ha) in Hh.
    + destruct e as [oe le]. cbn [rest prev] in *.
      destruct (IH oe le (String b x')) as [H|H]; [simpl in Hn; lia|by apply Hok|done| |by right].
      left. change (ends_word (word_at o) ("[REDACTED]" +:+ String b x') = true). by rewrite ends_word_app.
  - destruct Hc as [(b & ->)|(Hbig & Hne & Hhigh)].
    + destruct x as [|b' x].
      * rewrite Eu in E. injection E as -> E. cbn [ends_word].
        destruct (word_at o) eqn:Ho; [by left|right]. destruct (starts_word y) eqn:Hy; [done|exfalso].
        assert (Hub' : all_bytes uuid_byte u' = true) by (rewrite Eu in Hub; cbn in Hub; by apply andb_true_iff in Hub as [_ ?]).
        destruct (replace_kept u' n (Some (byte a)) t y ltac:(simpl in Hn; lia) Ht Hub' E) as (l' & n' & -> & Hn' & ->).
        apply Forall_app in Ht as [_ Hl2].
        apply replace_starts in Hy; [|done|done|].
        -- apply (uuid_complete u o l' Hu Ho Hy). rewrite Eu. exact Hnone.
        -- rewrite lastp_word. rewrite Eu in Hend. exact (Hend false).
      * injection E as -> E. by apply (IH (Some (byte b')) t x); [simpl in Hn; lia| |].
    + destruct (occurrence_after c.2 (replace uuidPattern n (Pos (Some c.1) t)) x u y) as (x' & -> & E');
        [done|by rewrite Eu| |done|].
      { eapply all_bytes_impl, Hhigh. intros b Hb. by destruct (high_foreign b Hb) as [-> _]. }
      rewrite ends_word_app, (ends_high _ c.2) by done.
      destruct (IH (Some c.1) t x') as [H|H]; [simpl in Hn; lia|done|by symmetry| |by right]. left.
      replace (word_at (Some c.1)) with false in H; [done|]. cbn. unfold is_word. symmetry.
      rewrite !orb_false_iff, !andb_false_iff, N.eqb_neq, !N.leb_gt. lia.
Qed.

Lemma runes_length s : length (runes s) ≤ String.length s.
Proof.
  rewrite <-(runes_concat s) at 2. pose proof (λ r, runes_nonempty s r) as Hne. revert Hne.
  induction (runes s) as [|r l IH]; intros Hne; [done|]. cbn [map]. rewrite concat_strings_cons, length_app_str. cbn [length].
  assert (length l ≤ String.length (concat_strings (map snd l))) by (apply IH; intros r' Hr'; apply Hne; by constructor).
  assert (r.2 ≠ EmptyString) by (apply Hne; constructor). destruct (r.2); [done|]. simpl. lia.
Qed.

Lemma RedactSecrets_last s :
  ∃ s', RedactSecrets s = ReplaceAll uuidPattern s'.
Proof.
  unfold RedactSecrets. destruct (String.eqb_spec s EmptyString) as [->|]; [by exists EmptyString|].
  eexists. apply redact_pass_ReplaceAll.
Qed.

(** A text in which no UUID stands alone, that is, without a word character
    on either side. *)
Definition no_uuid (t : string) : Prop :=
  ∀ x u y, t = x +:+ u +:+ y → uuid_text u = true → ends_word false x = true ∨ starts_word y = true.

Lemma ReplaceAll_no_uuid s : no_uuid (ReplaceAll uuidPattern s).
Proof.
  intros x u y E Hu. apply (replace_no_uuid (String.length s) None (runes s) x u y); [apply runes_length|apply runes_ok|done..].
Qed.

Lemma redacted s : no_uuid (RedactSecrets s).
Proof. destruct (RedactSecrets_last s) as [s' ->]. apply ReplaceAll_no_uuid. Qed.

#[global] Arguments RedactSecrets : simpl never.

(** ** Properties *)

(** C17: Redaction leaves no UUID: whatever bytes the text has, in the result every
    sequence of characters that is written like a UUID has a word character
    directly before or after it. *)
Theorem RedactSecrets_no_uuid (s : string) : no_uuid (RedactSecrets s).
Proof. apply redacted. Qed.

(** Only UUIDs that stand alone are found: after an underscore, one stays. *)
Example uuid_after_underscore :
  RedactSecrets "op_123e4567-e89b-12d3-a456-426614174000" = "op_123e4567-e89b-12d3-a456-426614174000".
Proof. vm_compute. reflexivity. Qed.
