(* ===== verification/GoError.v ===== *)
(** * GoError: the error values of the program, their texts and the
    traversals [errors.Is] and [errors.As].

    [error] is an interface in Go; the constructors are the implementations
    the agent creates or inspects. *)

From Stdlib Require Import ZArith.
From S2P Require Import Prelude GoStrings GoFmt Redact.

Inductive error : Type :=
| ErrorString (msg : string)                       (* errors.New, fmt.Errorf without %w *)
| WrapError (pre : string) (err : error) (post : string)        (* fmt.Errorf with one %w *)
| HTTPError (StatusCode : Z) (Body : string)                    (* internal/api *)
| SafeOperationError (OpType OpID : string) (err : error)       (* internal/executor *)
| RedirectError (OpType Target : string)                        (* internal/executor *)
| Canceled                                                      (* context.Canceled *)
| DeadlineExceeded                                              (* context.DeadlineExceeded *)
| URLError (op url : string) (err : error)                      (* *url.Error *)
| NetError (msg : string) (timeout deadline : bool)             (* another net.Error *)
| PathError (op path : string) (notExist : bool) (msg : string) (* *fs.PathError *)
| JSONError (msg : string).                                     (* encoding/json *)

Notation res := (result error).

(** The URL in a transport error is already percent-encoded, so quoting it
    escapes nothing outside ASCII. *)
Definition quote_url (url : string) : string :=
  @Quote {| unicode_lower := id; unicode_print := λ _, true |} url.

(** [err.Error()]. *)
Fixpoint Error (e : error) : string :=
  match e with
  | ErrorString msg => msg
  | WrapError pre err post => pre +:+ Error err +:+ post
  | HTTPError code body => "http " +:+ itoa code +:+ ": " +:+ body
  | SafeOperationError opType opID err =>
      RedactSecrets ("executor: " +:+ opType +:+ " " +:+ opID +:+ ": " +:+ Error err)
  | RedirectError opType target =>
      opType +:+ ": not yet implemented — scheduled for " +:+ target
  | Canceled => "context canceled"
  | DeadlineExceeded => "context deadline exceeded"
  | URLError op url err => op +:+ " " +:+ quote_url url +:+ ": " +:+ Error err
  | NetError msg _ _ => msg
  | PathError op path _ msg => op +:+ " " +:+ path +:+ ": " +:+ msg
  | JSONError msg => msg
  end.

Definition Unwrap (e : error) : option error :=
  match e with
  | WrapError _ err _ | SafeOperationError _ _ err | URLError _ _ err => Some err
  | _ => None
  end.

(** [errors.Is]: some error of the chain satisfies the test. *)
Fixpoint errors_Is (p : error → bool) (e : error) : bool :=
  p e || match e with
         | WrapError _ err _ | SafeOperationError _ _ err | URLError _ _ err => errors_Is p err
         | _ => false
         end.

Definition is_Canceled (e : error) : bool := match e with Canceled => true | _ => false end.

(** The time-outs the [net] package sets are [context.DeadlineExceeded] for
    [errors.Is]; a system call's [ETIMEDOUT] is a time-out, but is not. *)
Definition is_DeadlineExceeded (e : error) : bool :=
  match e with DeadlineExceeded => true | NetError _ _ deadline => deadline | _ => false end.

Definition is_NotExist (e : error) : bool :=
  match e with PathError _ _ ne _ => ne | _ => false end.

(** [Timeout() bool], where the error has the method. *)
Fixpoint Timeout_ (e : error) : option bool :=
  match e with
  | DeadlineExceeded => Some true
  | NetError _ t _ => Some t
  | URLError _ _ err => Some (default false (Timeout_ err))
  | PathError _ _ _ _ => Some false
  | _ => None
  end.

(** [errors.As(err, &netErr)] for [net.Error]: the first error of the chain
    that has the methods of the interface, as its [Timeout()]. *)
Fixpoint as_net_error (e : error) : option bool :=
  match e with
  | URLError _ _ _ | NetError _ _ _ | DeadlineExceeded => Timeout_ e
  | WrapError _ err _ | SafeOperationError _ _ err => as_net_error err
  | _ => None
  end.

(** fmt.Errorf("<pre>%w", err) *)
Definition wrapf (pre : string) (err : error) : error := WrapError pre err EmptyString.

(** [redact.SafeError]; a nil error is [None]. *)
Definition SafeError (err : option error) : string :=
  match err with None => EmptyString | Some e => RedactSecrets (Error e) end.

Lemma errors_Is_Unwrap p e e' : Unwrap e = Some e' → errors_Is p e' = true → errors_Is p e = true.
Proof. destruct e; simpl; intros ?; simplify_eq; intros ->; apply orb_true_r. Qed.
