(* ===== verification/GoOs.v ===== *)
(** * GoOs: the calls of package os the agent makes, the file system behind
    them, and writing a file through a temporary one.

    [FileSystem] is the interface; [Files] is what the host documents for it, as
    a table from paths to contents and modes.  An open file is named by its
    path, since every file the agent opens for writing is a fresh temporary
    one. *)

From Stdlib Require Import Ascii NArith ZArith.
From S2P Require Import Prelude GoStrings GoError.

Class FileSystem (W : Type) := {
  ReadFile : string → M W (res string);
  Stat : string → M W (res unit);
  CreateTemp : string → string → M W (res string);
  Write : string → string → M W (res unit);
  Chmod : string → Z → M W (res unit);
  Close : string → M W (res unit);
  Remove : string → M W (res unit);
  Rename : string → string → M W (res unit);
}.

(** Content and permission bits. *)
Notation FileTable := (gmap string (string * Z)).

Definition mode_0600 : Z := 384.

(** The parts of a [CreateTemp] pattern around its star. *)
Definition temp_suffix : string := ".tmp".

(** What each call does to the table; a failed write may leave any content in
    the file it was writing. *)
Class Files (W : Type) `{FileSystem W} := {
  files : W → FileTable;
  read_same p w : files (ReadFile p w).2 = files w;
  read_ok p w : match (ReadFile p w).1 with
                | Ok data => ∃ m, files w !! p = Some (data, m)
                | Err e => errors_Is is_NotExist e = true → files w !! p = None
                end;
  read_missing p w : files w !! p = None → ∃ e, (ReadFile p w).1 = Err e ∧ errors_Is is_NotExist e = true;
  stat_same p w : files (Stat p w).2 = files w;
  create_spec dir pat w :
    match (CreateTemp dir (pat +:+ "*" +:+ temp_suffix) w).1 with
    | Ok tmp => files w !! tmp = None ∧ HasSuffix tmp temp_suffix = true ∧
        files (CreateTemp dir (pat +:+ "*" +:+ temp_suffix) w).2 = <[tmp := ("", mode_0600)]> (files w)
    | Err _ => files (CreateTemp dir (pat +:+ "*" +:+ temp_suffix) w).2 = files w
    end;
  write_spec tmp data w m : files w !! tmp = Some ("", m) →
    match (Write tmp data w).1 with
    | Ok _ => files (Write tmp data w).2 = <[tmp := (data, m)]> (files w)
    | Err _ => ∃ part, files (Write tmp data w).2 = <[tmp := (part, m)]> (files w)
    end;
  chmod_spec tmp perm w : files (Chmod tmp perm w).2 =
    match (Chmod tmp perm w).1 with
    | Ok _ => alter (λ c, (c.1, perm)) tmp (files w) | Err _ => files w end;
  close_same tmp w : files (Close tmp w).2 = files w;
  remove_spec p w : files (Remove p w).2 =
    match (Remove p w).1 with Ok _ => delete p (files w) | Err _ => files w end;
  rename_spec p q w c : files w !! p = Some c →
    files (Rename p q w).2 =
    match (Rename p q w).1 with Ok _ => <[q := c]> (delete p (files w)) | Err _ => files w end;
}.

(** The calls of a program with the world after each of them, for statements
    about what a crash between two calls leaves. *)
Definition Watched (W : Type) : Type := W * list W.

Definition watched {W A} (c : M W A) : M (Watched W) A :=
  λ w, let '(a, w') := c w.1 in (a, (w', w.2 ++ [w'])).

#[export] Instance watching {W} `{FileSystem W} : FileSystem (Watched W) := {|
  ReadFile := λ p, watched (ReadFile p);
  Stat := λ p, watched (Stat p);
  CreateTemp := λ dir pat, watched (CreateTemp dir pat);
  Write := λ tmp data, watched (Write tmp data);
  Chmod := λ tmp perm, watched (Chmod tmp perm);
  Close := λ tmp, watched (Close tmp);
  Remove := λ p, watched (Remove p);
  Rename := λ p q, watched (Rename p q);
|}.

(** ** Filling a temporary file *)

Section Atomic.
Context {W : Type} `{FileSystem W}.

(** [tmp.Close(); os.Remove(tmpPath); return err], both errors dropped. *)
Definition discard (close : bool) (tmp : string) (err : error) : M W (res unit) :=
  _ ← (if close then _ ← Close tmp; mret tt else mret tt);
  _ ← Remove tmp;
  mret (Err err).

(** Write, chmod and close, giving up as the code does at the first error;
    [wrap] is how the caller reports one. *)
Definition fill_temp (wrap : string → error → error) (tmp data : string) (perm : Z) : M W (res unit) :=
  r ← Write tmp data;
  match r with
  | Err err => discard true tmp (wrap "write" err)
  | Ok _ =>
      r ← Chmod tmp perm;
      match r with
      | Err err => discard true tmp (wrap "chmod" err)
      | Ok _ =>
          r ← Close tmp;
          match r with
          | Err err => discard false tmp (wrap "close" err)
          | Ok _ => mret (Ok tt)
          end
      end
  end.
End Atomic.

(** ** The frame of a temporary file *)

(** The two worlds differ at most in the file [tmp]. *)
Definition framed `{Files W} (tmp : string) (w w' : W) : Prop :=
  delete tmp (files w') = delete tmp (files w).

Section Frame.
Context {W : Type} {FS : FileSystem W} {FI : Files W}.

Lemma framed_refl tmp w : framed tmp w w.
Proof. done. Qed.

Lemma framed_trans tmp w1 w2 w3 : framed tmp w1 w2 → framed tmp w2 w3 → framed tmp w1 w3.
Proof. unfold framed. congruence. Qed.

Lemma framed_lookup tmp w w' p : framed tmp w w' → p ≠ tmp → files w' !! p = files w !! p.
Proof.
  unfold framed. intros Hf Hp.
  rewrite <-(lookup_delete_ne (files w') tmp p), <-(lookup_delete_ne (files w) tmp p) by done. by rewrite Hf.
Qed.

Lemma framed_insert tmp w w' c : files w' = <[tmp := c]> (files w) → framed tmp w w'.
Proof. unfold framed. intros ->. apply delete_insert_eq. Qed.

Lemma framed_eq tmp w w' : files w' = files w → framed tmp w w'.
Proof. unfold framed. by intros ->. Qed.

Lemma framed_delete tmp w w' : files w' = delete tmp (files w) → framed tmp w w'.
Proof. unfold framed. intros ->. apply map_eq. intros k. rewrite !lookup_delete. by repeat case_decide. Qed.

Lemma framed_alter tmp w w' f : files w' = alter f tmp (files w) → framed tmp w w'.
Proof. unfold framed. intros ->. apply map_eq. intros k. rewrite !lookup_delete. case_decide; [done|]. by rewrite lookup_alter_ne. Qed.

Lemma close_framed tmp w : framed tmp w (Close tmp w).2.
Proof. apply framed_eq, close_same. Qed.

Lemma remove_framed tmp w : framed tmp w (Remove tmp w).2.
Proof.
  pose proof (remove_spec tmp w) as Hr. destruct (Remove tmp w) as [[]?]; simpl in *;
    [by apply framed_delete|by apply framed_eq].
Qed.

(** Watching changes nothing: the run without the log. *)
Definition unwatched {A} (r : A * Watched W) : A * W := (r.1, r.2.1).

Lemma discard_unwatched close tmp err w log :
  unwatched (discard close tmp err (w, log)) = discard close tmp err w.
Proof.
  unfold unwatched, discard, mbind, M_bind, mret, M_ret. destruct close; cbn [Close Remove watching]; unfold watched; cbn [fst snd].
  - destruct (Close tmp w) as [r1 w1]; cbn [fst snd]. by destruct (Remove tmp w1).
  - by destruct (Remove tmp w).
Qed.

Lemma fill_temp_unwatched wrap tmp data perm w log :
  unwatched (fill_temp wrap tmp data perm (w, log)) = fill_temp wrap tmp data perm w.
Proof.
  unfold fill_temp, mbind, M_bind, mret, M_ret. cbn [Write Chmod Close watching]. unfold watched. cbn [fst snd].
  destruct (Write tmp data w) as [[[]|e] w1]; cbn [fst snd]; [|apply discard_unwatched].
  destruct (Chmod tmp perm w1) as [[[]|e] w2]; cbn [fst snd]; [|apply discard_unwatched].
  destruct (Close tmp w2) as [[[]|e] w3]; cbn [fst snd]; [done|apply discard_unwatched].
Qed.

(** Every world a watched program passes through satisfies [P], up to the one
    it ends in. *)
Definition passes (P : W → Prop) {A} (r : A * Watched W) (log : list W) : Prop :=
  ∃ more, r.2.2 = log ++ more ∧ Forall P more ∧ P r.2.1.

Lemma discard_passes close tmp err w log w0 :
  framed tmp w0 w →
  (discard close tmp err (w, log)).1 = Err err ∧
  passes (framed tmp w0) (discard close tmp err (w, log)) log.
Proof.
  intros H0. unfold discard, mbind, M_bind, mret, M_ret, passes.
  pose proof (close_framed tmp w) as Hc. destruct close; cbn [Close Remove watching]; unfold watched; cbn [fst snd].
  - destruct (Close tmp w) as [r1 w1]; cbn [fst snd] in *.
    pose proof (remove_framed tmp w1) as Hr. destruct (Remove tmp w1) as [r2 w2]; cbn [fst snd] in *.
    assert (framed tmp w0 w1) by eauto using framed_trans. assert (framed tmp w0 w2) by eauto using framed_trans.
    split; [done|]. exists [w1; w2]. split_and!; [by rewrite <-app_assoc| |done]. by repeat constructor.
  - pose proof (remove_framed tmp w) as Hr. destruct (Remove tmp w) as [r2 w2]; cbn [fst snd] in *.
    assert (framed tmp w0 w2) by eauto using framed_trans.
    split; [done|]. exists [w2]. split_and!; [done| |done]. by repeat constructor.
Qed.

Lemma passes_cons P {A} (r : A * Watched W) w1 log :
  P w1 → passes P r (log ++ [w1]) → passes P r log.
Proof.
  intros H1 (more & Hl & ? & ?). exists (w1 :: more). rewrite Hl. split_and!; [by rewrite <-app_assoc|by constructor|done].
Qed.

Lemma fill_temp_passes wrap tmp data perm w log m :
  files w !! tmp = Some ("", m) →
  passes (framed tmp w) (fill_temp wrap tmp data perm (w, log)) log ∧
  ((fill_temp wrap tmp data perm (w, log)).1 = Ok tt →
   files (fill_temp wrap tmp data perm (w, log)).2.1 !! tmp = Some (data, perm)).
Proof.
  intros Hw. unfold fill_temp, mbind, M_bind, mret, M_ret. cbn [Write Chmod Close watching]; unfold watched; cbn [fst snd].
  pose proof (write_spec tmp data w m Hw) as HW.
  destruct (Write tmp data w) as [[[]|e] w1]; cbn [fst snd] in *.
  2: { destruct HW as [part HW]. assert (framed tmp w w1) by by eapply framed_insert.
       destruct (discard_passes true tmp (wrap "write" e) w1 (log ++ [w1]) w) as [Hr Hp]; [done|].
       rewrite Hr. split; [by apply (passes_cons _ _ w1)|done]. }
  assert (framed tmp w w1) as F1 by by eapply framed_insert.
  pose proof (chmod_spec tmp perm w1) as HC.
  destruct (Chmod tmp perm w1) as [[[]|e] w2]; cbn [fst snd] in *.
  2: { assert (framed tmp w w2) by (eapply framed_trans; [done|by apply framed_eq]).
       destruct (discard_passes true tmp (wrap "chmod" e) w2 ((log ++ [w1]) ++ [w2]) w) as [Hr Hp]; [done|].
       rewrite Hr. split; [|done]. apply (passes_cons _ _ w1); [done|]. by apply (passes_cons _ _ w2). }
  assert (framed tmp w w2) as F2 by (eapply framed_trans; [done|by eapply framed_alter]).
  pose proof (close_same tmp w2) as HL.
  destruct (Close tmp w2) as [[[]|e] w3]; cbn [fst snd] in *;
    (assert (framed tmp w w3) as F3 by (eapply framed_trans; [done|by apply framed_eq])).
  - split.
    + exists [w1; w2; w3]. split_and!; [by rewrite <-!app_assoc|by repeat constructor|done].
    + intros _. by rewrite HL, HC, HW, lookup_alter_eq, lookup_insert_eq.
  - destruct (discard_passes false tmp (wrap "close" e) w3 (((log ++ [w1]) ++ [w2]) ++ [w3]) w) as [Hr Hp]; [done|].
    rewrite Hr. split; [|done]. apply (passes_cons _ _ w1); [done|]. apply (passes_cons _ _ w2); [done|].
    by apply (passes_cons _ _ w3).
Qed.
End Frame.

(** ** Replacing a file *)

(** What may be seen, between two calls, of a file [target] that is to be
    replaced by [new] through a temporary file: the old file or the new one,
    and of the other files what was there before. *)
Definition intact `{Files W} (target : string) (new : string * Z) (w w' : W) : Prop :=
  (files w' !! target = files w !! target ∨ files w' !! target = Some new) ∧
  (files w' = files w ∨
   ∃ tmp, files w !! tmp = None ∧ HasSuffix tmp temp_suffix = true ∧
     ∀ p, p ≠ tmp → p ≠ target → files w' !! p = files w !! p).

Section Replaced.
Context {W : Type} {FS : FileSystem W} {FI : Files W}.

Lemma intact_same target new w w' : files w' = files w → intact target new w w'.
Proof. intros Hs. unfold intact. rewrite Hs. split; by left. Qed.

Lemma intact_other target new w w' p :
  intact target new w w' → HasSuffix p temp_suffix = false → p ≠ target → files w' !! p = files w !! p.
Proof.
  intros [_ [->|(tmp & _ & Hsuf & Hp)]] Hns Hne; [done|]. apply Hp; [|done]. congruence.
Qed.

Lemma intact_framed tmp target new w w' :
  files w !! tmp = None → HasSuffix tmp temp_suffix = true → target ≠ tmp → framed tmp w w' →
  intact target new w w'.
Proof.
  intros Hfree Hsuf Hne Hf. split; [left; by eapply framed_lookup|]. right. exists tmp.
  split_and!; [done|done|]. intros p ? _. by eapply framed_lookup.
Qed.

(** A rename of the filled file over the target. *)
Lemma intact_renamed tmp target new w w1 w' :
  files w !! tmp = None → HasSuffix tmp temp_suffix = true → target ≠ tmp → framed tmp w w1 →
  files w' = <[target := new]> (delete tmp (files w1)) → intact target new w w'.
Proof.
  intros Hfree Hsuf Hne Hf Hs. unfold intact. rewrite Hs. split; [right; apply lookup_insert_eq|].
  right. exists tmp. split_and!; [done|done|]. intros p Hp Hpt.
  rewrite lookup_insert_ne, lookup_delete_ne by done. by eapply framed_lookup.
Qed.
End Replaced.

(** ** A file system kept in memory, where every call succeeds that can *)

Definition no_entry (op path : string) : error := PathError op path true "no such file or directory".

#[export] Instance mem_fs : FileSystem FileTable := {|
  ReadFile := λ p w, (match w !! p with Some c => Ok c.1 | None => Err (no_entry "open" p) end, w);
  Stat := λ p w, (match w !! p with Some _ => Ok tt | None => Err (no_entry "stat" p) end, w);
  CreateTemp := λ dir pat w,
    let tmp := dir +:+ "/" +:+ pat +:+ "0" +:+ temp_suffix in
    match w !! tmp with
    | None => (Ok tmp, <[tmp := ("", mode_0600)]> w)
    | Some _ => (Err (PathError "createtemp" tmp false "file exists"), w)
    end;
  Write := λ tmp data w,
    match w !! tmp with
    | Some c => (Ok tt, <[tmp := (c.1 +:+ data, c.2)]> w)
    | None => (Err (no_entry "write" tmp), w)
    end;
  Chmod := λ tmp perm w,
    match w !! tmp with
    | Some c => (Ok tt, alter (λ c, (c.1, perm)) tmp w)
    | None => (Err (no_entry "chmod" tmp), w)
    end;
  Close := λ _ w, (Ok tt, w);
  Remove := λ p w,
    match w !! p with Some _ => (Ok tt, delete p w) | None => (Err (no_entry "remove" p), w) end;
  Rename := λ p q w,
    match w !! p with
    | Some c => (Ok tt, <[q := c]> (delete p w))
    | None => (Err (no_entry "rename" p), w)
    end;
|}.

#[export] Program Instance mem_files : Files FileTable := {| files := id |}.
Next Obligation. done. Qed.
Next Obligation. intros p w. simpl. unfold id. destruct (w !! p) as [[d m]|] eqn:E; simpl; eauto. Qed.
Next Obligation. intros p w Hp. simpl. unfold id in Hp. rewrite Hp. by eexists. Qed.
Next Obligation. done. Qed.
Next Obligation.
  intros dir pat w. simpl. unfold id. destruct (w !! _) eqn:E; simpl; [done|]. split_and!; [done| |done].
  apply HasSuffix_spec. exists (dir +:+ "/" +:+ (pat +:+ "*" +:+ temp_suffix) +:+ "0").
  by rewrite !app_str_assoc.
Qed.
Next Obligation. intros tmp data w m Hw. simpl. unfold id in *. rewrite Hw. simpl. done. Qed.
Next Obligation. intros tmp perm w. simpl. unfold id. by destruct (w !! tmp) eqn:E. Qed.
Next Obligation. done. Qed.
Next Obligation. intros p w. simpl. unfold id. by destruct (w !! p) eqn:E. Qed.
Next Obligation. intros p q w c Hc. simpl. unfold id in *. by rewrite Hc. Qed.
