(* ===== verification/Json.v ===== *)
(** * Json: Go's [encoding/json], as far as the agent relies on it.

    The syntax of documents and their values; a parser that reports the errors
    of Go's scanner; the encoders [Marshal] and [MarshalIndent]; and decoding
    into Go values, where a mismatch in one place is recorded and the rest of
    the document is still decoded. *)

From Stdlib Require Import Ascii NArith ZArith.
From S2P Require Import Prelude GoStrings GoFmt Redact GoError.

(** ** Values *)

Inductive json : Type :=
| JNull
| JBool (b : bool)
| JNum (lit : string)
| JStr (s : string)
| JArr (l : list json)
| JObj (m : list (string * json)).

(** Induction through the nested lists. *)
Definition json_nested_ind (P : json → Prop)
    (fnull : P JNull) (fbool : ∀ b, P (JBool b)) (fnum : ∀ l, P (JNum l)) (fstr : ∀ s, P (JStr s))
    (farr : ∀ l, Forall P l → P (JArr l))
    (fobj : ∀ m, Forall (λ kv, P kv.2) m → P (JObj m)) : ∀ j, P j :=
  fix go j :=
    match j with
    | JNull => fnull
    | JBool b => fbool b
    | JNum l => fnum l
    | JStr s => fstr s
    | JArr l => farr l ((fix gol (l : list json) : Forall P l := match l with
                                      | [] => List.Forall_nil _
                                      | x :: l' => @List.Forall_cons _ P x l' (go x) (gol l') end) l)
    | JObj m => fobj m ((fix gom (m : list (string * json)) : Forall (λ kv, P kv.2) m :=
                           match m with
                           | [] => List.Forall_nil _
                           | kv :: m' => @List.Forall_cons _ (λ kv, P kv.2) kv m' (go kv.2) (gom m') end) m)
    end.

(** ** Encoding *)

Definition u4 (n : N) : string := "\u" +:+ hex_digits 4 n.

(** The escapes of [json.Marshal], HTML escaping included. *)
Definition encode_chunk (c : N * string) : string :=
  match c with
  | (r, String a EmptyString) =>
      let b := byte a in
      (if (r =? RuneError) then u4 RuneError
       else if b =? 34 then bslash +:+ quote
       else if b =? 92 then bslash +:+ bslash
       else if b =? 8 then "\b"
       else if b =? 12 then "\f"
       else if b =? 10 then "\n"
       else if b =? 13 then "\r"
       else if b =? 9 then "\t"
       else if (b <? 32) || (b =? 60) || (b =? 62) || (b =? 38) then u4 b
       else String a EmptyString)%N
  | (r, bs) => if ((r =? 0x2028) || (r =? 0x2029))%N then u4 r else bs
  end.

Definition encode_string (s : string) : string :=
  quote +:+ concat_strings (map encode_chunk (runes s)) +:+ quote.

(** The encoder, with the white space it writes at depth [d] ([nl d]) and
    after a colon. *)
Fixpoint print (nl : nat → string) (colon : string) (d : nat) (j : json) : string :=
  match j with
  | JNull => "null"
  | JBool true => "true"
  | JBool false => "false"
  | JNum lit => lit
  | JStr s => encode_string s
  | JArr [] => "[]"
  | JArr l =>
      "[" +:+ nl (S d) +:+ join ("," +:+ nl (S d)) (map (print nl colon (S d)) l) +:+ nl d +:+ "]"
  | JObj [] => "{}"
  | JObj m =>
      "{" +:+ nl (S d) +:+
      join ("," +:+ nl (S d))
        (map (λ kv : string * json,
                encode_string kv.1 +:+ colon +:+ print nl colon (S d) kv.2) m)
      +:+ nl d +:+ "}"
  end.

Fixpoint indent (d : nat) : string :=
  match d with O => EmptyString | S d' => "  " +:+ indent d' end.

Definition newline : string := String (mk 10) EmptyString.

(** [json.Marshal(v)] and [json.MarshalIndent(v, "", "  ")] (with two blanks). *)
Definition Marshal (j : json) : string := print (λ _, EmptyString) ":" 0 j.
Definition MarshalIndent (j : json) : string := print (λ d, newline +:+ indent d) ": " 0 j.

(** Members of an encoded struct: a field, and a field with [omitempty] that is
    left out when [empty]. *)
Definition member (name : string) (v : json) : list (string * json) := [(name, v)].
Definition omit (empty : bool) (name : string) (v : json) : list (string * json) :=
  if empty then [] else [(name, v)].
Definition enc_string (s : string) : json := JStr s.
Definition enc_int (z : Z) : json := JNum (itoa z).
Definition enc_strings (l : list string) : json := JArr (map JStr l).

Definition is_nil {A} (l : list A) : bool := match l with [] => true | _ => false end.

(** A Go map as a JSON object: assignment keeps the keys sorted, the order in
    which the encoder writes them. *)
Fixpoint map_set (k : string) (v : json) (m : list (string * json)) : list (string * json) :=
  match m with
  | [] => [(k, v)]
  | (k', v') :: m' =>
      match String.compare k k' with
      | Eq => (k, v) :: m'
      | Lt => (k, v) :: m
      | Gt => (k', v') :: map_set k v m'
      end
  end.

Fixpoint map_get (k : string) (m : list (string * json)) : option json :=
  match m with
  | [] => None
  | (k', v') :: m' => if String.eqb k k' then Some v' else map_get k m'
  end.

Lemma compare_refl_str s : String.compare s s = Eq.
Proof. induction s as [|a s IH]; simpl; [done|]. unfold Ascii.compare. by rewrite N.compare_refl. Qed.

Lemma map_get_set k k' v m :
  map_get k (map_set k' v m) = if String.eqb k k' then Some v else map_get k m.
Proof.
  induction m as [|[k1 v1] m IH]; simpl; [done|].
  destruct (String.compare k' k1) eqn:E; simpl.
  - apply String.compare_eq_iff in E as ->. by destruct (String.eqb k k1).
  - done.
  - rewrite IH. destruct (String.eqb_spec k k1) as [->|]; [|done].
    destruct (String.eqb_spec k1 k') as [->|]; [|done].
    by rewrite compare_refl_str in E.
Qed.

(** ** Parsing *)

Definition parse (A : Type) : Type := result string (A * string).

Definition eof_msg : string := "unexpected end of JSON input".
Definition depth_msg : string := "exceeded max depth".

(** The Latin-1 range of [unicode.IsPrint], all that [quoteChar] needs. *)
Definition latin1_tables : UnicodeTables :=
  {| unicode_lower := id; unicode_print := λ r, ((0xA1 <=? r) && negb (r =? 0xAD))%N |}.

Definition quoteChar (c : ascii) : string :=
  if Ascii.eqb c (mk 39) then squote +:+ bslash +:+ squote +:+ squote
  else if Ascii.eqb c (mk 34) then squote +:+ quote +:+ squote
  else squote +:+ @escape_rune latin1_tables 34 (byte c) +:+ squote.

Definition bad_char {A} (c : ascii) (ctx : string) : parse A :=
  Err ("invalid character " +:+ quoteChar c +:+ " " +:+ ctx).

Definition is_ws (a : ascii) : bool :=
  let b := byte a in ((b =? 32) || (b =? 9) || (b =? 13) || (b =? 10))%N.

Fixpoint skip_ws (s : string) : string :=
  match s with String a s' => if is_ws a then skip_ws s' else s | EmptyString => s end.

Definition hex_val (a : ascii) : option N :=
  (if in_range 48 57 a then Some (byte a - 48)
   else if in_range 97 102 a then Some (byte a - 87)
   else if in_range 65 70 a then Some (byte a - 55)
   else None)%N.

Definition hex4 (a b c d : ascii) : option N :=
  match hex_val a, hex_val b, hex_val c, hex_val d with
  | Some x, Some y, Some z, Some w => Some (((x * 16 + y) * 16 + z) * 16 + w)%N
  | _, _, _, _ => None
  end.

(** Why four hexadecimal digits could not be read. *)
Fixpoint hex_error {A} (n : nat) (s : string) : parse A :=
  match n, s with
  | S n', String a s' =>
      match hex_val a with
      | Some _ => hex_error n' s'
      | None => bad_char a "in \u hexadecimal character escape"
      end
  | _, _ => Err eof_msg
  end.

Definition is_high (r : N) : bool := ((0xD800 <=? r) && (r <? 0xDC00))%N.
Definition is_low (r : N) : bool := ((0xDC00 <=? r) && (r <? 0xE000))%N.
Definition surrogates (r r1 : N) : N := (N.shiftl (r - 0xD800) 10 + (r1 - 0xDC00) + 0x10000)%N.

Definition simple_escape (e : ascii) : option ascii :=
  let b := byte e in
  (if (b =? 34) || (b =? 92) || (b =? 47) then Some e
   else if b =? 98 then Some (mk 8)
   else if b =? 102 then Some (mk 12)
   else if b =? 110 then Some (mk 10)
   else if b =? 114 then Some (mk 13)
   else if b =? 116 then Some (mk 9)
   else None)%N.

Definition prepend (t : string) (p : parse string) : parse string :=
  match p with Ok (v, r) => Ok (t +:+ v, r) | Err m => Err m end.

(** The bytes of a string literal after its opening quote, escapes resolved,
    and what follows the closing quote. *)
Fixpoint parse_string_body (s : string) : parse string :=
  match s with
  | EmptyString => Err eof_msg
  | String c r =>
      if (byte c =? 34)%N then Ok (EmptyString, r)
      else if (byte c <? 32)%N then bad_char c "in string literal"
      else if negb (byte c =? 92)%N then prepend (String c EmptyString) (parse_string_body r)
      else
        match r with
        | EmptyString => Err eof_msg
        | String e r1 =>
            match simple_escape e with
            | Some a => prepend (String a EmptyString) (parse_string_body r1)
            | None =>
                if negb (byte e =? 117)%N then bad_char e "in string escape code"
                else
                  match r1 with
                  | String h1 (String h2 (String h3 (String h4 r2))) =>
                      match hex4 h1 h2 h3 h4 with
                      | None => hex_error 4 r1
                      | Some n =>
                          let plain := λ _ : unit, prepend (encode_rune n) (parse_string_body r2) in
                          if is_high n then
                            match r2 with
                            | String b (String u (String g1 (String g2 (String g3 (String g4 r3))))) =>
                                match hex4 g1 g2 g3 g4 with
                                | Some n1 =>
                                    if (byte b =? 92)%N && (byte u =? 117)%N && is_low n1
                                    then prepend (encode_rune (surrogates n n1)) (parse_string_body r3)
                                    else plain tt
                                | None => plain tt
                                end
                            | _ => plain tt
                            end
                          else plain tt
                      end
                  | _ => hex_error 4 r1
                  end
            end
        end
  end.

(** Bytes that are not UTF-8 become U+FFFD. *)
Definition sanitize (s : string) : string :=
  concat_strings
    (map (λ c : N * string, if (c.1 =? RuneError)%N then encode_rune RuneError else c.2) (runes s)).

Definition parse_string (s : string) : parse string :=
  match parse_string_body s with Ok (v, r) => Ok (sanitize v, r) | Err m => Err m end.

Fixpoint span_digits (s : string) : string * string :=
  match s with
  | String a s' => if is_digit a then let '(d, r) := span_digits s' in (String a d, r)
                   else (EmptyString, s)
  | EmptyString => (EmptyString, EmptyString)
  end.

(** At least one digit, or the error of the state the scanner is in. *)
Definition digits1 (ctx : string) (s : string) : parse string :=
  match s with
  | EmptyString => Err eof_msg
  | String a _ => if is_digit a then Ok (span_digits s) else bad_char a ctx
  end.

Definition parse_exp (s : string) : parse string :=
  match s with
  | String e r =>
      if (byte e =? 101)%N || (byte e =? 69)%N then
        let '(sg, r) := match r with
                        | String a r' =>
                            if Ascii.eqb a "+" || Ascii.eqb a "-" then (String a EmptyString, r')
                            else (EmptyString, r)
                        | EmptyString => (EmptyString, r)
                        end in
        match digits1 "in exponent of numeric literal" r with
        | Ok (ds, r') => Ok (String e EmptyString +:+ sg +:+ ds, r')
        | Err m => Err m
        end
      else Ok (EmptyString, s)
  | EmptyString => Ok (EmptyString, s)
  end.

Definition parse_frac (s : string) : parse string :=
  match s with
  | String d r =>
      if Ascii.eqb d "." then
        match digits1 "after decimal point in numeric literal" r with
        | Ok (ds, r') =>
            match parse_exp r' with
            | Ok (ex, r'') => Ok (String d EmptyString +:+ ds +:+ ex, r'')
            | Err m => Err m
            end
        | Err m => Err m
        end
      else parse_exp s
  | EmptyString => Ok (EmptyString, s)
  end.

Definition parse_int_part (s : string) : parse string :=
  match s with
  | String a r =>
      if Ascii.eqb a "0" then Ok (String a EmptyString, r)
      else digits1 "in numeric literal" s
  | EmptyString => Err eof_msg
  end.

Definition parse_number (s : string) : parse string :=
  let '(sg, s) := match s with
                  | String a r => if Ascii.eqb a "-" then (String a EmptyString, r) else (EmptyString, s)
                  | EmptyString => (EmptyString, s)
                  end in
  match parse_int_part s with
  | Ok (ip, r) =>
      match parse_frac r with
      | Ok (fr, r') => Ok (sg +:+ ip +:+ fr, r')
      | Err m => Err m
      end
  | Err m => Err m
  end.

(** The remaining letters of [true], [false] or [null]. *)
Fixpoint parse_word (word : string) (w s : string) : parse unit :=
  match w with
  | EmptyString => Ok (tt, s)
  | String a w' =>
      match s with
      | EmptyString => Err eof_msg
      | String b s' =>
          if Ascii.eqb a b then parse_word word w' s'
          else bad_char b ("in literal " +:+ word +:+ " (expecting " +:+ quoteChar a +:+ ")")
      end
  end.

Definition as_value (v : json) (p : parse unit) : parse json :=
  match p with Ok (_, r) => Ok (v, r) | Err m => Err m end.

Section Containers.
Variable pv : string → parse json.

(** Array elements, each followed by a comma or the closing bracket; [n]
    bounds the bytes left. *)
Fixpoint parse_elems (n : nat) (s : string) : parse (list json) :=
  match n with
  | O => Err eof_msg
  | S n' =>
      match pv s with
      | Err m => Err m
      | Ok (v, r) =>
          match skip_ws r with
          | EmptyString => Err eof_msg
          | String c r' =>
              if Ascii.eqb c "," then
                match parse_elems n' r' with Ok (vs, r'') => Ok (v :: vs, r'') | Err m => Err m end
              else if Ascii.eqb c "]" then Ok ([v], r')
              else bad_char c "after array element"
          end
      end
  end.

(** Object members, starting at a key. *)
Fixpoint parse_members (n : nat) (s : string) : parse (list (string * json)) :=
  match n with
  | O => Err eof_msg
  | S n' =>
      match skip_ws s with
      | EmptyString => Err eof_msg
      | String c r =>
          if negb (byte c =? 34)%N then bad_char c "looking for beginning of object key string"
          else
            match parse_string r with
            | Err m => Err m
            | Ok (k, r) =>
                match skip_ws r with
                | EmptyString => Err eof_msg
                | String c r =>
                    if negb (Ascii.eqb c ":") then bad_char c "after object key"
                    else
                      match pv r with
                      | Err m => Err m
                      | Ok (v, r) =>
                          match skip_ws r with
                          | EmptyString => Err eof_msg
                          | String c r' =>
                              if Ascii.eqb c "," then
                                match parse_members n' r' with
                                | Ok (kvs, r'') => Ok ((k, v) :: kvs, r'')
                                | Err m => Err m
                                end
                              else if Ascii.eqb c "}" then Ok ([(k, v)], r')
                              else bad_char c "after object key:value pair"
                          end
                      end
                end
            end
      end
  end.
End Containers.

(** A value, with [depth] levels of nesting left. *)
Fixpoint parse_value (depth : nat) (s : string) : parse json :=
  match skip_ws s with
  | EmptyString => Err eof_msg
  | String c r as s' =>
      if Ascii.eqb c "{" then
        match depth with
        | O => Err depth_msg
        | S d =>
            match skip_ws r with
            | String c' r' =>
                if Ascii.eqb c' "}" then Ok (JObj [], r')
                else match parse_members (parse_value d) (String.length r) r with
                     | Ok (m, r'') => Ok (JObj m, r'')
                     | Err m => Err m
                     end
            | EmptyString => Err eof_msg
            end
        end
      else if Ascii.eqb c "[" then
        match depth with
        | O => Err depth_msg
        | S d =>
            match skip_ws r with
            | String c' r' =>
                if Ascii.eqb c' "]" then Ok (JArr [], r')
                else match parse_elems (parse_value d) (String.length r) r with
                     | Ok (l, r'') => Ok (JArr l, r'')
                     | Err m => Err m
                     end
            | EmptyString => Err eof_msg
            end
        end
      else if (byte c =? 34)%N then
        match parse_string r with Ok (v, r') => Ok (JStr v, r') | Err m => Err m end
      else if Ascii.eqb c "t" then as_value (JBool true) (parse_word "true" "rue" r)
      else if Ascii.eqb c "f" then as_value (JBool false) (parse_word "false" "alse" r)
      else if Ascii.eqb c "n" then as_value JNull (parse_word "null" "ull" r)
      else if Ascii.eqb c "-" || is_digit c then
        match parse_number s' with Ok (l, r') => Ok (JNum l, r') | Err m => Err m end
      else bad_char c "looking for beginning of value"
  end.

(** Go's [maxNestingDepth]. *)
Definition max_nesting : nat := N.to_nat 10000.

(** A whole document, as [json.Unmarshal] reads it. *)
Definition parse_document (s : string) : result string json :=
  match parse_value max_nesting s with
  | Err m => Err m
  | Ok (v, r) =>
      match skip_ws r with
      | EmptyString => Ok v
      | String c _ => Err ("invalid character " +:+ quoteChar c +:+ " after top-level value")
      end
  end.

(** ** Decoding into Go values

    A decoder is given the name of the enclosing struct and the path of field
    names, for error texts, and the value currently stored, which a null or a
    mismatch leaves as it is.  It returns the first error together with
    everything that could be decoded. *)
Definition decoder (A : Type) : Type := string → list string → json → A → A * option error.

Definition describe (j : json) : string :=
  match j with
  | JNull => "null"
  | JBool _ => "bool"
  | JNum _ => "number"
  | JStr _ => "string"
  | JArr _ => "array"
  | JObj _ => "object"
  end.

(** [*json.UnmarshalTypeError]. *)
Definition type_error (value typ st : string) (path : list string) : error :=
  JSONError
    ("json: cannot unmarshal " +:+ value +:+
     (if String.eqb st EmptyString && bool_decide (path = [])
      then " into Go value of type " +:+ typ
      else " into Go struct field " +:+ st +:+ "." +:+ join "." path +:+ " of type " +:+ typ)).

Definition mismatch {A} (typ st : string) (path : list string) (j : json) (a : A) : A * option error :=
  (a, Some (type_error (describe j) typ st path)).

Definition first_error (e e' : option error) : option error :=
  match e with Some _ => e | None => e' end.

Definition dec_string : decoder string := λ st path j a,
  match j with JNull => (a, None) | JStr s => (s, None) | _ => mismatch "string" st path j a end.

Definition dec_bool : decoder bool := λ st path j a,
  match j with JNull => (a, None) | JBool b => (b, None) | _ => mismatch "bool" st path j a end.

(** [int] and [int64]. *)
Definition dec_int (typ : string) : decoder Z := λ st path j a,
  match j with
  | JNull => (a, None)
  | JNum lit =>
      match ParseInt lit with
      | (z, None) => (z, None)
      | _ => (a, Some (type_error ("number " +:+ lit) typ st path))
      end
  | _ => mismatch typ st path j a
  end.

Fixpoint dec_elems {A} (zero : A) (d : decoder A) (st : string) (path : list string)
    (l : list json) (old : list A) : list A * option error :=
  match l with
  | [] => ([], None)
  | j :: l' =>
      let '(a, e) := d st path j (default zero (head old)) in
      let '(rest, e') := dec_elems zero d st path l' (tail old) in
      (a :: rest, first_error e e')
  end.

Definition dec_slice {A} (typ : string) (zero : A) (d : decoder A) : decoder (list A) :=
  λ st path j a,
    match j with
    | JNull => ([], None)
    | JArr l => dec_elems zero d st path l a
    | _ => mismatch typ st path j a
    end.

(** map[string]T *)
Definition dec_map {A} (typ : string) (zero : A) (d : decoder A) : decoder (gmap string A) :=
  λ st path j m,
    match j with
    | JNull => (∅, None)
    | JObj kvs =>
        fold_left (λ acc kv, let '(v, e) := d st path kv.2 zero in
                             (<[kv.1 := v]> acc.1, first_error acc.2 e)) kvs (m, None)
    | _ => mismatch typ st path j m
    end.

(** A pointer: null makes it nil, otherwise the value it points to is decoded. *)
Definition dec_ptr {A} (zero : A) (d : decoder A) : decoder (option A) := λ st path j o,
  match j with
  | JNull => (None, None)
  | _ => let '(a, e) := d st path j (default zero o) in (Some a, e)
  end.

(** [json.RawMessage] keeps the value as it is; empty when never assigned. *)
Definition RawMessage : Type := option json.
Definition dec_raw : decoder RawMessage := λ _ _ j _, (Some j, None).

(** Structs.  A member is matched with a field by its exact name, else by its
    name up to case folding. *)
Definition field (S : Type) : Type :=
  string * (string → list string → json → S → S * option error).

Definition mk_field {S A} (name : string) (d : decoder A) (get : S → A) (set : A → S → S) : field S :=
  (name, λ st path j s, let '(a, e) := d st (path ++ [name]) j (get s) in (set a s, e)).

Definition fold_rune (c : N * string) : N :=
  (let r := c.1 in
   if (97 <=? r) && (r <=? 122) then r - 32
   else if r =? 0x17F then 83
   else if r =? 0x212A then 75
   else r)%N.

Definition foldName (s : string) : list N := map fold_rune (runes s).

Fixpoint find_field {S} (p : string → bool) (fs : list (field S)) : option (field S) :=
  match fs with
  | [] => None
  | f :: fs' => if p f.1 then Some f else find_field p fs'
  end.

Definition lookup_field {S} (fs : list (field S)) (key : string) : option (field S) :=
  match find_field (String.eqb key) fs with
  | Some f => Some f
  | None => find_field (λ name, bool_decide (foldName name = foldName key)) fs
  end.

Definition dec_members {S} (st : string) (path : list string) (fs : list (field S))
    (kvs : list (string * json)) (s : S) : S * option error :=
  fold_left (λ acc kv,
    match lookup_field fs kv.1 with
    | Some f => let '(s', e) := f.2 st path kv.2 acc.1 in (s', first_error acc.2 e)
    | None => acc
    end) kvs (s, None).

Lemma dec_members_step {S} (st : string) path (fs : list (field S)) k j kvs s f s' :
  lookup_field fs k = Some f → f.2 st path j s = (s', None) →
  dec_members st path fs ((k, j) :: kvs) s = dec_members st path fs kvs s'.
Proof. unfold dec_members. cbn [fold_left fst snd]. by intros -> ->. Qed.

(** [name] is the struct's name, [typ] how an error spells its type. *)
Definition dec_struct {S} (name typ : string) (fs : list (field S)) : decoder S :=
  λ st path j s,
    match j with
    | JNull => (s, None)
    | JObj kvs => dec_members name path fs kvs s
    | _ => mismatch typ st path j s
    end.

Lemma find_field_elem {S} p (fs : list (field S)) f : find_field p fs = Some f → f ∈ fs.
Proof.
  induction fs as [|g fs IH]; [done|]. cbn [find_field]. destruct (p g.1); [intros [= ->]; by left|]. intros H. right. auto.
Qed.

Lemma lookup_field_elem {S} (fs : list (field S)) k f : lookup_field fs k = Some f → f ∈ fs.
Proof. unfold lookup_field. destruct (find_field _ fs) eqn:E; [intros [= ->]; by eapply find_field_elem|apply find_field_elem]. Qed.

(** A projection no field of the struct sets is kept by decoding. *)
Lemma dec_struct_keeps {S B} (g : S → B) name typ (fs : list (field S)) st path j s :
  (∀ f, f ∈ fs → ∀ st path j s, g (f.2 st path j s).1 = g s) →
  g (dec_struct name typ fs st path j s).1 = g s.
Proof.
  intros Hf. unfold dec_struct. destruct j as [| | | | |kvs]; try done. unfold dec_members.
  generalize (None : option error) as e. revert s. induction kvs as [|[k j] kvs IH]; intros s e; [done|].
  cbn [fold_left fst snd]. destruct (lookup_field fs k) as [f|] eqn:Ef; [|apply IH].
  pose proof (Hf f (lookup_field_elem _ _ _ Ef) name path j s) as Hg.
  destruct (f.2 name path j s) as [s' e']. rewrite IH. exact Hg.
Qed.

(** How an error spells the type of an anonymous struct, from the name, type
    and JSON name of its fields. *)
Definition anon_struct (fs : list (string * string * string)) : string :=
  "struct { " +:+
  join "; " (map (λ f, let '(name, typ, tag) := f in
    name +:+ " " +:+ typ +:+ " " +:+ quote +:+ "json:" +:+ bslash +:+ quote +:+ tag
    +:+ bslash +:+ quote +:+ quote) fs) +:+ " }".

(** ** Entry points *)

(** [json.Unmarshal(data, &v)] on a text: nothing is decoded when the syntax
    is wrong. *)
Definition Unmarshal {A} (d : decoder A) (data : string) (v : A) : A * option error :=
  match parse_document data with
  | Err m => (v, Some (JSONError m))
  | Ok j => d EmptyString [] j v
  end.

(** [json.Unmarshal] of a raw message. *)
Definition UnmarshalRaw {A} (d : decoder A) (data : RawMessage) (v : A) : A * option error :=
  match data with
  | None => (v, Some (JSONError eof_msg))
  | Some j => d EmptyString [] j v
  end.

(** [json.NewDecoder(r).Decode(&v)]: the first value of a stream that ends
    with [read_err], or with end of file. *)
Definition Decode {A} (d : decoder A) (data : string) (read_err : option error) (v : A)
    : A * option error :=
  match parse_value max_nesting data with
  | Ok (j, _) => d EmptyString [] j v
  | Err m =>
      if String.eqb m eof_msg then
        match read_err with
        | Some e => (v, Some e)
        | None =>
            (v, Some (ErrorString (match skip_ws data with
                                   | EmptyString => "EOF" | _ => "unexpected EOF" end)))
        end
      else (v, Some (JSONError m))
  end.

Example parse_example :
  parse_document (" {" +:+ quote +:+ "a" +:+ quote +:+ " : [1, -2.5e+3, true, null]} ")
  = Ok (JObj [("a", JArr [JNum "1"; JNum "-2.5e+3"; JBool true; JNull])]).
Proof. vm_compute. done. Qed.

Example parse_error_example :
  parse_document "{x}" = Err "invalid character 'x' looking for beginning of object key string".
Proof. vm_compute. done. Qed.

Example marshal_example :
  Marshal (JObj (map_set "b" (JStr "x<y") (map_set "a" (JArr []) [])))
  = "{" +:+ quote +:+ "a" +:+ quote +:+ ":[]," +:+ quote +:+ "b" +:+ quote +:+ ":"
    +:+ quote +:+ "x\u003cy" +:+ quote +:+ "}".
Proof. vm_compute. done. Qed.

#[global] Arguments max_nesting : simpl never.
#[global] Arguments parse_value : simpl never.
#[global] Arguments parse_document : simpl never.
#[global] Arguments Marshal : simpl never.
#[global] Arguments MarshalIndent : simpl never.
#[global] Arguments Unmarshal : simpl never.
#[global] Arguments UnmarshalRaw : simpl never.
#[global] Arguments Decode : simpl never.

(** The parser is executed by [vm_compute] only; unification never looks
    inside it. *)
#[global] Opaque parse_value parse_document.
