(* ===== verification/JsonRoundTrip.v ===== *)
(** * JsonRoundTrip: what the encoder prints, the parser reads back.

    The theorem covers [Marshal] and [MarshalIndent] for values whose strings
    are valid UTF-8 and whose numbers are numbers; the state file and the
    messages to the control plane are such values.  Conversely every string
    the parser returns is valid UTF-8, so that what was decoded can always be
    encoded and decoded again ([yields]). *)

From Stdlib Require Import Ascii NArith ZArith.
From stdpp Require Import pretty.
From S2P Require Import Prelude GoStrings Utf8 GoFmt Redact GoError Json.

#[local] Transparent parse_value parse_document.

(** ** Strings *)

(** What the parser makes of a chunk. *)
Definition mended (c : N * string) : N * string :=
  if (c.1 =? RuneError)%N then (RuneError, encode_rune RuneError) else c.

Lemma sanitize_mended s : sanitize s = concat_strings (map snd (map mended (runes s))).
Proof.
  unfold sanitize. f_equal. rewrite map_map. apply map_ext. intros c. unfold mended. by destruct (_ =? _)%N.
Qed.

Lemma mended_whole s : Forall whole (map mended (runes s)).
Proof.
  pose proof (runes_chunks s) as HF. induction HF as [|c l Hc _ IH]; [constructor|]. cbn [map]. constructor; [|done].
  unfold mended. destruct (N.eqb_spec c.1 RuneError) as [E|Hne].
  - intros t. reflexivity.
  - destruct Hc as [Hb|(_ & _ & Hw)]; [|done]. unfold broken in Hb. by rewrite (proj2 (N.eqb_neq _ _) Hne) in Hb.
Qed.

Lemma mended_id s : valid_utf8 s = true → map mended (runes s) = runes s.
Proof.
  intros Hv. unfold valid_utf8 in Hv. pose proof (runes_chunks s) as HF.
  induction HF as [|c l Hc _ IH]; [done|]. cbn [forallb map] in *. apply andb_true_iff in Hv as [Hb%negb_true_iff Hv].
  rewrite IH by done. f_equal. unfold mended. destruct (N.eqb_spec c.1 RuneError) as [E|]; [|done].
  destruct Hc as [Hc|(_ & He & _)]; [congruence|]. destruct c as [r bs]. cbn [fst snd] in *. by subst.
Qed.

(** What is parsed is text, and text stays as it is. *)
Lemma runes_sanitize s : runes (sanitize s) = map mended (runes s).
Proof. rewrite sanitize_mended. apply runes_wholes, mended_whole. Qed.

Lemma sanitize_valid s : valid_utf8 (sanitize s) = true.
Proof.
  unfold valid_utf8. rewrite runes_sanitize. induction (runes s) as [|c l IH]; [done|]. cbn [map forallb].
  rewrite IH, andb_true_r. unfold mended. destruct (N.eqb_spec c.1 RuneError) as [|Hne]; [done|].
  unfold broken. by rewrite (proj2 (N.eqb_neq _ _) Hne).
Qed.

Lemma sanitize_text s : valid_utf8 s = true → sanitize s = s.
Proof. intros Hs. rewrite sanitize_mended, mended_id by done. apply runes_concat. Qed.

Lemma parse_body_high bs t :
  all_bytes (λ a, (0x80 <=? byte a)%N) bs = true →
  parse_string_body (bs +:+ t) = prepend bs (parse_string_body t).
Proof.
  induction bs as [|a bs IH]; cbn [all_bytes].
  - intros _. rewrite app_nil_str. by destruct (parse_string_body t) as [[v r]|].
  - intros [Ha Hbs]%andb_true_iff. rewrite app_cons_str. cbn [parse_string_body].
    apply N.leb_le in Ha.
    rewrite (proj2 (N.eqb_neq (byte a) 34)), (proj2 (N.ltb_ge (byte a) 32)), (proj2 (N.eqb_neq (byte a) 92)) by lia.
    cbn [negb]. rewrite IH by done. by destruct (parse_string_body t) as [[v r]|].
Qed.

Lemma parse_body_ascii a t :
  is_ascii a = true →
  parse_string_body (encode_chunk (byte a, String a EmptyString) +:+ t)
  = prepend (String a EmptyString) (parse_string_body t).
Proof.
  destruct a as [[] [] [] [] [] [] [] []]; intros Ha; try discriminate Ha;
    (vm_compute encode_chunk; reflexivity).
Qed.

Lemma parse_body_u4 r t :
  r = RuneError ∨ r = 0x2028%N ∨ r = 0x2029%N →
  parse_string_body (u4 r +:+ t) = prepend (encode_rune r) (parse_string_body t).
Proof. intros [->|[->| ->]]; vm_compute u4; reflexivity. Qed.

Lemma prepend_ok t v r : prepend t (Ok (v, r)) = Ok (t +:+ v, r).
Proof. done. Qed.

(** The escapes of any string are read back as that string, mended. *)
Lemma parse_body_encode s t :
  parse_string_body (concat_strings (map encode_chunk (runes s)) +:+ quote +:+ t) = Ok (sanitize s, t).
Proof.
  induction s as [s IH] using (induction_ltof1 _ String.length). unfold ltof in IH. unfold sanitize in *.
  destruct (runes_chunk s) as [->|[(a & s' & -> & Ha)|[(a & s' & -> & Ha & E)|(r & bs & s' & -> & Hl & Hh & He & Hw)]]];
    [done|..].
  - rewrite runes_cons_ascii by done. cbn [map fst snd]. rewrite !concat_strings_cons, app_str_assoc, parse_body_ascii by done.
    rewrite IH, prepend_ok by (simpl; lia). rewrite (proj2 (N.eqb_neq (byte a) RuneError)); [done|].
    unfold is_ascii in Ha. apply N.ltb_lt in Ha. unfold RuneError. lia.
  - rewrite E. cbn [map fst snd]. rewrite !concat_strings_cons, app_str_assoc.
    change (encode_chunk (RuneError, String a EmptyString)) with (u4 RuneError).
    rewrite parse_body_u4 by auto. by rewrite IH, prepend_ok by (simpl; lia).
  - specialize (Hw s') as E. cbn [snd] in E. rewrite E. cbn [map fst snd]. rewrite !concat_strings_cons, app_str_assoc.
    assert (Hp : parse_string_body (encode_chunk (r, bs) +:+ concat_strings (map encode_chunk (runes s')) +:+ quote +:+ t)
      = prepend bs (parse_string_body (concat_strings (map encode_chunk (runes s')) +:+ quote +:+ t))).
    { destruct bs as [|b0 [|b1 bs]]; [simpl in Hl; lia..|]. unfold encode_chunk.
      destruct ((r =? 0x2028) || (r =? 0x2029))%N eqn:Er; [|by apply parse_body_high].
      rewrite parse_body_u4; [by rewrite He|]. apply orb_true_iff in Er. rewrite !N.eqb_eq in Er. tauto. }
    rewrite Hp, IH, prepend_ok by (rewrite length_app_str; lia).
    destruct (N.eqb_spec r RuneError) as [->|]; [by rewrite He|done].
Qed.

Lemma parse_string_encode s t :
  valid_utf8 s = true →
  parse_string (concat_strings (map encode_chunk (runes s)) +:+ quote +:+ t) = Ok (s, t).
Proof. intros Hs. unfold parse_string. rewrite parse_body_encode. by do 2 rewrite (sanitize_text s) by done. Qed.

(** ** Numbers *)

(** What may follow a number: nothing that continues it. *)
Definition ends_number (t : string) : bool :=
  match t with
  | EmptyString => true
  | String a _ => negb (is_digit a || Ascii.eqb a "." || (byte a =? 101)%N || (byte a =? 69)%N)
  end.

Definition json_number (lit : string) : Prop :=
  parse_number lit = Ok (lit, EmptyString) ∧
  match lit with String a _ => Ascii.eqb a "-" || is_digit a = true | EmptyString => False end.

Section Number.
Variable t : string.
Hypothesis Ht : ends_number t = true.

Lemma ends_not_digit a r : t = String a r → is_digit a = false.
Proof.
  intros Et. rewrite Et in Ht. cbn [ends_number] in Ht. apply negb_true_iff in Ht.
  rewrite !orb_false_iff in Ht. tauto.
Qed.

Lemma span_digits_app s : span_digits (s +:+ t) = ((span_digits s).1, (span_digits s).2 +:+ t).
Proof.
  pose proof ends_not_digit as Hnd. induction s as [|a s IH].
  - rewrite app_nil_str. cbn [span_digits fst snd]. rewrite app_nil_str.
    destruct t as [|b r] eqn:Et; [done|]. cbn [span_digits]. by rewrite (Hnd b r).
  - rewrite app_cons_str. cbn [span_digits]. destruct (is_digit a); [|done].
    rewrite IH. by destruct (span_digits s).
Qed.

Lemma digits1_app ctx s v r : digits1 ctx s = Ok (v, r) → digits1 ctx (s +:+ t) = Ok (v, r +:+ t).
Proof.
  destruct s as [|a s]; [done|]. rewrite app_cons_str. cbn [digits1]. destruct (is_digit a); [|done].
  rewrite <-app_cons_str, span_digits_app. destruct (span_digits (String a s)). by intros [= -> ->].
Qed.

Lemma parse_exp_app s v r : parse_exp s = Ok (v, r) → parse_exp (s +:+ t) = Ok (v, r +:+ t).
Proof.
  destruct s as [|e s].
  - intros [= <- <-]. rewrite !app_nil_str. destruct t as [|b q] eqn:Et; [done|].
    cbn [ends_number] in Ht. apply negb_true_iff in Ht. rewrite !orb_false_iff in Ht.
    destruct Ht as [[_ H1] H2]. cbn [parse_exp]. by rewrite H1, H2.
  - rewrite app_cons_str. cbn [parse_exp]. destruct (_ || _); [|by intros [= <- <-]].
    destruct s as [|a s]; [done|]. rewrite app_cons_str.
    destruct (Ascii.eqb a "+" || Ascii.eqb a "-"); rewrite <- ?(app_cons_str _ _ t).
    + destruct (digits1 _ s) as [[ds r']|m] eqn:E; [|done]. rewrite (digits1_app _ _ _ _ E). by intros [= <- <-].
    + destruct (digits1 _ (String a s)) as [[ds r']|m] eqn:E; [|done]. rewrite (digits1_app _ _ _ _ E).
      by intros [= <- <-].
Qed.

Lemma parse_frac_app s v r : parse_frac s = Ok (v, r) → parse_frac (s +:+ t) = Ok (v, r +:+ t).
Proof.
  destruct s as [|d s].
  - intros [= <- <-]. rewrite !app_nil_str.
    pose proof (parse_exp_app EmptyString EmptyString EmptyString eq_refl) as He. rewrite !app_nil_str in He.
    destruct t as [|b q] eqn:Et; [done|].
    cbn [parse_frac ends_number] in *. apply negb_true_iff in Ht.
    rewrite !orb_false_iff in Ht. destruct Ht as [[[_ H1] _] _]. by rewrite H1.
  - rewrite app_cons_str. cbn [parse_frac]. destruct (Ascii.eqb d ".").
    + destruct (digits1 _ s) as [[ds r']|m] eqn:E; [|done]. rewrite (digits1_app _ _ _ _ E).
      destruct (parse_exp r') as [[ex r'']|m] eqn:E2; [|done]. rewrite (parse_exp_app _ _ _ E2). by intros [= <- <-].
    + rewrite <-app_cons_str. apply parse_exp_app.
Qed.

Lemma parse_int_part_app s v r : parse_int_part s = Ok (v, r) → parse_int_part (s +:+ t) = Ok (v, r +:+ t).
Proof.
  destruct s as [|a s]; [done|]. rewrite app_cons_str. cbn [parse_int_part]. destruct (Ascii.eqb a "0").
  - by intros [= <- <-].
  - rewrite <-app_cons_str. apply digits1_app.
Qed.

Lemma parse_number_app lit :
  json_number lit → parse_number (lit +:+ t) = Ok (lit, t).
Proof.
  intros [Hp _]. destruct lit as [|a s]; [done|]. rewrite app_cons_str. unfold parse_number in *.
  destruct (Ascii.eqb a "-"); rewrite <- ?(app_cons_str _ _ t);
    (destruct (parse_int_part _) as [[ip r]|m] eqn:E; [|done]; rewrite (parse_int_part_app _ _ _ E);
     destruct (parse_frac r) as [[fr r']|m] eqn:E2; [|done]; rewrite (parse_frac_app _ _ _ E2);
     exact (f_equal (λ p : parse string, match p with Ok (v, q) => Ok (v, q +:+ t) | Err m => Err m end) Hp)).
Qed.
End Number.

(** A positive number is written without a leading zero. *)
Lemma pretty_N_go_head x s :
  (0 < x)%N → ∃ a s', pretty_N_go x s = String a s' ∧ Ascii.eqb a "0" = false.
Proof.
  revert s. induction (N.lt_wf_0 x) as [x _ IH]. intros s Hx. rewrite pretty_N_go_step by lia.
  destruct (decide (x / 10 = 0)%N) as [E|?]; [|apply IH; [apply N.div_lt; lia|by apply N.neq_0_lt_0]].
  rewrite E, pretty_N_go_0. eexists _, _. split; [done|].
  assert (x < 10)%N by (apply N.div_small_iff in E; lia). rewrite N.mod_small by done.
  assert (x = 1 ∨ x = 2 ∨ x = 3 ∨ x = 4 ∨ x = 5 ∨ x = 6 ∨ x = 7 ∨ x = 8 ∨ x = 9)%N as Hc by lia.
  by destruct_or!; subst.
Qed.

Lemma span_digits_all s : all_bytes is_digit s = true → span_digits s = (s, EmptyString).
Proof.
  induction s as [|a s IH]; [done|]. cbn [all_bytes span_digits]. intros [Ha Hs]%andb_true_iff.
  by rewrite Ha, IH.
Qed.

Lemma parse_int_part_pretty (n : N) : parse_int_part (pretty n) = Ok (pretty n, EmptyString).
Proof.
  unfold pretty, pretty_N. case_decide as Hn; [done|].
  destruct (pretty_N_go_head n EmptyString ltac:(lia)) as (a & s & E & Ha).
  pose proof (pretty_N_go_digits n EmptyString eq_refl) as Hd. rewrite E in *.
  cbn [parse_int_part]. rewrite Ha. unfold digits1. pose proof Hd as Hd'. cbn [all_bytes] in Hd'.
  apply andb_true_iff in Hd' as [-> _]. by rewrite span_digits_all.
Qed.

Lemma json_number_itoa z : json_number (itoa z).
Proof.
  assert (Hpos : ∀ n : N, json_number (pretty n)).
  { intros n. destruct (pretty_N_head n) as (a & s & E & Ha). split; [|rewrite E, Ha; apply orb_true_r].
    pose proof (parse_int_part_pretty n) as Hi. unfold parse_number. rewrite E in *.
    destruct (Ascii.eqb_spec a "-") as [->|]; [done|]. rewrite Hi. cbn [parse_frac]. by rewrite app_nil_str, app_str_nil_r. }
  destruct (decide (0 ≤ z)%Z) as [Hz|Hz]; [rewrite itoa_digits by done; apply Hpos|].
  assert (itoa z = "-" +:+ pretty (Z.to_N (- z))) as ->.
  { unfold itoa, pretty, pretty_Z. destruct z; [lia|lia|done]. }
  split; [|done]. unfold parse_number. rewrite (app_cons_str "-" EmptyString), app_nil_str.
  change (Ascii.eqb "-" "-") with true. cbn iota. rewrite parse_int_part_pretty. cbn [parse_frac].
  by rewrite app_str_nil_r.
Qed.

(** ** Values *)

(** Strings are text and number literals are numbers, everywhere. *)
Fixpoint json_ok (j : json) : Prop :=
  match j with
  | JNum l => json_number l
  | JStr s => valid_utf8 s = true
  | JArr l => foldr (λ x P, json_ok x ∧ P) True l
  | JObj m => foldr (λ kv P, (valid_utf8 kv.1 = true ∧ json_ok kv.2) ∧ P) True m
  | _ => True
  end.

Fixpoint nesting (j : json) : nat :=
  match j with
  | JArr l => S (foldr (λ x n, Nat.max (nesting x) n) 0 l)
  | JObj m => S (foldr (λ kv n, Nat.max (nesting kv.2) n) 0 m)
  | _ => 0
  end.

Lemma foldr_and_Forall {A} (P : A → Prop) l : foldr (λ x Q, P x ∧ Q) True l ↔ Forall P l.
Proof. induction l as [|x l IH]; simpl; [done|]. by rewrite IH, Forall_cons. Qed.

Lemma foldr_max_Forall {A} (f : A → nat) l n :
  foldr (λ x k, Nat.max (f x) k) 0 l ≤ n ↔ Forall (λ x, f x ≤ n) l.
Proof.
  induction l as [|x l IH]; simpl; [split; [done|lia]|]. rewrite Forall_cons, <-IH. lia.
Qed.

Lemma parse_value_ws depth s s' : skip_ws s = skip_ws s' → parse_value depth s = parse_value depth s'.
Proof. intros E. destruct depth; unfold parse_value; fold parse_value; by rewrite E. Qed.

Lemma skip_ws_head c s : is_ws c = false → skip_ws (String c s) = String c s.
Proof. cbn [skip_ws]. by intros ->. Qed.

Lemma parse_value_str depth r :
  parse_value depth (quote +:+ r) = match parse_string r with Ok (v, r') => Ok (JStr v, r') | Err m => Err m end.
Proof. by destruct depth. Qed.

Lemma parse_value_num depth a s :
  Ascii.eqb a "-" || is_digit a = true →
  parse_value depth (String a s) = match parse_number (String a s) with Ok (l, r) => Ok (JNum l, r) | Err m => Err m end.
Proof.
  intros Ha. destruct a as [[] [] [] [] [] [] [] []]; try discriminate Ha; by destruct depth.
Qed.

Lemma parse_value_arr d r c s :
  skip_ws r = String c s → Ascii.eqb c "]" = false →
  parse_value (S d) ("[" +:+ r) =
  match parse_elems (parse_value d) (String.length r) r with Ok (l, r') => Ok (JArr l, r') | Err m => Err m end.
Proof.
  intros E Hc. change (parse_value (S d) ("[" +:+ r)) with
    (match skip_ws r with
     | String c' r' =>
         if Ascii.eqb c' "]" then Ok (JArr [], r')
         else match parse_elems (parse_value d) (String.length r) r with
              | Ok (l, r'') => Ok (JArr l, r'') | Err m => Err m end
     | EmptyString => Err eof_msg
     end). by rewrite E, Hc.
Qed.

Lemma parse_value_obj d r c s :
  skip_ws r = String c s → Ascii.eqb c "}" = false →
  parse_value (S d) ("{" +:+ r) =
  match parse_members (parse_value d) (String.length r) r with Ok (m, r') => Ok (JObj m, r') | Err m => Err m end.
Proof.
  intros E Hc. change (parse_value (S d) ("{" +:+ r)) with
    (match skip_ws r with
     | String c' r' =>
         if Ascii.eqb c' "}" then Ok (JObj [], r')
         else match parse_members (parse_value d) (String.length r) r with
              | Ok (m, r'') => Ok (JObj m, r'') | Err m => Err m end
     | EmptyString => Err eof_msg
     end). by rewrite E, Hc.
Qed.

Lemma quote_cons s : quote +:+ s = String (mk 34) s.
Proof. done. Qed.

(** White space between tokens, as the two encoders write it. *)
Section RoundTrip.
Variables (nl : nat → string) (colon : string).
Hypothesis nl_ws : ∀ d s, skip_ws (nl d +:+ s) = skip_ws s.
Hypothesis nl_ends : ∀ d s, ends_number s = true → ends_number (nl d +:+ s) = true.
Hypothesis colon_ws : ∃ w, colon = ":" +:+ w ∧ ∀ s, skip_ws (w +:+ s) = skip_ws s.

Notation pr := (print nl colon).

(** The first byte of a value closes nothing and is no white space. *)
Lemma print_head d j s :
  json_ok j → ∃ c r, pr d j +:+ s = String c r ∧ is_ws c = false ∧ Ascii.eqb c "]" = false ∧ Ascii.eqb c "}" = false.
Proof.
  intros Hj. destruct j as [|[]|l|t|[|x l]|[|kv m]]; cbn [print]; try (by eexists _, _).
  destruct Hj as [_ Hl]. destruct l as [|a l]; [done|]. exists a, (l +:+ s). split; [done|].
  destruct a as [[] [] [] [] [] [] [] []]; try discriminate Hl; done.
Qed.

Lemma parse_elems_print pv k k' l n t (p : json → string) :
  l ≠ [] → length l ≤ n → ends_number t = true →
  (∀ w s, skip_ws (w +:+ s) = skip_ws s → pv (w +:+ s) = pv s) →
  Forall (λ x, ∀ t, ends_number t = true → pv (p x +:+ t) = Ok (x, t)) l →
  parse_elems pv n (nl k +:+ join ("," +:+ nl k) (map p l) +:+ nl k' +:+ "]" +:+ t) = Ok (l, t).
Proof.
  intros Hne Hn Ht Hws Hl. revert n Hn Hne. induction Hl as [|x l Hx Hl IH]; intros n Hn Hne; [done|].
  destruct n as [|n]; [simpl in Hn; lia|]. cbn [parse_elems]. rewrite Hws by done. clear Hne.
  destruct l as [|y l].
  - cbn [map join]. rewrite Hx by by apply nl_ends. rewrite nl_ws. reflexivity.
  - change (map p (x :: y :: l)) with (p x :: map p (y :: l)).
    change (join ("," +:+ nl k) (p x :: map p (y :: l)))
      with (p x +:+ ("," +:+ nl k) +:+ join ("," +:+ nl k) (map p (y :: l))).
    rewrite !app_str_assoc, Hx by done.
    rewrite (app_cons_str "," EmptyString), app_nil_str. rewrite skip_ws_head by done.
    change (Ascii.eqb "," ",") with true. cbn iota. rewrite IH; [done|simpl in *; lia|done].
Qed.

Definition print_member d (kv : string * json) : string := encode_string kv.1 +:+ colon +:+ pr d kv.2.

Lemma parse_members_print pv k k' d m n t :
  m ≠ [] → length m ≤ n → ends_number t = true →
  (∀ w s, skip_ws (w +:+ s) = skip_ws s → pv (w +:+ s) = pv s) →
  Forall (λ kv, valid_utf8 kv.1 = true ∧
            ∀ t, ends_number t = true → pv (pr d kv.2 +:+ t) = Ok (kv.2, t)) m →
  parse_members pv n (nl k +:+ join ("," +:+ nl k) (map (print_member d) m) +:+ nl k' +:+ "}" +:+ t) = Ok (m, t).
Proof.
  destruct colon_ws as (w & Hcol & Hw).
  intros Hne Hn Ht Hws Hm. revert n Hn Hne. induction Hm as [|[key v] m [Hkey Hv] Hm IH]; intros n Hn Hne; [done|].
  destruct n as [|n]; [simpl in Hn; lia|]. cbn [parse_members fst snd] in *. rewrite nl_ws. clear Hne.
  assert (Hkv : ∀ rest, print_member d (key, v) +:+ rest
    = quote +:+ concat_strings (map encode_chunk (runes key)) +:+ quote +:+ ":" +:+ w +:+ pr d v +:+ rest).
  { intros rest. unfold print_member, encode_string. rewrite Hcol. cbn [fst snd]. by rewrite !app_str_assoc. }
  assert (Hstep : ∀ rest, ends_number rest = true →
    skip_ws (print_member d (key, v) +:+ rest) = quote +:+ concat_strings (map encode_chunk (runes key)) +:+ quote +:+ ":" +:+ w +:+ pr d v +:+ rest ∧
    parse_string (concat_strings (map encode_chunk (runes key)) +:+ quote +:+ ":" +:+ w +:+ pr d v +:+ rest) = Ok (key, ":" +:+ w +:+ pr d v +:+ rest) ∧
    pv (w +:+ pr d v +:+ rest) = Ok (v, rest)).
  { intros rest Hr. rewrite Hkv. split_and!; [done|by apply parse_string_encode|]. rewrite Hws by done. by apply Hv. }
  destruct m as [|kv' m].
  - cbn [map join]. destruct (Hstep (nl k' +:+ "}" +:+ t)) as (-> & Hps & Hpv); [by apply nl_ends|].
    rewrite quote_cons. change (negb (byte (mk 34) =? 34)%N) with false. cbn iota.
    rewrite Hps. rewrite (app_cons_str ":" EmptyString), app_nil_str, skip_ws_head by done.
    change (negb (Ascii.eqb ":" ":")) with false. cbn iota. rewrite Hpv, nl_ws. reflexivity.
  - change (map (print_member d) ((key, v) :: kv' :: m)) with (print_member d (key, v) :: map (print_member d) (kv' :: m)).
    change (join ("," +:+ nl k) (print_member d (key, v) :: map (print_member d) (kv' :: m)))
      with (print_member d (key, v) +:+ ("," +:+ nl k) +:+ join ("," +:+ nl k) (map (print_member d) (kv' :: m))).
    rewrite !app_str_assoc.
    destruct (Hstep ("," +:+ nl k +:+ join ("," +:+ nl k) (map (print_member d) (kv' :: m)) +:+ nl k' +:+ "}" +:+ t))
      as (-> & Hps & Hpv); [done|].
    rewrite quote_cons. change (negb (byte (mk 34) =? 34)%N) with false. cbn iota.
    rewrite Hps. rewrite (app_cons_str ":" EmptyString), app_nil_str, skip_ws_head by done.
    change (negb (Ascii.eqb ":" ":")) with false. cbn iota. rewrite Hpv.
    rewrite (app_cons_str "," EmptyString), app_nil_str, skip_ws_head by done.
    change (Ascii.eqb "," ",") with true. cbn iota. rewrite IH; [done|simpl in *; lia|done].
Qed.

Lemma length_join_map {A} sep (f : A → string) l :
  (∀ x, x ∈ l → f x ≠ EmptyString) → length l ≤ String.length (join sep (map f l)).
Proof.
  induction l as [|x l IH]; intros Hf; [simpl; lia|].
  assert (Hx : 1 ≤ String.length (f x)).
  { specialize (Hf x ltac:(by left)). destruct (f x); [done|simpl; lia]. }
  assert (length l ≤ String.length (join sep (map f l))) as Hl by (apply IH; intros y ?; apply Hf; by right).
  destruct l as [|y l]; [done|].
  change (join sep (map f (x :: y :: l))) with (f x +:+ sep +:+ join sep (map f (y :: l))).
  rewrite !length_app_str. simpl in *. lia.
Qed.

Lemma parse_value_skip depth w s :
  skip_ws (w +:+ s) = skip_ws s → parse_value depth (w +:+ s) = parse_value depth s.
Proof. apply parse_value_ws. Qed.

Lemma print_parse j : ∀ d depth t,
  json_ok j → nesting j ≤ depth → ends_number t = true → parse_value depth (pr d j +:+ t) = Ok (j, t).
Proof.
  induction j as [|b|l|s|l IH|m IH] using json_nested_ind; intros d depth t Hj Hd Ht; cbn [print json_ok nesting] in *.
  - by destruct depth.
  - by destruct b, depth.
  - pose proof (parse_number_app t Ht l Hj) as Hp. destruct Hj as [_ Hl]. destruct l as [|a l]; [done|].
    rewrite app_cons_str in *. rewrite parse_value_num by done. by rewrite Hp.
  - unfold encode_string. rewrite !app_str_assoc, parse_value_str, parse_string_encode by done. done.
  - destruct l as [|x l]; [by destruct depth; [lia|]|]. destruct depth as [|depth]; [lia|].
    set (l' := x :: l) in *. rewrite !app_str_assoc.
    apply foldr_and_Forall in Hj. apply le_S_n, foldr_max_Forall in Hd.
    assert (Hall : Forall (λ x, ∀ t, ends_number t = true → parse_value depth (pr (S d) x +:+ t) = Ok (x, t)) l').
    { rewrite Forall_forall in *. intros y Hy t' Ht'. apply IH; auto. }
    assert (Hhead : ∃ c r, skip_ws (nl (S d) +:+ join ("," +:+ nl (S d)) (map (pr (S d)) l') +:+ nl d +:+ "]" +:+ t)
      = String c r ∧ Ascii.eqb c "]" = false).
    { rewrite nl_ws. apply Forall_cons in Hj as [Hx _].
      assert (∃ rest, join ("," +:+ nl (S d)) (map (pr (S d)) l') +:+ nl d +:+ "]" +:+ t = pr (S d) x +:+ rest) as [rest ->].
      { destruct l; unfold l'; [by eexists|]. eexists. cbn [map join]. by rewrite app_str_assoc. }
      destruct (print_head (S d) x rest Hx) as (c & r & E & Hc & Hb & _). rewrite E, skip_ws_head by done. eauto. }
    destruct Hhead as (c & r & Hskip & Hc). rewrite (parse_value_arr _ _ _ _ Hskip Hc).
    rewrite (parse_elems_print (parse_value depth) (S d) d l'); try done.
    + rewrite !length_app_str.
      assert (length l' ≤ String.length (join ("," +:+ nl (S d)) (map (pr (S d)) l'))); [|lia].
      apply length_join_map. intros y Hy Hnil. rewrite Forall_forall in Hj. specialize (Hj y Hy).
      destruct (print_head (S d) y EmptyString Hj) as (c' & r' & E & _). rewrite Hnil in E. done.
    + intros w s. apply parse_value_skip.
  - destruct m as [|kv m]; [by destruct depth; [lia|]|]. destruct depth as [|depth]; [lia|].
    set (m' := kv :: m) in *. rewrite !app_str_assoc.
    apply foldr_and_Forall in Hj. apply le_S_n, foldr_max_Forall in Hd.
    change (λ kv0 : string * json, encode_string kv0.1 +:+ colon +:+ pr (S d) kv0.2) with (print_member (S d)).
    assert (Hall : Forall (λ kv, valid_utf8 kv.1 = true ∧
      ∀ t, ends_number t = true → parse_value depth (pr (S d) kv.2 +:+ t) = Ok (kv.2, t)) m').
    { rewrite Forall_forall in *. intros y Hy. destruct (Hj y Hy). split; [done|]. intros t' Ht'. apply IH; auto. }
    assert (Hhead : ∃ c r, skip_ws (nl (S d) +:+ join ("," +:+ nl (S d)) (map (print_member (S d)) m') +:+ nl d +:+ "}" +:+ t)
      = String c r ∧ Ascii.eqb c "}" = false).
    { rewrite nl_ws. exists (mk 34). destruct m; unfold m'; cbn [map join]; unfold print_member at 1, encode_string at 1;
        rewrite !app_str_assoc, quote_cons, skip_ws_head by done; by eexists. }
    destruct Hhead as (c & r & Hskip & Hc). rewrite (parse_value_obj _ _ _ _ Hskip Hc).
    rewrite (parse_members_print (parse_value depth) (S d) d (S d) m'); try done.
    + rewrite !length_app_str.
      assert (length m' ≤ String.length (join ("," +:+ nl (S d)) (map (print_member (S d)) m'))); [|lia].
      apply length_join_map. intros y _. unfold print_member, encode_string. by rewrite !app_str_assoc, quote_cons.
    + intros w s. apply parse_value_skip.
Qed.
End RoundTrip.

(** The two encoders. *)
Lemma skip_ws_blanks n s : skip_ws (indent n +:+ s) = skip_ws s.
Proof.
  induction n as [|n IH]; [done|]. cbn [indent]. rewrite app_str_assoc. exact IH.
Qed.

Lemma parse_Marshal j :
  json_ok j → nesting j ≤ max_nesting → parse_document (Marshal j) = Ok j.
Proof.
  intros Hj Hn. unfold parse_document, Marshal. rewrite <-(app_str_nil_r (print _ _ _ _)).
  rewrite print_parse; try done. by exists EmptyString.
Qed.

Lemma parse_MarshalIndent j :
  json_ok j → nesting j ≤ max_nesting → parse_document (MarshalIndent j) = Ok j.
Proof.
  intros Hj Hn. unfold parse_document, MarshalIndent. rewrite <-(app_str_nil_r (print _ _ _ _)).
  rewrite print_parse; try done.
  - intros d s. rewrite app_str_assoc. apply (skip_ws_blanks d s).
  - by exists " ".
Qed.

(** ** What is parsed is text *)

(** Every string and every key is text. *)
Fixpoint strings_valid (j : json) : Prop :=
  match j with
  | JStr s => valid_utf8 s = true
  | JArr l => foldr (λ x P, strings_valid x ∧ P) True l
  | JObj m => foldr (λ kv P, (valid_utf8 kv.1 = true ∧ strings_valid kv.2) ∧ P) True m
  | _ => True
  end.

Lemma parse_string_valid s v r : parse_string s = Ok (v, r) → valid_utf8 v = true.
Proof. unfold parse_string. destruct (parse_string_body s) as [[v' r']|]; [|done]. intros [= <- <-]. apply sanitize_valid. Qed.

Section Containers.
Variable pv : string → parse json.
Hypothesis Hpv : ∀ s j r, pv s = Ok (j, r) → strings_valid j.

Lemma parse_elems_valid n s l r : parse_elems pv n s = Ok (l, r) → strings_valid (JArr l).
Proof.
  revert s l r. induction n as [|n IH]; intros s l r; cbn [parse_elems]; [done|].
  destruct (pv s) as [[v r1]|] eqn:E; [|done]. destruct (skip_ws r1) as [|c r2]; [done|].
  destruct (Ascii.eqb c ",").
  - destruct (parse_elems pv n r2) as [[vs r3]|] eqn:E2; [|done]. intros [= <- <-]. split; [by eapply Hpv|by eapply IH].
  - destruct (Ascii.eqb c "]"); [|done]. intros [= <- <-]. split; [by eapply Hpv|done].
Qed.

Lemma parse_members_valid n s m r : parse_members pv n s = Ok (m, r) → strings_valid (JObj m).
Proof.
  revert s m r. induction n as [|n IH]; intros s m r; cbn [parse_members]; [done|].
  destruct (skip_ws s) as [|c s1]; [done|]. destruct (negb _); [done|].
  destruct (parse_string s1) as [[k r1]|] eqn:Ek; [|done]. apply parse_string_valid in Ek.
  destruct (skip_ws r1) as [|c1 r2]; [done|]. destruct (negb _); [done|].
  destruct (pv r2) as [[v r3]|] eqn:E; [|done]. apply Hpv in E. destruct (skip_ws r3) as [|c2 r4]; [done|].
  destruct (Ascii.eqb c2 ",").
  - destruct (parse_members pv n r4) as [[kvs r5]|] eqn:E2; [|done]. intros [= <- <-]. split; [done|by eapply IH].
  - destruct (Ascii.eqb c2 "}"); [|done]. by intros [= <- <-].
Qed.
End Containers.

Lemma as_value_valid v p j r : as_value v p = Ok (j, r) → j = v.
Proof. unfold as_value. destruct p as [[u r']|]; [|done]. by intros [= <- <-]. Qed.

Lemma parse_value_valid depth s j r : parse_value depth s = Ok (j, r) → strings_valid j.
Proof.
  revert s j r. induction depth as [|d IH]; intros s j r; unfold parse_value; fold parse_value; destruct (skip_ws s) as [|c s1]; try done;
    (destruct (Ascii.eqb c "{"); [|destruct (Ascii.eqb c "[");
      [|destruct (byte c =? 34)%N;
        [destruct (parse_string s1) as [[v r1]|] eqn:E; [|done]; intros [= <- <-]; by apply parse_string_valid in E|
         destruct (Ascii.eqb c "t"); [by intros ->%as_value_valid|]; destruct (Ascii.eqb c "f"); [by intros ->%as_value_valid|];
         destruct (Ascii.eqb c "n"); [by intros ->%as_value_valid|]; destruct (_ || _); [|done];
         destruct (parse_number _) as [[l r1]|]; [by intros [= <- <-]|done]]]]); try done;
    destruct (skip_ws s1) as [|c' r']; try done.
  - destruct (Ascii.eqb c' "}"); [by intros [= <- <-]|].
    destruct (parse_members _ _ _) as [[m r2]|] eqn:E; [|done]. intros [= <- <-]. by apply parse_members_valid in E.
  - destruct (Ascii.eqb c' "]"); [by intros [= <- <-]|].
    destruct (parse_elems _ _ _) as [[l r2]|] eqn:E; [|done]. intros [= <- <-]. by apply parse_elems_valid in E.
Qed.

Lemma parse_document_valid s j : parse_document s = Ok j → strings_valid j.
Proof.
  unfold parse_document. destruct (parse_value max_nesting s) as [[v r]|] eqn:E; [|done].
  destruct (skip_ws r); [|done]. intros [= <-]. by eapply parse_value_valid.
Qed.

(** *** Decoders that keep a property of what they fill in *)
Definition yields {A} (d : decoder A) (P : A → Prop) : Prop :=
  ∀ st path j a, strings_valid j → P a → P (d st path j a).1.

Lemma yields_string : yields dec_string (λ s, valid_utf8 s = true).
Proof. intros st path [] a Hj Ha; done. Qed.

Lemma yields_int typ : yields (dec_int typ) (λ z, in_int64 z = true).
Proof.
  intros st path [| |lit| | |] a Hj Ha; try done. unfold dec_int.
  destruct (ParseInt lit) as [z [e|]] eqn:E; [done|]. pose proof (ParseInt_range lit) as Hr. by rewrite E in Hr.
Qed.

Lemma yields_map {A} typ (zero : A) d (P : A → Prop) :
  yields d P → P zero →
  yields (dec_map typ zero d) (λ m, ∀ k a, m !! k = Some a → valid_utf8 k = true ∧ P a).
Proof.
  intros Hd Hz st path [| | | | |kvs] m Hj Hm; try done. unfold dec_map. cbn [strings_valid] in Hj.
  generalize (None : option error) as e. revert m Hm.
  induction kvs as [|[k j] kvs IH]; intros m Hm e; [done|]. cbn [fold_left foldr fst snd] in *. destruct Hj as [[Hk Hj] Hr].
  pose proof (Hd st path j zero Hj Hz) as Hv. destruct (d st path j zero) as [v e']. cbn [fst snd] in *.
  apply IH; [done|]. intros k' a. destruct (decide (k = k')) as [<-|Hne].
  - rewrite lookup_insert_eq. by intros [= <-].
  - rewrite lookup_insert_ne by done. apply Hm.
Qed.

Lemma yields_struct {S} name typ (fs : list (field S)) (P : S → Prop) :
  Forall (λ f : field S, yields f.2 P) fs → yields (dec_struct name typ fs) P.
Proof.
  intros Hf st path [|b|lit|t|l|kvs] s Hj Hs; try done. unfold dec_struct, dec_members. cbn [strings_valid] in Hj.
  generalize (None : option error) as e. revert s Hs.
  induction kvs as [|[k j] kvs IH]; intros s Hs e; [done|]. cbn [fold_left foldr fst snd] in *. destruct Hj as [[_ Hj] Hr].
  destruct (lookup_field fs k) as [f|] eqn:Ef; [|by apply IH]. rewrite Forall_forall in Hf.
  pose proof (Hf f (lookup_field_elem _ _ _ Ef) name path j s Hj Hs) as Hp.
  destruct (f.2 name path j s) as [s' e']. by apply IH.
Qed.

Lemma yields_field {S A} name (d : decoder A) (get : S → A) set (Q : A → Prop) (P : S → Prop) :
  yields d Q → (∀ s, P s → Q (get s)) → (∀ v s, Q v → P s → P (set v s)) → yields (mk_field name d get set).2 P.
Proof.
  intros Hd Hg Hset st path j s Hj Hs. cbn [mk_field snd].
  pose proof (Hd st (path ++ [name]) j (get s) Hj (Hg s Hs)) as Hv. destruct (d _ _ _ _) as [a e]. by apply Hset.
Qed.

Lemma Unmarshal_yields {A} (d : decoder A) data v (P : A → Prop) : yields d P → P v → P (Unmarshal d data v).1.
Proof.
  intros Hd Hv. unfold Unmarshal. destruct (parse_document data) as [j|m] eqn:E; [|done].
  apply Hd; [by eapply parse_document_valid|done].
Qed.

(** ** Properties *)

(** What [json.Marshal] and [json.MarshalIndent] write, [json.Unmarshal]
    reads back as the same value: for every value whose strings are valid text,
    whose numbers are numbers and which is nested at most 10000 deep, whatever
    escapes, white space and nesting the encoding needs. *)
Theorem Marshal_roundtrip (j : json) (Hok : json_ok j) (Hdepth : (N.of_nat (nesting j) <= 10000)%N) :
  parse_document (Marshal j) = Ok j ∧ parse_document (MarshalIndent j) = Ok j.
Proof.
  assert (nesting j ≤ max_nesting) by (unfold max_nesting; lia).
  split; [by apply parse_Marshal|by apply parse_MarshalIndent].
Qed.

Lemma Marshal_roundtrip_witness :
  let j := JObj [("a" +:+ quote, JArr [JNum "-12"; JStr ("x" +:+ newline +:+ "<é>"); JObj []]); ("", JNull)] in
  parse_document (Marshal j) = Ok j ∧ parse_document (MarshalIndent j) = Ok j.
Proof.
  apply Marshal_roundtrip; [|vm_compute; discriminate].
  repeat split; vm_compute; reflexivity.
Defined.
