(* ===== verification/Http.v ===== *)
(** * Http: contexts, HTTP requests and responses, and the client through
    which the agent sends them.

    What answers a request is outside the program: an [HttpClient] over a
    world [W] is any transport, with the checks [http.NewRequestWithContext]
    makes on a URL. *)

From Stdlib Require Import ZArith.
From S2P Require Import Prelude GoStrings GoError.

(** ** Contexts: what the agent sets on them is a deadline, in nanoseconds. *)
Record Context : Type := mkContext { ctx_deadline : option Z }.

Definition Background : Context := mkContext None.

(** [context.WithTimeout(ctx, d)] at time [now]: the earlier deadline wins. *)
Definition WithTimeout (ctx : Context) (now d : Z) : Context :=
  mkContext (Some (match ctx_deadline ctx with
                   | None => (now + d)%Z
                   | Some t => Z.min t (now + d)
                   end)).

Definition Second : Z := 1000000000.
Definition Millisecond : Z := 1000000.

(** The clock of the host, in nanoseconds. *)
Class Clock (W : Type) := { Now : M W Z }.

(** [select] on [ctx.Done()] and [time.After(d)]: [None] when the timer fired,
    [ctx.Err()] when the context was done. *)
Class Timer (W : Type) := { SelectAfter : Context → Z → M W (option error) }.

(** ** Messages *)
Record Request : Type := mkRequest {
  Method : string;
  URL : string;
  ContentTypeJSON : bool;
  ReqBody : option string;
}.

(** A response; reading the body yields [RespBody] and then [ReadErr], if any,
    instead of end of file. *)
Record Response : Type := mkResponse {
  StatusCode : Z;
  RespBody : string;
  ReadErr : option error;
}.

Record HttpClient (W : Type) : Type := mkHttpClient {
  NewRequest : string → string → option error;
  Do : Context → Request → M W (res Response);
}.
Arguments NewRequest {W}.
Arguments Do {W}.

(** A client whose every exchange is recorded, for statements about the
    requests a function sends. *)
Definition Recorded (W : Type) : Type := W * list Request.

Definition recording {W} (h : HttpClient W) : HttpClient (Recorded W) := {|
  NewRequest := NewRequest h;
  Do := λ ctx r w, let '(a, w') := Do h ctx r w.1 in (a, (w', w.2 ++ [r]));
|}.

(** The same for the requests and the waits between them. *)
Inductive event : Type :=
| Sent (r : Request)
| Waited (d : Z).

Definition Traced (W : Type) : Type := W * list event.

Definition tracing {W} (h : HttpClient W) : HttpClient (Traced W) := {|
  NewRequest := NewRequest h;
  Do := λ ctx r w, let '(a, w') := Do h ctx r w.1 in (a, (w', w.2 ++ [Sent r]));
|}.

#[export] Instance tracing_timer {W} `{Timer W} : Timer (Traced W) := {|
  SelectAfter := λ ctx d w, let '(o, w') := SelectAfter ctx d w.1 in (o, (w', w.2 ++ [Waited d]));
|}.

(** A transport that answers from a script, one entry per request. *)
Definition scripted : HttpClient (list (res Response)) := {|
  NewRequest := λ _ _, None;
  Do := λ _ _ w,
    match w with
    | [] => (Err (URLError "Post" "" (NetError "connection refused" false false)), [])
    | a :: w' => (a, w')
    end;
|}.

(** The timer of a script always fires. *)
#[export] Instance firing_timer : Timer (list (res Response)) := {| SelectAfter := λ _ _ w, (None, w) |}.

(** A transport that answers as a function of the request and changes
    nothing, as a server does for reads. *)
Definition answering (f : Request → res Response) : HttpClient unit := {|
  NewRequest := λ _ _, None;
  Do := λ _ r w, (f r, w);
|}.

Definition MethodGet : string := "GET".
Definition MethodPost : string := "POST".
Definition MethodDelete : string := "DELETE".
