(* ===== verification/Docker.v ===== *)
(** * Docker: internal/docker/client.go, the client of the Docker Engine API.

    [docker.Client] holds the transport to the daemon's socket and the API
    version.  Every operation builds its URL, sends one request (three for
    [Exec]) and turns the answer into a value or an error as the code does. *)

From Stdlib Require Import Ascii NArith ZArith.
From S2P Require Import Prelude GoStrings GoFmt Redact GoError Json Http.

Module docker.

(** ** Types *)

Record PortMapping : Type := mkPortMapping {
  HostPort : string;
  ContainerPort_ : string;
  Protocol : string;
}.

Record VolumeMount : Type := mkVolumeMount {
  Source : string;
  Target : string;
  Mode : string;
}.

Record ContainerSpec : Type := mkContainerSpec {
  Name : string;
  Image : string;
  Ports : list PortMapping;
  Volumes : list VolumeMount;
  Env : list string;
  Restart : string;
  Cmd : list string;
}.

Record ContainerPort : Type := mkContainerPort {
  PrivatePort : Z;
  PublicPort : Z;
  PortType : string;
}.

Record ContainerInfo : Type := mkContainerInfo {
  InfoID : string;
  Names : list string;
  InfoImage : string;
  InfoState : string;
  InfoStatus : string;
  InfoPorts : list ContainerPort;
}.

(** The anonymous struct of the [State] field; [Health] is nil or a pointer to
    a struct with one field. *)
Record RunState : Type := mkRunState {
  Status : string;
  Running : bool;
  ExitCode : Z;
  StartedAt : string;
  FinishedAt : string;
  Health : option string;
}.

Record ContainerConfig : Type := mkContainerConfig {
  ConfigImage : string;
  Labels : gmap string string;
}.

Record ContainerState : Type := mkContainerState {
  ID : string;
  Created : string;
  State : RunState;
  StateName : string;
  Config : ContainerConfig;
}.

Record ImageInfo : Type := mkImageInfo {
  ImageID : string;
  RepoTags : list string;
  RepoDigests : list string;
  Size : Z;
  Os : string;
  Architecture : string;
}.

Record ExecResult : Type := mkExecResult {
  ExecExitCode : Z;
  Stdout : string;
  Stderr : string;
}.

(** ** Decoders of the answers *)

Definition zero_RunState : RunState := mkRunState "" false 0 "" "" None.
Definition zero_ContainerConfig : ContainerConfig := mkContainerConfig "" ∅.
Definition zero_ContainerState : ContainerState :=
  mkContainerState "" "" zero_RunState "" zero_ContainerConfig.
Definition zero_ContainerPort : ContainerPort := mkContainerPort 0 0 "".
Definition zero_ContainerInfo : ContainerInfo := mkContainerInfo "" [] "" "" "" [].
Definition zero_ImageInfo : ImageInfo := mkImageInfo "" [] [] 0 "" "".

Definition dec_Health : decoder string :=
  dec_struct "" (anon_struct [("Status", "string", "Status")]) [mk_field "Status" dec_string id (λ v _, v)].

Definition dec_RunState : decoder RunState := dec_struct ""
  (anon_struct [("Status", "string", "Status"); ("Running", "bool", "Running");
                ("ExitCode", "int", "ExitCode"); ("StartedAt", "string", "StartedAt");
                ("FinishedAt", "string", "FinishedAt");
                ("Health", "*" +:+ anon_struct [("Status", "string", "Status")], "Health")])
  [ mk_field "Status" dec_string Status
      (λ v s, mkRunState v (Running s) (ExitCode s) (StartedAt s) (FinishedAt s) (Health s));
    mk_field "Running" dec_bool Running
      (λ v s, mkRunState (Status s) v (ExitCode s) (StartedAt s) (FinishedAt s) (Health s));
    mk_field "ExitCode" (dec_int "int") ExitCode
      (λ v s, mkRunState (Status s) (Running s) v (StartedAt s) (FinishedAt s) (Health s));
    mk_field "StartedAt" dec_string StartedAt
      (λ v s, mkRunState (Status s) (Running s) (ExitCode s) v (FinishedAt s) (Health s));
    mk_field "FinishedAt" dec_string FinishedAt
      (λ v s, mkRunState (Status s) (Running s) (ExitCode s) (StartedAt s) v (Health s));
    mk_field "Health" (dec_ptr "" dec_Health) Health
      (λ v s, mkRunState (Status s) (Running s) (ExitCode s) (StartedAt s) (FinishedAt s) v) ].

Definition dec_ContainerConfig : decoder ContainerConfig := dec_struct "ContainerConfig" "docker.ContainerConfig"
  [ mk_field "Image" dec_string ConfigImage (λ v s, mkContainerConfig v (Labels s));
    mk_field "Labels" (dec_map "map[string]string" "" dec_string) Labels
      (λ v s, mkContainerConfig (ConfigImage s) v) ].

Definition dec_ContainerState : decoder ContainerState := dec_struct "ContainerState" "docker.ContainerState"
  [ mk_field "Id" dec_string ID
      (λ v s, mkContainerState v (Created s) (State s) (StateName s) (Config s));
    mk_field "Created" dec_string Created
      (λ v s, mkContainerState (ID s) v (State s) (StateName s) (Config s));
    mk_field "State" dec_RunState State
      (λ v s, mkContainerState (ID s) (Created s) v (StateName s) (Config s));
    mk_field "Name" dec_string StateName
      (λ v s, mkContainerState (ID s) (Created s) (State s) v (Config s));
    mk_field "Config" dec_ContainerConfig Config
      (λ v s, mkContainerState (ID s) (Created s) (State s) (StateName s) v) ].

Definition dec_ContainerPort : decoder ContainerPort := dec_struct "ContainerPort" "docker.ContainerPort"
  [ mk_field "PrivatePort" (dec_int "int") PrivatePort
      (λ v s, mkContainerPort v (PublicPort s) (PortType s));
    mk_field "PublicPort" (dec_int "int") PublicPort
      (λ v s, mkContainerPort (PrivatePort s) v (PortType s));
    mk_field "Type" dec_string PortType
      (λ v s, mkContainerPort (PrivatePort s) (PublicPort s) v) ].

Definition dec_ContainerInfo : decoder ContainerInfo := dec_struct "ContainerInfo" "docker.ContainerInfo"
  [ mk_field "Id" dec_string InfoID
      (λ v s, mkContainerInfo v (Names s) (InfoImage s) (InfoState s) (InfoStatus s) (InfoPorts s));
    mk_field "Names" (dec_slice "[]string" "" dec_string) Names
      (λ v s, mkContainerInfo (InfoID s) v (InfoImage s) (InfoState s) (InfoStatus s) (InfoPorts s));
    mk_field "Image" dec_string InfoImage
      (λ v s, mkContainerInfo (InfoID s) (Names s) v (InfoState s) (InfoStatus s) (InfoPorts s));
    mk_field "State" dec_string InfoState
      (λ v s, mkContainerInfo (InfoID s) (Names s) (InfoImage s) v (InfoStatus s) (InfoPorts s));
    mk_field "Status" dec_string InfoStatus
      (λ v s, mkContainerInfo (InfoID s) (Names s) (InfoImage s) (InfoState s) v (InfoPorts s));
    mk_field "Ports" (dec_slice "[]docker.ContainerPort" zero_ContainerPort dec_ContainerPort) InfoPorts
      (λ v s, mkContainerInfo (InfoID s) (Names s) (InfoImage s) (InfoState s) (InfoStatus s) v) ].

Definition dec_ImageInfo : decoder ImageInfo := dec_struct "ImageInfo" "docker.ImageInfo"
  [ mk_field "Id" dec_string ImageID
      (λ v s, mkImageInfo v (RepoTags s) (RepoDigests s) (Size s) (Os s) (Architecture s));
    mk_field "RepoTags" (dec_slice "[]string" "" dec_string) RepoTags
      (λ v s, mkImageInfo (ImageID s) v (RepoDigests s) (Size s) (Os s) (Architecture s));
    mk_field "RepoDigests" (dec_slice "[]string" "" dec_string) RepoDigests
      (λ v s, mkImageInfo (ImageID s) (RepoTags s) v (Size s) (Os s) (Architecture s));
    mk_field "Size" (dec_int "int64") Size
      (λ v s, mkImageInfo (ImageID s) (RepoTags s) (RepoDigests s) v (Os s) (Architecture s));
    mk_field "Os" dec_string Os
      (λ v s, mkImageInfo (ImageID s) (RepoTags s) (RepoDigests s) (Size s) v (Architecture s));
    mk_field "Architecture" dec_string Architecture
      (λ v s, mkImageInfo (ImageID s) (RepoTags s) (RepoDigests s) (Size s) (Os s) v) ].

(** A struct with a single string field, as several answers are read. *)
Definition dec_one_string (field name : string) : decoder string :=
  dec_struct "" (anon_struct [(field, "string", name)]) [mk_field name dec_string id (λ v _, v)].

Definition dec_exit_code : decoder Z :=
  dec_struct "" (anon_struct [("ExitCode", "int", "ExitCode")]) [mk_field "ExitCode" (dec_int "int") id (λ v _, v)].

(** The answer to a container creation: an id and warnings nobody reads. *)
Definition dec_created : decoder (string * list string) :=
  dec_struct "" (anon_struct [("ID", "string", "Id"); ("Warnings", "[]string", "Warnings")])
  [ mk_field "Id" dec_string fst (λ v s, (v, s.2));
    mk_field "Warnings" (dec_slice "[]string" "" dec_string) snd (λ v s, (s.1, v)) ].

(** A decoded value, unless the decoder reported an error. *)
Definition decoded {A} (p : A * option error) : res A :=
  match p with (a, None) => Ok a | (_, Some e) => Err e end.

(** ** The client *)

Section Client.
Context {W : Type} `{UnicodeTables}.

Record Client : Type := mkClient { httpClient : HttpClient W; apiVersion : string }.

(** [NewClient]: the transport to the socket is given. *)
Definition NewClient (h : HttpClient W) : Client := mkClient h "v1.45".

Variable c : Client.
Variable ctx : Context.

Definition do (method path : string) (body : option string) : M W (res Response) := λ w,
  let url := "http://unix" +:+ path in
  match NewRequest (httpClient c) method url with
  | Some err => (Err err, w)
  | None => Do (httpClient c) ctx (mkRequest method url (bool_decide (is_Some body)) body) w
  end.

Definition doJSON (method path : string) (body : json) : M W (res Response) :=
  do method path (Some (Marshal body)).

(** fmt.Errorf("<what>: http %d: %s", resp.StatusCode, strings.TrimSpace(body)) *)
Definition status_error (what : string) (resp : Response) : error :=
  ErrorString (what +:+ ": http " +:+ itoa (StatusCode resp) +:+ ": " +:+ TrimSpace (RespBody resp)).

Definition api (path : string) : string := "/" +:+ apiVersion c +:+ path.

(** The error a line of the pull stream reports, if any. *)
Definition line_error (line : string) : option string :=
  match Unmarshal (dec_one_string "Error" "error") line EmptyString with
  | (e, None) => if String.eqb e EmptyString then None else Some e
  | _ => None
  end.

Fixpoint pull_loop (image : string) (lines : list string) : res unit :=
  match lines with
  | [] => Ok tt
  | l :: ls =>
      match line_error l with
      | Some e => Err (ErrorString ("docker pull " +:+ image +:+ ": " +:+ e))
      | None => pull_loop image ls
      end
  end.

Definition Pull (image : string) : M W (res unit) :=
  resp <- do MethodPost (api ("/images/create?fromImage=" +:+ image)) None
    orelse wrapf ("docker pull " +:+ image +:+ ": ") ;;
  if (400 <=? StatusCode resp)%Z then mret (Err (status_error ("docker pull " +:+ image) resp))
  else mret (pull_loop image (scan_lines (RespBody resp))).

(** [json.NewDecoder(resp.Body).Decode(&v)] with the error wrapped. *)
Definition decode_body {A} (what : string) (d : decoder A) (zero : A) (resp : Response) : res A :=
  match decoded (Decode d (RespBody resp) (ReadErr resp) zero) with
  | Ok a => Ok a
  | Err e => Err (wrapf (what +:+ ": decode: ") e)
  end.

Definition InspectImage (image : string) : M W (res ImageInfo) :=
  resp <- do MethodGet (api ("/images/" +:+ image +:+ "/json")) None
    orelse wrapf ("docker inspect image " +:+ image +:+ ": ") ;;
  if (400 <=? StatusCode resp)%Z
  then mret (Err (status_error ("docker inspect image " +:+ image) resp))
  else mret (decode_body ("docker inspect image " +:+ image) dec_ImageInfo zero_ImageInfo resp).

(** [io.ReadAll]. *)
Definition ReadAll (resp : Response) : string * option error := (RespBody resp, ReadErr resp).

Definition exec_create_body (cmd : list string) : json :=
  JObj (map_set "Cmd" (JArr (map JStr cmd))
       (map_set "AttachStderr" (JBool true) (map_set "AttachStdout" (JBool true) []))).

Definition exec_start_body : json :=
  JObj (map_set "Tty" (JBool false) (map_set "Detach" (JBool false) [])).

(** The status of the answers to the second and third request is not looked
    at, and neither is the outcome of decoding the third. *)
Definition Exec (containerID : string) (cmd : list string) : M W (res ExecResult) :=
  resp <- doJSON MethodPost (api ("/containers/" +:+ containerID +:+ "/exec")) (exec_create_body cmd)
    orelse wrapf ("docker exec create " +:+ containerID +:+ ": ") ;;
  if (400 <=? StatusCode resp)%Z
  then mret (Err (status_error ("docker exec create " +:+ containerID) resp))
  else
    match decode_body ("docker exec create " +:+ containerID) (dec_one_string "ID" "Id") EmptyString resp with
    | Err e => mret (Err e)
    | Ok execID =>
        startResp <- doJSON MethodPost (api ("/exec/" +:+ execID +:+ "/start")) exec_start_body
          orelse wrapf ("docker exec start " +:+ containerID +:+ ": ") ;;
        match ReadAll startResp with
        | (_, Some err) => mret (Err (wrapf ("docker exec read " +:+ containerID +:+ ": ") err))
        | (data, None) =>
            inspectResp <- do MethodGet (api ("/exec/" +:+ execID +:+ "/json")) None
              orelse wrapf ("docker exec inspect " +:+ containerID +:+ ": ") ;;
            let '(code, _) := Decode dec_exit_code (RespBody inspectResp) (ReadErr inspectResp) 0%Z in
            mret (Ok (mkExecResult code data EmptyString))
        end
    end.

(** ** The body of a creation request *)

Definition is_nonempty {A} (l : list A) : bool := match l with [] => false | _ => true end.

(** [req["HostConfig"].(map[string]any)], or a fresh map when it is not there. *)
Definition hostCfg (req : list (string * json)) : list (string * json) :=
  match map_get "HostConfig" req with Some (JObj m) => m | _ => [] end.

Definition port_key (p : PortMapping) : string := ContainerPort_ p +:+ "/" +:+ Protocol p.

Definition exposedPorts (ports : list PortMapping) : list (string * json) :=
  fold_left (λ m p, map_set (port_key p) (JObj []) m) ports [].

Definition portBindings (ports : list PortMapping) : list (string * json) :=
  fold_left (λ m p, map_set (port_key p) (JArr [JObj [("HostPort", JStr (HostPort p))]]) m) ports [].

Definition bind_of (v : VolumeMount) : string :=
  let mode := if String.eqb (Mode v) "" then "rw" else Mode v in
  Source v +:+ ":" +:+ Target v +:+ ":" +:+ mode.

Definition managed_labels : json := JObj [("managed-by", JStr "routestack")].

Definition add_cmd (spec : ContainerSpec) (req : list (string * json)) : list (string * json) :=
  if is_nonempty (Cmd spec) then map_set "Cmd" (JArr (map JStr (Cmd spec))) req else req.

Definition add_ports (spec : ContainerSpec) (req : list (string * json)) : list (string * json) :=
  if is_nonempty (Ports spec) then
    map_set "HostConfig" (JObj [("PortBindings", JObj (portBindings (Ports spec)))])
      (map_set "ExposedPorts" (JObj (exposedPorts (Ports spec))) req)
  else req.

Definition add_volumes (spec : ContainerSpec) (req : list (string * json)) : list (string * json) :=
  if is_nonempty (Volumes spec) then
    map_set "HostConfig"
      (JObj (map_set "Binds" (JArr (map (λ v, JStr (bind_of v)) (Volumes spec))) (hostCfg req))) req
  else req.

Definition add_env (spec : ContainerSpec) (req : list (string * json)) : list (string * json) :=
  if is_nonempty (Env spec) then map_set "Env" (JArr (map JStr (Env spec))) req else req.

Definition add_restart (spec : ContainerSpec) (req : list (string * json)) : list (string * json) :=
  if negb (String.eqb (Restart spec) "") && negb (String.eqb (Restart spec) "no") then
    map_set "HostConfig"
      (JObj (map_set "RestartPolicy" (JObj [("Name", JStr (Restart spec))]) (hostCfg req))) req
  else req.

Definition buildCreateRequest (spec : ContainerSpec) : list (string * json) :=
  map_set "Labels" managed_labels
    (add_restart spec (add_env spec (add_volumes spec (add_ports spec (add_cmd spec
      (map_set "Image" (JStr (Image spec)) [])))))).

(** ** Container lifecycle *)

Definition Create (spec : ContainerSpec) : M W (res string) :=
  resp <- doJSON MethodPost (api ("/containers/create?name=" +:+ Name spec)) (JObj (buildCreateRequest spec))
    orelse wrapf ("docker create " +:+ Name spec +:+ ": ") ;;
  if (400 <=? StatusCode resp)%Z
  then mret (Err (status_error ("docker create " +:+ Name spec) resp))
  else mret (match decode_body ("docker create " +:+ Name spec) dec_created (EmptyString, []) resp with
             | Ok (id, _) => Ok id
             | Err e => Err e
             end).

(** A request whose answer carries nothing but its status. *)
Definition expect_status (what : string) (r : M W (res Response)) : M W (res unit) :=
  resp <- r orelse wrapf (what +:+ ": ") ;;
  if (400 <=? StatusCode resp)%Z then mret (Err (status_error what resp)) else mret (Ok tt).

Definition Start (containerID : string) : M W (res unit) :=
  expect_status ("docker start " +:+ containerID)
    (do MethodPost (api ("/containers/" +:+ containerID +:+ "/start")) None).

Definition stop_path (containerID : string) (timeoutSec : Z) : string :=
  api ("/containers/" +:+ containerID +:+ "/stop") +:+
  (if (0 <? timeoutSec)%Z then "?t=" +:+ itoa timeoutSec else "").

Definition Stop (containerID : string) (timeoutSec : Z) : M W (res unit) :=
  expect_status ("docker stop " +:+ containerID)
    (do MethodPost (stop_path containerID timeoutSec) None).

Definition remove_path (containerID : string) (force : bool) : string :=
  api ("/containers/" +:+ containerID) +:+ (if force then "?force=true" else "").

Definition Remove (containerID : string) (force : bool) : M W (res unit) :=
  expect_status ("docker remove " +:+ containerID)
    (do MethodDelete (remove_path containerID force) None).

Definition Inspect (containerID : string) : M W (res ContainerState) :=
  resp <- do MethodGet (api ("/containers/" +:+ containerID +:+ "/json")) None
    orelse wrapf ("docker inspect " +:+ containerID +:+ ": ") ;;
  if (400 <=? StatusCode resp)%Z
  then mret (Err (status_error ("docker inspect " +:+ containerID) resp))
  else mret (decode_body ("docker inspect " +:+ containerID) dec_ContainerState zero_ContainerState resp).

Definition Adopt (containerID : string) : M W (res unit) :=
  expect_status ("docker adopt " +:+ containerID)
    (doJSON MethodPost (api ("/containers/" +:+ containerID +:+ "/update"))
       (JObj [("Labels", managed_labels)])).

(** The label filters, in the order the range over the map visits them. *)
Definition list_path (labels : list (string * string)) : string :=
  api "/containers/json?all=true" +:+
  (match labels with
   | [] => "&filters={" +:+ quote +:+ "label" +:+ quote +:+ ":{" +:+ quote
           +:+ "managed-by=routestack" +:+ quote +:+ ":true}}"
   | _ => concat_strings
            (map (λ kv, "&filters={" +:+ quote +:+ "label" +:+ quote +:+ ":{"
                        +:+ Quote (kv.1 +:+ "=" +:+ kv.2) +:+ ":true}}") labels)
   end).

Definition List (labels : list (string * string)) : M W (res (list ContainerInfo)) :=
  resp <- do MethodGet (list_path labels) None orelse wrapf "docker list: " ;;
  mret (decode_body "docker list" (dec_slice "[]docker.ContainerInfo" zero_ContainerInfo dec_ContainerInfo) [] resp).

Definition Logs (containerID : string) (tail : Z) : M W (res string) :=
  resp <- do MethodGet (api ("/containers/" +:+ containerID +:+ "/logs?stdout=true&stderr=true&tail="
                             +:+ itoa tail)) None
    orelse wrapf ("docker logs " +:+ containerID +:+ ": ") ;;
  if (400 <=? StatusCode resp)%Z
  then mret (Err (status_error ("docker logs " +:+ containerID) resp))
  else match ReadAll resp with
       | (_, Some err) => mret (Err (wrapf ("docker logs " +:+ containerID +:+ ": read: ") err))
       | (data, None) => mret (Ok data)
       end.

(** ** Finding a container *)

Definition KnownContainerNames : list string := ["amnezia-awg2"; "amnezia-xray"; "telemt"].

Fixpoint try_candidates (name : string) (cs : list string) : M W (option string) :=
  match cs with
  | [] => mret None
  | candidate :: cs' =>
      if String.eqb candidate name then try_candidates name cs'
      else r ← Inspect candidate;
           match r with
           | Ok state => mret (Some (ID state))
           | Err _ => try_candidates name cs'
           end
  end.

Definition name_matches (name n : string) : bool :=
  let clean := TrimPrefix n "/" in
  String.eqb clean name || existsb (String.eqb clean) KnownContainerNames.

Fixpoint find_listed (name : string) (containers : list ContainerInfo) : string :=
  match containers with
  | [] => EmptyString
  | container :: cs =>
      if existsb (name_matches name) (Names container) then InfoID container
      else find_listed name cs
  end.

Definition FindContainer (name : string) : M W (res string) :=
  r ← Inspect name;
  match r with
  | Ok state => mret (Ok (ID state))
  | Err _ =>
      o ← try_candidates name KnownContainerNames;
      match o with
      | Some id => mret (Ok id)
      | None =>
          containers <- List [] orelse wrapf ("find container " +:+ name +:+ ": ") ;;
          mret (Ok (find_listed name containers))
      end
  end.
End Client.

Arguments Client : clear implicits.
#[global] Arguments decode_body : simpl never.
#[global] Arguments status_error : simpl never.

(** ** Lemmas *)

Section Lemmas.
Context {W : Type} `{UnicodeTables}.
Implicit Types (c : Client W) (ctx : Context) (w : W).

Lemma expect_status_ok what (r : M W (res Response)) w :
  (expect_status what r w).1 = Ok tt ↔
  ∃ resp, (r w).1 = Ok resp ∧ (StatusCode resp < 400)%Z.
Proof.
  unfold expect_status. mred. destruct (r w) as [[resp|e] w']; simpl.
  - destruct (Z.leb_spec 400 (StatusCode resp)); simpl; split; try done.
    + intros (? & [= <-] & ?). lia.
    + intros _. eauto.
  - split; [done|]. by intros (? & ? & ?).
Qed.

(** A server that answers reads as a function of the request. *)
Definition serve_client (f : Request → res Response) (v : string) : Client unit :=
  mkClient (answering f) v.

(** What [Inspect] returns against such a server. *)
Definition inspect_of (f : Request → res Response) (v name : string) : res ContainerState :=
  (Inspect (serve_client f v) Background name tt).1.

Definition list_of (f : Request → res Response) (v : string) : res (list ContainerInfo) :=
  (List (serve_client f v) Background [] tt).1.

Lemma Inspect_answering f v ctx name (w : unit) :
  Inspect (serve_client f v) ctx name w = (inspect_of f v name, w).
Proof.
  destruct w. unfold inspect_of, Inspect, do, serve_client. mred.
  destruct (f _) as [resp|e]; [|done]. simpl. by destruct (400 <=? StatusCode resp)%Z.
Qed.

Lemma List_answering f v ctx (w : unit) : List (serve_client f v) ctx [] w = (list_of f v, w).
Proof.
  destruct w. unfold list_of, List, do, serve_client. mred. by destruct (f _) as [resp|e].
Qed.

(** The reference for [FindContainer]: the first name of the requested one
    and the adoptable ones that can be inspected, else the first listed
    container that carries one of these names, else none. *)
Definition inspect_id (f : Request → res Response) (v name : string) : option string :=
  match inspect_of f v name with Ok st => Some (ID st) | Err _ => None end.

Definition find_reference (f : Request → res Response) (v name : string) : res string :=
  match head (omap (inspect_id f v) (name :: KnownContainerNames)) with
  | Some id => Ok id
  | None =>
      match list_of f v with
      | Ok cs =>
          Ok (default EmptyString
                (head (map InfoID
                   (filter (λ i, existsb (name_matches name) (Names i) = true) cs))))
      | Err e => Err (wrapf ("find container " +:+ name +:+ ": ") e)
      end
  end.

Lemma find_listed_filter name cs :
  find_listed name cs =
  default EmptyString
    (head (map InfoID (filter (λ i, existsb (name_matches name) (Names i) = true) cs))).
Proof.
  induction cs as [|i cs IH]; simpl; [done|]. rewrite filter_cons.
  destruct (existsb (name_matches name) (Names i)) eqn:E; simpl; [done|].
  by rewrite IH.
Qed.

Lemma try_candidates_answering f v ctx name l (w : unit) :
  inspect_id f v name = None →
  try_candidates (serve_client f v) ctx name l w = (head (omap (inspect_id f v) l), w).
Proof.
  intros Hn. induction l as [|x l IH]; simpl; [done|].
  destruct (String.eqb_spec x name) as [->|]; [by rewrite Hn|].
  unfold inspect_id at 1. unfold mbind, M_bind. rewrite Inspect_answering.
  by destruct (inspect_of f v x).
Qed.
End Lemmas.

(** ** The creation request *)

Lemma map_get_set_eq k v m : map_get k (map_set k v m) = Some v.
Proof. by rewrite map_get_set, String.eqb_refl. Qed.

Lemma map_get_set_ne k k' v m : k ≠ k' → map_get k (map_set k' v m) = map_get k m.
Proof. intros ?. rewrite map_get_set. by destruct (String.eqb_spec k k'). Qed.

Lemma map_get_if_other (b : bool) k k' v m :
  k ≠ k' → map_get k (if b then map_set k' v m else m) = map_get k m.
Proof. intros ?. destruct b; [by apply map_get_set_ne|done]. Qed.

Lemma hostCfg_set_other k v req : k ≠ "HostConfig" → hostCfg (map_set k v req) = hostCfg req.
Proof. intros ?. unfold hostCfg. by rewrite map_get_set_ne. Qed.

Lemma hostCfg_set m req : hostCfg (map_set "HostConfig" (JObj m) req) = m.
Proof. unfold hostCfg. by rewrite map_get_set_eq. Qed.

(** How each step of [buildCreateRequest] changes a member of the request and
    of its [HostConfig]. *)
Section Steps.
Variables (spec : ContainerSpec) (req : list (string * json)) (k : string).

Lemma get_add_cmd :
  map_get k (add_cmd spec req) =
  if String.eqb k "Cmd" && is_nonempty (Cmd spec)
  then Some (JArr (map JStr (Cmd spec))) else map_get k req.
Proof. unfold add_cmd. destruct (is_nonempty _); rewrite ?map_get_set, ?andb_true_r, ?andb_false_r; done. Qed.

Lemma get_add_env :
  map_get k (add_env spec req) =
  if String.eqb k "Env" && is_nonempty (Env spec)
  then Some (JArr (map JStr (Env spec))) else map_get k req.
Proof. unfold add_env. destruct (is_nonempty _); rewrite ?map_get_set, ?andb_true_r, ?andb_false_r; done. Qed.

Lemma get_add_ports :
  k ≠ "HostConfig" →
  map_get k (add_ports spec req) =
  if String.eqb k "ExposedPorts" && is_nonempty (Ports spec)
  then Some (JObj (exposedPorts (Ports spec))) else map_get k req.
Proof.
  intros ?. unfold add_ports. destruct (is_nonempty _); rewrite ?andb_true_r, ?andb_false_r; [|done].
  by rewrite map_get_set_ne, map_get_set by done.
Qed.

Lemma get_add_volumes : k ≠ "HostConfig" → map_get k (add_volumes spec req) = map_get k req.
Proof. intros ?. unfold add_volumes. destruct (is_nonempty _); [by rewrite map_get_set_ne|done]. Qed.

Lemma get_add_restart : k ≠ "HostConfig" → map_get k (add_restart spec req) = map_get k req.
Proof. intros ?. unfold add_restart. case_match; [by rewrite map_get_set_ne|done]. Qed.

Lemma host_add_cmd : hostCfg (add_cmd spec req) = hostCfg req.
Proof. unfold add_cmd. destruct (is_nonempty _); [by rewrite hostCfg_set_other|done]. Qed.

Lemma host_add_env : hostCfg (add_env spec req) = hostCfg req.
Proof. unfold add_env. destruct (is_nonempty _); [by rewrite hostCfg_set_other|done]. Qed.

Lemma host_add_ports :
  hostCfg (add_ports spec req) =
  if is_nonempty (Ports spec) then [("PortBindings", JObj (portBindings (Ports spec)))] else hostCfg req.
Proof. unfold add_ports. destruct (is_nonempty _); [by rewrite hostCfg_set|done]. Qed.

Lemma host_add_volumes :
  map_get k (hostCfg (add_volumes spec req)) =
  if String.eqb k "Binds" && is_nonempty (Volumes spec)
  then Some (JArr (map (λ v, JStr (bind_of v)) (Volumes spec))) else map_get k (hostCfg req).
Proof.
  unfold add_volumes. destruct (is_nonempty _); rewrite ?andb_true_r, ?andb_false_r; [|done].
  by rewrite hostCfg_set, map_get_set.
Qed.

Lemma host_add_restart :
  map_get k (hostCfg (add_restart spec req)) =
  if String.eqb k "RestartPolicy"
     && (negb (String.eqb (Restart spec) "") && negb (String.eqb (Restart spec) "no"))
  then Some (JObj [("Name", JStr (Restart spec))]) else map_get k (hostCfg req).
Proof.
  unfold add_restart. destruct (negb _ && _); rewrite ?andb_true_r, ?andb_false_r; [|done].
  by rewrite hostCfg_set, map_get_set.
Qed.
End Steps.

(** The last of the port mappings with a given container port. *)
Lemma map_get_ports (f : PortMapping → json) k ports :
  map_get k (fold_left (λ m p, map_set (port_key p) (f p) m) ports [])
  = f <$> last (filter (λ p, port_key p = k) ports).
Proof.
  induction ports as [|p ports IH] using rev_ind; [done|].
  rewrite fold_left_app, filter_app. cbn [fold_left]. rewrite map_get_set, filter_cons, filter_nil.
  destruct (String.eqb_spec k (port_key p)) as [->|Hne].
  - rewrite decide_True by done. by rewrite last_snoc.
  - rewrite decide_False by done. by rewrite app_nil_r.
Qed.

Lemma if_nonempty {A B} (l : list A) (b : B) :
  (if is_nonempty l then Some b else None) = (if decide (l = []) then None else Some b).
Proof. by destruct l. Qed.

(** All members of the request but [HostConfig], and those of [HostConfig]. *)
Lemma buildCreateRequest_get spec k :
  map_get k (buildCreateRequest spec) =
  if String.eqb k "Labels" then Some managed_labels
  else if String.eqb k "HostConfig" then map_get "HostConfig" (buildCreateRequest spec)
  else if String.eqb k "Env" then if is_nonempty (Env spec) then Some (JArr (map JStr (Env spec))) else None
  else if String.eqb k "ExposedPorts" then
    if is_nonempty (Ports spec) then Some (JObj (exposedPorts (Ports spec))) else None
  else if String.eqb k "Cmd" then if is_nonempty (Cmd spec) then Some (JArr (map JStr (Cmd spec))) else None
  else if String.eqb k "Image" then Some (JStr (Image spec)) else None.
Proof.
  destruct (String.eqb_spec k "HostConfig") as [->|Hk]; [done|]. unfold buildCreateRequest.
  rewrite map_get_set, get_add_restart, get_add_env, get_add_volumes, get_add_ports, get_add_cmd, map_get_set by done.
  destruct (String.eqb_spec k "Labels"); [done|].
  destruct (String.eqb_spec k "Env") as [->|]; [by destruct (is_nonempty (Env spec))|].
  destruct (String.eqb_spec k "ExposedPorts") as [->|]; [by destruct (is_nonempty (Ports spec))|].
  destruct (String.eqb_spec k "Cmd") as [->|]; [by destruct (is_nonempty (Cmd spec))|]. by rewrite !andb_false_l.
Qed.

Lemma host_get spec k :
  map_get k (hostCfg (buildCreateRequest spec)) =
  if String.eqb k "RestartPolicy" then
    if negb (String.eqb (Restart spec) "") && negb (String.eqb (Restart spec) "no")
    then Some (JObj [("Name", JStr (Restart spec))]) else None
  else if String.eqb k "Binds" then
    if is_nonempty (Volumes spec) then Some (JArr (map (λ v, JStr (bind_of v)) (Volumes spec))) else None
  else if String.eqb k "PortBindings" then
    if is_nonempty (Ports spec) then Some (JObj (portBindings (Ports spec))) else None
  else None.
Proof.
  unfold buildCreateRequest. rewrite hostCfg_set_other, host_add_restart, host_add_env, host_add_volumes, host_add_ports,
    host_add_cmd by done.
  destruct (String.eqb_spec k "RestartPolicy") as [->|].
  { destruct (negb _ && _), (is_nonempty (Ports spec)); done. }
  destruct (String.eqb_spec k "Binds") as [->|].
  { destruct (is_nonempty (Volumes spec)), (is_nonempty (Ports spec)); done. }
  rewrite !andb_false_l. destruct (is_nonempty (Ports spec)); cbn [map_get]; by destruct (String.eqb k "PortBindings").
Qed.

(** Nothing else is in them. *)
Ltac split_keys :=
  repeat match goal with
    | |- context [String.eqb ?k ?x] => destruct (String.eqb_spec k x); [tauto|]
    end; intros [=].

Lemma request_keys spec k v :
  map_get k (buildCreateRequest spec) = Some v → k ∈ ["Image"; "Labels"; "Cmd"; "Env"; "ExposedPorts"; "HostConfig"].
Proof.
  rewrite buildCreateRequest_get, !elem_of_cons.
  split_keys.
Qed.

Lemma host_keys spec k v :
  map_get k (hostCfg (buildCreateRequest spec)) = Some v → k ∈ ["PortBindings"; "Binds"; "RestartPolicy"].
Proof.
  rewrite host_get, !elem_of_cons. split_keys.
Qed.

(** [HostConfig] is an object, if it is there. *)
Lemma buildCreateRequest_host spec :
  default (JObj []) (map_get "HostConfig" (buildCreateRequest spec)) = JObj (hostCfg (buildCreateRequest spec)).
Proof.
  unfold hostCfg, buildCreateRequest. rewrite map_get_set_ne by done. unfold add_restart.
  case_match; [by rewrite map_get_set_eq|]. unfold add_env. rewrite !map_get_if_other by done.
  unfold add_volumes. case_match; [by rewrite map_get_set_eq|]. unfold add_ports.
  case_match; [by rewrite map_get_set_eq|]. unfold add_cmd. by rewrite map_get_if_other.
Qed.

Lemma pull_loop_ok image lines :
  pull_loop image lines = Ok tt ↔ Forall (λ l, line_error l = None) lines.
Proof.
  induction lines as [|l ls IH]; simpl; [by split|]. rewrite Forall_cons.
  destruct (line_error l); [by split; [|intros []]|]. rewrite IH. naive_solver.
Qed.

Lemma decoded_ok {A} (p : A * option error) a : decoded p = Ok a ↔ p = (a, None).
Proof. destruct p as [? []]; simpl; naive_solver. Qed.

End docker.

(** ** Properties *)

Section Properties.
Context {W : Type} `{UnicodeTables}.

(** Starting, stopping, removing and adopting a container succeed
    exactly when the daemon answered the request with a status below 400; a
    transport failure or any other status is an error. *)
Theorem lifecycle_ok_iff (c : docker.Client W) (ctx : Context) (id : string) (t : Z) (force : bool) (w : W) :
  ((docker.Start c ctx id w).1 = Ok tt ↔
    ∃ resp, (docker.do c ctx MethodPost (docker.api c ("/containers/" +:+ id +:+ "/start")) None w).1
            = Ok resp ∧ (StatusCode resp < 400)%Z) ∧
  ((docker.Stop c ctx id t w).1 = Ok tt ↔
    ∃ resp, (docker.do c ctx MethodPost (docker.stop_path c id t) None w).1
            = Ok resp ∧ (StatusCode resp < 400)%Z) ∧
  ((docker.Remove c ctx id force w).1 = Ok tt ↔
    ∃ resp, (docker.do c ctx MethodDelete (docker.remove_path c id force) None w).1
            = Ok resp ∧ (StatusCode resp < 400)%Z) ∧
  ((docker.Adopt c ctx id w).1 = Ok tt ↔
    ∃ resp, (docker.doJSON c ctx MethodPost (docker.api c ("/containers/" +:+ id +:+ "/update"))
               (JObj [("Labels", docker.managed_labels)]) w).1
            = Ok resp ∧ (StatusCode resp < 400)%Z).
Proof. split_and!; apply docker.expect_status_ok. Qed.

(** C25: Against a daemon that answers reads, [FindContainer] computes the
    reference search: the requested name first, then the adoptable names in
    order, then the first listed container bearing one of these names, and
    the empty string when there is none; only a failing listing is an
    error. *)
Theorem FindContainer_reference (f : Request → res Response) (v : string) (ctx : Context) (name : string) :
  docker.FindContainer (docker.serve_client f v) ctx name tt = (docker.find_reference f v name, tt).
Proof.
  unfold docker.FindContainer, docker.find_reference. unfold mbind, M_bind.
  rewrite docker.Inspect_answering. cbn [omap list_omap].
  destruct (docker.inspect_of f v name) as [st|e] eqn:E.
  { unfold docker.inspect_id at 1. by rewrite E. }
  assert (docker.inspect_id f v name = None) as En by (unfold docker.inspect_id; by rewrite E).
  rewrite docker.try_candidates_answering, En by done.
  destruct (head (omap _ _)) as [id|]; [done|]. unfold try_or.
  rewrite docker.List_answering. destruct (docker.list_of f v) as [cs|e']; [|done].
  by rewrite docker.find_listed_filter.
Qed.

(** C26: What a creation request says, member by member, and that it says
    nothing else: the image; the command and the environment unless empty;
    for every container port with its protocol that some mapping names, that
    it is exposed, and the host port of the last mapping that names it; for
    every volume, in order, source, target and mode, read-write by default;
    the restart policy unless it is empty or [no]; and always the label
    [managed-by=routestack].  Bindings, binds and policy are in one
    [HostConfig].  Host ports that an earlier mapping gave the same container
    port are not in the request. *)
Theorem buildCreateRequest_complete (spec : docker.ContainerSpec) :
  let req := docker.buildCreateRequest spec in
  let last_for key :=
    last (filter (λ p, docker.ContainerPort_ p +:+ "/" +:+ docker.Protocol p = key) (docker.Ports spec)) in
  (∀ k v, map_get k req = Some v → k ∈ ["Image"; "Labels"; "Cmd"; "Env"; "ExposedPorts"; "HostConfig"]) ∧
  map_get "Image" req = Some (JStr (docker.Image spec)) ∧
  map_get "Labels" req = Some (JObj [("managed-by", JStr "routestack")]) ∧
  map_get "Cmd" req =
    (if decide (docker.Cmd spec = []) then None else Some (JArr (map JStr (docker.Cmd spec)))) ∧
  map_get "Env" req =
    (if decide (docker.Env spec = []) then None else Some (JArr (map JStr (docker.Env spec)))) ∧
  ∃ exposed bindings host,
    (∀ key, map_get key exposed = (λ _, JObj []) <$> last_for key) ∧
    (∀ key, map_get key bindings =
       (λ p, JArr [JObj [("HostPort", JStr (docker.HostPort p))]]) <$> last_for key) ∧
    map_get "ExposedPorts" req = (if decide (docker.Ports spec = []) then None else Some (JObj exposed)) ∧
    default (JObj []) (map_get "HostConfig" req) = JObj host ∧
    (∀ k v, map_get k host = Some v → k ∈ ["PortBindings"; "Binds"; "RestartPolicy"]) ∧
    map_get "PortBindings" host = (if decide (docker.Ports spec = []) then None else Some (JObj bindings)) ∧
    map_get "Binds" host =
      (if decide (docker.Volumes spec = []) then None
       else Some (JArr (map (λ v, JStr (docker.Source v +:+ ":" +:+ docker.Target v +:+ ":" +:+
              (if decide (docker.Mode v = "") then "rw" else docker.Mode v))) (docker.Volumes spec)))) ∧
    map_get "RestartPolicy" host =
      (if decide (docker.Restart spec = "" ∨ docker.Restart spec = "no") then None
       else Some (JObj [("Name", JStr (docker.Restart spec))])).
Proof.
  cbv zeta. split; [apply docker.request_keys|].
  split; [by rewrite docker.buildCreateRequest_get|]. split; [by rewrite docker.buildCreateRequest_get|].
  split; [rewrite docker.buildCreateRequest_get; apply docker.if_nonempty|].
  split; [rewrite docker.buildCreateRequest_get; apply docker.if_nonempty|].
  exists (docker.exposedPorts (docker.Ports spec)), (docker.portBindings (docker.Ports spec)),
    (docker.hostCfg (docker.buildCreateRequest spec)).
  split; [intros key; apply docker.map_get_ports|]. split; [intros key; apply docker.map_get_ports|].
  split; [rewrite docker.buildCreateRequest_get; apply docker.if_nonempty|].
  split; [apply docker.buildCreateRequest_host|]. split; [apply docker.host_keys|].
  rewrite !docker.host_get. split; [apply docker.if_nonempty|]. split.
  - etransitivity; [apply docker.if_nonempty|]. case_decide; [done|]. do 2 f_equal.
    apply map_ext. intros v. unfold docker.bind_of.
    by destruct (String.eqb_spec (docker.Mode v) ""), (decide (docker.Mode v = "")).
  - change (String.eqb "RestartPolicy" "RestartPolicy") with true. cbv iota.
    destruct (String.eqb_spec (docker.Restart spec) ""), (String.eqb_spec (docker.Restart spec) "no");
      cbn [negb andb]; case_decide; naive_solver.
Qed.

(** When several mappings name the same container port, the request
    publishes only the host port of the last one. *)
Theorem portBindings_last_wins (ports : list docker.PortMapping) (k : string) :
  map_get k (docker.portBindings ports) =
  (λ p, JArr [JObj [("HostPort", JStr (docker.HostPort p))]]) <$>
    last (filter (λ p, docker.port_key p = k) ports).
Proof. apply docker.map_get_ports. Qed.

(** C27: A pull succeeds exactly when the daemon answered with a status below
    400 and no line the scanner delivered reports an error; whether the
    stream ended with a read error is not considered. *)
Theorem Pull_ok_iff (c : docker.Client W) (ctx : Context) (image : string) (w : W) :
  (docker.Pull c ctx image w).1 = Ok tt ↔
  ∃ resp,
    (docker.do c ctx MethodPost (docker.api c ("/images/create?fromImage=" +:+ image)) None w).1
      = Ok resp ∧
    (StatusCode resp < 400)%Z ∧
    Forall (λ l, docker.line_error l = None) (scan_lines (RespBody resp)).
Proof.
  unfold docker.Pull, try_or, mret, M_ret.
  destruct (docker.do _ _ _ _ _ w) as [[resp|e] w']; simpl; [|naive_solver].
  destruct (Z.leb_spec 400 (StatusCode resp)); simpl.
  - split; [done|]. intros (? & [= <-] & ? & _). lia.
  - rewrite docker.pull_loop_ok. naive_solver.
Qed.

(** C28: [Exec] looks at the status of its first answer only: it succeeds with
    whatever the daemon answered to the start request as the command's output.
    Its exit code is zero when the third answer does not begin with a JSON
    object, and when it is the object with the single member [message] that
    the daemon answers to a request it refuses. *)
Theorem Exec_start_status_unchecked (v : string) (ctx : Context) (containerID : string)
    (cmd : list string) (created data inspected id : string) (st st' : Z)
    (Hid : docker.decoded (Decode (docker.dec_one_string "ID" "Id") created None EmptyString) = Ok id) :
  ∃ code,
    docker.Exec (docker.mkClient scripted v) ctx containerID cmd
      [Ok (mkResponse 201 created None); Ok (mkResponse st data None); Ok (mkResponse st' inspected None)]
    = (Ok (docker.mkExecResult code data EmptyString), []) ∧
    ((∀ kvs rest, parse_value max_nesting inspected ≠ Ok (JObj kvs, rest)) → code = 0%Z) ∧
    (∀ m rest, parse_value max_nesting inspected = Ok (JObj [("message", m)], rest) → code = 0%Z).
Proof.
  exists (Decode docker.dec_exit_code inspected None 0%Z).1. split_and!.
  - unfold docker.Exec, docker.doJSON, docker.do, try_or, mret, M_ret. simpl.
    unfold docker.decode_body. simpl. rewrite Hid. simpl.
    by destruct (Decode docker.dec_exit_code inspected None 0%Z).
  - intros Hno. unfold Decode. destruct (parse_value max_nesting inspected) as [[j rest]|m];
      [|by destruct (String.eqb m eof_msg)].
    destruct j; try done. by destruct (Hno m rest).
  - intros m rest Hp. unfold Decode. rewrite Hp. vm_compute. reflexivity.
Qed.
End Properties.

Definition sample_created : string :=
  "{" +:+ quote +:+ "Id" +:+ quote +:+ ":" +:+ quote +:+ "e1" +:+ quote +:+ "}".

(** The start request is refused with status 409 and the third answer is not
    even JSON, yet [Exec] reports exit code 0. *)
Lemma Exec_start_status_unchecked_witness :
  ∃ code,
    docker.Exec (docker.mkClient scripted "v1.45") Background "c" ["add-peer"]
      [Ok (mkResponse 201 sample_created None); Ok (mkResponse 409 "container is paused" None);
       Ok (mkResponse 404 "page not found" None)]
    = (Ok (docker.mkExecResult code "container is paused" EmptyString), []) ∧ code = 0%Z.
Proof.
  destruct (Exec_start_status_unchecked "v1.45" Background "c" ["add-peer"] sample_created
           "container is paused" "page not found" "e1" 409 404) as (code & Hrun & Hzero & _); [vm_compute; reflexivity|].
  exists code. split; [exact Hrun|]. apply Hzero. intros kvs rest. vm_compute. discriminate.
Defined.

(** A code that is read before the decoder fails is kept. *)
Example exec_late_error :
  docker.decoded (Decode docker.dec_exit_code
    ("{" +:+ quote +:+ "ExitCode" +:+ quote +:+ ":3," +:+ quote +:+ "exitcode" +:+ quote +:+ ":true}") None 0%Z)
  = Err (type_error "bool" "int" "" ["ExitCode"]) ∧
  (Decode docker.dec_exit_code
    ("{" +:+ quote +:+ "ExitCode" +:+ quote +:+ ":3," +:+ quote +:+ "exitcode" +:+ quote +:+ ":true}") None 0%Z).1
  = 3%Z.
Proof. vm_compute. split; reflexivity. Qed.
