(* ===== verification/Service.v ===== *)
(** * Service: internal/service (spec.go and manager.go).

    A service is a Docker container named [routestack-<service_id>].  The
    manager is written against the interface [service.ContainerClient], the
    subset of the Docker client it needs; [service.Daemon] states what a
    container engine promises behind that interface, and the refinement
    theorem for [ApplyRevision] is proved from that promise alone.  The Docker
    client keeps it ([service.docker_daemon]) before an engine that answers
    its requests as the Engine API documents ([service.Engine]).  Names with
    characters that have a meaning in a URL are outside of the promise, as the
    client does not escape them. *)

From Stdlib Require Import Ascii NArith ZArith.
From S2P Require Import Prelude GoStrings GoFmt GoError Json Http Docker.

Module service.

(** ** spec.go *)

Record Port : Type := mkPort {
  HostPort : string;
  ContainerPort : string;
  Protocol : string;
}.

Record Volume : Type := mkVolume {
  Source : string;
  Target : string;
  Mode : string;
}.

Record Spec : Type := mkSpec {
  Image : string;
  Command : list string;
  Ports : list Port;
  Volumes : list Volume;
  Env : gmap string string;
  Restart : string;
}.

Definition zero_Port : Port := mkPort "" "" "".
Definition zero_Volume : Volume := mkVolume "" "" "".
Definition zero_Spec : Spec := mkSpec "" [] [] [] ∅ "".

Definition dec_Port : decoder Port := dec_struct "Port" "service.Port"
  [ mk_field "host_port" dec_string HostPort (λ v s, mkPort v (ContainerPort s) (Protocol s));
    mk_field "container_port" dec_string ContainerPort (λ v s, mkPort (HostPort s) v (Protocol s));
    mk_field "protocol" dec_string Protocol (λ v s, mkPort (HostPort s) (ContainerPort s) v) ].

Definition dec_Volume : decoder Volume := dec_struct "Volume" "service.Volume"
  [ mk_field "source" dec_string Source (λ v s, mkVolume v (Target s) (Mode s));
    mk_field "target" dec_string Target (λ v s, mkVolume (Source s) v (Mode s));
    mk_field "mode" dec_string Mode (λ v s, mkVolume (Source s) (Target s) v) ].

Definition dec_Spec : decoder Spec := dec_struct "Spec" "service.Spec"
  [ mk_field "image" dec_string Image
      (λ v s, mkSpec v (Command s) (Ports s) (Volumes s) (Env s) (Restart s));
    mk_field "command" (dec_slice "[]string" "" dec_string) Command
      (λ v s, mkSpec (Image s) v (Ports s) (Volumes s) (Env s) (Restart s));
    mk_field "ports" (dec_slice "[]service.Port" zero_Port dec_Port) Ports
      (λ v s, mkSpec (Image s) (Command s) v (Volumes s) (Env s) (Restart s));
    mk_field "volumes" (dec_slice "[]service.Volume" zero_Volume dec_Volume) Volumes
      (λ v s, mkSpec (Image s) (Command s) (Ports s) v (Env s) (Restart s));
    mk_field "env" (dec_map "map[string]string" "" dec_string) Env
      (λ v s, mkSpec (Image s) (Command s) (Ports s) (Volumes s) v (Restart s));
    mk_field "restart" dec_string Restart
      (λ v s, mkSpec (Image s) (Command s) (Ports s) (Volumes s) (Env s) v) ].

Definition is_blank (s : string) : bool := String.eqb (TrimSpace s) "".
#[global] Arguments is_blank : simpl never.

(** The loop over the ports.  Its assignment to [p.Protocol] changes the loop
    variable only. *)
Fixpoint check_ports (i : Z) (ps : list Port) : res unit :=
  match ps with
  | [] => Ok tt
  | p :: ps' =>
      if is_blank (HostPort p) || is_blank (ContainerPort p)
      then Err (ErrorString ("port " +:+ itoa i +:+ ": host_port and container_port are required"))
      else check_ports (i + 1) ps'
  end.

Fixpoint check_volumes (i : Z) (vs : list Volume) : res unit :=
  match vs with
  | [] => Ok tt
  | v :: vs' =>
      if is_blank (Source v) || is_blank (Target v)
      then Err (ErrorString ("volume " +:+ itoa i +:+ ": source and target are required"))
      else check_volumes (i + 1) vs'
  end.

Definition Validate (s : Spec) : res unit :=
  if is_blank (Image s) then Err (ErrorString "image is required")
  else
    _ <-? check_ports 0 (Ports s) orelse id ;;
    check_volumes 0 (Volumes s).

Definition ContainerName (serviceID : string) : string := "routestack-" +:+ serviceID.

Definition to_mapping (p : Port) : docker.PortMapping :=
  docker.mkPortMapping (HostPort p) (ContainerPort p)
    (if String.eqb (Protocol p) "" then "tcp" else Protocol p).

Definition to_mount (v : Volume) : docker.VolumeMount :=
  docker.mkVolumeMount (Source v) (Target v) (if String.eqb (Mode v) "" then "rw" else Mode v).

Definition ToContainerSpec `{GoMaps} (s : Spec) (serviceID : string) : docker.ContainerSpec :=
  docker.mkContainerSpec
    (ContainerName serviceID)
    (Image s)
    (map to_mapping (Ports s))
    (map to_mount (Volumes s))
    (map (λ kv : string * string, kv.1 +:+ "=" +:+ kv.2) (range (Env s)))
    (Restart s)
    (Command s).

(** ** manager.go *)

(** [ContainerClient].  A pointer result without an error is not nil, as the
    Docker client guarantees. *)
Class ContainerClient (W : Type) := {
  Inspect : Context → string → M W (res docker.ContainerState);
  Create : Context → docker.ContainerSpec → M W (res string);
  Start : Context → string → M W (res unit);
  Stop : Context → string → Z → M W (res unit);
  Remove : Context → string → bool → M W (res unit);
  Logs : Context → string → Z → M W (res string);
}.

(** The Docker client implements the interface. *)
Definition docker_containers {W} (c : docker.Client W) : ContainerClient W := {|
  Inspect := docker.Inspect c;
  Create := docker.Create c;
  Start := docker.Start c;
  Stop := docker.Stop c;
  Remove := docker.Remove c;
  Logs := docker.Logs c;
|}.

Record Status : Type := mkStatus {
  ServiceID : string;
  ContainerName_ : string;
  ContainerID : string;
  Running : bool;
  StatusText : string;
  ExitCode : Z;
  Health : string;
  StatusImage : string;
  ManagedByAgent : bool;
}.

(** [json.Marshal] of a status. *)
Definition enc_Status (s : Status) : json := JObj (
  member "service_id" (enc_string (ServiceID s)) ++
  member "container_name" (enc_string (ContainerName_ s)) ++
  member "container_id" (enc_string (ContainerID s)) ++
  member "running" (JBool (Running s)) ++
  member "status" (enc_string (StatusText s)) ++
  member "exit_code" (enc_int (ExitCode s)) ++
  omit (String.eqb (Health s) "") "health" (enc_string (Health s)) ++
  member "image" (enc_string (StatusImage s)) ++
  member "managed_by_agent" (JBool (ManagedByAgent s))).

Section Manager.
Context {W : Type} `{CC : ContainerClient W}.
Variable ctx : Context.

(** Stop and remove the container the service runs in, if there is one. *)
Definition remove_existing (containerName : string) : M W (res unit) :=
  r ← Inspect ctx containerName;
  match r with
  | Ok existing =>
      _ ← Stop ctx (docker.ID existing) 10;
      (rm <- Remove ctx (docker.ID existing) true
         orelse wrapf ("remove existing container " +:+ containerName +:+ ": ") ;;
       mret (Ok tt))
  | Err _ => mret (Ok tt)
  end.

Definition named_spec (cs : docker.ContainerSpec) (containerName : string) : docker.ContainerSpec :=
  if String.eqb (docker.Name cs) "" then
    docker.mkContainerSpec containerName (docker.Image cs) (docker.Ports cs) (docker.Volumes cs)
      (docker.Env cs) (docker.Restart cs) (docker.Cmd cs)
  else cs.

Definition ApplyRevision `{GoMaps} (serviceID : string) (rev : Z) (spec : Spec) : M W (res unit) :=
  match Validate spec with
  | Err err => mret (Err (wrapf "invalid spec: " err))
  | Ok _ =>
      let containerName := ContainerName serviceID in
      _ <- remove_existing containerName orelse id ;;
      let containerSpec := named_spec (ToContainerSpec spec serviceID) containerName in
      id <- Create ctx containerSpec orelse wrapf ("create container " +:+ containerName +:+ ": ") ;;
      _ <- Start ctx id orelse wrapf ("start container " +:+ containerName +:+ ": ") ;;
      mret (Ok tt)
  end.

Definition status_of (serviceID : string) (state : docker.ContainerState) : Status :=
  mkStatus serviceID (ContainerName serviceID) (docker.ID state)
    (docker.Running (docker.State state)) (docker.Status (docker.State state))
    (docker.ExitCode (docker.State state))
    (default "" (docker.Health (docker.State state)))
    (docker.ConfigImage (docker.Config state))
    (String.eqb (default "" (docker.Labels (docker.Config state) !! "managed-by")) "routestack").

Definition CollectStatus (serviceID : string) : M W (res Status) :=
  let containerName := ContainerName serviceID in
  state <- Inspect ctx containerName orelse wrapf ("inspect " +:+ containerName +:+ ": ") ;;
  mret (Ok (status_of serviceID state)).

Definition CollectLogs (serviceID : string) (tail : Z) : M W (res string) :=
  let containerName := ContainerName serviceID in
  let tail := if (tail <=? 0)%Z then 100%Z else tail in
  Logs ctx containerName tail.
End Manager.

(** ** What a container engine promises *)

(** A container as the engine keeps it, under its id: its name, the JSON text
    it was created from and whether it runs. *)
Record Container : Type := mkContainer {
  cname : string;
  crequest : string;
  crunning : bool;
}.

Definition with_running (b : bool) (c : Container) : Container := mkContainer (cname c) (crequest c) b.

(** The characters of a container name.  The Docker client puts names into
    URLs as they are, so nothing is promised for a name with any other. *)
Definition name_char (a : ascii) : bool :=
  in_range 97 122 a || in_range 65 90 a || in_range 48 57 a
  || Ascii.eqb a "_" || Ascii.eqb a "." || Ascii.eqb a "-".
Definition plain_name (n : string) : bool := all_bytes name_char n.

(** The characters of a container id. *)
Definition hex (id : string) : bool := all_bytes (λ a, in_range 48 57 a || in_range 97 102 a) id.

(** The text of a creation request. *)
Definition created_from (spec : docker.ContainerSpec) : string :=
  Marshal (JObj (docker.buildCreateRequest spec)).

(** The engine's containers, and how each call changes them, for plain names
    and for ids.  A call that reports success has taken effect; one that
    reports an error has taken effect or has not.  A container is looked up by
    its name, its id or a prefix of its id, and one that is stopped may be
    gone. *)
Class Daemon (W : Type) `{CC : ContainerClient W} := {
  store : W → gmap string Container;
  inspect_store ctx n w : plain_name n = true → store (Inspect ctx n w).2 = store w;
  inspect_found ctx n w st :
    plain_name n = true → (Inspect ctx n w).1 = Ok st →
    hex (docker.ID st) = true ∧
    ∃ c, store w !! docker.ID st = Some c ∧ (cname c = n ∨ HasPrefix (docker.ID st) n = true);
  stop_store ctx id t w :
    hex id = true →
    store (Stop ctx id t w).2 = store w ∨ store (Stop ctx id t w).2 = alter (with_running false) id (store w) ∨
    store (Stop ctx id t w).2 = delete id (store w);
  remove_store ctx id f w :
    hex id = true →
    store (Remove ctx id f w).2 = store w ∨ store (Remove ctx id f w).2 = delete id (store w);
  create_ok ctx spec w id :
    plain_name (docker.Name spec) = true → (Create ctx spec w).1 = Ok id →
    hex id = true ∧ (∀ i c, store w !! i = Some c → cname c ≠ docker.Name spec) ∧ store w !! id = None ∧
    store (Create ctx spec w).2 = <[id := mkContainer (docker.Name spec) (created_from spec) false]> (store w);
  create_failed ctx spec w e :
    plain_name (docker.Name spec) = true → (Create ctx spec w).1 = Err e →
    store (Create ctx spec w).2 = store w ∨
    ∃ id, store w !! id = None ∧
          store (Create ctx spec w).2 = <[id := mkContainer (docker.Name spec) (created_from spec) false]> (store w);
  start_store ctx id w :
    hex id = true →
    store (Start ctx id w).2 = store w ∨ store (Start ctx id w).2 = alter (with_running true) id (store w);
  start_ok ctx id w :
    hex id = true → (Start ctx id w).1 = Ok tt → store (Start ctx id w).2 = alter (with_running true) id (store w);
}.

(** ** Lemmas *)

(** The containers with another name. *)
Definition others (n : string) (s : gmap string Container) : gmap string Container :=
  filter (λ kv, cname kv.2 ≠ n) s.

(** An id that, where it is in use, names a container of name [n]. *)
Definition owned (n : string) (s : gmap string Container) (id : string) : Prop :=
  ∀ c, s !! id = Some c → cname c = n.

Lemma lookup_others n s i c : others n s !! i = Some c ↔ s !! i = Some c ∧ cname c ≠ n.
Proof. apply map_lookup_filter_Some. Qed.

Lemma others_ext n s s' :
  (∀ i c, cname c ≠ n → s !! i = Some c ↔ s' !! i = Some c) → others n s = others n s'.
Proof.
  intros H. apply map_eq. intros i. apply option_eq. intros c. rewrite !lookup_others. naive_solver.
Qed.

Lemma others_alter n s id b : owned n s id → others n (alter (with_running b) id s) = others n s.
Proof.
  intros Ho. apply others_ext. intros i c Hc. rewrite lookup_alter. case_decide as Hi; [subst|done].
  destruct (s !! i) as [c0|] eqn:E; simpl; [|done]. specialize (Ho c0 E).
  split; intros [= <-]; done.
Qed.

Lemma others_delete n s id : owned n s id → others n (delete id s) = others n s.
Proof.
  intros Ho. apply others_ext. intros i c Hc. rewrite lookup_delete. case_decide as Hi; [subst|done].
  split; [done|]. intros E. by rewrite (Ho c E) in Hc.
Qed.

Lemma others_insert n s id c : s !! id = None → cname c = n → others n (<[id := c]> s) = others n s.
Proof.
  intros Hid Hc. apply others_ext. intros i c' Hc'. rewrite lookup_insert. case_decide as Hi; [subst|done].
  rewrite Hid. split; [intros [= <-]; done|done].
Qed.

Lemma owned_alter n s id id' b : owned n s id → owned n (alter (with_running b) id' s) id.
Proof.
  intros Ho c. rewrite lookup_alter. case_decide; [subst|apply Ho].
  intros (c0 & E & ->)%fmap_Some. simpl. by apply Ho.
Qed.

Lemma plain_ContainerName sid : plain_name sid = true → plain_name (ContainerName sid) = true.
Proof. intros Hs. unfold plain_name, ContainerName in *. by rewrite all_bytes_app, Hs. Qed.

(** The name of a service's container is no part of an id. *)
Lemma hex_not_ContainerName id sid : hex id = true → HasPrefix id (ContainerName sid) = false.
Proof.
  intros Hh. destruct (HasPrefix id (ContainerName sid)) eqn:E; [|done]. exfalso.
  apply HasPrefix_spec in E as [r ->]. unfold hex, ContainerName in Hh. by rewrite !all_bytes_app in Hh.
Qed.

Lemma ToContainerSpec_named `{GoMaps} spec sid n :
  named_spec (ToContainerSpec spec sid) n = ToContainerSpec spec sid.
Proof. done. Qed.

Lemma check_ports_ok i ps :
  check_ports i ps = Ok tt ↔
  ∀ p, p ∈ ps → is_blank (HostPort p) = false ∧ is_blank (ContainerPort p) = false.
Proof.
  revert i. induction ps as [|p ps IH]; intros i; simpl.
  - split; [by intros _ p ?%elem_of_nil|done].
  - destruct (is_blank (HostPort p)) eqn:E1; simpl.
    { split; [done|]. intros Hall. destruct (Hall p) as [Hx _]; [by left|]. congruence. }
    destruct (is_blank (ContainerPort p)) eqn:E2.
    { split; [done|]. intros Hall. destruct (Hall p) as [_ Hx]; [by left|]. congruence. }
    rewrite IH. split.
    + intros Hall q [->|Hq]%elem_of_cons; [done|by apply Hall].
    + intros Hall q Hq. apply Hall. by right.
Qed.

Lemma check_volumes_ok i vs :
  check_volumes i vs = Ok tt ↔
  ∀ v, v ∈ vs → is_blank (Source v) = false ∧ is_blank (Target v) = false.
Proof.
  revert i. induction vs as [|v vs IH]; intros i; simpl.
  - split; [by intros _ v ?%elem_of_nil|done].
  - destruct (is_blank (Source v)) eqn:E1; simpl.
    { split; [done|]. intros Hall. destruct (Hall v) as [Hx _]; [by left|]. congruence. }
    destruct (is_blank (Target v)) eqn:E2.
    { split; [done|]. intros Hall. destruct (Hall v) as [_ Hx]; [by left|]. congruence. }
    rewrite IH. split.
    + intros Hall q [->|Hq]%elem_of_cons; [done|by apply Hall].
    + intros Hall q Hq. apply Hall. by right.
Qed.

Section Refinement.
Context {W : Type} `{CC : ContainerClient W} `{!Daemon W} `{GoMaps}.
Implicit Types (ctx : Context) (w : W).

(** Removing the service's container leaves the other containers alone. *)
Lemma remove_existing_others ctx sid w :
  plain_name sid = true →
  others (ContainerName sid) (store (remove_existing ctx (ContainerName sid) w).2) = others (ContainerName sid) (store w).
Proof.
  intros Hp%plain_ContainerName. unfold remove_existing, mbind, M_bind, try_or, mret, M_ret.
  pose proof (inspect_store ctx (ContainerName sid) w Hp) as Hs.
  pose proof (inspect_found ctx (ContainerName sid) w) as Hf.
  destruct (Inspect ctx _ w) as [[st|e] w1]; simpl in *; [|by rewrite Hs].
  destruct (Hf st Hp eq_refl) as (Hx & c & Hc & [Hname|Hid]); [|by rewrite hex_not_ContainerName in Hid].
  assert (Ho : owned (ContainerName sid) (store w1) (docker.ID st)) by (rewrite Hs; intros c' ?; by simplify_eq).
  pose proof (stop_store ctx (docker.ID st) 10 w1 Hx) as Hstop.
  destruct (Stop ctx (docker.ID st) 10 w1) as [r2 w2]; simpl in *.
  assert (owned (ContainerName sid) (store w2) (docker.ID st) ∧
          others (ContainerName sid) (store w2) = others (ContainerName sid) (store w)) as [Ho2 H2].
  { destruct Hstop as [->|[->| ->]]; [by rewrite Hs in *| |].
    - split; [by apply owned_alter|]. rewrite others_alter by done. by rewrite Hs.
    - split; [intros c'; by rewrite lookup_delete_eq|]. rewrite others_delete by done. by rewrite Hs. }
  pose proof (remove_store ctx (docker.ID st) true w2 Hx) as Hrm.
  destruct (Remove ctx (docker.ID st) true w2) as [[[]|e] w3]; simpl in *;
    destruct Hrm as [->| ->]; by rewrite ?others_delete.
Qed.

(** What holds after [Create]. *)
Lemma create_others ctx spec w :
  plain_name (docker.Name spec) = true →
  others (docker.Name spec) (store (Create ctx spec w).2) = others (docker.Name spec) (store w).
Proof.
  intros Hp. destruct (Create ctx spec w) as [[id|e] w'] eqn:E; simpl.
  - pose proof (create_ok ctx spec w id Hp) as Hc. rewrite E in Hc. simpl in Hc.
    destruct (Hc eq_refl) as (_ & _ & Hid & ->). by apply others_insert.
  - pose proof (create_failed ctx spec w e Hp) as Hc. rewrite E in Hc. simpl in Hc.
    destruct (Hc eq_refl) as [->|(id & Hid & ->)]; [done|]. by apply others_insert.
Qed.
End Refinement.

(** ** The Docker client keeps the promise

    What the Engine API documents for the requests of the client, for plain
    names and for ids: a status below 400 means that the request has taken
    effect. *)

Definition accepted (answer : res Response) : Prop := ∃ resp, answer = Ok resp ∧ (StatusCode resp < 400)%Z.

Definition containers_url : string := "http://unix/v1.45/containers/".

Class Engine {W : Type} (h : HttpClient W) := {
  kept : W → gmap string Container;
  get_json ctx n w :
    plain_name n = true →
    let q := Do h ctx (mkRequest MethodGet (containers_url +:+ n +:+ "/json") false None) w in
    kept q.2 = kept w ∧
    ∀ resp st, q.1 = Ok resp → (StatusCode resp < 400)%Z →
      docker.decoded (Decode docker.dec_ContainerState (RespBody resp) (ReadErr resp) docker.zero_ContainerState) = Ok st →
      hex (docker.ID st) = true ∧
      ∃ c, kept w !! docker.ID st = Some c ∧ (cname c = n ∨ HasPrefix (docker.ID st) n = true);
  post_stop ctx id t w :
    hex id = true →
    let query := if (0 <? t)%Z then "?t=" +:+ itoa t else "" in
    let q := Do h ctx (mkRequest MethodPost (containers_url +:+ id +:+ "/stop" +:+ query) false None) w in
    kept q.2 = kept w ∨ kept q.2 = alter (with_running false) id (kept w) ∨ kept q.2 = delete id (kept w);
  delete_container ctx id (force : bool) w :
    hex id = true →
    let query := if force then "?force=true" else "" in
    let q := Do h ctx (mkRequest MethodDelete (containers_url +:+ id +:+ query) false None) w in
    kept q.2 = kept w ∨ kept q.2 = delete id (kept w);
  post_create ctx n body w :
    plain_name n = true →
    let q := Do h ctx (mkRequest MethodPost (containers_url +:+ "create?name=" +:+ n) true (Some body)) w in
    (kept q.2 = kept w ∨
     ∃ id, kept w !! id = None ∧ kept q.2 = <[id := mkContainer n body false]> (kept w)) ∧
    ∀ resp id ws, q.1 = Ok resp → (StatusCode resp < 400)%Z →
      docker.decoded (Decode docker.dec_created (RespBody resp) (ReadErr resp) (EmptyString, [])) = Ok (id, ws) →
      hex id = true ∧ (∀ i c, kept w !! i = Some c → cname c ≠ n) ∧ kept w !! id = None ∧
      kept q.2 = <[id := mkContainer n body false]> (kept w);
  post_start ctx id w :
    hex id = true →
    let q := Do h ctx (mkRequest MethodPost (containers_url +:+ id +:+ "/start") false None) w in
    (kept q.2 = kept w ∨ kept q.2 = alter (with_running true) id (kept w)) ∧
    (accepted q.1 → kept q.2 = alter (with_running true) id (kept w));
}.

Section DockerDaemon.
Context {W : Type} `{UnicodeTables} (h : HttpClient W) {EN : Engine h}.

(** A request whose answer carries its status only. *)
Lemma expect_status_kept what ctx method path (w : W) (R : gmap string Container → Prop) :
  let q := Do h ctx (mkRequest method ("http://unix" +:+ path) false None) w in
  let r := docker.expect_status what (docker.do (docker.NewClient h) ctx method path None) w in
  (R (kept w) → R (kept q.2) → R (kept r.2)) ∧
  ((accepted q.1 → R (kept q.2)) → r.1 = Ok tt → R (kept r.2)).
Proof.
  cbv zeta. unfold docker.expect_status, try_or, docker.do, mret, M_ret. cbn [docker.httpClient docker.NewClient].
  destruct (NewRequest h method _) as [e|]; [by split|]. rewrite bool_decide_eq_false_2 by (by intros []).
  destruct (Do h ctx _ w) as [[resp|e] w1]; [|by split]. cbn [fst snd].
  destruct (Z.leb_spec 400 (StatusCode resp)); (split; [done|]); [done|]. intros Ha _. apply Ha. by exists resp.
Qed.

Lemma docker_inspect ctx n w :
  plain_name n = true →
  let r := docker.Inspect (docker.NewClient h) ctx n w in
  kept r.2 = kept w ∧
  ∀ st, r.1 = Ok st → hex (docker.ID st) = true ∧
    ∃ c, kept w !! docker.ID st = Some c ∧ (cname c = n ∨ HasPrefix (docker.ID st) n = true).
Proof.
  intros Hp. cbv zeta. unfold docker.Inspect, try_or, docker.do, mret, M_ret.
  destruct (get_json ctx n w Hp) as [Hk Hf].
  match goal with |- context [NewRequest ?a ?b ?c] => destruct (NewRequest a b c) as [e|] end; [by split|].
  change (mkRequest MethodGet (containers_url +:+ n +:+ "/json") false None) with
    (mkRequest MethodGet ("http://unix" +:+ docker.api (docker.NewClient h) ("/containers/" +:+ n +:+ "/json"))
       (bool_decide (is_Some (None : option string))) None) in Hk, Hf.
  cbn [docker.httpClient docker.NewClient] in *. destruct (Do h ctx _ w) as [[resp|e] w1]; [|by split]. cbn [fst snd] in *.
  destruct (Z.leb_spec 400 (StatusCode resp)); cbn [fst snd]; (split; [done|]); [done|].
  intros st Hst. apply (Hf resp st eq_refl ltac:(lia)). revert Hst. unfold docker.decode_body.
  by destruct (docker.decoded _).
Qed.

Lemma docker_create ctx spec w :
  plain_name (docker.Name spec) = true →
  let r := docker.Create (docker.NewClient h) ctx spec w in
  let c := mkContainer (docker.Name spec) (created_from spec) false in
  (kept r.2 = kept w ∨ ∃ id, kept w !! id = None ∧ kept r.2 = <[id := c]> (kept w)) ∧
  ∀ id, r.1 = Ok id →
    hex id = true ∧ (∀ i c, kept w !! i = Some c → cname c ≠ docker.Name spec) ∧ kept w !! id = None ∧
    kept r.2 = <[id := c]> (kept w).
Proof.
  intros Hp. cbv zeta. unfold docker.Create, docker.doJSON, try_or, docker.do, mret, M_ret.
  destruct (post_create ctx (docker.Name spec) (created_from spec) w Hp) as [Hk Hf].
  match goal with |- context [NewRequest ?a ?b ?c] => destruct (NewRequest a b c) as [e|] end; [by split; [left|]|].
  change (mkRequest MethodPost (containers_url +:+ "create?name=" +:+ docker.Name spec) true (Some (created_from spec))) with
    (mkRequest MethodPost ("http://unix" +:+ docker.api (docker.NewClient h) ("/containers/create?name=" +:+ docker.Name spec))
       (bool_decide (is_Some (Some (created_from spec)))) (Some (created_from spec))) in Hk, Hf.
  cbn [docker.httpClient docker.NewClient] in *. unfold created_from in *.
  destruct (Do h ctx _ w) as [[resp|e] w1]; [|by split]. cbn [fst snd] in *.
  destruct (Z.leb_spec 400 (StatusCode resp)); cbn [fst snd]; (split; [done|]); [done|].
  intros id Hid. unfold docker.decode_body in Hid.
  destruct (docker.decoded _) as [[id' ws]|] eqn:Ed; [|done]. injection Hid as <-.
  by apply (Hf resp id' ws eq_refl ltac:(lia)).
Qed.

Lemma stop_url id t :
  "http://unix" +:+ docker.stop_path (docker.NewClient h) id t
  = containers_url +:+ id +:+ "/stop" +:+ (if (0 <? t)%Z then "?t=" +:+ itoa t else "").
Proof. unfold docker.stop_path, docker.api. by rewrite !app_str_assoc. Qed.

Lemma remove_url id (force : bool) :
  "http://unix" +:+ docker.remove_path (docker.NewClient h) id force
  = containers_url +:+ id +:+ (if force then "?force=true" else "").
Proof. unfold docker.remove_path, docker.api. by rewrite !app_str_assoc. Qed.

#[export] Instance docker_daemon : Daemon W (CC := docker_containers (docker.NewClient h)).
Proof.
  refine (Build_Daemon W (docker_containers (docker.NewClient h)) kept _ _ _ _ _ _ _ _).
  - intros ctx n w Hp. by destruct (docker_inspect ctx n w Hp).
  - intros ctx n w st Hp. by apply (docker_inspect ctx n w Hp).
  - intros ctx id t w Hx. refine (proj1 (expect_status_kept _ ctx MethodPost _ w
      (λ k, k = kept w ∨ k = alter (with_running false) id (kept w) ∨ k = delete id (kept w))) _ _);
      [by left|rewrite stop_url; exact (post_stop ctx id t w Hx)].
  - intros ctx id f w Hx. refine (proj1 (expect_status_kept _ ctx MethodDelete _ w
      (λ k, k = kept w ∨ k = delete id (kept w))) _ _); [by left|rewrite remove_url; exact (delete_container ctx id f w Hx)].
  - intros ctx spec w id Hp. by apply (docker_create ctx spec w Hp).
  - intros ctx spec w e Hp _. by apply (docker_create ctx spec w Hp).
  - intros ctx id w Hx. refine (proj1 (expect_status_kept _ ctx MethodPost _ w
      (λ k, k = kept w ∨ k = alter (with_running true) id (kept w))) _ _);
      [by left|exact (proj1 (post_start ctx id w Hx))].
  - intros ctx id w Hx. refine (proj2 (expect_status_kept _ ctx MethodPost _ w
      (λ k, k = alter (with_running true) id (kept w))) _); exact (proj2 (post_start ctx id w Hx)).
Defined.
End DockerDaemon.

(** An engine kept in memory: calls fail only when the container does not
    exist or the name is taken. *)
Definition Mem : Type := gmap string Container * nat.

Definition by_name (n : string) (s : gmap string Container) : option (string * Container) :=
  head (filter (λ kv : string * Container, cname kv.2 = n) (map_to_list s)).

Definition state_of (id : string) (c : Container) : docker.ContainerState :=
  docker.mkContainerState id ""
    (docker.mkRunState (if crunning c then "running" else "exited") (crunning c) 0 "" "" None) ("/" +:+ cname c)
    (docker.mkContainerConfig "" {["managed-by" := "routestack"]}).

Definition no_such (id : string) : error := ErrorString ("No such container: " +:+ id).

Definition mem_new_id (w : Mem) : string := "c" +:+ itoa (Z.of_nat w.2).

#[local] Instance mem_client : ContainerClient Mem := {|
  Inspect := λ _ n w, (match by_name n w.1 with
                       | Some (id, c) => if hex id then Ok (state_of id c) else Err (no_such n)
                       | None => Err (no_such n) end, w);
  Create := λ _ spec w,
    if bool_decide (by_name (docker.Name spec) w.1 = None) && bool_decide (w.1 !! mem_new_id w = None)
       && hex (mem_new_id w)
    then (Ok (mem_new_id w),
          (<[mem_new_id w := mkContainer (docker.Name spec) (created_from spec) false]> w.1, S w.2))
    else (Err (ErrorString "Conflict"), w);
  Start := λ _ id w, (if bool_decide (w.1 !! id = None) then Err (no_such id) else Ok tt,
                      (alter (with_running true) id w.1, w.2));
  Stop := λ _ id _ w, (if bool_decide (w.1 !! id = None) then Err (no_such id) else Ok tt,
                       (alter (with_running false) id w.1, w.2));
  Remove := λ _ id _ w, (if bool_decide (w.1 !! id = None) then Err (no_such id) else Ok tt,
                         (delete id w.1, w.2));
  Logs := λ _ _ _ w, (Ok "", w);
|}.

Lemma by_name_None n s : by_name n s = None ↔ ∀ i c, s !! i = Some c → cname c ≠ n.
Proof.
  unfold by_name. rewrite head_None. split.
  - intros Hf i c Hi Hn. assert ((i, c) ∈ ([] : list (string * Container))) as Hin.
    { rewrite <-Hf. apply list_elem_of_filter. split; [done|]. by apply elem_of_map_to_list. }
    by apply elem_of_nil in Hin.
  - intros Ha. destruct (filter _ (map_to_list s)) as [|[i c] l] eqn:E; [done|].
    assert ((i, c) ∈ filter (λ kv : string * Container, cname kv.2 = n) (map_to_list s)) as Hin.
    { rewrite E. by left. }
    apply list_elem_of_filter in Hin as [Hn Hin]. apply elem_of_map_to_list in Hin. by destruct (Ha i c).
Qed.

Lemma by_name_Some n s i c : by_name n s = Some (i, c) → s !! i = Some c ∧ cname c = n.
Proof.
  unfold by_name. rewrite head_Some. intros [l E].
  assert ((i, c) ∈ filter (λ kv : string * Container, cname kv.2 = n) (map_to_list s)) as Hin.
  { rewrite E. by left. }
  apply list_elem_of_filter in Hin as [Hn Hin]. by apply elem_of_map_to_list in Hin.
Qed.

#[local] Program Instance mem_daemon : Daemon Mem := {| store := fst |}.
Next Obligation. done. Qed.
Next Obligation.
  intros ctx n w st _. simpl. destruct (by_name n w.1) as [[i c]|] eqn:E; [|done].
  destruct (hex i) eqn:Ex; [|done]. intros [= <-]. simpl. apply by_name_Some in E as []. eauto.
Qed.
Next Obligation. intros. by right; left. Qed.
Next Obligation. intros. by right. Qed.
Next Obligation.
  intros ctx spec w id _. simpl. destruct (bool_decide _ && _ && _) eqn:E; simpl; [|done].
  rewrite !andb_true_iff, !bool_decide_eq_true in E. destruct E as [[E1 E2] E3]. intros [= <-].
  by rewrite by_name_None in E1.
Qed.
Next Obligation. intros ctx spec w e _. simpl. destruct (bool_decide _ && _ && _); [done|by left]. Qed.
Next Obligation. intros. by right. Qed.
Next Obligation. done. Qed.

End service.

(** ** Properties *)

Section Properties.
Context {W : Type} {CC : service.ContainerClient W} {DA : service.Daemon W} {GM : GoMaps}.

(** C7: Behind any engine that keeps its promises, a successful
    [ApplyRevision] for a service id of letters, digits, [_], [.] and [-]
    leaves exactly one container with the service's name; it runs, and it was
    created from the creation request of the given specification. *)
Theorem ApplyRevision_applies (ctx : Context) (sid : string) (rev : Z) (spec : service.Spec) (w : W)
    (Hsid : service.plain_name sid = true)
    (Hok : (service.ApplyRevision ctx sid rev spec w).1 = Ok tt) :
  ∃ id,
    service.store (service.ApplyRevision ctx sid rev spec w).2 !! id =
      Some (service.mkContainer ("routestack-" +:+ sid)
              (Marshal (JObj (docker.buildCreateRequest (service.ToContainerSpec spec sid)))) true) ∧
    (∀ i c, service.store (service.ApplyRevision ctx sid rev spec w).2 !! i = Some c →
            service.cname c = "routestack-" +:+ sid → i = id).
Proof.
  apply service.plain_ContainerName in Hsid. unfold service.ApplyRevision, try_or, mret, M_ret in *.
  destruct (service.Validate spec); [|done].
  destruct (service.remove_existing ctx _ w) as [[[]|e] w1]; simpl in *; [|done].
  rewrite service.ToContainerSpec_named in *. set (cs := service.ToContainerSpec spec sid) in *.
  pose proof (service.create_ok ctx cs w1) as Hc.
  destruct (service.Create ctx cs w1) as [[id|e] w2]; simpl in *; [|done].
  destruct (Hc id Hsid eq_refl) as (Hx & Hfree & Hid & Hs).
  pose proof (service.start_ok ctx id w2 Hx) as Hst.
  destruct (service.Start ctx id w2) as [[[]|e] w3]; simpl in *; [|done].
  rewrite Hst, Hs by done. exists id. split.
  - by rewrite lookup_alter_eq, lookup_insert_eq.
  - intros i c Hi Hname. destruct (decide (i = id)) as [|Hne]; [done|].
    rewrite lookup_alter_ne, lookup_insert_ne in Hi by done. by destruct (Hfree i c).
Qed.

(** C8: Whatever [ApplyRevision] returns for such a service id, and wherever it
    fails, the containers of other names are exactly those that were there
    before. *)
Theorem ApplyRevision_frame (ctx : Context) (sid : string) (rev : Z) (spec : service.Spec) (w : W)
    (Hsid : service.plain_name sid = true) :
  service.others ("routestack-" +:+ sid) (service.store (service.ApplyRevision ctx sid rev spec w).2)
  = service.others ("routestack-" +:+ sid) (service.store w).
Proof.
  change ("routestack-" +:+ sid) with (service.ContainerName sid).
  unfold service.ApplyRevision, try_or, mret, M_ret. destruct (service.Validate spec); [|done].
  rewrite <-(service.remove_existing_others ctx sid w Hsid).
  destruct (service.remove_existing ctx _ w) as [[[]|e] w1]; simpl; [|done].
  apply service.plain_ContainerName in Hsid.
  rewrite service.ToContainerSpec_named. set (cs := service.ToContainerSpec spec sid).
  rewrite <-(service.create_others ctx cs w1 Hsid).
  pose proof (service.create_ok ctx cs w1) as Hc.
  destruct (service.Create ctx cs w1) as [[id|e] w2]; simpl in *; [|done].
  destruct (Hc id Hsid eq_refl) as (Hx & _ & _ & Hs).
  assert (service.owned (service.ContainerName sid) (service.store w2) id) as Ho.
  { rewrite Hs. intros c. rewrite lookup_insert_eq. by intros [= <-]. }
  pose proof (service.start_store ctx id w2 Hx) as Hst.
  destruct (service.Start ctx id w2) as [[[]|e] w3]; simpl in *;
    destruct Hst as [->| ->]; by rewrite ?service.others_alter.
Qed.

(** When the old container cannot be removed, the revision is not applied:
    the error is reported and the engine is left as the failed removal left
    it, with nothing created or started. *)
Theorem ApplyRevision_remove_failure (ctx : Context) (sid : string) (rev : Z) (spec : service.Spec)
    (w : W) (st : docker.ContainerState) (e : error)
    (Hv : service.Validate spec = Ok tt)
    (Hi : (service.Inspect ctx (service.ContainerName sid) w).1 = Ok st) :
  let w1 := (service.Inspect ctx (service.ContainerName sid) w).2 in
  let w2 := (service.Stop ctx (docker.ID st) 10 w1).2 in
  (service.Remove ctx (docker.ID st) true w2).1 = Err e →
  service.ApplyRevision ctx sid rev spec w =
    (Err (wrapf ("remove existing container " +:+ service.ContainerName sid +:+ ": ") e),
     (service.Remove ctx (docker.ID st) true w2).2).
Proof.
  intros w1 w2 Hr. unfold service.ApplyRevision, service.remove_existing, try_or, mbind, M_bind, mret, M_ret.
  rewrite Hv. destruct (service.Inspect ctx _ w) as [r w']. simpl in *. rewrite Hi.
  subst w1 w2. destruct (service.Stop ctx _ 10 w') as [r2 w'']. simpl in *.
  destruct (service.Remove ctx _ true w'') as [r3 w''']. simpl in *. by rewrite Hr.
Qed.

(** [CollectStatus] reports the container as inspected: its id, state,
    exit code, image and health, and that the agent manages it exactly when
    its [managed-by] label is [routestack]; an inspection that fails is
    reported as an error. *)
Theorem CollectStatus_reports (ctx : Context) (sid : string) (w : W) :
  match (service.Inspect ctx (service.ContainerName sid) w).1 with
  | Err e => (service.CollectStatus ctx sid w).1
             = Err (wrapf ("inspect " +:+ service.ContainerName sid +:+ ": ") e)
  | Ok st => ∃ s, (service.CollectStatus ctx sid w).1 = Ok s ∧
      service.ContainerID s = docker.ID st ∧
      service.Running s = docker.Running (docker.State st) ∧
      service.ExitCode s = docker.ExitCode (docker.State st) ∧
      service.StatusImage s = docker.ConfigImage (docker.Config st) ∧
      (service.Health s = "" ↔ docker.Health (docker.State st) = None ∨
                               docker.Health (docker.State st) = Some "") ∧
      (service.ManagedByAgent s = true ↔
       docker.Labels (docker.Config st) !! "managed-by" = Some "routestack")
  end.
Proof.
  unfold service.CollectStatus, try_or, mret, M_ret.
  destruct (service.Inspect ctx _ w) as [[st|e] w']; simpl; [|done].
  eexists. split; [done|]. split_and!; try done; simpl.
  - destruct (docker.Health (docker.State st)); simpl; naive_solver.
  - rewrite String.eqb_eq. destruct (docker.Labels (docker.Config st) !! "managed-by"); simpl; naive_solver.
Qed.
End Properties.

(** A specification is accepted exactly when its image, both ends of every
    port and both ends of every volume are not blank. *)
Theorem Validate_spec_ok_iff (s : service.Spec) :
  service.Validate s = Ok tt ↔
  blank (service.Image s) = false ∧
  (∀ p, p ∈ service.Ports s → blank (service.HostPort p) = false ∧ blank (service.ContainerPort p) = false) ∧
  (∀ v, v ∈ service.Volumes s → blank (service.Source v) = false ∧ blank (service.Target v) = false).
Proof.
  setoid_rewrite <-TrimSpace_blank. fold service.is_blank.
  rewrite <-(service.check_ports_ok 0), <-(service.check_volumes_ok 0). unfold service.Validate, rtry.
  fold (service.is_blank (service.Image s)).
  destruct (service.is_blank (service.Image s)); [naive_solver|].
  destruct (service.check_ports 0 (service.Ports s)) as [[]|e]; naive_solver.
Qed.

(** The container specification of a service keeps image, command and
    restart policy, names the container after the service, gives every port a
    protocol and every volume a mode, and its environment is the map's
    entries, each once, in some order. *)
Theorem ToContainerSpec_complete `{GoMaps} (s : service.Spec) (sid : string) :
  let cs := service.ToContainerSpec s sid in
  docker.Name cs = "routestack-" +:+ sid ∧ docker.Image cs = service.Image s ∧
  docker.Cmd cs = service.Command s ∧ docker.Restart cs = service.Restart s ∧
  length (docker.Ports cs) = length (service.Ports s) ∧
  Forall2 (λ p q, docker.HostPort q = service.HostPort p ∧
                  docker.ContainerPort_ q = service.ContainerPort p ∧ docker.Protocol q ≠ "")
          (service.Ports s) (docker.Ports cs) ∧
  Forall2 (λ v q, docker.Source q = service.Source v ∧ docker.Target q = service.Target v ∧
                  docker.Mode q ≠ "")
          (service.Volumes s) (docker.Volumes cs) ∧
  docker.Env cs ≡ₚ map (λ kv : string * string, kv.1 +:+ "=" +:+ kv.2) (map_to_list (service.Env s)).
Proof.
  cbv zeta. unfold service.ToContainerSpec. simpl. split_and!; try done.
  - by rewrite length_map.
  - apply Forall2_fmap_r, Forall_Forall2_diag, Forall_true. intros p. simpl.
    by destruct (String.eqb_spec (service.Protocol p) "").
  - apply Forall2_fmap_r, Forall_Forall2_diag, Forall_true. intros v. simpl.
    by destruct (String.eqb_spec (service.Mode v) "").
  - apply Permutation_map, range_perm.
Qed.

(** *** The theorems at a concrete engine *)

Definition sample_spec : service.Spec :=
  service.mkSpec "img:1" [] [service.mkPort "443" "443" ""] [] {["A" := "1"]} "always".

Definition sample_old : service.Container := service.mkContainer "routestack-web" "{}" true.

Definition sample_engine : service.Mem := ({["c0" := sample_old]}, 1).

Lemma ApplyRevision_applies_witness :
  ∃ id,
    (service.ApplyRevision (CC := service.mem_client) (H := sorted_maps) Background "web" 7 sample_spec
       sample_engine).2.1 !! id =
      Some (service.mkContainer "routestack-web"
              (Marshal (JObj (docker.buildCreateRequest
                 (service.ToContainerSpec (H := sorted_maps) sample_spec "web")))) true) ∧
    (∀ i c, (service.ApplyRevision (CC := service.mem_client) (H := sorted_maps) Background "web" 7
               sample_spec sample_engine).2.1 !! i = Some c →
            service.cname c = "routestack-web" → i = id).
Proof.
  apply (ApplyRevision_applies (DA := service.mem_daemon) (GM := sorted_maps) Background "web" 7
           sample_spec sample_engine); vm_compute; reflexivity.
Defined.

Lemma ApplyRevision_frame_witness :
  service.others "routestack-db"
    (service.ApplyRevision (CC := service.mem_client) (H := sorted_maps) Background "db" 7 sample_spec
       sample_engine).2.1
  = service.others "routestack-db" {["c0" := sample_old]}.
Proof.
  apply (ApplyRevision_frame (DA := service.mem_daemon) (GM := sorted_maps) Background "db" 7
           sample_spec sample_engine). vm_compute. reflexivity.
Defined.

(** What a service id with other characters does to the requests: the first is
    the creation of a container routestack-a, the second inspects
    routestack-web. *)
Definition sent_to (run : docker.Client (Recorded unit) → M (Recorded unit) (res unit)) : list Request :=
  (run (docker.NewClient (recording (answering (λ _, Err (ErrorString "no daemon"))))) (tt, [])).2.2.

#[local] Existing Instances latin1_tables sorted_maps.

Example unescaped_names :
  map URL (sent_to (λ c, service.ApplyRevision (CC := service.docker_containers c) Background "a&x=1" 1 sample_spec))
    = ["http://unix/v1.45/containers/routestack-a&x=1/json";
       "http://unix/v1.45/containers/create?name=routestack-a&x=1"] ∧
  head (map URL (sent_to (λ c,
      service.ApplyRevision (CC := service.docker_containers c) Background "web/json?x=" 1 sample_spec)))
    = Some "http://unix/v1.45/containers/routestack-web/json?x=/json".
Proof. vm_compute. split; reflexivity. Qed.

(** A client that finds the container but cannot remove it. *)
Definition stuck_client : service.ContainerClient (list string) := {|
  service.Inspect := λ _ n w, (Ok (service.state_of "c0" sample_old), w ++ ["inspect"]);
  service.Create := λ _ _ w, (Ok "c1", w ++ ["create"]);
  service.Start := λ _ _ w, (Ok tt, w ++ ["start"]);
  service.Stop := λ _ _ _ w, (Ok tt, w ++ ["stop"]);
  service.Remove := λ _ _ _ w, (Err (ErrorString "busy"), w ++ ["remove"]);
  service.Logs := λ _ _ _ w, (Ok "", w);
|}.

Lemma ApplyRevision_remove_failure_witness :
  service.ApplyRevision (CC := stuck_client) (H := sorted_maps) Background "web" 7 sample_spec [] =
    (Err (wrapf "remove existing container routestack-web: " (ErrorString "busy")),
     ["inspect"; "stop"; "remove"]).
Proof.
  apply (ApplyRevision_remove_failure (CC := stuck_client) (GM := sorted_maps) Background "web" 7
           sample_spec [] (service.state_of "c0" sample_old) (ErrorString "busy"));
    vm_compute; reflexivity.
Defined.
