(* ===== verification/Executor.v ===== *)
(** * Executor: internal/executor/executor.go, the dispatcher of operations.

    [executor.Execute] is the whole of the Go method: it finds the handler,
    checks and marks the operation id, runs the handler under a deadline and
    redacts what comes back.  The lock-protected part, [executor.gate], is
    also the step of a transition system in which calls of [Execute], the
    clock and the eviction loop interleave; the replay window is proved
    there. *)

From Stdlib Require Import NArith ZArith Sorted.
From S2P Require Import Prelude GoStrings GoFmt Redact GoError Json Http.

Module executor.

(** ** Operation types *)
Definition OpInstallComponent : string := "INSTALL_COMPONENT".
Definition OpApplyServiceRevision : string := "APPLY_SERVICE_REVISION".
Definition OpStartService : string := "START_SERVICE".
Definition OpStopService : string := "STOP_SERVICE".
Definition OpRestartService : string := "RESTART_SERVICE".
Definition OpApplyFirewallRevision : string := "APPLY_FIREWALL_REVISION".
Definition OpCreateTunnel : string := "CREATE_TUNNEL".
Definition OpRemoveTunnel : string := "REMOVE_TUNNEL".
Definition OpCollectStatus : string := "COLLECT_STATUS".
Definition OpCollectLogs : string := "COLLECT_LOGS".
Definition OpRunHealthCheck : string := "RUN_HEALTH_CHECK".
Definition OpManageCertificate : string := "MANAGE_CERTIFICATE".

(** ** Data *)

Record Operation : Type := mkOperation {
  ID : string;
  OpType : string;
  Data : RawMessage;
}.

Record Result : Type := mkResult {
  Status : string;
  Message : string;
  ResultData : string;
}.

(** A pair of a pointer and an error; either may be nil. *)
Definition Handler (W : Type) : Type := Context → Operation → M W (option Result * option error).

Definition Minute : Z := 60 * Second.
Definition Hour : Z := 3600 * Second.

(** Entries of the structured log. *)
Inductive level : Type := Debug | Info | Warn | LevelError.
Record LogRecord : Type := mkLog { log_level : level; log_msg : string; attrs : list (string * string) }.

(** The log of the process. *)
Class Logger (W : Type) := { Log : LogRecord → M W unit }.

Section Executor.
Context {W : Type} `{Clock W} `{Logger W} `{UnicodeTables}.

(** The fields the methods use; [seen] maps an operation id to the time it was
    marked. *)
Record Executor : Type := mkExecutor {
  handlers : gmap string (Handler W);
  seen : gmap string Z;
  defaultTimeout : Z;
}.

Definition NewExecutor : Executor := mkExecutor ∅ ∅ (5 * Minute).

(** [Register] panics, with this message, when the type is taken. *)
Definition Register (e : Executor) (opType : string) (h : Handler W) : result string Executor :=
  match handlers e !! opType with
  | Some _ => Err ("executor: handler for " +:+ Quote opType +:+ " already registered")
  | None => Ok (mkExecutor (<[opType := h]> (handlers e)) (seen e) (defaultTimeout e))
  end.

Definition mark (e : Executor) (id : string) (now : Z) : Executor :=
  mkExecutor (handlers e) (<[id := now]> (seen e)) (defaultTimeout e).

(** What the two checks under the lock decide. *)
Inductive verdict : Type :=
| Unknown
| Duplicate
| Run (h : Handler W).

Definition gate (e : Executor) (op : Operation) (now : Z) : verdict * Executor :=
  match handlers e !! OpType op with
  | None => (Unknown, e)
  | Some h =>
      match seen e !! ID op with
      | Some _ => (Duplicate, e)
      | None => (Run h, mark e (ID op) now)
      end
  end.

(** What [Execute] returns; reading the status of a nil result panics. *)
Inductive outcome : Type :=
| Return (r : option Result) (err : option error)
| Panic.

Definition op_attrs (op : Operation) : list (string * string) :=
  [("op_id", RedactSecrets (ID op)); ("op_type", RedactSecrets (OpType op))].

Definition redact_result (r : Result) : Result :=
  mkResult (Status r) (RedactSecrets (Message r)) (ResultData r).

(** After the handler has returned. *)
Definition finish (op : Operation) (start : Z) (out : option Result * option error) : M W outcome :=
  stop ← Now;
  let elapsed := [("elapsed", itoa (stop - start))] in
  match out with
  | (_, Some err) =>
      let safeErr := SafeOperationError (OpType op) (ID op) err in
      _ ← Log (mkLog LevelError "operation failed"
                 (op_attrs op ++ elapsed ++ [("error", Error safeErr)]));
      mret (Return None (Some safeErr))
  | (Some result, None) =>
      let result := redact_result result in
      _ ← Log (mkLog Info "operation completed" (op_attrs op ++ [("status", Status result)] ++ elapsed));
      mret (Return (Some result) None)
  | (None, None) => mret Panic
  end.

Definition Execute (e : Executor) (ctx : Context) (op : Operation) : M W (outcome * Executor) :=
  match handlers e !! OpType op with
  | None =>
      mret (Return None (Some (ErrorString ("executor: unknown operation type "
                                            +:+ Quote (RedactSecrets (OpType op))))), e)
  | Some handler =>
      match seen e !! ID op with
      | Some _ =>
          _ ← Log (mkLog Warn "duplicate operation skipped" (op_attrs op));
          mret (Return (Some (mkResult "success" "already processed" "")) None, e)
      | None =>
          now ← Now;
          let e := mark e (ID op) now in
          created ← Now;
          let execCtx := WithTimeout ctx created (defaultTimeout e) in
          start ← Now;
          out ← handler execCtx op;
          o ← finish op start out;
          mret (o, e)
      end
  end.

(** One round of [evictLoop], at time [now]. *)
Definition evict (e : Executor) (now : Z) : Executor :=
  let cutoff := (now - Hour)%Z in
  mkExecutor (handlers e) (filter (λ it, ¬ (it.2 < cutoff)%Z) (seen e)) (defaultTimeout e).

(** ** Interleavings

    Calls of [Execute] from any number of goroutines, rounds of the eviction
    loop and the passing of time, in any order.  [granted] is the history of
    the decisions to run a handler, taken and marked under the lock at the time
    recorded, newest first; the handler itself is called after unlocking, once
    for each decision and at some later time. *)
Record sys : Type := mkSys {
  exec : Executor;
  clock : Z;
  granted : list (string * Z);
}.

Inductive step : sys → sys → Prop :=
| step_time s t :
    (clock s ≤ t)%Z → step s (mkSys (exec s) t (granted s))
| step_run s op h e' :
    gate (exec s) op (clock s) = (Run h, e') →
    step s (mkSys e' (clock s) ((ID op, clock s) :: granted s))
| step_refused s op v e' :
    gate (exec s) op (clock s) = (v, e') → (∀ h, v ≠ Run h) →
    step s (mkSys e' (clock s) (granted s))
| step_evict s :
    step s (mkSys (evict (exec s) (clock s)) (clock s) (granted s)).

Inductive reachable (s0 : sys) : sys → Prop :=
| reach_init : reachable s0 s0
| reach_step s s' : reachable s0 s → step s s' → reachable s0 s'.

Definition initial (e : Executor) (t : Z) : sys := mkSys e t [].

(** ** Lemmas *)

Lemma lookup_evict e now id t :
  seen (evict e now) !! id = Some t ↔ seen e !! id = Some t ∧ (now - Hour ≤ t)%Z.
Proof. unfold evict. simpl. rewrite map_lookup_filter_Some. simpl. split; intros []; split; (done || lia). Qed.

Lemma gate_run e op now h e' :
  gate e op now = (Run h, e') ↔
  handlers e !! OpType op = Some h ∧ seen e !! ID op = None ∧ e' = mark e (ID op) now.
Proof.
  unfold gate. destruct (handlers e !! OpType op) as [h'|] eqn:E1; [|naive_solver].
  destruct (seen e !! ID op) eqn:E2; naive_solver.
Qed.

Lemma gate_refused e op now v e' : gate e op now = (v, e') → (∀ h, v ≠ Run h) → e' = e.
Proof. unfold gate. repeat case_match; naive_solver. Qed.

(** An id that is remembered is not run. *)
Lemma Execute_seen e ctx op w :
  is_Some (handlers e !! OpType op) → is_Some (seen e !! ID op) →
  Execute e ctx op w =
    (Return (Some (mkResult "success" "already processed" "")) None, e,
     (Log (mkLog Warn "duplicate operation skipped" (op_attrs op)) w).2).
Proof.
  intros Hh Ht. unfold Execute, mbind, M_bind, mret, M_ret.
  destruct (handlers e !! OpType op); [|by destruct Hh]. destruct (seen e !! ID op); [|by destruct Ht].
  by destruct (Log _ w).
Qed.

(** A result of an id that was not remembered is its handler's, redacted. *)
Lemma Execute_returns e ctx op w r :
  (Execute e ctx op w).1.1 = Return (Some r) None → seen e !! ID op = None →
  ∃ h c w0 m w1, handlers e !! OpType op = Some h ∧ h c op w0 = ((Some m, None), w1) ∧ r = redact_result m.
Proof.
  unfold Execute, mbind, M_bind, mret, M_ret. intros Hrun Hnew.
  destruct (handlers e !! OpType op) as [h|]; [|done]. destruct (seen e !! ID op); [done|].
  destruct (Now w) as [n1 w1], (Now w1) as [n2 w2], (Now w2) as [n3 w3].
  match type of Hrun with context [h ?c op w3] => destruct (h c op w3) as [out w4] eqn:Eh; exists h, c, w3 end.
  revert Hrun. unfold finish, mbind, M_bind, mret, M_ret. destruct (Now w4) as [stop w5].
  destruct out as [[m|] [er|]]; try destruct (Log _ w5); cbn [fst snd]; intros [=]. subst.
  by exists m, w4.
Qed.

(** A recorded decision is still remembered, or it is more than an hour old; and
    two decisions for one id are more than an hour apart. *)
Definition remembered (s : sys) : Prop :=
  ∀ id t, (id, t) ∈ granted s →
    (t ≤ clock s)%Z ∧
    ((t + Hour < clock s)%Z ∨ ∃ t', seen (exec s) !! id = Some t' ∧ (t ≤ t' ≤ clock s)%Z).

Definition apart (newer older : string * Z) : Prop :=
  newer.1 = older.1 → (older.2 + Hour < newer.2)%Z.

Definition spaced (s : sys) : Prop := StronglySorted apart (granted s).

Lemma remembered_step s s' : step s s' → remembered s → remembered s'.
Proof.
  intros Hs Hr. destruct Hs as [s t Ht|s op h e' Hg|s op v e' Hg Hv|s]; intros id0 t0 Hin; simpl in *.
  - destruct (Hr id0 t0 Hin) as [? [?|(t' & ? & ?)]]; (split; [lia|]); [left; lia|].
    right. exists t'. split; [done|lia].
  - apply gate_run in Hg as (_ & Hnone & ->). simpl.
    apply elem_of_cons in Hin as [[= -> ->]|Hin].
    + split; [lia|]. right. exists (clock s). rewrite lookup_insert_eq. split; [done|lia].
    + destruct (Hr id0 t0 Hin) as [? [?|(t' & Hl & ?)]]; split; try done; [by left|].
      right. exists t'. split; [|done]. rewrite lookup_insert_ne; [done|]. congruence.
  - apply gate_refused in Hg as ->; [|done]. by apply Hr.
  - destruct (Hr id0 t0 Hin) as [? [?|(t' & Hl & ?)]]; split; try done; [by left|].
    destruct (decide (clock s - Hour ≤ t')%Z) as [Hk|Hk].
    + right. exists t'. split; [|done]. by apply lookup_evict.
    + left. lia.
Qed.

Lemma spaced_step s s' : step s s' → remembered s → spaced s → spaced s'.
Proof.
  intros Hs Hr Hsp. destruct Hs as [s t Ht|s op h e' Hg|s op v e' Hg Hv|s]; try done.
  unfold spaced in *. simpl. constructor; [done|]. apply Forall_forall. intros [id t] Hin Heq.
  simpl in *. subst id. apply gate_run in Hg as (_ & Hnone & _).
  destruct (Hr _ _ Hin) as [? [?|(t' & Hl & _)]]; simpl in *; [done|congruence].
Qed.

Lemma reachable_invariant e t s : reachable (initial e t) s → remembered s ∧ spaced s.
Proof.
  induction 1 as [|s s' _ [IH1 IH2] Hs].
  - split; [by intros ? ? ?%elem_of_nil|constructor].
  - eauto using remembered_step, spaced_step.
Qed.
End Executor.

Arguments Executor : clear implicits.
Arguments verdict : clear implicits.
Arguments sys : clear implicits.
End executor.

(** ** Properties *)

Section Properties.
Context {W : Type} {CK : Clock W} {LG : executor.Logger W} {UT : UnicodeTables}.

(** C1: In every interleaving of calls, evictions and the passing of time, two
    decisions to run a handler for one operation id, as they are taken and
    marked under the executor's lock, are more than an hour apart. *)
Theorem replay_window (e : executor.Executor W) (t : Z) (s : executor.sys W) (i j : nat) (id : string)
    (t1 t2 : Z)
    (Hr : executor.reachable (executor.initial e t) s)
    (Hi : executor.granted s !! i = Some (id, t1)) (Hj : executor.granted s !! j = Some (id, t2))
    (Hij : i < j) :
  (t2 + executor.Hour < t1)%Z.
Proof.
  apply executor.reachable_invariant in Hr as [_ Hsp]. unfold executor.spaced in Hsp.
  revert i j Hi Hj Hij. induction Hsp as [|x l Hl IH Hx]; intros [|i] [|j] Hi Hj Hij; try done; [lia| |lia|].
  - simplify_eq/=. rewrite Forall_forall in Hx. apply (Hx (id, t2)); [|done].
    by eapply list_elem_of_lookup_2.
  - apply (IH i j); simpl in *; try done; lia.
Qed.

(** C2: [Execute] changes the executor exactly as the locked step does at the
    time it reads, so every run of it is a path of the transition system; the
    registered handlers never change. *)
Theorem Execute_refines_gate (e : executor.Executor W) (ctx : Context) (op : executor.Operation) (w : W) :
  (executor.Execute e ctx op w).1.2 = (executor.gate e op (Now w).1).2 ∧
  executor.handlers (executor.Execute e ctx op w).1.2 = executor.handlers e.
Proof.
  unfold executor.Execute, executor.gate, mbind, M_bind, mret, M_ret.
  destruct (executor.handlers e !! executor.OpType op) as [h|]; [|done].
  destruct (executor.seen e !! executor.ID op); [by destruct (executor.Log _ w)|].
  destruct (Now w) as [now w1]. destruct (Now w1) as [created w2].
  destruct (Now w2) as [start w3]. destruct (h _ op w3) as [out w4].
  by destruct (executor.finish op start out w4) as [o w5].
Qed.

(** Once an operation of a registered type has been executed, whatever its
    handler returned, executing the same id again reports success without
    running a handler or changing the executor: the world is touched by one
    log record only. *)
Theorem Execute_twice (e : executor.Executor W) (ctx ctx' : Context) (op op' : executor.Operation) (w : W)
    (Ht : is_Some (executor.handlers e !! executor.OpType op))
    (Ht' : is_Some (executor.handlers e !! executor.OpType op'))
    (Hid : executor.ID op' = executor.ID op) :
  let e1 := (executor.Execute e ctx op w).1.2 in
  let w1 := (executor.Execute e ctx op w).2 in
  executor.Execute e1 ctx' op' w1 =
    (executor.Return (Some (executor.mkResult "success" "already processed" "")) None, e1,
     (executor.Log (executor.mkLog executor.Warn "duplicate operation skipped" (executor.op_attrs op')) w1).2).
Proof.
  intros e1 w1.
  assert (executor.handlers e1 = executor.handlers e ∧ is_Some (executor.seen e1 !! executor.ID op))
    as [Hh Hs].
  { subst e1. unfold executor.Execute, mbind, M_bind, mret, M_ret.
    destruct (executor.handlers e !! executor.OpType op) as [h|]; [|by destruct Ht].
    destruct (executor.seen e !! executor.ID op) eqn:Es.
    - destruct (executor.Log _ w). simpl. by rewrite Es.
    - destruct (Now w) as [now wa]. destruct (Now wa) as [created wb].
      destruct (Now wb) as [start wc]. destruct (h _ op wc) as [out wd].
      destruct (executor.finish op start out wd) as [o we]. simpl. by rewrite lookup_insert_eq. }
  apply executor.Execute_seen; [by rewrite Hh|by rewrite Hid].
Qed.

(** [Execute] panics exactly when it runs a handler that returns neither a
    result nor an error. *)
Theorem Execute_panics_iff (e : executor.Executor W) (ctx : Context) (op : executor.Operation) (w : W) :
  (executor.Execute e ctx op w).1.1 = executor.Panic ↔
  ∃ h ctx' w', executor.handlers e !! executor.OpType op = Some h ∧
               executor.seen e !! executor.ID op = None ∧
               w' = (Now (Now (Now w).2).2).2 ∧
               ctx' = WithTimeout ctx (Now (Now w).2).1 (executor.defaultTimeout e) ∧
               (h ctx' op w').1 = (None, None).
Proof.
  unfold executor.Execute, mbind, M_bind, mret, M_ret.
  destruct (executor.handlers e !! executor.OpType op) as [h|]; [|simpl; naive_solver].
  destruct (executor.seen e !! executor.ID op) eqn:Es.
  { destruct (executor.Log _ w). simpl. split; [done|]. intros (? & ? & ? & ? & ? & _). done. }
  destruct (Now w) as [now w1]. simpl. destruct (Now w1) as [created w2]. simpl.
  destruct (Now w2) as [start w3]. simpl.
  destruct (h _ op w3) as [out w4] eqn:Eh. unfold executor.finish, mbind, M_bind, mret, M_ret.
  destruct (Now w4) as [stop w5]. split.
  - destruct out as [[r|] [er|]]; try (destruct (executor.Log _ w5)); simpl; try done. intros _.
    eexists h, _, w3. split_and!; try done. simpl. by rewrite Eh.
  - intros (h' & ctx' & w' & [= <-] & _ & -> & -> & Ho). rewrite Eh in Ho. simpl in Ho. by subst out.
Qed.

(** A handler runs with a deadline no later than five minutes after the
    time read for it, and no later than the caller's. *)
Theorem handler_deadline (ctx : Context) (now : Z) (w : W) :
  ∃ d, ctx_deadline (WithTimeout ctx now (executor.defaultTimeout (executor.NewExecutor (W := W)))) = Some d ∧
       (d ≤ now + 300 * Second)%Z ∧ (∀ d0, ctx_deadline ctx = Some d0 → (d ≤ d0)%Z).
Proof.
  unfold WithTimeout. simpl. unfold executor.Minute. eexists. split; [done|].
  destruct (ctx_deadline ctx) as [d0|]; split; try lia; naive_solver lia.
Qed.
End Properties.

(** *** A concrete run: the id is granted, remembered, forgotten after more
    than an hour and granted again. *)

Definition sample_handler : executor.Handler unit := λ _ _ w, ((None, Some (ErrorString "boom")), w).

Definition sample_executor : executor.Executor unit :=
  executor.mkExecutor {["T" := sample_handler]} ∅ (5 * executor.Minute).

Definition sample_op : executor.Operation := executor.mkOperation "op-1" "T" None.

#[local] Existing Instance latin1_tables.

#[local] Instance silent_clock : Clock unit := {| Now := λ w, (0%Z, w) |}.
#[local] Instance silent_logger : executor.Logger unit := {| executor.Log := λ _ w, (tt, w) |}.

Definition later : Z := (executor.Hour + 1)%Z.

Definition sample_s1 : executor.sys unit :=
  executor.mkSys (executor.mark sample_executor "op-1" 0) 0 [("op-1", 0%Z)].
Definition sample_s2 : executor.sys unit :=
  executor.mkSys (executor.exec sample_s1) later (executor.granted sample_s1).
Definition sample_s3 : executor.sys unit :=
  executor.mkSys (executor.evict (executor.exec sample_s2) later) later (executor.granted sample_s2).
Definition sample_sys : executor.sys unit :=
  executor.mkSys (executor.mark (executor.exec sample_s3) "op-1" later) later
    (("op-1", later) :: executor.granted sample_s3).

Lemma sample_run (s : executor.sys unit) :
  executor.gate (executor.exec s) sample_op (executor.clock s)
    = (executor.Run sample_handler, executor.mark (executor.exec s) "op-1" (executor.clock s)) →
  executor.step s (executor.mkSys (executor.mark (executor.exec s) "op-1" (executor.clock s))
                     (executor.clock s) (("op-1", executor.clock s) :: executor.granted s)).
Proof. intros H. exact (executor.step_run s sample_op sample_handler _ H). Qed.

Lemma sample_reachable : executor.reachable (executor.initial sample_executor 0) sample_sys.
Proof.
  apply (executor.reach_step _ sample_s3); [apply (executor.reach_step _ sample_s2);
    [apply (executor.reach_step _ sample_s1); [apply (executor.reach_step _ (executor.initial sample_executor 0))|]|]|].
  - apply executor.reach_init.
  - apply (sample_run (executor.initial sample_executor 0)). vm_compute. reflexivity.
  - apply (executor.step_time sample_s1 later). vm_compute. discriminate.
  - apply (executor.step_evict sample_s2).
  - apply (sample_run sample_s3). vm_compute. reflexivity.
Qed.

Lemma replay_window_witness : (0 + executor.Hour < later)%Z.
Proof.
  apply (replay_window sample_executor 0 sample_sys 0 1 "op-1" later 0 sample_reachable);
    [reflexivity|reflexivity|lia].
Defined.

(** The first run fails, the second one reports success. *)
Lemma Execute_twice_witness :
  let e1 := (executor.Execute sample_executor Background sample_op tt).1.2 in
  let w1 := (executor.Execute sample_executor Background sample_op tt).2 in
  executor.Execute e1 Background sample_op w1 =
    (executor.Return (Some (executor.mkResult "success" "already processed" "")) None, e1,
     (executor.Log (executor.mkLog executor.Warn "duplicate operation skipped"
                      (executor.op_attrs sample_op)) w1).2).
Proof.
  apply (Execute_twice sample_executor Background Background sample_op sample_op tt);
    [by eexists|by eexists|reflexivity].
Defined.

Example first_run_fails :
  match (executor.Execute sample_executor Background sample_op tt).1.1 with
  | executor.Return None (Some e) => Error e = "executor: T op-1: boom"
  | _ => False
  end.
Proof. vm_compute. reflexivity. Qed.
