(* ===== verification/Components.v ===== *)
(** * Components: internal/components/spec.go and internal/installer/installer.go.

    The catalogue entry of a Docker image and its validation, and the
    installer that pulls an image and compares its digest. *)

From Stdlib Require Import Ascii NArith ZArith.
From S2P Require Import Prelude GoStrings GoFmt GoError Json Http Docker.

Module components.

Record Component : Type := mkComponent {
  Name : string;
  Version : string;
  Image : string;
  ExpectedDigest : string;
}.

(** The fields carry no JSON names, so they are matched by their Go names. *)
Definition zero_Component : Component := mkComponent "" "" "" "".
Definition component_fields : list (field Component) :=
  [ mk_field "Name" dec_string Name (λ v c, mkComponent v (Version c) (Image c) (ExpectedDigest c));
    mk_field "Version" dec_string Version (λ v c, mkComponent (Name c) v (Image c) (ExpectedDigest c));
    mk_field "Image" dec_string Image (λ v c, mkComponent (Name c) (Version c) v (ExpectedDigest c));
    mk_field "ExpectedDigest" dec_string ExpectedDigest
      (λ v c, mkComponent (Name c) (Version c) (Image c) v) ].
Definition dec_Component : decoder Component := dec_struct "Component" "components.Component" component_fields.

Definition sha_prefix : string := "sha256:".

Definition lower_hex (r : N) : bool :=
  negb (((r <? 48) || (57 <? r)) && ((r <? 97) || (102 <? r)))%N.

Definition ValidateDigest (s : string) : res unit :=
  if negb (HasPrefix s sha_prefix) then Err (ErrorString "expected digest must have sha256: prefix")
  else
    let hex := TrimPrefix s sha_prefix in
    if negb (N.of_nat (String.length hex) =? 64)%N
    then Err (ErrorString "expected digest must have 64 hex characters")
    else if forallb (λ r : N * string, lower_hex r.1) (runes hex) then Ok tt
    else Err (ErrorString "expected digest must be lowercase hex").

Definition Validate (c : Component) : res unit :=
  if String.eqb (TrimSpace (Name c)) "" then Err (ErrorString "component name is required")
  else if String.eqb (TrimSpace (Version c)) "" then Err (ErrorString "component version is required")
  else if String.eqb (TrimSpace (Image c)) "" then Err (ErrorString "component image is required")
  else if negb (Contains (Image c) ":")
  then Err (ErrorString "component image must include a tag or digest")
  else ValidateDigest (ExpectedDigest c).

Definition FullImage (c : Component) : string :=
  if Contains (Image c) "@sha256:" then Image c
  else if Contains (Image c) ":" then Image c
  else Image c +:+ ":" +:+ Version c.

Fixpoint MatchDigest (expected : string) (repoDigests : list string) : bool :=
  match repoDigests with
  | [] => false
  | rd :: rds =>
      if HasSuffix rd expected then true
      else if String.eqb rd expected then true
      else MatchDigest expected rds
  end.

(** ** Lemmas *)

Lemma lower_hex_ascii r : lower_hex r = true → (r < 0x80)%N.
Proof.
  unfold lower_hex. rewrite negb_true_iff, andb_false_iff, !orb_false_iff, !N.ltb_ge. lia.
Qed.

Lemma ValidateDigest_ok s :
  ValidateDigest s = Ok tt ↔
  ∃ h, s = sha_prefix +:+ h ∧ String.length h = 64 ∧ all_bytes (λ a, lower_hex (byte a)) h = true.
Proof.
  unfold ValidateDigest. destruct (HasPrefix s sha_prefix) eqn:Hp; simpl.
  - apply HasPrefix_spec in Hp as [h ->]. rewrite TrimPrefix_app.
    rewrite runes_forallb_ascii by apply lower_hex_ascii.
    destruct (N.eqb_spec (N.of_nat (String.length h)) 64) as [Hl|Hl]; simpl.
    + destruct (all_bytes _ h) eqn:Ha; split; try done.
      * intros _. exists h. split_and!; [done|lia|done].
      * intros (h' & Hh & _ & Ha'). apply app_str_inj_l in Hh as <-. congruence.
    + split; [done|]. intros (h' & Hh & Hl' & _). apply app_str_inj_l in Hh as <-. lia.
  - split; [done|]. intros (h & -> & _). by rewrite HasPrefix_app in Hp.
Qed.

Lemma Validate_ok c :
  Validate c = Ok tt ↔
  blank (Name c) = false ∧ blank (Version c) = false ∧ blank (Image c) = false ∧
  Contains (Image c) ":" = true ∧ ValidateDigest (ExpectedDigest c) = Ok tt.
Proof.
  unfold Validate. rewrite !TrimSpace_blank.
  destruct (blank (Name c)), (blank (Version c)), (blank (Image c)), (Contains (Image c) ":"); simpl;
    split; try done; naive_solver.
Qed.

Lemma MatchDigest_iff expected rds :
  MatchDigest expected rds = true ↔ ∃ rd, rd ∈ rds ∧ HasSuffix rd expected = true.
Proof.
  induction rds as [|rd rds IH]; simpl.
  - split; [done|]. by intros (? & ?%elem_of_nil & _).
  - setoid_rewrite elem_of_cons. destruct (HasSuffix rd expected) eqn:E; [naive_solver|].
    destruct (String.eqb_spec rd expected) as [->|].
    + assert (HasSuffix expected expected = true); [|congruence].
      apply HasSuffix_spec. by exists EmptyString.
    + rewrite IH. naive_solver congruence.
Qed.

End components.

Module installer.

Class ImageClient (W : Type) := {
  Pull : Context → string → M W (res unit);
  InspectImage : Context → string → M W (res docker.ImageInfo);
}.

Definition docker_images {W} (c : docker.Client W) : ImageClient W := {|
  Pull := docker.Pull c;
  InspectImage := docker.InspectImage c;
|}.

Section Installer.
Context {W : Type} `{ImageClient W}.

Definition Install (ctx : Context) (c : components.Component) : M W (res unit) :=
  match components.Validate c with
  | Err err => mret (Err (wrapf "invalid component: " err))
  | Ok _ =>
      let image := components.FullImage c in
      _ <- Pull ctx image orelse wrapf ("pull " +:+ image +:+ ": ") ;;
      info <- InspectImage ctx image orelse wrapf ("inspect " +:+ image +:+ ": ") ;;
      if components.MatchDigest (components.ExpectedDigest c) (docker.RepoDigests info)
      then mret (Ok tt)
      else mret (Err (ErrorString ("digest mismatch for " +:+ image +:+ ": expected "
             +:+ components.ExpectedDigest c +:+ ", got " +:+ FmtSlice (docker.RepoDigests info))))
  end.
End Installer.

End installer.

(** ** Properties *)

(** A digest is accepted exactly when it is [sha256:] followed by 64
    lowercase hexadecimal digits. *)
Theorem ValidateDigest_ok_iff (s : string) :
  components.ValidateDigest s = Ok tt ↔
  ∃ h, s = "sha256:" +:+ h ∧ String.length h = 64 ∧
       ∀ a, a ∈ bytes_of h → in_range 48 57 a = true ∨ in_range 97 102 a = true.
Proof.
  assert (He : ∀ a, components.lower_hex (byte a) = true ↔ in_range 48 57 a = true ∨ in_range 97 102 a = true).
  { intros a. unfold components.lower_hex, in_range.
    rewrite negb_true_iff, andb_false_iff, !orb_false_iff, !N.ltb_ge, !andb_true_iff, !N.leb_le. lia. }
  rewrite components.ValidateDigest_ok.
  split; intros (h & Hs & Hl & Ha); exists h; (split_and!; [done..|]);
    [|apply all_bytes_spec]; intros a Hin; apply He; [|by apply Ha].
  by apply (proj1 (all_bytes_spec _ h) Ha).
Qed.

(** The image of a component that validates is used as it is: the branch of
    [FullImage] that appends the version is never taken by the installer. *)
Theorem validated_FullImage (c : components.Component)
    (Hv : components.Validate c = Ok tt) :
  components.FullImage c = components.Image c.
Proof.
  apply components.Validate_ok in Hv as (_ & _ & _ & Hc & _). unfold components.FullImage.
  rewrite Hc. by destruct (Contains (components.Image c) "@sha256:").
Qed.

(** C29: An installation succeeds only for a valid component whose image was
    pulled and inspected, and then one of the image's repository digests ends
    with the expected digest; in every other case it is an error. *)
Theorem Install_ok_iff {W} `{installer.ImageClient W} (ctx : Context) (c : components.Component) (w : W) :
  let image := components.Image c in
  (installer.Install ctx c w).1 = Ok tt ↔
  components.Validate c = Ok tt ∧
  (installer.Pull ctx image w).1 = Ok tt ∧
  ∃ info rd,
    (installer.InspectImage ctx image (installer.Pull ctx image w).2).1 = Ok info ∧
    rd ∈ docker.RepoDigests info ∧
    HasSuffix rd (components.ExpectedDigest c) = true.
Proof.
  intros image. unfold installer.Install, try_or, mret, M_ret.
  destruct (components.Validate c) as [[]|e] eqn:Ev; [|simpl; naive_solver].
  assert (components.FullImage c = image) as ->.
  { apply components.Validate_ok in Ev as (_ & _ & _ & Hc & _). unfold components.FullImage.
    rewrite Hc. by destruct (Contains (components.Image c) "@sha256:"). }
  destruct (installer.Pull ctx image w) as [[[]|e] w1]; simpl; [|naive_solver].
  destruct (installer.InspectImage ctx image w1) as [[info|e] w2]; simpl; [|naive_solver].
  destruct (components.MatchDigest _ _) eqn:Em; simpl.
  - apply components.MatchDigest_iff in Em as (rd & ? & ?). naive_solver.
  - split; [done|]. intros (_ & _ & info' & rd & [= <-] & Hin & Hs).
    assert (components.MatchDigest (components.ExpectedDigest c) (docker.RepoDigests info) = true);
      [|congruence]. apply components.MatchDigest_iff. eauto.
Qed.

Definition sample_digest : string :=
  "sha256:0123456789abcdef0123456789abcdef0123456789abcdef0123456789abcdef".

Lemma validated_FullImage_witness :
  components.FullImage (components.mkComponent "xray" "v1" "reg.io/xray:v1" sample_digest) = "reg.io/xray:v1".
Proof.
  apply (validated_FullImage (components.mkComponent "xray" "v1" "reg.io/xray:v1" sample_digest)).
  vm_compute. reflexivity.
Defined.

(** An image without a tag passes as tagged when its registry has a port, and
    is then pulled without the version. *)
Example port_is_taken_for_a_tag :
  let c := components.mkComponent "xray" "v1" "localhost:5000/xray" sample_digest in
  components.Validate c = Ok tt ∧ components.FullImage c = "localhost:5000/xray".
Proof. vm_compute. done. Qed.
