(* ===== verification/Tunnel.v ===== *)
(** * Tunnel: internal/tunnel/tunnel.go.

    Peer tunnels are added and removed by helper scripts run inside the
    service's container, through the interface [tunnel.ContainerExec]. *)

From Stdlib Require Import NArith ZArith.
From S2P Require Import Prelude GoStrings GoFmt GoError Json Http Docker Service.

Module tunnel.

Definition ProviderAmneziaWG : string := "amneziawg".
Definition ProviderXray : string := "xray".

Record Request : Type := mkTunnelRequest {
  ServiceID : string;
  TunnelID : string;
  Provider : string;
  PeerConfig : RawMessage;
}.

Definition zero_Request : Request := mkTunnelRequest "" "" "" None.

Definition dec_Request : decoder Request := dec_struct "Request" "tunnel.Request"
  [ mk_field "service_id" dec_string ServiceID
      (λ v r, mkTunnelRequest v (TunnelID r) (Provider r) (PeerConfig r));
    mk_field "tunnel_id" dec_string TunnelID
      (λ v r, mkTunnelRequest (ServiceID r) v (Provider r) (PeerConfig r));
    mk_field "provider" dec_string Provider
      (λ v r, mkTunnelRequest (ServiceID r) (TunnelID r) v (PeerConfig r));
    mk_field "peer_config" dec_raw PeerConfig
      (λ v r, mkTunnelRequest (ServiceID r) (TunnelID r) (Provider r) v) ].

Definition Validate (r : Request) : res unit :=
  if String.eqb (TrimSpace (ServiceID r)) "" then Err (ErrorString "service_id is required")
  else if String.eqb (TrimSpace (TunnelID r)) "" then Err (ErrorString "tunnel_id is required")
  else if String.eqb (Provider r) ProviderAmneziaWG || String.eqb (Provider r) ProviderXray then Ok tt
  else Err (ErrorString ("unsupported provider: " +:+ Provider r)).

Class ContainerExec (W : Type) := {
  Inspect : Context → string → M W (res docker.ContainerState);
  Exec : Context → string → list string → M W (res docker.ExecResult);
}.

Definition docker_exec {W} (c : docker.Client W) : ContainerExec W := {|
  Inspect := docker.Inspect c;
  Exec := docker.Exec c;
|}.

Section Manager.
Context {W : Type} `{ContainerExec W}.

(** The common body of [Create] and [Remove], for the helper [verb]. *)
Definition run_helper (verb : string) (ctx : Context) (req : Request) : M W (res unit) :=
  match Validate req with
  | Err err => mret (Err err)
  | Ok _ =>
      let containerName := service.ContainerName (ServiceID req) in
      _ <- Inspect ctx containerName
        orelse (λ err, WrapError ("service container " +:+ containerName +:+ " not found: ") err "") ;;
      let cmd := ["/usr/local/bin/routestack-" +:+ verb; Provider req; TunnelID req] in
      r <- Exec ctx containerName cmd orelse wrapf ("exec " +:+ verb +:+ " in " +:+ containerName +:+ ": ") ;;
      if (docker.ExecExitCode r =? 0)%Z then mret (Ok tt)
      else mret (Err (ErrorString (verb +:+ " failed in " +:+ containerName +:+ " (exit "
             +:+ itoa (docker.ExecExitCode r) +:+ "): " +:+ docker.Stdout r +:+ docker.Stderr r)))
  end.

(** The peer configuration is not passed on. *)
Definition Create (ctx : Context) (req : Request) : M W (res unit) := run_helper "add-peer" ctx req.

Definition Remove (ctx : Context) (req : Request) : M W (res unit) := run_helper "remove-peer" ctx req.

Lemma run_helper_ok verb ctx req w :
  (run_helper verb ctx req w).1 = Ok tt ↔
  Validate req = Ok tt ∧
  (∃ st, (Inspect ctx (service.ContainerName (ServiceID req)) w).1 = Ok st) ∧
  ∃ r, (Exec ctx (service.ContainerName (ServiceID req))
          ["/usr/local/bin/routestack-" +:+ verb; Provider req; TunnelID req]
          (Inspect ctx (service.ContainerName (ServiceID req)) w).2).1 = Ok r ∧
       docker.ExecExitCode r = 0%Z.
Proof.
  unfold run_helper, try_or, mret, M_ret.
  destruct (Validate req) as [[]|e]; [|simpl; naive_solver].
  destruct (Inspect ctx _ w) as [[st|e] w1]; simpl; [|naive_solver].
  destruct (Exec ctx _ _ w1) as [[r|e] w2]; simpl; [|naive_solver].
  destruct (Z.eqb_spec (docker.ExecExitCode r) 0); simpl; naive_solver.
Qed.
End Manager.

Lemma Request_Validate_ok r :
  Validate r = Ok tt ↔
  blank (ServiceID r) = false ∧ blank (TunnelID r) = false ∧
  (Provider r = "amneziawg" ∨ Provider r = "xray").
Proof.
  unfold Validate. rewrite !TrimSpace_blank.
  destruct (blank (ServiceID r)), (blank (TunnelID r)); try (split; naive_solver).
  destruct (String.eqb_spec (Provider r) ProviderAmneziaWG) as [->|]; [naive_solver|].
  destruct (String.eqb_spec (Provider r) ProviderXray) as [->|]; simpl; naive_solver.
Qed.

End tunnel.

(** ** Properties *)

(** C30: Creating (removing) a tunnel succeeds exactly when both ids are not
    blank, the provider is one of the two known, the service's container can
    be inspected, and the helper [routestack-add-peer]
    ([routestack-remove-peer]), run in it with the provider and the tunnel id
    as its two arguments, exits with code 0. *)
Theorem tunnel_ok_iff {W} `{tunnel.ContainerExec W} (ctx : Context) (req : tunnel.Request) (w : W) :
  let name := service.ContainerName (tunnel.ServiceID req) in
  let valid := blank (tunnel.ServiceID req) = false ∧ blank (tunnel.TunnelID req) = false ∧
               (tunnel.Provider req = "amneziawg" ∨ tunnel.Provider req = "xray") in
  let runs helper := ∃ st r, (tunnel.Inspect ctx name w).1 = Ok st ∧
    (tunnel.Exec ctx name [helper; tunnel.Provider req; tunnel.TunnelID req]
       (tunnel.Inspect ctx name w).2).1 = Ok r ∧ docker.ExecExitCode r = 0%Z in
  ((tunnel.Create ctx req w).1 = Ok tt ↔ valid ∧ runs "/usr/local/bin/routestack-add-peer") ∧
  ((tunnel.Remove ctx req w).1 = Ok tt ↔ valid ∧ runs "/usr/local/bin/routestack-remove-peer").
Proof.
  cbv zeta. unfold tunnel.Create, tunnel.Remove. rewrite !tunnel.run_helper_ok, !tunnel.Request_Validate_ok.
  split; split; intros Hx; naive_solver.
Qed.

(** The peer configuration of a request has no effect on the creation of
    the tunnel: no part of it reaches the container. *)
Theorem Create_ignores_PeerConfig {W} `{tunnel.ContainerExec W} (ctx : Context) (sid tid prov : string)
    (pc pc' : RawMessage) (w : W) :
  tunnel.Create ctx (tunnel.mkTunnelRequest sid tid prov pc) w =
  tunnel.Create ctx (tunnel.mkTunnelRequest sid tid prov pc') w.
Proof. reflexivity. Qed.
