(* ===== verification/Health.v ===== *)
(** * Health: internal/health/manager.go.

    A check inspects the service's container and probes host ports; dialling
    is an effect of the world, [health.Dialer]. *)

From Stdlib Require Import Ascii NArith ZArith.
From S2P Require Import Prelude GoStrings GoFmt GoTime GoError Json Http Docker Service.

Module health.

Class ContainerInspector (W : Type) := {
  Inspect : Context → string → M W (res docker.ContainerState);
}.

Definition docker_inspector {W} (c : docker.Client W) : ContainerInspector W :=
  {| Inspect := docker.Inspect c |}.

(** [net.Dialer{Timeout}.DialContext(ctx, "tcp", address)], closed at once. *)
Class Dialer (W : Type) := { DialTCP : Context → Z → string → M W (res unit) }.

Record PortHit : Type := mkPortHit { HostPort : string; Open : bool }.

Record Report : Type := mkReport {
  ServiceID : string;
  ContainerName : string;
  ContainerID : string;
  Healthy : bool;
  Running : bool;
  Status : string;
  Health : string;
  ExitCode : Z;
  PortChecks : list PortHit;
  CheckedAt : Z;
}.

Record CheckOptions : Type := mkCheckOptions { ProbePorts : list string; TimeoutMs : Z }.

Definition enc_PortHit (p : PortHit) : json :=
  JObj (member "host_port" (enc_string (HostPort p)) ++ member "open" (JBool (Open p))).

(** [json.Marshal] of a report. *)
Definition enc_Report (r : Report) : json := JObj (
  member "service_id" (enc_string (ServiceID r)) ++
  member "container_name" (enc_string (ContainerName r)) ++
  member "container_id" (enc_string (ContainerID r)) ++
  member "healthy" (JBool (Healthy r)) ++
  member "running" (JBool (Running r)) ++
  member "status" (enc_string (Status r)) ++
  omit (String.eqb (Health r) "") "health" (enc_string (Health r)) ++
  member "exit_code" (enc_int (ExitCode r)) ++
  omit (is_nil (PortChecks r)) "port_checks" (JArr (map enc_PortHit (PortChecks r))) ++
  member "checked_at" (enc_string (RFC3339Nano (CheckedAt r)))).

Definition dec_CheckOptions : decoder CheckOptions := dec_struct "CheckOptions" "health.CheckOptions"
  [ mk_field "probe_ports" (dec_slice "[]string" "" dec_string) ProbePorts
      (λ v o, mkCheckOptions v (TimeoutMs o));
    mk_field "timeout_ms" (dec_int "int") TimeoutMs (λ v o, mkCheckOptions (ProbePorts o) v) ].

Section Manager.
Context {W : Type} `{ContainerInspector W} `{Dialer W} `{Clock W}.

Definition probe_address (port : string) : string :=
  if negb (Contains port ":") then "127.0.0.1:" +:+ port else port.

Definition probePort (ctx : Context) (port : string) (timeout : Z) : M W bool :=
  r ← DialTCP ctx timeout (probe_address port);
  mret (is_ok r).

(** The loop over the ports, with the health found so far. *)
Fixpoint probe_all (ctx : Context) (timeout : Z) (ports : list string) (healthy : bool)
    : M W (list PortHit * bool) :=
  match ports with
  | [] => mret ([], healthy)
  | port :: ps =>
      o ← probePort ctx port timeout;
      rest ← probe_all ctx timeout ps (if o then healthy else false);
      mret (mkPortHit port o :: rest.1, rest.2)
  end.

(** [2 * time.Second], or the option in milliseconds, in 64 bits. *)
Definition probe_timeout (opts : CheckOptions) : Z :=
  if (0 <? TimeoutMs opts)%Z then wrap64 (TimeoutMs opts * Millisecond) else (2 * Second)%Z.

(** The container's part of the verdict: running and, where the image has a
    health check, reported healthy. *)
Definition container_healthy (state : docker.ContainerState) : bool :=
  let running := docker.Running (docker.State state) in
  match docker.Health (docker.State state) with
  | None => running
  | Some h => running && String.eqb h "healthy"
  end.

Definition Check (ctx : Context) (serviceID : string) (opts : CheckOptions) : M W (res Report) :=
  let containerName := service.ContainerName serviceID in
  state <- Inspect ctx containerName orelse wrapf ("inspect " +:+ containerName +:+ ": ") ;;
  λ w,
    let '(now, w) := Now w in
    let '((checks, healthy), w) :=
      probe_all ctx (probe_timeout opts) (ProbePorts opts) (container_healthy state) w in
    (Ok (mkReport serviceID containerName (docker.ID state) healthy
           (docker.Running (docker.State state)) (docker.Status (docker.State state))
           (default "" (docker.Health (docker.State state)))
           (docker.ExitCode (docker.State state)) checks now), w).

(** Options that cannot be decoded are used as far as they were. *)
Definition CheckFromJSON (ctx : Context) (serviceID : string) (raw : string) : M W (res Report) :=
  let opts := mkCheckOptions [] 0 in
  let opts := if String.eqb raw "" then opts else (Unmarshal dec_CheckOptions raw opts).1 in
  Check ctx serviceID opts.

Lemma probe_all_healthy ctx t ports h w :
  let '((checks, h'), _) := probe_all ctx t ports h w in
  h' = h && forallb Open checks ∧ map HostPort checks = ports.
Proof.
  revert h w. induction ports as [|p ps IH]; intros h w; simpl; [by rewrite andb_true_r|].
  unfold mbind, M_bind, mret, M_ret. destruct (probePort ctx p t w) as [o w1].
  specialize (IH (if o then h else false) w1).
  destruct (probe_all ctx t ps _ w1) as [[checks h'] w2]. destruct IH as [-> Hp]. simpl. rewrite Hp.
  split; [|done]. by destruct o, h.
Qed.
End Manager.

(** A dialler that has the time-out fixed. *)
Definition dialling {W} `{Dialer W} (t : Z) : Dialer W := {| DialTCP := λ ctx _ address, DialTCP ctx t address |}.

Lemma probe_all_dialling {W} {DI : Dialer W} ctx t ports h w :
  probe_all ctx t ports h w = probe_all (H0 := dialling t) ctx t ports h w.
Proof.
  revert h w. induction ports as [|p ps IH]; intros h w; [done|]. cbn [probe_all]. unfold mbind, M_bind.
  change (probePort (H0 := dialling t) ctx p t w) with (probePort ctx p t w).
  destruct (probePort ctx p t w) as [o w1]. by rewrite IH.
Qed.

Lemma Check_dialling {W} {CI : ContainerInspector W} {DI : Dialer W} {CK : Clock W} ctx sid opts w :
  Check ctx sid opts w = Check (H0 := dialling (probe_timeout opts)) ctx sid opts w.
Proof.
  unfold Check, try_or. destruct (Inspect ctx _ w) as [[state|e] w1]; [|done]. destruct (Now w1) as [now w2].
  by rewrite probe_all_dialling.
Qed.

(** ** Ports *)

(** [strings.LastIndexByte] as a split: before and after the last [sep]. *)
Fixpoint split_last (s : string) (sep : ascii) : option (string * string) :=
  match s with
  | EmptyString => None
  | String a s' =>
      match split_last s' sep with
      | Some (h, t) => Some (String a h, t)
      | None => if Ascii.eqb a sep then Some (EmptyString, s') else None
      end
  end.

Fixpoint split_first (s : string) (sep : ascii) : option (string * string) :=
  match s with
  | EmptyString => None
  | String a s' =>
      if Ascii.eqb a sep then Some (EmptyString, s')
      else match split_first s' sep with Some (h, t) => Some (String a h, t) | None => None end
  end.

Definition has_byte (a : ascii) (s : string) : bool := existsb (Ascii.eqb a) (bytes_of s).

(** The port of [net.SplitHostPort], where it succeeds. *)
Definition SplitHostPort (s : string) : option string :=
  match split_last s ":" with
  | None => None
  | Some (host, port) =>
      match s with
      | String "["%char r =>
          match split_first r "]" with
          | Some (inner, String ":"%char port') =>
              (* the colon after the bracket must be the last one *)
              if String.eqb port port' && negb (has_byte "[" (inner +:+ port))
                 && negb (has_byte "]" port) then Some port else None
          | _ => None
          end
      | _ =>
          if has_byte ":" host || has_byte "[" s || has_byte "]" s then None else Some port
      end
  end.

Definition ParsePort (s : string) : Z * option num_error :=
  ParseInt (match SplitHostPort s with Some p => p | None => s end).

End health.

(** ** Properties *)

(** C31: A report is healthy exactly when the container runs, its image's
    health check (if it has one) says [healthy], and every probed port was
    open; the ports are reported in the order they were given, and a failing
    inspection is an error. *)
Theorem Check_healthy_iff {W} `{health.ContainerInspector W} `{health.Dialer W} `{Clock W}
    (ctx : Context) (sid : string) (opts : health.CheckOptions) (w : W) :
  match (health.Inspect ctx (service.ContainerName sid) w).1 with
  | Err e => (health.Check ctx sid opts w).1 = Err (wrapf ("inspect " +:+ service.ContainerName sid +:+ ": ") e)
  | Ok st => ∃ r, (health.Check ctx sid opts w).1 = Ok r ∧
      map health.HostPort (health.PortChecks r) = health.ProbePorts opts ∧
      (health.Healthy r = true ↔
        docker.Running (docker.State st) = true ∧
        (docker.Health (docker.State st) = None ∨ docker.Health (docker.State st) = Some "healthy") ∧
        (∀ hit, hit ∈ health.PortChecks r → health.Open hit = true))
  end.
Proof.
  unfold health.Check, try_or. destruct (health.Inspect ctx _ w) as [[st|e] w1]; simpl; [|done].
  destruct (Now w1) as [now w2].
  pose proof (health.probe_all_healthy ctx (health.probe_timeout opts) (health.ProbePorts opts)
                (health.container_healthy st) w2) as Hp.
  destruct (health.probe_all _ _ _ _ w2) as [[checks h] w3]. destruct Hp as [-> Hp].
  eexists. split; [done|]. split; [done|]. simpl.
  rewrite andb_true_iff, forallb_True. unfold health.container_healthy.
  destruct (docker.Health (docker.State st)) as [hs|]; [|naive_solver].
  rewrite andb_true_iff, String.eqb_eq. naive_solver.
Qed.

(** C32: Every port of a check is dialled with one and the same time-out, which
    is two seconds when the option is not positive, and else the option itself,
    in milliseconds, up to about 292 years; it never leaves the 64-bit range,
    but one more millisecond wraps around to a negative time-out. *)
Theorem probe_timeout_bounds {W : Type} {CI : health.ContainerInspector W} {DI : health.Dialer W} {CK : Clock W}
    (ctx : Context) (serviceID : string) (opts : health.CheckOptions) (w : W) :
  let timeout := health.probe_timeout opts in
  health.Check ctx serviceID opts w
    = health.Check (H0 := health.dialling timeout) ctx serviceID opts w ∧
  in_int64 timeout = true ∧
  ((health.TimeoutMs opts ≤ 0)%Z → timeout = 2000000000%Z) ∧
  ((0 < health.TimeoutMs opts ≤ 9223372036854)%Z → timeout = (health.TimeoutMs opts * 1000000)%Z) ∧
  (health.TimeoutMs opts = 9223372036855%Z → (timeout < 0)%Z).
Proof.
  cbv zeta. split; [apply health.Check_dialling|].
  unfold health.probe_timeout. destruct (Z.ltb_spec 0 (health.TimeoutMs opts)); split_and!; try done; try lia.
  - apply wrap64_range.
  - intros ?. apply wrap64_id, in_int64_spec. unfold int64_min, int64_max, Millisecond. lia.
  - intros ->. vm_compute. reflexivity.
Qed.

Section Probe.
#[local] Instance probe_inspector : health.ContainerInspector (list Z) := {|
  health.Inspect _ _ w := (Ok (docker.mkContainerState "c1" "" (docker.mkRunState "running" true 0 "" "" None) ""
                                 (docker.mkContainerConfig "" ∅)), w);
|}.
#[local] Instance probe_dialer : health.Dialer (list Z) := {| health.DialTCP _ t _ w := (Ok tt, w ++ [t]) |}.
#[local] Instance probe_clock : Clock (list Z) := {| Now w := (0%Z, w) |}.

Lemma probe_timeout_bounds_witness :
  (health.Check Background "web" (health.mkCheckOptions ["80"; "443"] 0) []).2 = [2000000000; 2000000000]%Z ∧
  health.probe_timeout (health.mkCheckOptions ["80"] 1500) = (1500 * 1000000)%Z.
Proof.
  split; [vm_compute; reflexivity|].
  destruct (probe_timeout_bounds Background "web" (health.mkCheckOptions ["80"] 1500) []) as (_ & _ & _ & H & _).
  apply H. split; [vm_compute; reflexivity|vm_compute; discriminate].
Defined.
End Probe.

Example timeout_wraps : (health.probe_timeout (health.mkCheckOptions [] 9223372036855) < 0)%Z.
Proof. vm_compute. done. Qed.
