(* ===== verification/Firewall.v ===== *)
(** * Firewall: internal/firewall/manager.go.

    A ruleset becomes the content of one iptables chain, reached from
    DOCKER-USER.  The commands run through the interface
    [firewall.CommandRunner]; what the program iptables does with them is the
    class [firewall.Iptables], a table of chains with the documented effect of
    each command the manager runs. *)

From Stdlib Require Import Ascii NArith ZArith.
From S2P Require Import Prelude GoStrings GoFmt GoError Json Http.

Module firewall.

Record Rule : Type := mkRule { Args : list string }.
Record Ruleset : Type := mkRuleset { Revision : Z; Rules : list Rule }.

Definition dec_Rule : decoder Rule := dec_struct "Rule" "firewall.Rule"
  [ mk_field "args" (dec_slice "[]string" "" dec_string) Args (λ v _, mkRule v) ].

Definition dec_Ruleset : decoder Ruleset := dec_struct "Ruleset" "firewall.Ruleset"
  [ mk_field "revision" (dec_int "int64") Revision (λ v r, mkRuleset v (Rules r));
    mk_field "rules" (dec_slice "[]firewall.Rule" (mkRule []) dec_Rule) Rules
      (λ v r, mkRuleset (Revision r) v) ].

Class CommandRunner (W : Type) := {
  Run : Context → string → list string → M W (res unit);
  Output : Context → string → list string → M W (res string);
}.

(** [exec.CommandContext], started and waited for, and the default runner on
    it; the output of a command that fails is not used. *)
Class OsExec (W : Type) := {
  CommandRun : Context → string → list string → M W (option error);
  CommandOutput : Context → string → list string → M W (string * option error);
}.

Definition execRunner {W} `{OsExec W} : CommandRunner W := {|
  Run := λ ctx name args,
    err ← CommandRun ctx name args;
    mret (match err with None => Ok tt | Some err => Err err end);
  Output := λ ctx name args,
    r ← CommandOutput ctx name args;
    mret (match r with (out, None) => Ok out | (_, Some err) => Err err end)
|}.

Definition chainName : string := "ROUTESTACK-FWD".

Section Manager.
Context {W : Type} `{CommandRunner W}.

Definition ensureChain (ctx : Context) : M W (res unit) :=
  _ ← Run ctx "iptables" ["-N"; chainName];
  out ← Output ctx "iptables" ["-L"; "DOCKER-USER"; "--line-numbers"; "-n"];
  let link := Run ctx "iptables" ["-I"; "DOCKER-USER"; "1"; "-j"; chainName] in
  match out with
  | Err _ => _ ← Run ctx "iptables" ["-N"; "DOCKER-USER"]; link
  | Ok text => if Contains text chainName then mret (Ok tt) else link
  end.

(** The loop over the rules, from index [i]. *)
Fixpoint add_rules (ctx : Context) (i : Z) (rules : list Rule) : M W (res unit) :=
  match rules with
  | [] => mret (Ok tt)
  | rule :: rest =>
      match Args rule with
      | [] => add_rules ctx (i + 1) rest
      | args =>
          _ <- Run ctx "iptables" (["-A"; chainName] ++ args)
            orelse wrapf ("apply rule " +:+ itoa i +:+ " (" +:+ FmtSlice args +:+ "): ") ;;
          add_rules ctx (i + 1) rest
      end
  end.

Definition ApplyRevision (ctx : Context) (rs : Ruleset) : M W (res unit) :=
  if (Revision rs <? 0)%Z then mret (Err (ErrorString "revision must be non-negative")) else
  _ <- ensureChain ctx orelse id ;;
  _ <- Run ctx "iptables" ["-F"; chainName] orelse wrapf ("flush " +:+ chainName +:+ ": ") ;;
  add_rules ctx 0 (Rules rs).
End Manager.

(** [strconv.ParseInt(s, 10, 64)]. *)
Definition RevisionFromString (s : string) : Z * option num_error := ParseInt s.

(** ** The filter table *)

(** A rule as the arguments that append it, in the chain's order. *)
Notation Table := (gmap string (list (list string))).

(** The options whose presence keeps a command line a plain rule: nothing that
    selects another table, asks for help or names a second command. *)
Definition rule_options : list string :=
  ["-p"; "-s"; "-d"; "-i"; "-o"; "-j"; "-m"; "!"; "--protocol"; "--source"; "--destination";
   "--dport"; "--sport"; "--dports"; "--sports"; "--jump"; "--match"; "--state"; "--ctstate";
   "--comment"; "--in-interface"; "--out-interface"; "--limit"; "--limit-burst"].

Definition plain_rule (args : list string) : bool :=
  forallb (λ a, negb (HasPrefix a "-") || bool_decide (a ∈ rule_options)) args.

Definition jump : list string := ["-j"; chainName].

(** Some argument of the rule contains the name. *)
Definition mentions (name : string) (rule : list string) : bool := existsb (λ a, Contains a name) rule.

(** What iptables(8) documents for the commands the manager runs; a command
    that fails changes nothing. *)
Class Iptables (W : Type) `{CommandRunner W} := {
  table : W → Table;
  new_chain ctx c w :
    match (Run ctx "iptables" ["-N"; c] w).1 with
    | Ok _ => table w !! c = None ∧ table (Run ctx "iptables" ["-N"; c] w).2 = <[c := []]> (table w)
    | Err _ => table (Run ctx "iptables" ["-N"; c] w).2 = table w
    end;
  flush ctx c w :
    match (Run ctx "iptables" ["-F"; c] w).1 with
    | Ok _ => is_Some (table w !! c) ∧ table (Run ctx "iptables" ["-F"; c] w).2 = <[c := []]> (table w)
    | Err _ => table (Run ctx "iptables" ["-F"; c] w).2 = table w
    end;
  append ctx c args w : plain_rule args = true →
    match (Run ctx "iptables" (["-A"; c] ++ args) w).1 with
    | Ok _ => ∃ rs, table w !! c = Some rs ∧
                table (Run ctx "iptables" (["-A"; c] ++ args) w).2 = <[c := rs ++ [args]]> (table w)
    | Err _ => table (Run ctx "iptables" (["-A"; c] ++ args) w).2 = table w
    end;
  insert_head ctx c t w :
    match (Run ctx "iptables" ["-I"; c; "1"; "-j"; t] w).1 with
    | Ok _ => ∃ rs, table w !! c = Some rs ∧ is_Some (table w !! t) ∧
                table (Run ctx "iptables" ["-I"; c; "1"; "-j"; t] w).2 = <[c := ["-j"; t] :: rs]> (table w)
    | Err _ => table (Run ctx "iptables" ["-I"; c; "1"; "-j"; t] w).2 = table w
    end;
  list_same ctx c w : table (Output ctx "iptables" ["-L"; c; "--line-numbers"; "-n"] w).2 = table w;
  (** a listing shows the target of every jump, and shows a name only when a
      rule of the chain mentions it *)
  list_jump ctx c t w out rs :
    (Output ctx "iptables" ["-L"; c; "--line-numbers"; "-n"] w).1 = Ok out →
    table w !! c = Some rs → ["-j"; t] ∈ rs → Contains out t = true;
  list_mention ctx w out :
    (Output ctx "iptables" ["-L"; "DOCKER-USER"; "--line-numbers"; "-n"] w).1 = Ok out →
    Contains out chainName = true →
    ∃ rs rule, table w !! "DOCKER-USER" = Some rs ∧ rule ∈ rs ∧ mentions chainName rule = true;
  list_exists ctx c w :
    is_ok (Output ctx "iptables" ["-L"; c; "--line-numbers"; "-n"] w).1 = true → is_Some (table w !! c);
}.

(** The rules of a ruleset that have arguments. *)
Definition specs (rules : list Rule) : list (list string) :=
  filter (λ args, args ≠ []) (map Args rules).

Definition plain (rules : list Rule) : Prop := ∀ r, r ∈ rules → plain_rule (Args r) = true.

(** The table without the two chains the manager writes. *)
Definition foreign (t : Table) : Table := delete chainName (delete "DOCKER-USER" t).

(** The rules of DOCKER-USER, which need not exist. *)
Definition user_rules (t : Table) : list (list string) := default [] (t !! "DOCKER-USER").

(** The rules the chain has, or none if it is new. *)
Definition untouched (before after : Table) : Prop :=
  after !! chainName = before !! chainName ∨ before !! chainName = None ∧ after !! chainName = Some [].

Section Effects.
Context {W : Type} {CR : CommandRunner W} {IT : Iptables W}.

Lemma foreign_insert c rs (t : Table) :
  c = chainName ∨ c = "DOCKER-USER" → foreign (<[c := rs]> t) = foreign t.
Proof.
  intros Hc. apply map_eq. intros k. unfold foreign.
  rewrite !lookup_delete. repeat case_decide; try done.
  rewrite lookup_insert_ne; [done|]. by destruct Hc as [->| ->].
Qed.

Lemma new_chain_foreign ctx c w :
  c = chainName ∨ c = "DOCKER-USER" →
  foreign (table (Run ctx "iptables" ["-N"; c] w).2) = foreign (table w).
Proof.
  intros Hc. pose proof (new_chain ctx c w) as HN. destruct (Run ctx _ _ w) as [[]?]; simpl in *.
  - destruct HN as [_ ->]. by apply foreign_insert.
  - by rewrite HN.
Qed.

(** Creating a chain loses no rule. *)
Lemma new_chain_mono ctx c w k rs :
  table w !! k = Some rs → table (Run ctx "iptables" ["-N"; c] w).2 !! k = Some rs.
Proof.
  intros Hk. pose proof (new_chain ctx c w) as HN. destruct (Run ctx _ _ w) as [[]?]; simpl in *.
  - destruct HN as [Hc ->]. rewrite lookup_insert_ne; congruence.
  - by rewrite HN.
Qed.

Lemma new_chain_untouched ctx w : untouched (table w) (table (Run ctx "iptables" ["-N"; chainName] w).2).
Proof.
  pose proof (new_chain ctx chainName w) as HN. destruct (Run ctx _ _ w) as [[]?]; simpl in *.
  - destruct HN as [Hc ->]. right. by rewrite lookup_insert_eq.
  - left. by rewrite HN.
Qed.

(** Creating a chain adds no rule to DOCKER-USER and touches no other chain. *)
Lemma new_chain_user ctx c w :
  user_rules (table (Run ctx "iptables" ["-N"; c] w).2) = user_rules (table w).
Proof.
  pose proof (new_chain ctx c w) as HN. destruct (Run ctx _ _ w) as [[]?]; simpl in *; [|by rewrite HN].
  destruct HN as [Hc ->]. unfold user_rules. destruct (decide (c = "DOCKER-USER")) as [->|Hne].
  - by rewrite lookup_insert_eq, Hc.
  - by rewrite lookup_insert_ne.
Qed.

Lemma new_chain_other ctx c w :
  c ≠ chainName → table (Run ctx "iptables" ["-N"; c] w).2 !! chainName = table w !! chainName.
Proof.
  intros Hne. pose proof (new_chain ctx c w) as HN. destruct (Run ctx _ _ w) as [[]?]; simpl in *; [|by rewrite HN].
  destruct HN as [_ ->]. by rewrite lookup_insert_ne.
Qed.

(** What the last command of [ensureChain] does, whatever went before. *)
Lemma link_effect ctx w t0 :
  foreign (table w) = foreign t0 → untouched t0 (table w) → user_rules (table w) = user_rules t0 →
  let q := Run ctx "iptables" ["-I"; "DOCKER-USER"; "1"; "-j"; chainName] w in
  foreign (table q.2) = foreign t0 ∧ untouched t0 (table q.2) ∧
  (q.1 = Ok tt → table q.2 !! "DOCKER-USER" = Some (jump :: user_rules t0)).
Proof.
  intros Hf Hu Hd. cbv zeta. pose proof (insert_head ctx "DOCKER-USER" chainName w) as HI.
  destruct (Run ctx "iptables" _ w) as [[[]|e] w4]; simpl in *; [|by rewrite HI].
  destruct HI as (rs & Hrs & _ & ->). split_and!.
  - by rewrite foreign_insert by (by right).
  - unfold untouched in *. by rewrite lookup_insert_ne by done.
  - intros _. rewrite lookup_insert_eq. unfold user_rules at 1 in Hd. rewrite Hrs in Hd. simpl in Hd. by rewrite Hd.
Qed.

Lemma ensureChain_effect ctx w :
  let w' := (ensureChain ctx w).2 in
  foreign (table w') = foreign (table w) ∧ untouched (table w) (table w') ∧
  ((ensureChain ctx w).1 = Ok tt →
   table w' !! "DOCKER-USER" = Some (jump :: user_rules (table w)) ∨
   table w' !! "DOCKER-USER" = Some (user_rules (table w)) ∧
   ∃ rule, rule ∈ user_rules (table w) ∧ mentions chainName rule = true).
Proof.
  cbv zeta. unfold ensureChain, mbind, M_bind, mret, M_ret.
  pose proof (new_chain_foreign ctx chainName w ltac:(by left)) as HF.
  pose proof (new_chain_untouched ctx w) as HU. pose proof (new_chain_user ctx chainName w) as HD.
  destruct (Run ctx "iptables" ["-N"; chainName] w) as [r1 w1]; simpl in HF, HU, HD.
  pose proof (list_same ctx "DOCKER-USER" w1) as HL.
  pose proof (λ out, list_mention ctx w1 out) as Hshow.
  destruct (Output ctx "iptables" _ w1) as [out w2]; simpl in HL, Hshow. rewrite <- HL in HF, HU, HD.
  destruct out as [text|e].
  - destruct (Contains text chainName) eqn:Hc; simpl.
    + split_and!; [done|done|]. intros _. right. destruct (Hshow text eq_refl Hc) as (rs & rule & Hrs & ?).
      rewrite <- HL in Hrs. rewrite Hrs, <- HD. unfold user_rules. rewrite Hrs. split; [done|by exists rule].
    + destruct (link_effect ctx w2 (table w) HF HU HD) as (? & ? & ?). split_and!; [done|done|by left; auto].
  - pose proof (new_chain_foreign ctx "DOCKER-USER" w2 ltac:(by right)) as HF2.
    pose proof (new_chain_user ctx "DOCKER-USER" w2) as HD2. pose proof (new_chain_other ctx "DOCKER-USER" w2) as HU2.
    destruct (Run ctx "iptables" ["-N"; "DOCKER-USER"] w2) as [r3 w3]; simpl in HF2, HD2, HU2.
    destruct (link_effect ctx w3 (table w)) as (? & ? & ?); [congruence| |congruence|split_and!; [done|done|by left; auto]].
    unfold untouched in *. by rewrite HU2.
Qed.

(** Once DOCKER-USER jumps to the chain and can be listed, only the chain
    itself may still be created. *)
Lemma ensureChain_linked ctx w rs :
  table w !! "DOCKER-USER" = Some rs → jump ∈ rs →
  is_ok (Output ctx "iptables" ["-L"; "DOCKER-USER"; "--line-numbers"; "-n"]
           (Run ctx "iptables" ["-N"; chainName] w).2).1 = true →
  (ensureChain ctx w).1 = Ok tt ∧
  ∀ rs', <[chainName := rs']> (table (ensureChain ctx w).2) = <[chainName := rs']> (table w).
Proof.
  intros Hdu Hj Hl. unfold ensureChain, mbind, M_bind, mret, M_ret.
  pose proof (new_chain ctx chainName w) as HN.
  pose proof (new_chain_mono ctx chainName w _ _ Hdu) as Hdu1.
  destruct (Run ctx "iptables" ["-N"; chainName] w) as [r1 w1]; simpl in *.
  pose proof (list_same ctx "DOCKER-USER" w1) as HL.
  pose proof (λ out, list_jump ctx "DOCKER-USER" chainName w1 out rs) as Hshow.
  destruct (Output ctx "iptables" _ w1) as [[text|e] w2]; simpl in *; [|done].
  rewrite (Hshow text) by done. simpl. split; [done|]. intros rs'. rewrite HL.
  destruct r1; [destruct HN as [_ ->]; apply insert_insert_eq|by rewrite HN].
Qed.

Lemma specs_cons r rules :
  specs (r :: rules) = (if decide (Args r = []) then [] else [Args r]) ++ specs rules.
Proof.
  unfold specs. simpl. destruct (decide (Args r = [])) as [->|].
  - by rewrite filter_cons_False by naive_solver.
  - by rewrite filter_cons_True by done.
Qed.

(** The loop appends the rules in order up to the first one that is refused. *)
Lemma add_rules_effect ctx rules i w pre :
  plain rules → table w !! chainName = Some pre →
  ∃ k, table (add_rules ctx i rules w).2 = <[chainName := pre ++ specs (take k rules)]> (table w) ∧
    match (add_rules ctx i rules w).1 with
    | Ok _ => length rules ≤ k
    | Err e => ∃ rule e0, rules !! k = Some rule ∧ Args rule ≠ [] ∧
        e = wrapf ("apply rule " +:+ itoa (i + Z.of_nat k) +:+ " (" +:+ FmtSlice (Args rule) +:+ "): ") e0
    end.
Proof.
  revert i w pre. induction rules as [|r rules IH]; intros i w pre Hp Hw.
  { exists 0. simpl. rewrite app_nil_r, insert_id by done. split; [done|lia]. }
  assert (Hp' : plain rules) by (intros r' ?; apply Hp; by right).
  assert (Hshift : ∀ k, (i + 1 + Z.of_nat k = i + Z.of_nat (S k))%Z) by lia.
  cbn [add_rules]. destruct (Args r) as [|a l] eqn:Ea.
  - destruct (IH (i + 1)%Z w pre Hp' Hw) as (k & Ht & Hr). exists (S k). simpl take.
    rewrite specs_cons, Ea. split; [done|]. destruct (add_rules _ _ _ w).1; simpl; [lia|].
    destruct Hr as (rule & e0 & ? & ? & ->). rewrite Hshift. eauto.
  - rewrite <-Ea. unfold try_or. pose proof (append ctx chainName (Args r) w (Hp r ltac:(by left))) as HA.
    destruct (Run ctx "iptables" _ w) as [[[]|e] w1]; simpl in HA.
    + destruct HA as (rs & Hrs & Ht1). simplify_eq.
      destruct (IH (i + 1)%Z w1 (pre ++ [Args r]) Hp') as (k & Ht & Hr).
      { rewrite Ht1. apply lookup_insert_eq. }
      exists (S k). simpl take. rewrite specs_cons. rewrite decide_False by congruence.
      rewrite Ht, Ht1, insert_insert_eq, <-app_assoc. split; [done|].
      destruct (add_rules _ _ _ w1).1; simpl; [lia|].
      destruct Hr as (rule & e0 & ? & ? & ->). rewrite Hshift. eauto.
    + exists 0. simpl. rewrite app_nil_r, insert_id by congruence. split; [done|].
      exists r, e. rewrite Z.add_0_r. split_and!; congruence.
Qed.

(** The flush and the loop after it. *)
Lemma refill_effect ctx rules w :
  plain rules →
  let flushed := (Run ctx "iptables" ["-F"; chainName] w).1 in
  let q := (_ <- Run ctx "iptables" ["-F"; chainName] orelse wrapf ("flush " +:+ chainName +:+ ": ") ;;
            add_rules ctx 0 rules) w in
  (∃ e, flushed = Err e ∧ q.1 = Err (wrapf ("flush " +:+ chainName +:+ ": ") e) ∧ table q.2 = table w) ∨
  is_ok flushed = true ∧
  ∃ k, table q.2 = <[chainName := specs (take k rules)]> (table w) ∧
    match q.1 with
    | Ok _ => length rules ≤ k
    | Err e => ∃ rule e0, rules !! k = Some rule ∧ Args rule ≠ [] ∧
        e = wrapf ("apply rule " +:+ itoa (Z.of_nat k) +:+ " (" +:+ FmtSlice (Args rule) +:+ "): ") e0
    end.
Proof.
  intros Hp. cbv zeta. unfold try_or. pose proof (flush ctx chainName w) as HF.
  destruct (Run ctx "iptables" _ w) as [[[]|e] w1]; simpl in *; [right; split; [done|]|left; by exists e].
  destruct HF as [_ HF].
  destruct (add_rules_effect ctx rules 0 w1 [] Hp) as (k & Ht & Hr); [rewrite HF; apply lookup_insert_eq|].
  exists k. rewrite Ht, HF, insert_insert_eq. by rewrite Z.add_0_l in Hr.
Qed.
End Effects.

(** ** A filter table kept in memory

    Every command succeeds unless a chain is missing (or present, for [-N]) or
    the rule jumps to a target that does not exist. *)

Definition known_target (t : Table) (args : list string) : bool :=
  match last args with
  | Some target => bool_decide (target ∈ ["ACCEPT"; "DROP"; "RETURN"; "REJECT"]) || bool_decide (is_Some (t !! target))
  | None => false
  end.

Definition ipt_error (w : Table) : res unit * Table := (Err (ErrorString "exit status 1"), w).

Definition ipt_run (args : list string) (w : Table) : res unit * Table :=
  match args with
  | cmd :: c :: rest =>
      match w !! c with
      | None => if String.eqb cmd "-N" then (Ok tt, <[c := []]> w) else ipt_error w
      | Some rs =>
          if String.eqb cmd "-F" then (Ok tt, <[c := []]> w)
          else if String.eqb cmd "-A" then
            if known_target w rest then (Ok tt, <[c := rs ++ [rest]]> w) else ipt_error w
          else if String.eqb cmd "-I" then
            match rest with
            | [n; j; t] => if bool_decide (is_Some (w !! t)) then (Ok tt, <[c := [j; t] :: rs]> w) else ipt_error w
            | _ => ipt_error w
            end
          else ipt_error w
      end
  | _ => ipt_error w
  end.

(** The arguments of the chain's rules, each followed by a space. *)
Definition listing (rs : list (list string)) : string :=
  concat_strings (map (λ a, a +:+ " ") (concat rs)).

Definition ipt_output (args : list string) (w : Table) : res string * Table :=
  match args with
  | _ :: c :: _ =>
      match w !! c with Some rs => (Ok (listing rs), w) | None => (Err (ErrorString "exit status 1"), w) end
  | _ => (Err (ErrorString "exit status 1"), w)
  end.

#[local] Instance ipt_runner : CommandRunner Table := {|
  Run := λ _ _ args, ipt_run args;
  Output := λ _ _ args, ipt_output args;
|}.

Lemma listing_mentions rs t :
  all_bytes (λ a, negb (Ascii.eqb a " ")) t = true → t ≠ EmptyString →
  Contains (listing rs) t = existsb (mentions t) rs.
Proof.
  intros Ht Hne. unfold listing, mentions. induction rs as [|r rs IH]; [by destruct t|].
  cbn [existsb concat]. rewrite <-IH, map_app. clear IH.
  generalize (map (λ a, a +:+ " ") (concat rs)) as tail.
  intros tail. induction r as [|a r IH]; [done|].
  cbn [existsb map app]. rewrite concat_strings_cons, app_str_assoc, app_cons_str, app_nil_str.
  rewrite Contains_app_sep by done. by rewrite IH, orb_assoc.
Qed.

#[local] Program Instance ipt_table : Iptables Table := {| table := id |}.
Next Obligation. intros ctx c w. simpl. destruct (w !! c); [done|]. by simpl. Qed.
Next Obligation. intros ctx c w. simpl. by destruct (w !! c) eqn:E; simpl. Qed.
Next Obligation.
  intros ctx c args w _. simpl. destruct (w !! c) as [rs|] eqn:E; simpl; [|done].
  destruct (known_target w args); simpl; [|done]. by exists rs.
Qed.
Next Obligation.
  intros ctx c t w. simpl. destruct (w !! c) as [rs|] eqn:E; simpl; [|done].
  case_bool_decide; simpl; [|done]. by exists rs.
Qed.
Next Obligation. intros ctx c w. simpl. by destruct (w !! c). Qed.
Next Obligation.
  intros ctx c t w out rs. simpl. unfold id. intros Ho Hrs. rewrite Hrs in Ho. injection Ho as <-. intros Hj.
  unfold listing. apply Contains_spec.
  destruct (concat_strings_elem (t +:+ " ") (map (λ a, a +:+ " ") (concat rs))) as (p & r & ->).
  { apply (list_elem_of_fmap_2 (λ a, a +:+ " ")). apply list_elem_of_In, in_concat. exists ["-j"; t].
    rewrite <-!list_elem_of_In. split; [done|]. right. by left. }
  exists p, (" " +:+ r). by rewrite !app_str_assoc.
Qed.
Next Obligation.
  intros ctx w out. simpl. unfold id. destruct (w !! "DOCKER-USER") as [rs|]; simpl; [|done].
  intros [= <-]. rewrite listing_mentions by done. intros (rule & ? & ?)%existsb_True. by exists rs, rule.
Qed.
Next Obligation. intros ctx c w. simpl. unfold id. by destruct (w !! c). Qed.
End firewall.

(** ** Properties *)

Section Properties.
Context {W : Type} {CR : firewall.CommandRunner W} {IT : firewall.Iptables W}.

(** C18: A successful [ApplyRevision] makes the chain hold exactly the rules of
    the ruleset that have arguments, in order, whatever it held before.
    DOCKER-USER is created if need be and gets the jump to the chain in front
    of its rules, unless it already had a rule that mentions the chain's name,
    when it may also be left as it was; so it jumps to the chain afterwards if
    no rule but that jump mentioned the name.  No other chain is changed, which
    is so when it fails too. *)
Theorem ApplyRevision_installs (ctx : Context) (rs : firewall.Ruleset) (w : W)
    (Hp : firewall.plain (firewall.Rules rs)) :
  let q := firewall.ApplyRevision ctx rs w in
  let drs := default [] (firewall.table w !! "DOCKER-USER") in
  firewall.foreign (firewall.table q.2) = firewall.foreign (firewall.table w) ∧
  (q.1 = Ok tt →
   firewall.table q.2 !! firewall.chainName = Some (firewall.specs (firewall.Rules rs)) ∧
   ∃ drs', firewall.table q.2 !! "DOCKER-USER" = Some drs' ∧
     (drs' = ["-j"; "ROUTESTACK-FWD"] :: drs ∨
      drs' = drs ∧ ∃ rule, rule ∈ drs ∧ firewall.mentions "ROUTESTACK-FWD" rule = true) ∧
     ((∀ rule, rule ∈ drs → firewall.mentions "ROUTESTACK-FWD" rule = true → rule = ["-j"; "ROUTESTACK-FWD"]) →
      ["-j"; "ROUTESTACK-FWD"] ∈ drs')).
Proof.
  cbv zeta. unfold firewall.ApplyRevision. destruct (Z.ltb_spec (firewall.Revision rs) 0); [done|].
  unfold try_or at 1 3 5 7. pose proof (firewall.ensureChain_effect ctx w) as (Hf & _ & Hl).
  destruct (firewall.ensureChain ctx w) as [[[]|e] w1]; simpl in Hf, Hl; [|done].
  destruct (firewall.refill_effect ctx (firewall.Rules rs) w1 Hp) as [(e & _ & Hr & Ht)|(_ & k & Ht & Hr)]; [by rewrite Ht, Hr|].
  rewrite Ht. rewrite firewall.foreign_insert by (by left). split; [done|]. intros Hok. rewrite Hok in Hr.
  rewrite lookup_insert_eq, take_ge by done. split; [done|].
  rewrite lookup_insert_ne by done. destruct (Hl eq_refl) as [Hj|(Hk & rule & Hin & Hm)].
  - eexists. split; [exact Hj|]. split; [by left|]. intros _. by left.
  - eexists. split; [exact Hk|]. split; [right; split; [done|by exists rule]|].
    intros Hall. by rewrite <- (Hall rule Hin Hm).
Qed.

(** C19: Later revisions replace earlier ones: once DOCKER-USER jumps to the
    chain and can be listed, a successful [ApplyRevision] changes nothing but
    the chain's rules, and in particular adds no second jump. *)
Theorem ApplyRevision_replaces (ctx : Context) (rs : firewall.Ruleset) (w : W) (drs : list (list string))
    (Hp : firewall.plain (firewall.Rules rs))
    (Hdu : firewall.table w !! "DOCKER-USER" = Some drs) (Hj : firewall.jump ∈ drs)
    (Hl : is_ok (firewall.Output ctx "iptables" ["-L"; "DOCKER-USER"; "--line-numbers"; "-n"]
                   (firewall.Run ctx "iptables" ["-N"; firewall.chainName] w).2).1 = true)
    (Hok : (firewall.ApplyRevision ctx rs w).1 = Ok tt) :
  firewall.table (firewall.ApplyRevision ctx rs w).2 =
  <[firewall.chainName := firewall.specs (firewall.Rules rs)]> (firewall.table w).
Proof.
  unfold firewall.ApplyRevision in *. destruct (Z.ltb_spec (firewall.Revision rs) 0); [done|].
  unfold try_or at 1 in Hok. unfold try_or at 1.
  destruct (firewall.ensureChain_linked ctx w drs Hdu Hj Hl) as [He Hsame].
  destruct (firewall.ensureChain ctx w) as [r w1]; simpl in *; subst r.
  destruct (firewall.refill_effect ctx (firewall.Rules rs) w1 Hp) as [(e & _ & Hr & _)|(_ & k & Ht & Hr)]; [congruence|].
  rewrite Ht. rewrite Hok in Hr. by rewrite take_ge.
Qed.

(** C20: What a failed [ApplyRevision] leaves, by the step that failed.  A
    negative revision changes nothing.  When preparing or flushing the chain
    fails, its rules are the old ones, or none if the chain did not exist
    before.  After the flush the chain holds exactly the rules before the
    refused one, which the error names: the replacement is not atomic. *)
Theorem ApplyRevision_partial (ctx : Context) (rs : firewall.Ruleset) (w : W) (e : error)
    (Hp : firewall.plain (firewall.Rules rs))
    (Herr : (firewall.ApplyRevision ctx rs w).1 = Err e) :
  let t := firewall.table (firewall.ApplyRevision ctx rs w).2 in
  if (firewall.Revision rs <? 0)%Z
  then e = ErrorString "revision must be non-negative" ∧ t = firewall.table w
  else
    let '(prepared, w1) := firewall.ensureChain ctx w in
    let '(flushed, w2) := firewall.Run ctx "iptables" ["-F"; "ROUTESTACK-FWD"] w1 in
    match prepared, flushed with
    | Err e0, _ => e = e0 ∧ firewall.untouched (firewall.table w) t
    | Ok _, Err e0 => e = wrapf "flush ROUTESTACK-FWD: " e0 ∧ firewall.untouched (firewall.table w) t
    | Ok _, Ok _ =>
        ∃ k rule e0, firewall.Rules rs !! k = Some rule ∧ firewall.Args rule ≠ [] ∧
          t !! firewall.chainName = Some (firewall.specs (take k (firewall.Rules rs))) ∧
          e = wrapf ("apply rule " +:+ itoa (Z.of_nat k) +:+ " (" +:+ FmtSlice (firewall.Args rule) +:+ "): ") e0
    end.
Proof.
  cbv zeta. unfold firewall.ApplyRevision in *. destruct (Z.ltb_spec (firewall.Revision rs) 0); [by injection Herr as <-|].
  unfold try_or at 1 in Herr. unfold try_or at 1 3 5.
  pose proof (firewall.ensureChain_effect ctx w) as (_ & Hold & _).
  destruct (firewall.ensureChain ctx w) as [[[]|e1] w1]; simpl in Hold.
  2: { destruct (firewall.Run ctx _ _ w1) as [flushed w2]. by injection Herr as <-. }
  destruct (firewall.refill_effect ctx (firewall.Rules rs) w1 Hp) as [(e0 & HF & Hr & Ht)|(HF & k & Ht & Hr)];
    rewrite Ht; change "ROUTESTACK-FWD" with firewall.chainName;
    destruct (firewall.Run ctx "iptables" ["-F"; firewall.chainName] w1) as [flushed w2]; cbn [fst] in HF.
  - subst flushed. rewrite Hr in Herr. injection Herr as <-. by split.
  - destruct flushed as [u|]; [|done]. rewrite Herr in Hr. destruct Hr as (rule & e0 & ? & ? & ->).
    exists k, rule, e0. by rewrite lookup_insert_eq.
Qed.
End Properties.

(** *** The theorems at a concrete table *)

Definition sample_rules : firewall.Ruleset := firewall.mkRuleset 3
  [firewall.mkRule ["-p"; "tcp"; "--dport"; "443"; "-j"; "ACCEPT"]; firewall.mkRule [];
   firewall.mkRule ["-j"; "DROP"]].

(** A host with an older revision installed. *)
Definition sample_table : firewall.Table :=
  {["DOCKER-USER" := [["-j"; "ROUTESTACK-FWD"]; ["-j"; "RETURN"]];
    "ROUTESTACK-FWD" := [["-j"; "ACCEPT"]]; "INPUT" := [["-j"; "DROP"]]]}.

#[local] Existing Instance firewall.ipt_runner.
#[local] Existing Instance firewall.ipt_table.

Lemma plain_dec rules : forallb (λ r, firewall.plain_rule (firewall.Args r)) rules = true → firewall.plain rules.
Proof. rewrite forallb_True. by intros Hf r ?%Hf. Qed.

Lemma ApplyRevision_installs_witness :
  let q := firewall.ApplyRevision Background sample_rules ∅ in
  firewall.foreign q.2 = firewall.foreign ∅ ∧
  q.2 !! firewall.chainName = Some [["-p"; "tcp"; "--dport"; "443"; "-j"; "ACCEPT"]; ["-j"; "DROP"]] ∧
  ∃ drs', q.2 !! "DOCKER-USER" = Some drs' ∧
    (drs' = [["-j"; "ROUTESTACK-FWD"]] ∨
     drs' = [] ∧ ∃ rule, rule ∈ [] ∧ firewall.mentions "ROUTESTACK-FWD" rule = true) ∧
    ((∀ rule, rule ∈ [] → firewall.mentions "ROUTESTACK-FWD" rule = true → rule = ["-j"; "ROUTESTACK-FWD"]) →
     ["-j"; "ROUTESTACK-FWD"] ∈ drs').
Proof.
  destruct (ApplyRevision_installs (IT := firewall.ipt_table) Background sample_rules ∅) as [Hf Ht].
  - apply plain_dec. reflexivity.
  - split; [exact Hf|]. apply Ht. vm_compute. reflexivity.
Defined.

(** A rule of DOCKER-USER that merely mentions the name, in a comment or as
    part of another name, is taken for the jump: the revision is installed and
    no packet reaches it. *)
Example unlinked_by_a_mention :
  let old := [["-m"; "comment"; "--comment"; "before ROUTESTACK-FWD"; "-j"; "RETURN"]] in
  let q := firewall.ApplyRevision Background sample_rules {["DOCKER-USER" := old]} in
  q.1 = Ok tt ∧ q.2 !! "DOCKER-USER" = Some old.
Proof. vm_compute. split; reflexivity. Qed.

Lemma ApplyRevision_replaces_witness :
  (firewall.ApplyRevision Background sample_rules sample_table).2 =
  <[firewall.chainName := [["-p"; "tcp"; "--dport"; "443"; "-j"; "ACCEPT"]; ["-j"; "DROP"]]]> sample_table.
Proof.
  apply (ApplyRevision_replaces (IT := firewall.ipt_table) Background sample_rules sample_table
           [["-j"; "ROUTESTACK-FWD"]; ["-j"; "RETURN"]]).
  - apply plain_dec. reflexivity.
  - reflexivity.
  - by left.
  - vm_compute. reflexivity.
  - vm_compute. reflexivity.
Defined.

(** The second rule is refused: the old revision is gone, the new one is half
    installed. *)
Definition bad_rules : firewall.Ruleset := firewall.mkRuleset 4
  [firewall.mkRule ["-j"; "DROP"]; firewall.mkRule ["-j"; "NOWHERE"]].

Lemma ApplyRevision_partial_witness :
  let t := (firewall.ApplyRevision Background bad_rules sample_table).2 in
  t !! firewall.chainName = Some [["-j"; "DROP"]] ∧
  ∃ k rule e0, firewall.Rules bad_rules !! k = Some rule ∧ firewall.Args rule ≠ [] ∧
    t !! firewall.chainName = Some (firewall.specs (take k (firewall.Rules bad_rules))) ∧
    wrapf "apply rule 1 ([-j NOWHERE]): " (ErrorString "exit status 1")
    = wrapf ("apply rule " +:+ itoa (Z.of_nat k) +:+ " (" +:+ FmtSlice (firewall.Args rule) +:+ "): ") e0.
Proof.
  cbv zeta. split; [vm_compute; reflexivity|].
  apply (ApplyRevision_partial (IT := firewall.ipt_table) Background bad_rules sample_table).
  - apply plain_dec. reflexivity.
  - vm_compute. reflexivity.
Defined.

(** The rule of the source's own example, [-A ROUTESTACK-FWD ...], is passed
    after the manager's own [-A ROUTESTACK-FWD]. *)
Example example_rule_twice :
  firewall.add_rules (W := list (list string))
    (H := {| firewall.Run := λ _ _ args w, (Ok tt, w ++ [args]); firewall.Output := λ _ _ _ w, (Ok "", w) |})
    Background 0 [firewall.mkRule ["-A"; "ROUTESTACK-FWD"; "-j"; "ACCEPT"]] []
  = (Ok tt, [["-A"; "ROUTESTACK-FWD"; "-A"; "ROUTESTACK-FWD"; "-j"; "ACCEPT"]]).
Proof. reflexivity. Qed.
