(* ===== verification/Certs.v ===== *)
(** * Certs: internal/certs/manager.go.

    Requests become certbot command lines; certbot runs through the interface
    [certs.commandRunner]. *)

From Stdlib Require Import Ascii NArith ZArith.
From S2P Require Import Prelude GoStrings GoFmt GoPath GoError Json Http.

Module certs.

Definition ActionIssue : string := "issue".
Definition ActionRenew : string := "renew".
Definition ActionRevoke : string := "revoke".
Definition MethodStandalone : string := "standalone".
Definition MethodWebroot : string := "webroot".
Definition defaultCertbotPath : string := "certbot".
Definition letsencryptLiveDir : string := "/etc/letsencrypt/live".

Record Request : Type := mkCertRequest {
  Domain : string;
  Domains : list string;
  Action : string;
  Method : string;
  Email : string;
  WebrootPath : string;
  Staging : bool;
  ForceRenewal : bool;
  RevokeReason : string;
}.

Definition zero_Request : Request := mkCertRequest "" [] "" "" "" "" false false "".

Definition dec_Request : decoder Request := dec_struct "Request" "certs.Request"
  [ mk_field "domain" dec_string Domain (λ v r, mkCertRequest v (Domains r) (Action r) (Method r)
      (Email r) (WebrootPath r) (Staging r) (ForceRenewal r) (RevokeReason r));
    mk_field "domains" (dec_slice "[]string" "" dec_string) Domains (λ v r, mkCertRequest (Domain r) v
      (Action r) (Method r) (Email r) (WebrootPath r) (Staging r) (ForceRenewal r) (RevokeReason r));
    mk_field "action" dec_string Action (λ v r, mkCertRequest (Domain r) (Domains r) v (Method r)
      (Email r) (WebrootPath r) (Staging r) (ForceRenewal r) (RevokeReason r));
    mk_field "method" dec_string Method (λ v r, mkCertRequest (Domain r) (Domains r) (Action r) v
      (Email r) (WebrootPath r) (Staging r) (ForceRenewal r) (RevokeReason r));
    mk_field "email" dec_string Email (λ v r, mkCertRequest (Domain r) (Domains r) (Action r) (Method r)
      v (WebrootPath r) (Staging r) (ForceRenewal r) (RevokeReason r));
    mk_field "webroot_path" dec_string WebrootPath (λ v r, mkCertRequest (Domain r) (Domains r) (Action r)
      (Method r) (Email r) v (Staging r) (ForceRenewal r) (RevokeReason r));
    mk_field "staging" dec_bool Staging (λ v r, mkCertRequest (Domain r) (Domains r) (Action r) (Method r)
      (Email r) (WebrootPath r) v (ForceRenewal r) (RevokeReason r));
    mk_field "force_renewal" dec_bool ForceRenewal (λ v r, mkCertRequest (Domain r) (Domains r) (Action r)
      (Method r) (Email r) (WebrootPath r) (Staging r) v (RevokeReason r));
    mk_field "revoke_reason" dec_string RevokeReason (λ v r, mkCertRequest (Domain r) (Domains r) (Action r)
      (Method r) (Email r) (WebrootPath r) (Staging r) (ForceRenewal r) v) ].

Record Report : Type := mkCertReport {
  RAction : string;
  RDomain : string;
  RDomains : list string;
  RMethod : string;
  RStaging : bool;
  CertificateDir : string;
  FullchainPath : string;
  PrivateKeyPath : string;
  ReportOutput : string;
}.

(** [json.Marshal] of a report. *)
Definition enc_Report (r : Report) : json := JObj (
  member "action" (enc_string (RAction r)) ++
  member "domain" (enc_string (RDomain r)) ++
  omit (is_nil (RDomains r)) "domains" (enc_strings (RDomains r)) ++
  omit (String.eqb (RMethod r) "") "method" (enc_string (RMethod r)) ++
  omit (negb (RStaging r)) "staging" (JBool (RStaging r)) ++
  omit (String.eqb (CertificateDir r) "") "certificate_dir" (enc_string (CertificateDir r)) ++
  omit (String.eqb (FullchainPath r) "") "fullchain_path" (enc_string (FullchainPath r)) ++
  omit (String.eqb (PrivateKeyPath r) "") "private_key_path" (enc_string (PrivateKeyPath r)) ++
  omit (String.eqb (ReportOutput r) "") "output" (enc_string (ReportOutput r))).

(** [report.Method = method] and [report.Output = out]. *)
Definition with_method (m : string) (r : Report) : Report :=
  mkCertReport (RAction r) (RDomain r) (RDomains r) m (RStaging r) (CertificateDir r)
    (FullchainPath r) (PrivateKeyPath r) (ReportOutput r).
Definition with_output (out : string) (r : Report) : Report :=
  mkCertReport (RAction r) (RDomain r) (RDomains r) (RMethod r) (RStaging r) (CertificateDir r)
    (FullchainPath r) (PrivateKeyPath r) out.

Definition validRevokeReason (reason : string) : bool :=
  bool_decide (reason ∈ ["keycompromise"; "affiliationchanged"; "superseded"; "cessationofoperation"]).

Section Manager.
Context `{UnicodeTables}.

Definition label_char (c : ascii) : bool :=
  in_range 97 122 c || in_range 48 57 c || Ascii.eqb c "-".

(** The loop over the bytes of a label. *)
Fixpoint check_chars (label s : string) : res unit :=
  match s with
  | EmptyString => Ok tt
  | String c s' =>
      if label_char c then check_chars label s'
      else Err (ErrorString ("label " +:+ Quote label +:+ " contains invalid character " +:+ QuoteByte c))
  end.

Fixpoint check_labels (labels : list string) : res unit :=
  match labels with
  | [] => Ok tt
  | label :: rest =>
      if String.eqb label "" then Err (ErrorString "contains an empty label")
      else if (63 <? String.length label)%nat then Err (ErrorString ("label " +:+ Quote label +:+ " is too long"))
      else if HasPrefix label "-" || HasSuffix label "-"
      then Err (ErrorString ("label " +:+ Quote label +:+ " starts or ends with hyphen"))
      else _ <-? check_chars label label orelse id ;; check_labels rest
  end.

Definition normalizeDomain (raw : string) : res string :=
  let domain := ToLower (TrimSuffix (TrimSpace raw) ".") in
  if String.eqb domain "" then Err (ErrorString "is required")
  else if (253 <? String.length domain)%nat then Err (ErrorString "is too long")
  else
    let labels := Split domain "." in
    if (length labels <? 2)%nat then Err (ErrorString "must be a fully qualified domain name")
    else _ <-? check_labels labels orelse id ;; Ok domain.

(** The loop over the extra names, with the names found so far. *)
Fixpoint add_domains (domains : list string) (extra : list string) : res (list string) :=
  match extra with
  | [] => Ok domains
  | raw :: rest =>
      domain <-? normalizeDomain raw orelse wrapf "domains: " ;;
      if bool_decide (domain ∈ domains) then add_domains domains rest
      else add_domains (domains ++ [domain]) rest
  end.

Definition normalizeDomains (primary : string) (extra : list string) : res (list string) :=
  add_domains [primary] extra.

(** The arguments and the method. *)
Definition challengeArgs (method webrootPath : string) : res (list string * string) :=
  let method := if String.eqb method "" then MethodStandalone else method in
  if String.eqb method MethodStandalone then
    if negb (String.eqb webrootPath "")
    then Err (ErrorString ("webroot_path requires method " +:+ Quote MethodWebroot))
    else Ok (["--standalone"], method)
  else if String.eqb method MethodWebroot then
    if String.eqb webrootPath "" then Err (ErrorString "webroot_path is required for webroot challenge")
    else if negb (IsAbs webrootPath) then Err (ErrorString "webroot_path must be absolute")
    else Ok (["--webroot"; "--webroot-path"; webrootPath], method)
  else Err (ErrorString ("unsupported certificate method " +:+ Quote method)).

Definition flag (b : bool) (name : string) : list string := if b then [name] else [].

Definition issueArgs (req : Request) (domain : string) (domains : list string) : res (list string * string) :=
  if String.eqb (TrimSpace (Email req)) ""
  then Err (ErrorString "email is required for certificate issuance") else
  let args := ["certonly"; "--non-interactive"; "--agree-tos"; "--cert-name"; domain; "--email";
               TrimSpace (Email req)] in
  ma <-? challengeArgs (Method req) (WebrootPath req) orelse id ;;
  let args := args ++ ma.1 ++ flag (Staging req) "--test-cert" ++ flag (ForceRenewal req) "--force-renewal" in
  Ok (args ++ concat (map (λ d, ["-d"; d]) domains), ma.2).

Definition renewArgs (req : Request) (domain : string) : res (list string) :=
  let args := ["renew"; "--non-interactive"; "--cert-name"; domain] in
  let flags := flag (Staging req) "--test-cert" ++ flag (ForceRenewal req) "--force-renewal" in
  if String.eqb (WebrootPath req) "" then Ok (args ++ flags)
  else if negb (IsAbs (WebrootPath req)) then Err (ErrorString "webroot_path must be absolute")
  else Ok (args ++ ["--webroot-path"; WebrootPath req] ++ flags).

Definition revokeArgs (req : Request) (domain : string) : res (list string) :=
  let args := ["revoke"; "--non-interactive"; "--cert-name"; domain; "--delete-after-revoke"] in
  if String.eqb (RevokeReason req) "" then Ok args
  else if negb (validRevokeReason (RevokeReason req))
  then Err (ErrorString ("unsupported revoke_reason " +:+ Quote (RevokeReason req)))
  else Ok (args ++ ["--reason"; RevokeReason req]).

Definition buildCertbotCommand (req : Request) : res (list string * Report) :=
  domain <-? normalizeDomain (Domain req) orelse wrapf "domain: " ;;
  domains <-? normalizeDomains domain (Domains req) orelse id ;;
  let report := mkCertReport (Action req) domain domains "" (Staging req)
    (Join [letsencryptLiveDir; domain]) (Join [letsencryptLiveDir; domain; "fullchain.pem"])
    (Join [letsencryptLiveDir; domain; "privkey.pem"]) "" in
  if String.eqb (Action req) ActionIssue then
    am <-? issueArgs req domain domains orelse id ;; Ok (am.1, with_method am.2 report)
  else if String.eqb (Action req) ActionRenew then
    args <-? renewArgs req domain orelse id ;; Ok (args, report)
  else if String.eqb (Action req) ActionRevoke then
    args <-? revokeArgs req domain orelse id ;; Ok (args, report)
  else Err (ErrorString ("unsupported certificate action " +:+ Quote (Action req))).
End Manager.

(** The output and the error of a command. *)
Class commandRunner (W : Type) := {
  Run : Context → string → list string → M W (string * option error);
}.

(** [exec.CommandContext(...).CombinedOutput], and the default runner on it. *)
Class OsExec (W : Type) := { CombinedOutput : Context → string → list string → M W (string * option error) }.

Definition execRunner {W} `{OsExec W} : commandRunner W := {|
  Run := λ ctx name args,
    r ← CombinedOutput ctx name args;
    mret (TrimSpace r.1, r.2)
|}.

(** [NewManagerWithBinary] chooses the binary; [Manager.certbotPath]. *)
Definition binary (path : string) : string := if String.eqb path "" then defaultCertbotPath else path.

Definition Manage {W} `{UnicodeTables} `{commandRunner W} (certbotPath : string) (ctx : Context)
    (req : Request) : M W (option Report * option error) :=
  match buildCertbotCommand req with
  | Err err => mret (None, Some err)
  | Ok (args, report) =>
      r ← Run ctx certbotPath args;
      let report := with_output r.1 report in
      mret (Some report,
        match r.2 with
        | None => None
        | Some err =>
            Some (if negb (String.eqb r.1 "")
                  then WrapError ("certbot " +:+ Action req +:+ " failed: ") err (": " +:+ r.1)
                  else wrapf ("certbot " +:+ Action req +:+ " failed: ") err)
        end)
  end.

(** ** Names *)

Definition valid_label (l : string) : bool :=
  negb (String.eqb l "") && (String.length l <=? 63)%nat && negb (HasPrefix l "-") && negb (HasSuffix l "-")
  && all_bytes label_char l.

(** A fully qualified name in lower case, without a final dot. *)
Definition valid_domain (d : string) : bool :=
  (String.length d <=? 253)%nat && (2 <=? length (Split d "."))%nat && forallb valid_label (Split d ".").

Section Lemmas.
Context `{UnicodeTables}.

Lemma check_chars_ok label s : check_chars label s = Ok tt ↔ all_bytes label_char s = true.
Proof. induction s as [|c s IH]; cbn [check_chars all_bytes]; [done|]. by destruct (label_char c). Qed.

Lemma check_labels_ok ls : check_labels ls = Ok tt ↔ forallb valid_label ls = true.
Proof.
  induction ls as [|l ls IH]; [done|]. cbn [check_labels forallb]. unfold valid_label.
  destruct (String.eqb_spec l ""); [done|]. rewrite Nat.leb_antisym.
  destruct (63 <? String.length l)%nat; simpl; [done|].
  destruct (HasPrefix l "-"); simpl; [done|]. destruct (HasSuffix l "-"); simpl; [done|].
  pose proof (check_chars_ok l l) as Hc. unfold rtry.
  destruct (check_chars l l) as [[]|e]; destruct (all_bytes label_char l); simpl; try naive_solver.
Qed.

Lemma normalizeDomain_iff raw d :
  normalizeDomain raw = Ok d ↔ d = ToLower (TrimSuffix (TrimSpace raw) ".") ∧ valid_domain d = true.
Proof.
  unfold normalizeDomain. cbv zeta. set (x := ToLower _). unfold valid_domain.
  rewrite !andb_true_iff, !Nat.leb_le, <-check_labels_ok.
  destruct (String.eqb_spec x "") as [Hx|]; [split; [done|]; intros (-> & (_ & Hl) & _); rewrite Hx in Hl; simpl in Hl; lia|].
  destruct (Nat.ltb_spec 253 (String.length x)); [split; [done|]; intros (-> & ? & _); lia|].
  destruct (Nat.ltb_spec (length (Split x ".")) 2); [split; [done|]; intros (-> & ? & _); lia|].
  unfold rtry. destruct (check_labels (Split x ".")) as [[]|e] eqn:E.
  - split; [intros [= <-]; by rewrite E|]. by intros [-> _].
  - split; [done|]. intros (-> & _ & Hl). congruence.
Qed.

Definition domain_char (a : ascii) : bool := label_char a || Ascii.eqb a ".".

Lemma valid_domain_chars d : valid_domain d = true → all_bytes domain_char d = true.
Proof.
  unfold valid_domain. rewrite !andb_true_iff. intros [_ Hl]. apply all_bytes_Split.
  rewrite forallb_True in *. intros l Hin%Hl. unfold valid_label in Hin. rewrite !andb_true_iff in Hin. tauto.
Qed.

Lemma domain_char_plain a :
  domain_char a = true →
  is_ascii a && negb (in_range 65 90 a) && negb (IsSpace (byte a)) && negb (Ascii.eqb a "/") = true.
Proof.
  revert a. enough (∀ a, implb (domain_char a) (is_ascii a && negb (in_range 65 90 a) && negb (IsSpace (byte a))
    && negb (Ascii.eqb a "/")) = true) as Hall.
  { intros a Ha. specialize (Hall a). by rewrite Ha in Hall. }
  apply ascii_all. vm_compute. reflexivity.
Qed.

Lemma valid_domain_label d l : valid_domain d = true → l ∈ Split d "." → valid_label l = true.
Proof. unfold valid_domain. rewrite !andb_true_iff, forallb_True. intros [_ Hl]. apply Hl. Qed.

(** A valid name is its own normal form. *)
Lemma valid_domain_normal d : valid_domain d = true → ToLower (TrimSuffix (TrimSpace d) ".") = d.
Proof.
  intros Hd. pose proof (valid_domain_chars d Hd) as Hc.
  assert (∀ a, a ∈ bytes_of d → IsSpace (byte a) = false) as Hsp.
  { intros a Ha. rewrite all_bytes_spec in Hc. apply Hc, domain_char_plain in Ha.
    rewrite !andb_true_iff, !negb_true_iff in Ha. tauto. }
  rewrite TrimSpace_ascii_id.
  - replace (TrimSuffix d ".") with d.
    + apply ToLower_id. revert Hc. apply all_bytes_impl. intros a Ha%domain_char_plain.
      rewrite !andb_true_iff in *. tauto.
    + unfold TrimSuffix. destruct (HasSuffix d ".") eqn:E; [|done].
      apply HasSuffix_spec in E as [p ->]. assert ("" ∈ Split (p +:+ ".") ".") as Hin.
      { rewrite Split_last. apply elem_of_app. right. by left. }
      apply (valid_domain_label _ _ Hd) in Hin. done.
  - revert Hc. apply all_bytes_impl. intros a Ha%domain_char_plain. rewrite !andb_true_iff in Ha. tauto.
  - split; intros a Ha; apply Hsp; [by apply head_Some_elem_of|by apply last_Some_elem_of].
Qed.


(** A valid name is never taken for an option. *)
Lemma valid_domain_no_option d : valid_domain d = true → HasPrefix d "-" = false.
Proof.
  intros Hd. pose proof (valid_domain_label d) as Hl. destruct (Split d ".") as [|l ls] eqn:E;
    [by destruct (Split_ne d ".")|].
  specialize (Hl l Hd ltac:(by left)). destruct d as [|a d]; [done|].
  cbn [Split HasPrefix] in *. destruct (Ascii.eqb_spec "-" a) as [<-|]; [|done]. exfalso.
  change (Ascii.eqb "-" ".") with false in E. cbn iota in E.
  assert (∃ w, l = String "-" w) as [w ->] by (destruct (Split d "."); simplify_eq; eauto).
  unfold valid_label in Hl. rewrite !andb_true_iff in Hl. destruct Hl as [[[_ Hp] _] _].
  by rewrite (HasPrefix_app "-" w : HasPrefix (String "-" w) "-" = true) in Hp.
Qed.

Lemma add_domains_ok extra ds ds' :
  add_domains ds extra = Ok ds' → NoDup ds → forallb valid_domain ds = true →
  NoDup ds' ∧ forallb valid_domain ds' = true ∧ (∃ more, ds' = ds ++ more) ∧
  ∀ d, d ∈ ds' ↔ d ∈ ds ∨ ∃ raw, raw ∈ extra ∧ normalizeDomain raw = Ok d.
Proof.
  revert ds. induction extra as [|raw extra IH]; intros ds; cbn [add_domains].
  { intros [= <-] Hnd Hv. split_and!; try done; [by exists []; rewrite app_nil_r|].
    intros d. split; [tauto|]. intros [?|(raw & Hin & _)]; [done|]. by apply elem_of_nil in Hin. }
  unfold rtry. destruct (normalizeDomain raw) as [d|e] eqn:En; [|done].
  case_bool_decide as Hin; intros Hok Hnd Hv.
  - destruct (IH ds Hok Hnd Hv) as (? & ? & ? & Hmem). split_and!; try done.
    intros d'. rewrite Hmem, exists_cons, En. split; [tauto|]. intros [?|[[= <-]|?]]; tauto.
  - destruct (IH (ds ++ [d]) Hok) as (? & ? & (more & ->) & Hmem).
    + apply NoDup_app. split_and!; [done| |apply NoDup_singleton].
      intros x ? ->%list_elem_of_singleton. done.
    + rewrite forallb_app. simpl. rewrite Hv. apply normalizeDomain_iff in En as [_ ->]. done.
    + split_and!; try done; [exists (d :: more); by rewrite <-app_assoc|].
      intros d'. rewrite Hmem, elem_of_app, list_elem_of_singleton, exists_cons, En.
      split; [intros [[?| ->]|?]; tauto|]. intros [?|[[= <-]|?]]; tauto.
Qed.


(** ** Command lines *)

(** An argument that cannot be taken for an option other than the ones the
    code writes. *)
Definition certbot_options : list string :=
  ["--non-interactive"; "--agree-tos"; "--cert-name"; "--email"; "--standalone"; "--webroot"; "--webroot-path";
   "--test-cert"; "--force-renewal"; "-d"; "--delete-after-revoke"; "--reason"].

Definition harmless (a : string) : bool := negb (HasPrefix a "-") || bool_decide (a ∈ certbot_options).

Lemma harmless_domain d : valid_domain d = true → harmless d = true.
Proof. intros Hd. unfold harmless. by rewrite valid_domain_no_option. Qed.

Lemma harmless_abs p : IsAbs p = true → harmless p = true.
Proof.
  unfold IsAbs, harmless. intros (r & ->)%HasPrefix_spec. rewrite app_cons_str.
  cbn [HasPrefix]. by change (Ascii.eqb "-" "/") with false.
Qed.

Lemma harmless_flag b name : harmless name = true → forallb harmless (flag b name) = true.
Proof. destruct b; cbn [flag forallb]; [|done]. by intros ->. Qed.

Lemma challengeArgs_harmless m w ma : challengeArgs m w = Ok ma → forallb harmless ma.1 = true.
Proof.
  unfold challengeArgs. intros Hc. split_in Hc; cbn [forallb fst]; try done.
  rewrite (harmless_abs w); [done|]. by apply negb_false_iff.
Qed.

Lemma harmless_names ds : forallb valid_domain ds = true → forallb harmless (concat (map (λ d, ["-d"; d]) ds)) = true.
Proof.
  induction ds as [|d ds IH]; cbn [forallb map concat app]; [done|]. intros [Hd Hds]%andb_true_iff.
  by rewrite (harmless_domain d), IH.
Qed.

Lemma issueArgs_ok req domain domains args method :
  issueArgs req domain domains = Ok (args, method) ↔
  ∃ challenge, blank (Email req) = false ∧ challengeArgs (Method req) (WebrootPath req) = Ok (challenge, method) ∧
    args = ["certonly"; "--non-interactive"; "--agree-tos"; "--cert-name"; domain; "--email"; TrimSpace (Email req)]
      ++ challenge ++ flag (Staging req) "--test-cert" ++ flag (ForceRenewal req) "--force-renewal"
      ++ concat (map (λ d, ["-d"; d]) domains).
Proof.
  unfold issueArgs, rtry. rewrite TrimSpace_blank. destruct (blank (Email req)); [naive_solver|].
  destruct (challengeArgs _ _) as [[ch m]|e]; [|naive_solver]. cbn [fst snd].
  rewrite <-!app_assoc. naive_solver.
Qed.

Lemma renewArgs_harmless req d args :
  valid_domain d = true → renewArgs req d = Ok args → forallb harmless args = true.
Proof.
  intros Hd. unfold renewArgs. intros Hr. split_in Hr; rewrite !forallb_app, !harmless_flag by done;
    cbn [forallb]; rewrite (harmless_domain d) by done; [done|].
  rewrite (harmless_abs (WebrootPath req)); [done|]. by apply negb_false_iff.
Qed.

Lemma revokeArgs_harmless req d args :
  valid_domain d = true → revokeArgs req d = Ok args → forallb harmless args = true.
Proof.
  intros Hd. unfold revokeArgs. intros Hr. split_in Hr; rewrite ?forallb_app;
    cbn [forallb]; rewrite (harmless_domain d) by done; [done|].
  match goal with Hv : negb (validRevokeReason ?r) = false |- _ =>
    apply negb_false_iff, bool_decide_eq_true in Hv; set_unfold in Hv; destruct_or! Hv; rewrite Hv; done end.
Qed.

(** What every accepted request shares. *)
Lemma buildCertbotCommand_common req args rep :
  buildCertbotCommand req = Ok (args, rep) →
  normalizeDomain (Domain req) = Ok (RDomain rep) ∧
  normalizeDomains (RDomain rep) (Domains req) = Ok (RDomains rep) ∧
  CertificateDir rep = Join [letsencryptLiveDir; RDomain rep] ∧
  FullchainPath rep = Join [letsencryptLiveDir; RDomain rep; "fullchain.pem"] ∧
  PrivateKeyPath rep = Join [letsencryptLiveDir; RDomain rep; "privkey.pem"] ∧
  ((Action req = ActionIssue ∧ issueArgs req (RDomain rep) (RDomains rep) = Ok (args, RMethod rep)) ∨
   (Action req = ActionRenew ∧ renewArgs req (RDomain rep) = Ok args) ∨
   (Action req = ActionRevoke ∧ revokeArgs req (RDomain rep) = Ok args)).
Proof.
  unfold buildCertbotCommand, rtry. intros Hb.
  destruct (normalizeDomain (Domain req)) as [d|e] eqn:Ed; [|done].
  destruct (normalizeDomains d (Domains req)) as [ds|e] eqn:Eds; [|done].
  destruct (String.eqb_spec (Action req) ActionIssue).
  { destruct (issueArgs req d ds) as [[a m]|e'] eqn:Ei; simplify_eq/=. split_and!; try done. by left. }
  destruct (String.eqb_spec (Action req) ActionRenew).
  { destruct (renewArgs req d) as [a|e'] eqn:Ei; simplify_eq/=. split_and!; try done. by right; left. }
  destruct (String.eqb_spec (Action req) ActionRevoke); [|done].
  destruct (revokeArgs req d) as [a|e'] eqn:Ei; simplify_eq/=. split_and!; try done. by right; right.
Qed.

Lemma add_domains_accepts extra ds :
  is_ok (add_domains ds extra) = true ↔ ∀ raw, raw ∈ extra → is_ok (normalizeDomain raw) = true.
Proof.
  revert ds. induction extra as [|raw extra IH]; intros ds; cbn [add_domains].
  { split; [|done]. intros _ raw Hin. by apply elem_of_nil in Hin. }
  setoid_rewrite elem_of_cons. unfold rtry. destruct (normalizeDomain raw) as [d|e] eqn:En.
  - case_bool_decide; rewrite IH; split; intros Hr raw'; [intros [->|]; [by rewrite En|auto]|auto| |auto];
      intros [->|]; [by rewrite En|auto].
  - split; [done|]. intros Hr. specialize (Hr raw (or_introl eq_refl)). by rewrite En in Hr.
Qed.

(** The webroot goes with the webroot method, and is absolute. *)
Definition challenge_ok (method webroot : string) : Prop :=
  ((method = "" ∨ method = "standalone") ∧ webroot = "") ∨ (method = "webroot" ∧ IsAbs webroot = true).

Lemma challengeArgs_accepts m w : is_ok (challengeArgs m w) = true ↔ challenge_ok m w.
Proof.
  unfold challengeArgs, challenge_ok.
  destruct (String.eqb_spec m "") as [->|Hm].
  { change (String.eqb MethodStandalone MethodStandalone) with true. cbn iota zeta.
    destruct (String.eqb_spec w ""); simpl; naive_solver. }
  cbn zeta. destruct (String.eqb_spec m MethodStandalone) as [->|Hs].
  { destruct (String.eqb_spec w ""); simpl; naive_solver. }
  destruct (String.eqb_spec m MethodWebroot) as [->|Hw]; [|simpl; naive_solver].
  destruct (String.eqb_spec w "") as [->|]; [simpl; naive_solver|].
  destruct (IsAbs w); simpl; naive_solver.
Qed.

Lemma renewArgs_accepts req d :
  is_ok (renewArgs req d) = true ↔ WebrootPath req = "" ∨ IsAbs (WebrootPath req) = true.
Proof.
  unfold renewArgs. destruct (String.eqb_spec (WebrootPath req) ""); [simpl; tauto|].
  destruct (IsAbs (WebrootPath req)); simpl; naive_solver.
Qed.

Lemma revokeArgs_accepts req d :
  is_ok (revokeArgs req d) = true ↔ RevokeReason req = "" ∨ validRevokeReason (RevokeReason req) = true.
Proof.
  unfold revokeArgs. destruct (String.eqb_spec (RevokeReason req) ""); [simpl; tauto|].
  destruct (validRevokeReason (RevokeReason req)); simpl; naive_solver.
Qed.

Lemma issueArgs_accepts req d ds :
  is_ok (issueArgs req d ds) = true ↔
  blank (Email req) = false ∧ challenge_ok (Method req) (WebrootPath req).
Proof.
  unfold issueArgs, rtry. rewrite TrimSpace_blank, <-challengeArgs_accepts.
  destruct (blank (Email req)); [naive_solver|]. destruct (challengeArgs _ _); simpl; naive_solver.
Qed.

Lemma is_ok_rtry {A B} (c : res A) h (k : A → res B) :
  is_ok (rtry c h k) = true ↔ ∃ a, c = Ok a ∧ is_ok (k a) = true.
Proof. destruct c; simpl; naive_solver. Qed.

Lemma buildCertbotCommand_accepts req :
  is_ok (buildCertbotCommand req) = true ↔
  is_ok (normalizeDomain (Domain req)) = true ∧
  (∀ raw, raw ∈ Domains req → is_ok (normalizeDomain raw) = true) ∧
  ((Action req = "issue" ∧ blank (Email req) = false ∧ challenge_ok (Method req) (WebrootPath req)) ∨
   (Action req = "renew" ∧ (WebrootPath req = "" ∨ IsAbs (WebrootPath req) = true)) ∨
   (Action req = "revoke" ∧ (RevokeReason req = "" ∨ validRevokeReason (RevokeReason req) = true))).
Proof.
  unfold buildCertbotCommand. destruct (normalizeDomain (Domain req)) as [d|e]; cbn [rtry is_ok]; [|naive_solver].
  rewrite <-(add_domains_accepts (Domains req) [d]). fold (normalizeDomains d (Domains req)).
  destruct (normalizeDomains d (Domains req)) as [ds|e]; cbn [rtry is_ok]; [|naive_solver].
  rewrite <-(issueArgs_accepts req d ds), <-(renewArgs_accepts req d), <-(revokeArgs_accepts req d).
  destruct (String.eqb_spec (Action req) ActionIssue) as [->|].
  { destruct (issueArgs req d ds); simpl; naive_solver. }
  destruct (String.eqb_spec (Action req) ActionRenew) as [->|].
  { destruct (renewArgs req d); simpl; naive_solver. }
  destruct (String.eqb_spec (Action req) ActionRevoke) as [->|]; [|naive_solver].
  destruct (revokeArgs req d); simpl; naive_solver.
Qed.


Lemma normalizeDomains_ok d extra ds :
  normalizeDomains d extra = Ok ds → valid_domain d = true →
  NoDup ds ∧ forallb valid_domain ds = true ∧ head ds = Some d ∧
  ∀ x, x ∈ ds ↔ x = d ∨ ∃ raw, raw ∈ extra ∧ normalizeDomain raw = Ok x.
Proof.
  unfold normalizeDomains. intros Hok Hd.
  destruct (add_domains_ok extra [d] ds Hok) as (? & ? & (more & ->) & Hmem).
  - apply NoDup_singleton.
  - cbn [forallb]. by rewrite Hd.
  - split_and!; try done. intros x. by rewrite Hmem, list_elem_of_singleton.
Qed.
End Lemmas.
End certs.

(** ** Properties *)

Section Properties.
Context `{UnicodeTables}.

(** C21: A domain is accepted exactly when, trimmed, without a final dot and in
    lower case, it is a fully qualified host name (at most 253 bytes, at least
    two labels, each of 1 to 63 letters, digits and inner hyphens), and that
    form is the result.  The results are exactly the fixed points, so
    normalising is idempotent. *)
Theorem normalizeDomain_correct :
  (∀ raw d, certs.normalizeDomain raw = Ok d ↔
            d = ToLower (TrimSuffix (TrimSpace raw) ".") ∧ certs.valid_domain d = true) ∧
  (∀ d, certs.normalizeDomain d = Ok d ↔ certs.valid_domain d = true) ∧
  (∀ raw d, certs.normalizeDomain raw = Ok d → certs.normalizeDomain d = Ok d).
Proof.
  split_and!.
  - apply certs.normalizeDomain_iff.
  - intros d. rewrite certs.normalizeDomain_iff. split; [tauto|]. intros Hd.
    by rewrite certs.valid_domain_normal.
  - intros raw d [_ Hd]%certs.normalizeDomain_iff. apply certs.normalizeDomain_iff.
    by rewrite certs.valid_domain_normal.
Qed.


(** C22: But for the e-mail address no value of a request becomes a certbot
    option: every argument that starts with a hyphen is one of the options the
    agent writes itself, except the e-mail address of an [issue], which is
    given as it is, after trimming, directly behind its option. *)
Theorem certbot_no_option_injection (req : certs.Request) (args : list string) (rep : certs.Report)
    (Hok : certs.buildCertbotCommand req = Ok (args, rep)) :
  ∀ i a, args !! i = Some a → HasPrefix a "-" = true →
         a ∈ certs.certbot_options ∨
         (certs.Action req = "issue" ∧ i = 6 ∧ args !! 5 = Some "--email" ∧ a = TrimSpace (certs.Email req)).
Proof.
  intros i a Hi Ha. apply certs.buildCertbotCommand_common in Hok as (Hd & Hds & _ & _ & _ & Hargs).
  apply certs.normalizeDomain_iff in Hd as [_ Hd].
  apply certs.normalizeDomains_ok in Hds as (_ & Hds & _); [|done].
  assert (∀ l, forallb certs.harmless l = true → a ∈ l → a ∈ certs.certbot_options) as Hin.
  { intros l Hl Hal. rewrite forallb_True in Hl. apply Hl in Hal. unfold certs.harmless in Hal.
    rewrite Ha in Hal. by apply bool_decide_eq_true in Hal. }
  destruct Hargs as [[Hact Hargs]|[[_ Hargs]|[_ Hargs]]].
  - apply certs.issueArgs_ok in Hargs as (ch & _ & Hch & ->).
    apply certs.challengeArgs_harmless in Hch. simpl in Hch.
    assert (forallb certs.harmless (ch ++ certs.flag (certs.Staging req) "--test-cert"
      ++ certs.flag (certs.ForceRenewal req) "--force-renewal"
      ++ concat (map (λ d, ["-d"; d]) (certs.RDomains rep))) = true) as Htail.
    { by rewrite !forallb_app, Hch, !certs.harmless_flag, certs.harmless_names. }
    do 6 (destruct i as [|i]; [left; apply (Hin [a]); [|by left]; cbn [app lookup list_lookup] in Hi;
      injection Hi as <-; cbn [forallb]; rewrite ?certs.harmless_domain by done; done|]).
    destruct i as [|i]; [right; injection Hi as <-; by split_and!|].
    left. apply (Hin _ Htail). apply list_elem_of_lookup_2 with i. exact Hi.
  - left. eapply Hin; [by eapply certs.renewArgs_harmless|]. by eapply list_elem_of_lookup_2.
  - left. eapply Hin; [by eapply certs.revokeArgs_harmless|]. by eapply list_elem_of_lookup_2.
Qed.

(** C24: Which requests reach certbot: those whose domain and extra domains are
    all acceptable and whose action is known, with an e-mail and a matching
    challenge for [issue], an absolute webroot if any for [renew], and a known
    reason if any for [revoke]; every other request is answered with an error
    before any command is run. *)
Theorem Manage_runs_certbot_iff {W} `{certs.commandRunner W} (path : string) (ctx : Context)
    (req : certs.Request) (w : W) :
  let accepted :=
    is_ok (certs.normalizeDomain (certs.Domain req)) = true ∧
    (∀ raw, raw ∈ certs.Domains req → is_ok (certs.normalizeDomain raw) = true) ∧
    ((certs.Action req = "issue" ∧ blank (certs.Email req) = false ∧
      certs.challenge_ok (certs.Method req) (certs.WebrootPath req)) ∨
     (certs.Action req = "renew" ∧
      (certs.WebrootPath req = "" ∨ IsAbs (certs.WebrootPath req) = true)) ∨
     (certs.Action req = "revoke" ∧
      (certs.RevokeReason req = "" ∨ certs.validRevokeReason (certs.RevokeReason req) = true))) in
  (accepted → ∃ args report, certs.buildCertbotCommand req = Ok (args, report) ∧
     (certs.Manage path ctx req w).2 = (certs.Run ctx path args w).2 ∧
     (certs.Manage path ctx req w).1.1 = Some (certs.with_output (certs.Run ctx path args w).1.1 report) ∧
     ((certs.Manage path ctx req w).1.2 = None ↔ (certs.Run ctx path args w).1.2 = None)) ∧
  (¬ accepted → ∃ e, certs.Manage path ctx req w = ((None, Some e), w)).
Proof.
  cbv zeta. rewrite <-certs.buildCertbotCommand_accepts. unfold certs.Manage.
  destruct (certs.buildCertbotCommand req) as [[args report]|e]; simpl; (split; [|eauto; done]); [|done].
  intros _. exists args, report. unfold mbind, M_bind, mret, M_ret.
  destruct (certs.Run ctx path args w) as [[out [err|]] w']; simpl; by split_and!.
Qed.
End Properties.

(** *** The theorems at a concrete request *)




#[local] Existing Instance latin1_tables.


(** An e-mail address that starts with a hyphen is passed on. *)
Definition hyphen_email : certs.Request :=
  certs.mkCertRequest "example.com" [] "issue" "" "--config-dir=/tmp" "" false false "".
Definition hyphen_args : list string :=
  ["certonly"; "--non-interactive"; "--agree-tos"; "--cert-name"; "example.com"; "--email"; "--config-dir=/tmp";
   "--standalone"; "-d"; "example.com"].
Definition hyphen_report : certs.Report :=
  certs.mkCertReport "issue" "example.com" ["example.com"] "standalone" false
    "/etc/letsencrypt/live/example.com" "/etc/letsencrypt/live/example.com/fullchain.pem"
    "/etc/letsencrypt/live/example.com/privkey.pem" "".

Example email_unguarded :
  certs.buildCertbotCommand (H := latin1_tables) hyphen_email = Ok (hyphen_args, hyphen_report).
Proof. vm_compute. reflexivity. Qed.

Lemma certbot_no_option_injection_witness :
  "--config-dir=/tmp" ∈ certs.certbot_options ∨
  (certs.Action hyphen_email = "issue" ∧ 6 = 6 ∧ hyphen_args !! 5 = Some "--email" ∧
   "--config-dir=/tmp" = TrimSpace (certs.Email hyphen_email)).
Proof.
  apply (certbot_no_option_injection (H := latin1_tables) hyphen_email hyphen_args hyphen_report);
    vm_compute; reflexivity.
Defined.
