(* ===== verification/Handlers.v ===== *)
(** * Handlers: internal/executor/handlers.go.

    A handler decodes the payload of an operation, calls one manager and turns
    its outcome into a result.  Each is a definition over the manager's
    interface, named as its constructor in the code. *)

From Stdlib Require Import NArith ZArith.
From S2P Require Import Prelude GoStrings GoFmt Redact GoError Json Http Docker Service Executor.
From S2P Require Import Components Tunnel Health Firewall Certs.

Module handlers.
Import executor.
Notation component_fields := components.component_fields.

(** What a handler returns: a pointer to a result and an error. *)
Definition out : Type := option Result * option error.

Definition fail (e : error) : out := (None, Some e).
Definition result_of (status msg data : string) : out := (Some (mkResult status msg data), None).
Definition failed (msg : string) : out := result_of "failed" msg "".
Definition success (msg : string) : out := result_of "success" msg "".

(** [json.Unmarshal(op.Data, &v)]: the value as far as it was decoded, or the
    error under the handler's prefix. *)
Definition payload {A} (d : decoder A) (zero : A) (what : string) (op : Operation) : res A :=
  match UnmarshalRaw d (Data op) zero with
  | (_, Some err) => Err (wrapf ("invalid " +:+ what +:+ "payload: ") err)
  | (v, None) => Ok v
  end.

Definition dec_container_name : decoder string :=
  dec_struct "" (anon_struct [("ContainerName", "string", "container_name")])
    [mk_field "container_name" dec_string id (λ v _, v)].

Definition dec_timeout_sec : decoder Z :=
  dec_struct "" (anon_struct [("TimeoutSec", "int", "timeout_sec")])
    [mk_field "timeout_sec" (dec_int "int") id (λ v _, v)].

Definition extractContainerName (op : Operation) : res string :=
  match payload dec_container_name "" "" op with
  | Err err => Err err
  | Ok name => if String.eqb name "" then Err (ErrorString "container_name is required") else Ok name
  end.

(** A payload that cannot be decoded leaves the time-out at zero. *)
Definition timeout_sec (op : Operation) : Z := (UnmarshalRaw dec_timeout_sec (Data op) 0%Z).1.

Record RevisionPayload : Type := mkRevisionPayload {
  RevServiceID : string;
  Revision : Z;
  RevSpec : service.Spec;
}.

Definition dec_RevisionPayload : decoder RevisionPayload :=
  dec_struct "" (anon_struct [("ServiceID", "string", "service_id"); ("Revision", "int64", "revision");
                              ("Spec", "service.Spec", "spec")])
  [ mk_field "service_id" dec_string RevServiceID (λ v p, mkRevisionPayload v (Revision p) (RevSpec p));
    mk_field "revision" (dec_int "int64") Revision (λ v p, mkRevisionPayload (RevServiceID p) v (RevSpec p));
    mk_field "spec" service.dec_Spec RevSpec (λ v p, mkRevisionPayload (RevServiceID p) (Revision p) v) ].

Definition dec_service_id : decoder string :=
  dec_struct "" (anon_struct [("ServiceID", "string", "service_id")])
    [mk_field "service_id" dec_string id (λ v _, v)].

Definition dec_logs_payload : decoder (string * Z) :=
  dec_struct "" (anon_struct [("ServiceID", "string", "service_id"); ("Tail", "int", "tail")])
  [ mk_field "service_id" dec_string fst (λ v p, (v, p.2));
    mk_field "tail" (dec_int "int") snd (λ v p, (p.1, v)) ].

Definition dec_health_payload : decoder (string * health.CheckOptions) :=
  dec_struct "" (anon_struct [("ServiceID", "string", "service_id");
                              ("ProbePorts", "[]string", "probe_ports,omitempty");
                              ("TimeoutMs", "int", "timeout_ms,omitempty")])
  [ mk_field "service_id" dec_string fst (λ v p, (v, p.2));
    mk_field "probe_ports" (dec_slice "[]string" "" dec_string) (λ p, health.ProbePorts p.2)
      (λ v p, (p.1, health.mkCheckOptions v (health.TimeoutMs p.2)));
    mk_field "timeout_ms" (dec_int "int") (λ p, health.TimeoutMs p.2)
      (λ v p, (p.1, health.mkCheckOptions (health.ProbePorts p.2) v)) ].

Section Handlers.
Context {W : Type}.

(** [if err != nil { return nil, err }] on a decoded payload. *)
Definition with_payload {A} (p : res A) (k : A → M W out) : M W out :=
  match p with Err err => mret (fail err) | Ok a => k a end.

(** [if err != nil { return &Result{Status: "failed", Message: err.Error()}, nil }]. *)
Definition report {A} (c : M W (res A)) (pre : string) (k : A → M W out) : M W out :=
  r ← c;
  match r with Err err => mret (failed (pre +:+ Error err)) | Ok a => k a end.

Section Docker.
Context `{UnicodeTables}.
Variable client : docker.Client W.

Definition findAndAdopt (ctx : Context) (name : string) : M W (res string) :=
  id <- docker.FindContainer client ctx name orelse wrapf "find container: " ;;
  if String.eqb id "" then mret (Ok "")
  else _ ← docker.Adopt client ctx id; mret (Ok id).

(** The part the container handlers share: [k] is run on the id and name. *)
Definition on_container (ctx : Context) (op : Operation) (k : string → string → M W out) : M W out :=
  with_payload (extractContainerName op) (λ name,
    r ← findAndAdopt ctx name;
    with_payload r (λ id,
      if String.eqb id "" then mret (failed "container not found") else k id name)).

Definition NewDockerStartHandler : Handler W := λ ctx op,
  on_container ctx op (λ id name,
    report (docker.Start client ctx id) "" (λ _, mret (success ("started " +:+ name)))).

Definition NewDockerStopHandler : Handler W := λ ctx op,
  on_container ctx op (λ id name,
    report (docker.Stop client ctx id (timeout_sec op)) "" (λ _, mret (success ("stopped " +:+ name)))).

Definition NewDockerRestartHandler : Handler W := λ ctx op,
  on_container ctx op (λ id name,
    report (docker.Stop client ctx id (timeout_sec op)) "stop: " (λ _,
    report (docker.Start client ctx id) "start: " (λ _, mret (success ("restarted " +:+ name))))).
End Docker.

Definition NewStubHandler (phase : string) : Handler W := λ _ op,
  mret (fail (RedirectError (OpType op) phase)).

Definition NewInstallComponentHandler `{installer.ImageClient W} : Handler W := λ ctx op,
  with_payload (payload components.dec_Component (components.mkComponent "" "" "" "") "component " op) (λ c,
    report (installer.Install ctx c) "" (λ _,
      mret (success ("installed " +:+ components.Name c +:+ " (" +:+ components.Version c +:+ ")")))).

(** A payload that must name a service. *)
Definition on_service {A} (p : res A) (sid : A → string) (k : A → M W out) : M W out :=
  with_payload p (λ v,
    if String.eqb (sid v) "" then mret (fail (ErrorString "service_id is required")) else k v).

Definition NewApplyServiceRevisionHandler `{service.ContainerClient W} `{GoMaps} : Handler W := λ ctx op,
  on_service (payload dec_RevisionPayload (mkRevisionPayload "" 0 service.zero_Spec) "service revision " op)
    RevServiceID (λ p,
    report (service.ApplyRevision ctx (RevServiceID p) (Revision p) (RevSpec p)) "" (λ _,
      mret (success ("applied revision " +:+ itoa (Revision p) +:+ " to " +:+ RevServiceID p)))).

Definition NewCollectStatusHandler `{service.ContainerClient W} : Handler W := λ ctx op,
  on_service (payload dec_service_id "" "status " op) id (λ sid,
    report (service.CollectStatus ctx sid) "" (λ status,
      mret (result_of "success" "" (Marshal (service.enc_Status status))))).

Definition NewCollectLogsHandler `{service.ContainerClient W} : Handler W := λ ctx op,
  on_service (payload dec_logs_payload ("", 0%Z) "logs " op) fst (λ p,
    report (service.CollectLogs ctx p.1 p.2) "" (λ logs, mret (success logs))).

Definition NewCreateTunnelHandler `{tunnel.ContainerExec W} : Handler W := λ ctx op,
  with_payload (payload tunnel.dec_Request tunnel.zero_Request "tunnel " op) (λ req,
    report (tunnel.Create ctx req) "" (λ _,
      mret (success ("created tunnel " +:+ tunnel.TunnelID req +:+ " in " +:+ tunnel.ServiceID req)))).

Definition NewRemoveTunnelHandler `{tunnel.ContainerExec W} : Handler W := λ ctx op,
  with_payload (payload tunnel.dec_Request tunnel.zero_Request "tunnel " op) (λ req,
    report (tunnel.Remove ctx req) "" (λ _,
      mret (success ("removed tunnel " +:+ tunnel.TunnelID req +:+ " from " +:+ tunnel.ServiceID req)))).

Definition NewApplyFirewallRevisionHandler `{firewall.CommandRunner W} : Handler W := λ ctx op,
  with_payload (payload firewall.dec_Ruleset (firewall.mkRuleset 0 []) "firewall " op) (λ rs,
    report (firewall.ApplyRevision ctx rs) "" (λ _,
      mret (success ("applied firewall revision " +:+ itoa (firewall.Revision rs))))).

Definition NewRunHealthCheckHandler `{health.ContainerInspector W} `{health.Dialer W} `{Clock W} : Handler W :=
  λ ctx op,
  on_service (payload dec_health_payload ("", health.mkCheckOptions [] 0) "health check " op) fst (λ p,
    report (health.Check ctx p.1 p.2) "" (λ r,
      mret (result_of (if health.Healthy r then "success" else "degraded") "" (Marshal (health.enc_Report r))))).

Definition NewManageCertificateHandler `{UnicodeTables} `{certs.commandRunner W} (certbotPath : string)
    : Handler W := λ ctx op,
  with_payload (payload certs.dec_Request certs.zero_Request "certificate " op) (λ req,
    r ← certs.Manage certbotPath ctx req;
    match r with
    | (_, Some err) => mret (failed (Error err))
    | (Some rep, None) =>
        mret (result_of "success" (certs.Action req +:+ " certificate " +:+ certs.RDomain rep)
                (Marshal (certs.enc_Report rep)))
    | (None, None) => mret (None, None)
    end).
End Handlers.

(** ** Lemmas *)

(** The result of a handler: exactly one of result and error, and a known
    status. *)
Definition answer (o : out) : Prop :=
  match o with
  | (Some r, None) => Status r ∈ ["success"; "degraded"; "failed"]
  | (None, Some _) => True
  | _ => False
  end.

Definition answers {W} (c : M W out) : Prop := ∀ w, answer (c w).1.

Lemma failed_known : "failed" ∈ ["success"; "degraded"; "failed"].
Proof. apply (bool_decide_eq_true _). reflexivity. Qed.

Create HintDb answers.

Section Answers.
Context {W : Type}.
Implicit Types (c : M W out).

Lemma answers_fail e : answers (W := W) (mret (fail e)).
Proof. done. Qed.

Lemma answers_result status msg data :
  bool_decide (status ∈ ["success"; "degraded"; "failed"]) = true →
  answers (W := W) (mret (result_of status msg data)).
Proof. intros ?%bool_decide_eq_true ?. done. Qed.

Lemma answers_with_payload {A} (p : res A) k :
  (∀ a, p = Ok a → answers (k a)) → answers (W := W) (with_payload p k).
Proof. intros Hk. destruct p; simpl; [by apply Hk|done]. Qed.

Lemma answers_bind {A} (c : M W A) (k : A → M W out) : (∀ a, answers (k a)) → answers (c ≫= k).
Proof. intros Hk w. unfold mbind, M_bind. destruct (c w) as [a w']. apply Hk. Qed.

Lemma answers_report {A} (c : M W (res A)) pre k :
  (∀ a, answers (k a)) → answers (report c pre k).
Proof.
  intros Hk. apply answers_bind. intros [a|e]; [done|]. by apply answers_result.
Qed.

Lemma answers_on_service {A} (p : res A) sid k :
  (∀ a, answers (k a)) → answers (W := W) (on_service p sid k).
Proof. intros Hk. apply answers_with_payload. intros a _. by destruct (String.eqb (sid a) ""). Qed.

Lemma answers_on_container `{UnicodeTables} (client : docker.Client W) ctx op k :
  (∀ id name, answers (k id name)) → answers (on_container client ctx op k).
Proof.
  intros Hk. apply answers_with_payload. intros name _. apply answers_bind. intros r.
  apply answers_with_payload. intros id _. destruct (String.eqb id ""); [by apply answers_result|done].
Qed.

Lemma answers_health b data :
  answers (W := W) (mret (result_of (if b : bool then "success" else "degraded") "" data)).
Proof. apply answers_result. by destruct b. Qed.

Lemma answers_certificate `{UnicodeTables} `{certs.commandRunner W} path ctx req (k : certs.Report → out) :
  (∀ rep, answer (k rep)) →
  answers (r ← certs.Manage path ctx req;
           match r with
           | (_, Some err) => mret (failed (Error err))
           | (Some rep, None) => mret (k rep)
           | (None, None) => mret (None, None)
           end).
Proof.
  intros Hk w. unfold certs.Manage, mbind, M_bind, mret, M_ret.
  destruct (certs.buildCertbotCommand req) as [[args rep]|e]; simpl; [|apply failed_known].
  destruct (certs.Run ctx path args w) as [[o [err|]] w']; cbn [fst snd]; [|apply Hk].
  destruct (negb _); apply failed_known.
Qed.
End Answers.

#[export] Hint Resolve answers_fail answers_with_payload answers_report answers_on_service
  answers_on_container answers_health answers_bind : answers.
#[export] Hint Extern 1 (answers (mret (success _))) => apply answers_result; reflexivity : answers.
#[export] Hint Extern 1 (answers (mret (failed _))) => apply answers_result; reflexivity : answers.
#[export] Hint Extern 1 (answers (mret (result_of _ _ _))) => apply answers_result; reflexivity : answers.

(** A handler whose every call answers. *)
Definition total_handler {W} (h : Handler W) : Prop := ∀ ctx op, answers (h ctx op).

Ltac solve_total := intros ctx op; unfold
  NewDockerStartHandler, NewDockerStopHandler, NewDockerRestartHandler, NewInstallComponentHandler,
  NewApplyServiceRevisionHandler, NewCollectStatusHandler, NewCollectLogsHandler, NewCreateTunnelHandler,
  NewRemoveTunnelHandler, NewApplyFirewallRevisionHandler, NewRunHealthCheckHandler, NewStubHandler;
  repeat first [apply answers_on_container; intros ? ? | apply answers_on_service; intros ?
    | apply answers_with_payload; intros ? _ | apply answers_report; intros ? | progress auto with answers].

(** ** Payloads that are not objects *)

Definition not_object (data : RawMessage) : bool :=
  match data with Some (JObj _) | Some JNull => false | _ => true end.

(** The handler reports an error and does nothing else. *)
Definition refuses {W} (h : Handler W) : Prop :=
  ∀ ctx op w, not_object (Data op) = true → ∃ e, h ctx op w = (fail e, w).

Lemma payload_not_object {A} name typ (fs : list (field A)) zero what op :
  not_object (Data op) = true → ∃ e, payload (dec_struct name typ fs) zero what op = Err e.
Proof.
  unfold payload, UnmarshalRaw, dec_struct, mismatch.
  destruct (Data op) as [[| | | | |]|]; try done; intros _; by eexists.
Qed.

Ltac solve_refuses := intros ctx op w Hno; match goal with
  |- context [payload (dec_struct ?n ?t ?fs) ?z ?what op] =>
    destruct (payload_not_object n t fs z what op Hno) as [e ->] end; by eexists.

(** ** A component payload without a name *)

Definition names_component (key : string) : bool := bool_decide (foldName "Name" = foldName key).

Lemma lookup_other_field key f st path j c :
  lookup_field component_fields key = Some f → names_component key = false →
  components.Name (f.2 st path j c).1 = components.Name c.
Proof.
  unfold lookup_field, names_component, component_fields. cbn [find_field mk_field fst].
  destruct (String.eqb_spec key "Name") as [->|]; [done|].
  intros Hf Hn. revert Hf. destruct (String.eqb key "Version"); [intros [= <-]|destruct (String.eqb key "Image");
    [intros [= <-]|destruct (String.eqb key "ExpectedDigest"); [intros [= <-]|]]].
  4: rewrite Hn; repeat case_bool_decide; intros Hf; simplify_eq.
  all: unfold mk_field; cbn [snd]; by destruct (dec_string _ _ _ _).
Qed.

Lemma dec_members_name path kvs c :
  forallb (λ kv, negb (names_component kv.1)) kvs = true →
  components.Name (dec_members "Component" path component_fields kvs c).1 = components.Name c.
Proof.
  unfold dec_members. generalize (None : option error) as e. revert c.
  induction kvs as [|[k j] kvs IH]; intros c e; cbn [forallb fold_left fst]; [done|].
  intros [Hk Hkvs]%andb_true_iff. apply negb_true_iff in Hk.
  destruct (lookup_field component_fields k) as [f|] eqn:Ef; [|by apply IH].
  pose proof (lookup_other_field k f "Component" path j c Ef Hk) as Hname. cbn [snd fst].
  destruct (f.2 "Component" path j c) as [c' e'] eqn:E. cbn [fst] in Hname.
  rewrite <-Hname. by apply IH.
Qed.
End handlers.

(** ** Properties *)

Section Properties.
Context {W : Type} {UT : UnicodeTables}.

(** C36: RESTART_SERVICE stops the container and starts it again, in this
    order: it succeeds exactly when a container was found under the requested
    name and both calls succeeded; and when stopping fails, or no container
    was found, nothing is started and the world is as the last call left it. *)
Theorem restart_stops_then_starts (client : docker.Client W) (ctx : Context) (op : executor.Operation) (w : W)
    (name : string) (Hname : handlers.extractContainerName op = Ok name) :
  let found := docker.FindContainer client ctx name w in
  let adopt id := (docker.Adopt client ctx id found.2).2 in
  let stop id := docker.Stop client ctx id (handlers.timeout_sec op) (adopt id) in
  let start id := docker.Start client ctx id (stop id).2 in
  handlers.NewDockerRestartHandler client ctx op w =
    match found.1 with
    | Err e => (handlers.fail (wrapf "find container: " e), found.2)
    | Ok id =>
        if String.eqb id "" then (handlers.failed "container not found", found.2) else
        match (stop id).1 with
        | Err e => (handlers.failed ("stop: " +:+ Error e), (stop id).2)
        | Ok _ =>
            match (start id).1 with
            | Err e => (handlers.failed ("start: " +:+ Error e), (start id).2)
            | Ok _ => (handlers.success ("restarted " +:+ name), (start id).2)
            end
        end
    end.
Proof.
  cbv zeta. unfold handlers.NewDockerRestartHandler, handlers.on_container, handlers.findAndAdopt,
    handlers.report, try_or, mbind, M_bind, mret, M_ret. rewrite Hname. cbn [handlers.with_payload].
  destruct (docker.FindContainer client ctx name w) as [[id|e] w1]; cbn [fst snd handlers.with_payload]; [|done].
  destruct (String.eqb id "") eqn:Eid.
  - apply String.eqb_eq in Eid as ->. done.
  - destruct (docker.Adopt client ctx id w1) as [r w2]; cbn [fst snd handlers.with_payload]. rewrite Eid.
    destruct (docker.Stop client ctx id _ w2) as [[[]|e] w3]; cbn [fst snd]; [|done].
    by destruct (docker.Start client ctx id w3) as [[[]|e] w4].
Qed.

(** An INSTALL_COMPONENT payload in which no key is [Name], up to case,
    never installs anything: no image is pulled, and the answer is a failure
    or a decoding error.  The contract's key is [component_name]. *)
Theorem install_without_Name {IC : installer.ImageClient W} (ctx : Context) (op : executor.Operation)
    (kvs : list (string * json)) (w : W)
    (Hd : executor.Data op = Some (JObj kvs))
    (Hk : forallb (λ kv, negb (handlers.names_component kv.1)) kvs = true) :
  ∃ o, handlers.NewInstallComponentHandler ctx op w = (o, w) ∧
       (o = handlers.failed "invalid component: component name is required" ∨ ∃ e, o = handlers.fail e).
Proof.
  unfold handlers.NewInstallComponentHandler, handlers.payload, UnmarshalRaw. rewrite Hd.
  unfold components.dec_Component, dec_struct.
  pose proof (handlers.dec_members_name [] kvs (components.mkComponent "" "" "" "") Hk) as Hn.
  destruct (dec_members "Component" [] components.component_fields kvs _) as [c [e|]];
    cbn [handlers.with_payload]; [eexists; split; [done|by right; eexists]|].
  cbn [fst] in Hn. exists (handlers.failed "invalid component: component name is required").
  unfold handlers.report, installer.Install, components.Validate, mbind, M_bind, mret, M_ret.
  rewrite Hn. change (String.eqb (TrimSpace (components.Name (components.mkComponent "" "" "" ""))) "") with true.
  cbn iota. split; [done|by left].
Qed.
End Properties.

(** *** The theorems at concrete operations *)

Definition restart_op : executor.Operation :=
  executor.mkOperation "op-7" "RESTART_SERVICE" (Some (JObj [("container_name", JStr "web")])).

(** A daemon that knows the container but refuses to stop it. *)
Definition stubborn (r : Request) : res Response :=
  if String.eqb (Method r) MethodGet then Ok (mkResponse 200 ("{" +:+ quote +:+ "Id" +:+ quote +:+ ":"
    +:+ quote +:+ "c1" +:+ quote +:+ "}") None)
  else Ok (mkResponse 500 "busy" None).

Lemma restart_stops_then_starts_witness :
  handlers.NewDockerRestartHandler (H := latin1_tables) (docker.mkClient (answering stubborn) "v1.45")
    Background restart_op tt = (handlers.failed "stop: docker stop c1: http 500: busy", tt).
Proof.
  rewrite (restart_stops_then_starts (UT := latin1_tables) (docker.mkClient (answering stubborn) "v1.45")
           Background restart_op tt "web"); vm_compute; reflexivity.
Defined.

Definition contract_op : executor.Operation :=
  executor.mkOperation "op-8" "INSTALL_COMPONENT" (Some (JObj
    [("component_name", JStr "telemt"); ("version", JStr "v1.2.3");
     ("image", JStr "ghcr.io/telemt/telemt:v1.2.3"); ("expected_digest", JStr sample_digest)])).

(** Pulling would be recorded. *)
Definition pull_recorder : installer.ImageClient (list string) := {|
  installer.Pull := λ _ image w, (Ok tt, w ++ [image]);
  installer.InspectImage := λ _ image w, (Ok (docker.mkImageInfo "" [] [] 0 "" ""), w);
|}.

Lemma install_without_Name_witness :
  ∃ o, handlers.NewInstallComponentHandler (H := pull_recorder) Background contract_op [] = (o, []) ∧
       (o = handlers.failed "invalid component: component name is required" ∨ ∃ e, o = handlers.fail e).
Proof.
  eapply (install_without_Name (IC := pull_recorder) Background contract_op); [reflexivity|].
  vm_compute. reflexivity.
Defined.
