(* ===== verification/Main.v ===== *)
(** * Main: the wiring of cmd/routestack-agent/main.go.

    The executor is built and every handler is registered; [Register] panics on
    a type that is taken, so the registrations are a chain of results. *)

From Stdlib Require Import NArith ZArith.
From S2P Require Import Prelude GoStrings GoFmt GoError Json Http Docker Service Executor.
From S2P Require Import Components Tunnel Health Firewall Certs Handlers.

Module main.
Import executor handlers.

Section Wiring.
Context {W : Type} `{UnicodeTables} `{GoMaps} `{Clock W} `{Logger W} `{health.Dialer W}
  `{firewall.CommandRunner W} `{certs.commandRunner W}.

(** A sequence of registrations, in the order of the code. *)
Fixpoint register_all (e : Executor W) (hs : list (string * Handler W)) : result string (Executor W) :=
  match hs with
  | [] => Ok e
  | (opType, h) :: rest => e <-? Register e opType h orelse id ;; register_all e rest
  end.

(** The managers are the clients of the one Docker client. *)
Section Docker.
Variable client : docker.Client W.
#[local] Instance containers : service.ContainerClient W := service.docker_containers client.
#[local] Instance images : installer.ImageClient W := installer.docker_images client.
#[local] Instance execs : tunnel.ContainerExec W := tunnel.docker_exec client.
#[local] Instance inspector : health.ContainerInspector W := health.docker_inspector client.

Definition docker_table : list (string * Handler W) :=
  [ (OpStartService, NewDockerStartHandler client);
    (OpStopService, NewDockerStopHandler client);
    (OpRestartService, NewDockerRestartHandler client);
    (OpInstallComponent, NewInstallComponentHandler);
    (OpApplyServiceRevision, NewApplyServiceRevisionHandler);
    (OpCollectStatus, NewCollectStatusHandler);
    (OpCollectLogs, NewCollectLogsHandler);
    (OpCreateTunnel, NewCreateTunnelHandler);
    (OpRemoveTunnel, NewRemoveTunnelHandler);
    (OpRunHealthCheck, NewRunHealthCheckHandler) ].

Definition registerDockerHandlers (e : Executor W) : result string (Executor W) :=
  register_all e docker_table.
End Docker.

Definition core_table : list (string * Handler W) :=
  [ (OpApplyFirewallRevision, NewApplyFirewallRevisionHandler);
    (OpManageCertificate, NewManageCertificateHandler certs.defaultCertbotPath) ].

Definition registerCoreHandlers (e : Executor W) : result string (Executor W) :=
  register_all e core_table.

(** [docker.NewClient] as [cmdRun] uses it: without a client the Docker
    handlers are left out. *)
Definition wire (dockerClient : option (docker.Client W)) : result string (Executor W) :=
  match dockerClient with
  | Some client => e <-? registerDockerHandlers client NewExecutor orelse id ;; registerCoreHandlers e
  | None => registerCoreHandlers NewExecutor
  end.

(** ** Lemmas *)

Lemma register_all_ok e hs :
  NoDup hs.*1 → (∀ t h, (t, h) ∈ hs → handlers e !! t = None) →
  ∃ e', register_all e hs = Ok e' ∧ seen e' = seen e ∧ defaultTimeout e' = defaultTimeout e ∧
        ∀ t, handlers e' !! t = match list_to_map (M := gmap string (Handler W)) hs !! t with
                                | Some h => Some h | None => handlers e !! t end.
Proof.
  revert e. induction hs as [|[t h] hs IH]; intros e Hnd Hfree; cbn [register_all].
  { exists e. split_and!; try done. }
  apply NoDup_cons in Hnd as [Hnin Hnd].
  unfold Register. rewrite (Hfree t h) by (by left). cbn [rtry].
  destruct (IH (mkExecutor (<[t:=h]> (handlers e)) (seen e) (defaultTimeout e)) Hnd)
    as (e' & -> & Hs & Hd & Hl).
  - intros t' h' Hin. simpl. rewrite lookup_insert_ne.
    + apply (Hfree t' h'). by right.
    + intros ->. apply Hnin. by apply (list_elem_of_fmap_2' _ _ (t', h')).
  - exists e'. split_and!; try done. intros t'. rewrite Hl. simpl.
    destruct (decide (t = t')) as [<-|Hne].
    + rewrite !lookup_insert_eq. rewrite not_elem_of_list_to_map_1 by done. done.
    + by rewrite !lookup_insert_ne.
Qed.

Lemma docker_table_total client : Forall (λ th, total_handler th.2) (docker_table client).
Proof. unfold docker_table. repeat (constructor; [simpl; solve_total|]). done. Qed.

Lemma core_table_total : Forall (λ th, total_handler th.2) core_table.
Proof.
  unfold core_table. constructor; [simpl; solve_total|]. constructor; [|done].
  intros ctx op. simpl. unfold NewManageCertificateHandler. apply answers_with_payload. intros req _.
  apply (answers_certificate _ _ _ (λ rep, result_of "success" _ _)). intros rep. by apply (bool_decide_eq_true _).
Qed.

Lemma docker_table_refuses client : Forall (λ th, refuses th.2) (docker_table client).
Proof.
  unfold docker_table. repeat (constructor; [|]); try done; simpl;
  unfold NewDockerStartHandler, NewDockerStopHandler, NewDockerRestartHandler, NewInstallComponentHandler,
    NewApplyServiceRevisionHandler, NewCollectStatusHandler, NewCollectLogsHandler, NewCreateTunnelHandler,
    NewRemoveTunnelHandler, NewRunHealthCheckHandler, on_container, extractContainerName, on_service,
    dec_container_name, components.dec_Component, dec_RevisionPayload, dec_service_id, dec_logs_payload,
    tunnel.dec_Request, dec_health_payload; solve_refuses.
Qed.

Lemma core_table_refuses : Forall (λ th, refuses th.2) core_table.
Proof.
  unfold core_table. repeat (constructor; [|]); try done; simpl;
  unfold NewApplyFirewallRevisionHandler, NewManageCertificateHandler, firewall.dec_Ruleset, certs.dec_Request;
  solve_refuses.
Qed.

Definition docker_types : list string :=
  ["START_SERVICE"; "STOP_SERVICE"; "RESTART_SERVICE"; "INSTALL_COMPONENT"; "APPLY_SERVICE_REVISION";
   "COLLECT_STATUS"; "COLLECT_LOGS"; "CREATE_TUNNEL"; "REMOVE_TUNNEL"; "RUN_HEALTH_CHECK"].
Definition core_types : list string := ["APPLY_FIREWALL_REVISION"; "MANAGE_CERTIFICATE"].

Definition types (dockerClient : option (docker.Client W)) : list string :=
  match dockerClient with Some _ => docker_types ++ core_types | None => core_types end.

(** Everything that is registered, in order. *)
Definition table (dockerClient : option (docker.Client W)) : list (string * Handler W) :=
  match dockerClient with Some c => docker_table c ++ core_table | None => core_table end.

Lemma table_total dockerClient : Forall (λ th, total_handler th.2 ∧ refuses th.2) (table dockerClient).
Proof.
  apply Forall_and. destruct dockerClient as [c|]; split; cbn [table]; rewrite ?Forall_app;
    auto using docker_table_total, core_table_total, docker_table_refuses, core_table_refuses.
Qed.

Lemma wire_ok dockerClient :
  ∃ e, wire dockerClient = Ok e ∧ seen e = ∅ ∧ defaultTimeout e = defaultTimeout (NewExecutor (W := W)) ∧
    ∀ t, (is_Some (handlers e !! t) ↔ t ∈ types dockerClient) ∧
         ∀ h, handlers e !! t = Some h → (t, h) ∈ table dockerClient.
Proof.
  assert (Ht : wire dockerClient = register_all NewExecutor (table dockerClient)).
  { unfold wire, table, registerDockerHandlers, registerCoreHandlers.
    destruct dockerClient as [c|]; [|done]. generalize (NewExecutor (W := W)). generalize (docker_table c).
    intros l. induction l as [|[t h] l IH]; intros e; [done|]. cbn [register_all app]. unfold rtry in *.
    destruct (Register e t h); [apply IH|done]. }
  assert (Htypes : (table dockerClient).*1 = types dockerClient) by (by destruct dockerClient).
  assert (Hnd : NoDup (table dockerClient).*1).
  { rewrite Htypes. destruct dockerClient; apply (bool_decide_unpack _); vm_compute; exact I. }
  destruct (register_all_ok NewExecutor (table dockerClient) Hnd) as (e & He & Hs & Hd & Hl); [done|].
  exists e. rewrite Ht. split_and!; try done. intros t. rewrite (Hl t). split.
  - rewrite <-Htypes. simpl. rewrite lookup_empty. split.
    + destruct (list_to_map (table dockerClient) !! t) as [h|] eqn:E; [|by intros []].
      intros _. apply elem_of_list_to_map_2 in E. by apply (list_elem_of_fmap_2' _ _ (t, h)).
    + intros Hin. destruct (list_to_map (table dockerClient) !! t) as [h|] eqn:E; [done|].
      by apply not_elem_of_list_to_map_2 in E.
  - intros h. simpl. rewrite lookup_empty. destruct (list_to_map (table dockerClient) !! t) as [h'|] eqn:E; [|done].
    intros [= <-]. by apply elem_of_list_to_map_2 in E.
Qed.

(** A registered handler answers, and refuses what is not an object. *)
Lemma wired_handler dockerClient e t h :
  wire dockerClient = Ok e → handlers e !! t = Some h →
  (t, h) ∈ table dockerClient ∧ total_handler h ∧ refuses h.
Proof.
  intros Hw Hh. destruct (wire_ok dockerClient) as (e' & He & _ & _ & Hall). rewrite Hw in He. injection He as <-.
  apply Hall in Hh. split; [done|]. pose proof (table_total dockerClient) as HT. rewrite Forall_forall in HT. apply (HT _ Hh).
Qed.

(** What [Execute] returns when the handler answers. *)
Lemma Execute_answers e ctx op w :
  (∀ h, handlers e !! OpType op = Some h → total_handler h) →
  match (Execute e ctx op w).1.1 with
  | Return (Some r) None => Status r ∈ ["success"; "degraded"; "failed"]
  | Return None (Some _) => True
  | _ => False
  end.
Proof.
  intros He. unfold Execute, mbind, M_bind, mret, M_ret.
  destruct (handlers e !! OpType op) as [h|] eqn:Eh; [|done].
  destruct (seen e !! ID op).
  { destruct (Log _ w). cbn [fst snd]. apply (bool_decide_eq_true _). reflexivity. }
  destruct (Now w) as [n1 w1], (Now w1) as [n2 w2], (Now w2) as [n3 w3].
  pose proof (He h eq_refl (WithTimeout ctx n2 (defaultTimeout (mark e (ID op) n1))) op w3) as Htot.
  destruct (h _ op w3) as [[r err] w4]. unfold finish, mbind, M_bind, mret, M_ret.
  destruct (Now w4) as [n5 w5].
  destruct r as [r|], err as [err|]; cbn [fst snd] in *; try done; by destruct (Log _ w5).
Qed.
End Wiring.
End main.


(** ** Properties *)

Section Properties.
Context {W : Type} {UT : UnicodeTables} {GM : GoMaps} {CK : Clock W} {LG : executor.Logger W}
  {DI : health.Dialer W} {CR : firewall.CommandRunner W} {CB : certs.commandRunner W}.

(** C38: The wiring never panics; with a Docker client it registers exactly the
    twelve operation types of the contract, without one exactly the firewall
    and the certificate operations; nothing is marked as seen, and handlers
    get five minutes. *)
Theorem wiring_complete (dockerClient : option (docker.Client W)) :
  ∃ e, main.wire dockerClient = Ok e ∧
    (∀ t, is_Some (executor.handlers e !! t) ↔ t ∈ main.types dockerClient) ∧
    executor.seen e = ∅ ∧ executor.defaultTimeout e = (300 * Second)%Z.
Proof.
  destruct (main.wire_ok dockerClient) as (e & He & Hs & Hd & Hall). exists e.
  split_and!; try done. intros t. apply Hall.
Qed.

(** C37: The wired executor never panics: every registered handler returns
    either a result, whose status is [success], [degraded] or [failed], or an
    error, in every world, and so does [Execute] after any history of calls. *)
Theorem wired_Execute_answers (dockerClient : option (docker.Client W)) (e0 e : executor.Executor W)
    (ctx : Context) (op : executor.Operation) (w : W)
    (Hwire : main.wire dockerClient = Ok e0) (Hsame : executor.handlers e = executor.handlers e0) :
  match (executor.Execute e ctx op w).1.1 with
  | executor.Return (Some r) None => executor.Status r ∈ ["success"; "degraded"; "failed"]
  | executor.Return None (Some _) => True
  | _ => False
  end.
Proof.
  apply main.Execute_answers. intros h Hh. rewrite Hsame in Hh. by destruct (main.wired_handler _ _ _ _ Hwire Hh) as (_ & ? & _).
Qed.

(** An operation whose data is missing or is not an object is refused by
    every registered handler with an error, before anything is done. *)
Theorem bad_payload_refused (dockerClient : option (docker.Client W)) (e : executor.Executor W)
    (ctx : Context) (op : executor.Operation) (h : executor.Handler W) (w : W)
    (Hwire : main.wire dockerClient = Ok e)
    (Hh : executor.handlers e !! executor.OpType op = Some h)
    (Hno : handlers.not_object (executor.Data op) = true) :
  ∃ err, h ctx op w = ((None, Some err), w).
Proof.
  destruct (main.wired_handler _ _ _ _ Hwire Hh) as (_ & _ & Hr). by apply Hr.
Qed.
End Properties.

(** *** A host where nothing works: no daemon, no iptables, no certbot *)

#[local] Instance dead_dialer : health.Dialer unit :=
  {| health.DialTCP := λ _ _ _ w, (Err (ErrorString "connection refused"), w) |}.
#[local] Instance dead_iptables : firewall.CommandRunner unit := {|
  firewall.Run := λ _ _ _ w, (Err (ErrorString "exit status 1"), w);
  firewall.Output := λ _ _ _ w, (Err (ErrorString "exit status 1"), w);
|}.
#[local] Instance dead_certbot : certs.commandRunner unit :=
  {| certs.Run := λ _ _ _ w, (("", Some (ErrorString "exit status 1")), w) |}.
#[local] Existing Instances silent_clock silent_logger latin1_tables sorted_maps.

Definition dead_client : docker.Client unit :=
  docker.NewClient (answering (λ _, Err (ErrorString "dial unix: no such file"))).

Definition wired_sample : executor.Executor unit :=
  match main.wire (Some dead_client) with Ok e => e | Err _ => executor.NewExecutor end.

Lemma wired_Execute_answers_witness :
  match (executor.Execute wired_sample Background
           (executor.mkOperation "1" "APPLY_FIREWALL_REVISION" (Some (JObj [("revision", JNum "1")]))) tt).1.1 with
  | executor.Return (Some r) None => executor.Status r ∈ ["success"; "degraded"; "failed"]
  | executor.Return None (Some _) => True
  | _ => False
  end.
Proof. apply (wired_Execute_answers (Some dead_client) wired_sample wired_sample); reflexivity. Defined.

Lemma bad_payload_refused_witness :
  ∃ err, handlers.NewApplyFirewallRevisionHandler Background
           (executor.mkOperation "1" "APPLY_FIREWALL_REVISION" None) tt = ((None, Some err), tt).
Proof.
  apply (bad_payload_refused (Some dead_client) wired_sample Background
           (executor.mkOperation "1" "APPLY_FIREWALL_REVISION" None)); reflexivity.
Defined.
