(* ===== verification/Api.v ===== *)
(** * Api: internal/api/client.go, the client of the control plane.

    Requests are sent through [api.doWithRetry], with exponential backoff.  TLS
    is the transport's; the client is modelled from the point where it has
    one. *)

From Stdlib Require Import Ascii NArith ZArith.
From S2P Require Import Prelude GoStrings Utf8 GoFmt GoError Json JsonRoundTrip Http.

Module api.

Record RetryConfig : Type := mkRetryConfig { MaxRetries : Z; BaseDelay : Z }.

Definition DefaultRetryConfig : RetryConfig := mkRetryConfig 5 (1 * Second).

(** ** Messages *)

Record EnrollRequest : Type := mkEnrollRequest {
  EnrollmentToken : string;
  CSR : string;
  EnrollNodeID : string;
}.

Definition enc_EnrollRequest (r : EnrollRequest) : json := JObj (
  member "enrollment_token" (enc_string (EnrollmentToken r)) ++
  member "csr" (enc_string (CSR r)) ++
  omit (String.eqb (EnrollNodeID r) "") "node_id" (enc_string (EnrollNodeID r))).

Record EnrollResponse : Type := mkEnrollResponse {
  NodeID : string;
  Certificate : string;
  CACert : string;
}.

Definition dec_EnrollResponse : decoder EnrollResponse := dec_struct "EnrollResponse" "api.EnrollResponse"
  [ mk_field "node_id" dec_string NodeID (λ v r, mkEnrollResponse v (Certificate r) (CACert r));
    mk_field "certificate" dec_string Certificate (λ v r, mkEnrollResponse (NodeID r) v (CACert r));
    mk_field "ca_cert" dec_string CACert (λ v r, mkEnrollResponse (NodeID r) (Certificate r) v) ].

(** [HeartbeatResponse], a single flag. *)
Definition dec_HeartbeatResponse : decoder bool := dec_struct "HeartbeatResponse" "api.HeartbeatResponse"
  [ mk_field "accepted" dec_bool id (λ v _, v) ].

(** [ClaimRequest]. *)
Definition enc_ClaimRequest (nodeID : string) : json := JObj (member "node_id" (enc_string nodeID)).

Record Operation : Type := mkApiOperation { ID : string; OpType : string; Data : RawMessage }.

Definition dec_Operation : decoder Operation := dec_struct "Operation" "api.Operation"
  [ mk_field "id" dec_string ID (λ v o, mkApiOperation v (OpType o) (Data o));
    mk_field "type" dec_string OpType (λ v o, mkApiOperation (ID o) v (Data o));
    mk_field "data" dec_raw Data (λ v o, mkApiOperation (ID o) (OpType o) v) ].

(** [ClaimResponse], an operation or none. *)
Definition dec_ClaimResponse : decoder (option Operation) := dec_struct "ClaimResponse" "api.ClaimResponse"
  [ mk_field "operation" (dec_ptr (mkApiOperation "" "" None) dec_Operation) id (λ v _, v) ].

Record CompleteRequest : Type := mkCompleteRequest {
  CompleteID : string;
  Status : string;
  Result : string;
}.

Definition enc_CompleteRequest (r : CompleteRequest) : json := JObj (
  member "id" (enc_string (CompleteID r)) ++
  member "status" (enc_string (Status r)) ++
  omit (String.eqb (Result r) "") "result" (enc_string (Result r))).

(** ** The retry loop *)

Definition isRetryableStatus (code : Z) : bool :=
  if (500 <=? code)%Z then true else (code =? 408)%Z || (code =? 429)%Z.

Definition isRetryableError (err : error) : bool :=
  if errors_Is is_Canceled err || errors_Is is_DeadlineExceeded err then false
  else match as_net_error err with Some timeout => timeout | None => true end.

(** [cfg.BaseDelay * time.Duration(1<<(attempt-1))], in 64 bits. *)
Definition delay (cfg : RetryConfig) (attempt : Z) : Z :=
  wrap64 (BaseDelay cfg * wrap64 (Z.shiftl 1 (attempt - 1))).

Section Client.
Context {W : Type} `{Timer W}.
Variables (httpClient : HttpClient W) (baseURL : string).

Section Retry.
Context {A : Type}.
Variables (ctx : Context) (method path : string) (body : option json)
  (result : option (decoder A)) (zero : A) (cfg : RetryConfig).

Definition request : Request := mkRequest method (baseURL +:+ path) true (Marshal <$> body).

(** What an answer makes of the call when it is not tried again. *)
Definition conclude (answer : res Response) : A * option error :=
  match answer with
  | Err err => (zero, Some (wrapf ("request " +:+ method +:+ " " +:+ path +:+ ": ") err))
  | Ok resp =>
      match ReadErr resp with
      | Some readErr => (zero, Some (wrapf "read response body: " readErr))
      | None =>
          if (400 <=? StatusCode resp)%Z then (zero, Some (HTTPError (StatusCode resp) (RespBody resp)))
          else match result with
               | None => (zero, None)
               | Some d =>
                   let '(v, e) := Unmarshal d (RespBody resp) zero in
                   (v, wrapf "unmarshal response: " <$> e)
               end
      end
  end.

(** The answers that are tried again while attempts are left. *)
Definition retryable (answer : res Response) : bool :=
  match answer with
  | Err err => isRetryableError err
  | Ok resp => match ReadErr resp with Some _ => true | None => isRetryableStatus (StatusCode resp) end
  end.

(** The loop from [attempt], with [n] iterations left. *)
Fixpoint retry_loop (n : nat) (attempt : Z) : M W (A * option error) :=
  match n with
  | O => mret (zero, Some (ErrorString ("request " +:+ method +:+ " " +:+ path +:+ ": exhausted "
                                        +:+ itoa (MaxRetries cfg) +:+ " retries")))
  | S n' =>
      done ← (if (0 <? attempt)%Z then SelectAfter ctx (delay cfg attempt) else mret None);
      match done with
      | Some err => mret (zero, Some err)
      | None =>
          match NewRequest httpClient method (baseURL +:+ path) with
          | Some err => mret (zero, Some (wrapf "create request: " err))
          | None =>
              answer ← Do httpClient ctx request;
              if retryable answer && (attempt <? MaxRetries cfg)%Z
              then retry_loop n' (attempt + 1)
              else mret (conclude answer)
          end
      end
  end.

End Retry.

(** A body that cannot be encoded is an error before anything is sent. *)
Definition doWithRetry {A} (ctx : Context) (method path : string) (body : option (res json))
    (result : option (decoder A)) (zero : A) (cfg : RetryConfig) : M W (A * option error) :=
  let run body := retry_loop ctx method path body result zero cfg (Z.to_nat (MaxRetries cfg + 1)) 0 in
  match body with
  | Some (Err err) => mret (zero, Some (wrapf "marshal request body: " err))
  | Some (Ok data) => run (Some data)
  | None => run None
  end.

Definition Enroll (ctx : Context) (req : EnrollRequest) : M W (EnrollResponse * option error) :=
  doWithRetry ctx MethodPost "/internal/agent/v1/enroll" (Some (Ok (enc_EnrollRequest req)))
    (Some dec_EnrollResponse) (mkEnrollResponse "" "" "") DefaultRetryConfig.

(** The request is given as its encoding, which fails when a metric is not a
    number. *)
Definition Heartbeat (ctx : Context) (req : res json) : M W (bool * option error) :=
  doWithRetry ctx MethodPost "/internal/agent/v1/heartbeat" (Some req)
    (Some dec_HeartbeatResponse) false DefaultRetryConfig.

Definition ClaimOperation (ctx : Context) (nodeID : string) : M W (option Operation * option error) :=
  doWithRetry ctx MethodPost "/internal/agent/v1/operations/claim" (Some (Ok (enc_ClaimRequest nodeID)))
    (Some dec_ClaimResponse) None DefaultRetryConfig.

Definition CompleteOperation (ctx : Context) (opID : string) (req : CompleteRequest) : M W (option error) :=
  r ← doWithRetry ctx MethodPost ("/internal/agent/v1/operations/" +:+ opID +:+ "/complete")
        (Some (Ok (enc_CompleteRequest req))) (A := unit) None tt DefaultRetryConfig;
  mret r.2.
End Client.

(** A body that is encoded starts the loop. *)
Lemma doWithRetry_body {W} `{Timer W} (h : HttpClient W) baseURL {A} ctx method path body
    (result : option (decoder A)) zero cfg :
  doWithRetry h baseURL ctx method path (Ok <$> body) result zero cfg
  = retry_loop h baseURL ctx method path body result zero cfg (Z.to_nat (MaxRetries cfg + 1)) 0.
Proof. by destruct body. Qed.

(** What a call returns is what its decoder makes of the zero value. *)
Lemma retry_loop_yields {W} `{Timer W} (h : HttpClient W) baseURL {A} ctx method path body
    (d : decoder A) zero cfg (P : A → Prop) n attempt w :
  yields d P → P zero → P (retry_loop h baseURL ctx method path body (Some d) zero cfg n attempt w).1.1.
Proof.
  intros Hd Hz. revert attempt w. induction n as [|n IH]; intros attempt w; [done|].
  cbn [retry_loop]. unfold mbind, M_bind, mret, M_ret.
  match goal with |- context [(if ?b then ?x else ?y) w] => destruct ((if b then x else y) w) as [[err|] w1] end; [done|].
  destruct (NewRequest h method _); [done|]. destruct (Do h ctx _ w1) as [answer w2].
  destruct (retryable answer && _); [apply IH|]. cbn [fst]. unfold conclude. destruct answer as [resp|]; [|done].
  destruct (ReadErr resp); [done|]. destruct (400 <=? StatusCode resp)%Z; [done|].
  pose proof (Unmarshal_yields d (RespBody resp) zero P Hd Hz) as Hy. by destruct (Unmarshal d _ zero).
Qed.

(** The controller's answer is text. *)
Lemma Enroll_text {W} `{Timer W} (h : HttpClient W) baseURL ctx req (w : W) :
  valid_utf8 (NodeID (Enroll h baseURL ctx req w).1.1) = true.
Proof.
  unfold Enroll. rewrite (doWithRetry_body h baseURL _ _ _ (Some (enc_EnrollRequest req))).
  apply (retry_loop_yields _ _ _ _ _ _ _ _ _ (λ r, valid_utf8 (NodeID r) = true)); [|done].
  unfold dec_EnrollResponse. apply yields_struct. repeat (apply List.Forall_cons; [|]); [| | |apply List.Forall_nil].
  - eapply yields_field; [exact yields_string|done|done].
  - eapply (yields_field _ _ _ _ (λ _, True)); [done|done|done].
  - eapply (yields_field _ _ _ _ (λ _, True)); [done|done|done].
Qed.

(** ** What is sent *)

(** Round [i] of the loop waits, except the first one, and sends the request. *)
Definition round (cfg : RetryConfig) (r : Request) (i : Z) : list event :=
  (if (0 <? i)%Z then [Waited (delay cfg i)] else []) ++ [Sent r].

Definition schedule (cfg : RetryConfig) (r : Request) (from : Z) (rounds : nat) : list event :=
  concat (map (round cfg r) (seqZ from (Z.of_nat rounds))).

Lemma schedule_S cfg r from n :
  schedule cfg r from (S n) = round cfg r from ++ schedule cfg r (from + 1) n.
Proof.
  unfold schedule. rewrite seqZ_cons by lia. cbn [map concat].
  do 4 f_equal; lia.
Qed.

(** The wait before retry [attempt] where nothing wraps around. *)
Lemma delay_explicit cfg attempt :
  (0 ≤ BaseDelay cfg)%Z → (1 ≤ attempt)%Z → (BaseDelay cfg * 2 ^ (attempt - 1) < 2 ^ 63)%Z →
  delay cfg attempt = (BaseDelay cfg * 2 ^ (attempt - 1))%Z.
Proof.
  intros Hb Ha Hfit. unfold delay. rewrite Z.shiftl_1_l.
  destruct (decide (BaseDelay cfg = 0)%Z) as [->|Hne]; [by rewrite !Z.mul_0_l|].
  assert (0 < 2 ^ (attempt - 1))%Z by (apply Z.pow_pos_nonneg; lia).
  rewrite (wrap64_id (2 ^ (attempt - 1))) by (apply in_int64_spec; unfold int64_min, int64_max; nia).
  apply wrap64_id, in_int64_spec. unfold int64_min, int64_max. nia.
Qed.

Lemma delay_fits cfg attempt :
  (0 ≤ BaseDelay cfg)%Z → (BaseDelay cfg * 2 ^ MaxRetries cfg < 2 ^ 63)%Z → (1 ≤ attempt ≤ MaxRetries cfg)%Z →
  (BaseDelay cfg * 2 ^ (attempt - 1) < 2 ^ 63)%Z.
Proof.
  intros Hb Hfit Ha. assert (2 ^ (attempt - 1) ≤ 2 ^ MaxRetries cfg)%Z by (apply Z.pow_le_mono_r; lia). nia.
Qed.

(** The schedule in closed form, from retry [S from] and from the start. *)
Lemma schedule_from cfg r from k :
  (0 ≤ BaseDelay cfg)%Z → (BaseDelay cfg * 2 ^ MaxRetries cfg < 2 ^ 63)%Z →
  (Z.of_nat from + Z.of_nat k ≤ MaxRetries cfg)%Z →
  schedule cfg r (Z.of_nat (S from)) k
  = flat_map (λ i, [Waited (BaseDelay cfg * 2 ^ Z.of_nat i); Sent r]) (seq from k).
Proof.
  intros Hb Hfit. revert from. induction k as [|k IH]; intros from Hk; [done|].
  rewrite schedule_S. cbn [seq flat_map]. unfold round. rewrite (proj2 (Z.ltb_lt 0 (Z.of_nat (S from)))) by lia.
  rewrite delay_explicit by (done || lia || (apply delay_fits; done || lia)).
  replace (Z.of_nat (S from) - 1)%Z with (Z.of_nat from) by lia. cbn [app]. do 2 f_equal.
  replace (Z.of_nat (S from) + 1)%Z with (Z.of_nat (S (S from))) by lia. apply IH. lia.
Qed.

Lemma schedule_explicit cfg r k :
  (0 ≤ BaseDelay cfg)%Z → (BaseDelay cfg * 2 ^ MaxRetries cfg < 2 ^ 63)%Z → (Z.of_nat k ≤ MaxRetries cfg)%Z →
  schedule cfg r 0 (S k)
  = Sent r :: flat_map (λ i, [Waited (BaseDelay cfg * 2 ^ Z.of_nat i); Sent r]) (seq 0 k).
Proof.
  intros Hb Hfit Hk. rewrite schedule_S. cbn [round Z.ltb Z.compare app]. f_equal.
  by apply (schedule_from cfg r 0).
Qed.

Section Trace.
Context {W : Type} `{Timer W} (h : HttpClient W) (baseURL : string) {A : Type}.
Variables (ctx : Context) (method path : string) (body : option json)
  (result : option (decoder A)) (zero : A) (cfg : RetryConfig).

Lemma retry_loop_trace n attempt w tr :
  NewRequest h method (baseURL +:+ path) = None → (0 ≤ attempt)%Z →
  let r := request baseURL method path body in
  let tr' := (retry_loop (tracing h) baseURL ctx method path body result zero cfg n attempt (w, tr)).2.2 in
  ∃ m, m ≤ n ∧
    (((n = 0 ∨ 1 ≤ m) ∧ tr' = tr ++ schedule cfg r attempt m) ∨
     (m < n ∧ (0 < attempt + Z.of_nat m)%Z ∧
      tr' = tr ++ schedule cfg r attempt m ++ [Waited (delay cfg (attempt + Z.of_nat m))])).
Proof.
  intros Hnew. revert attempt w tr. induction n as [|n IH]; intros attempt w tr Ha; cbv zeta.
  { exists 0. split; [lia|]. left. split; [by left|]. by rewrite app_nil_r. }
  cbn [retry_loop]. unfold mbind, M_bind, mret, M_ret.
  set (pre := if (0 <? attempt)%Z then _ else _).
  assert (∃ o w1, pre (w, tr) = (o, (w1, tr ++ if (0 <? attempt)%Z then [Waited (delay cfg attempt)] else []))
            ∧ (o ≠ None → (0 < attempt)%Z)) as (o & w1 & -> & Ho).
  { unfold pre. destruct (Z.ltb_spec 0 attempt) as [Hlt|]; cbn [SelectAfter tracing_timer fst snd].
    - destruct (SelectAfter ctx (delay cfg attempt) w) as [o w1]. by exists o, w1.
    - exists None, w. rewrite app_nil_r. by split. }
  destruct o as [err|].
  { specialize (Ho ltac:(done)). exists 0. split; [lia|]. right. split_and!; [lia|lia|].
    cbn [fst snd]. rewrite Z.add_0_r. destruct (Z.ltb_spec 0 attempt); [done|lia]. }
  cbn [NewRequest tracing]. rewrite Hnew. cbn [Do tracing fst snd].
  destruct (Do h ctx _ w1) as [answer w2].
  assert (Hround : ∀ x, (tr ++ (if (0 <? attempt)%Z then [Waited (delay cfg attempt)] else [])) ++ [Sent x]
                        = tr ++ round cfg x attempt) by (intros x; unfold round; by rewrite app_assoc).
  rewrite Hround. destruct (retryable answer && _).
  - destruct (IH (attempt + 1)%Z w2 (tr ++ round cfg (request baseURL method path body) attempt) ltac:(lia))
      as (m & Hm & [(Hn & ->)|(Hlt & Hpos & ->)]); exists (S m); split; try lia; rewrite schedule_S.
    + left. split; [lia|]. by rewrite !app_assoc.
    + right. split_and!; [lia|lia|]. rewrite !app_assoc. do 4 f_equal. lia.
  - exists 1. split; [lia|]. left. split; [lia|]. cbn [fst snd]. rewrite schedule_S.
    unfold schedule at 1. cbn. by rewrite app_nil_r.
Qed.
End Trace.

Lemma retry_loop_script {A} baseURL ctx method path body (result : option (decoder A)) zero cfg
    (i : nat) n attempt answers a :
  (0 ≤ attempt)%Z → (attempt + Z.of_nat i ≤ MaxRetries cfg)%Z → i < n →
  (∀ j b, j < i → answers !! j = Some b → retryable b = true) →
  answers !! i = Some a →
  (attempt + Z.of_nat i = MaxRetries cfg)%Z ∨ retryable a = false →
  retry_loop scripted baseURL ctx method path body result zero cfg n attempt answers
  = (conclude method path result zero a, drop (S i) answers).
Proof.
  revert n attempt answers. induction i as [|i IH]; intros n attempt answers Hatt Hmax Hn Hpre Hi Hlast;
    (destruct n as [|n]; [lia|]); (destruct answers as [|b answers]; [done|]);
    cbn [retry_loop]; unfold mbind, M_bind, mret, M_ret.
  - simplify_eq/=. destruct (0 <? attempt)%Z; cbn [SelectAfter firing_timer NewRequest scripted Do];
      (destruct Hlast as [Heq|Hr]; [rewrite (proj2 (Z.ltb_ge _ _)) by lia; by rewrite andb_false_r|by rewrite Hr]).
  - assert (Hb : retryable b = true) by (apply (Hpre 0); [lia|done]).
    assert (Hlt : (attempt <? MaxRetries cfg)%Z = true) by (apply Z.ltb_lt; lia).
    destruct (0 <? attempt)%Z; cbn [SelectAfter firing_timer NewRequest scripted Do];
      rewrite Hb, Hlt; cbn [andb]; apply (IH n (attempt + 1)%Z answers); try done; try lia;
      try (intros j b' Hj Hb'; apply (Hpre (S j)); [lia|done]);
      (destruct Hlast as [Heq|Hr]; [left; lia|by right]).
Qed.
End api.

(** ** Properties *)

(** C9: Every call whose URL is accepted sends its request at once; after that
    it waits [BaseDelay], twice that, four times that and so on, and sends the
    same request again after each wait, at most [MaxRetries] times; nothing
    else is sent, whatever the answers are.  The last wait may be cut short by
    the context, and then nothing follows it.  This holds as long as the
    longest wait fits 64 bits. *)
Theorem doWithRetry_schedule {W} `{Timer W} {A} (h : HttpClient W) (baseURL method path : string) (ctx : Context)
    (body : option json) (result : option (decoder A)) (zero : A) (cfg : api.RetryConfig) (w : W)
    (Hmax : (0 ≤ api.MaxRetries cfg)%Z) (Hbase : (0 ≤ api.BaseDelay cfg)%Z)
    (Hfit : (api.BaseDelay cfg * 2 ^ api.MaxRetries cfg < 2 ^ 63)%Z)
    (Hnew : NewRequest h method (baseURL +:+ path) = None) :
  let r := mkRequest method (baseURL +:+ path) true (Marshal <$> body) in
  let wait k := Waited (api.BaseDelay cfg * 2 ^ Z.of_nat k)%Z in
  let sent k := Sent r :: flat_map (λ i, [wait i; Sent r]) (seq 0 k) in
  let events := (api.doWithRetry (tracing h) baseURL ctx method path (Ok <$> body) result zero cfg (w, [])).2.2 in
  ∃ k : nat, (Z.of_nat k ≤ api.MaxRetries cfg)%Z ∧
    (events = sent k ∨ (Z.of_nat k < api.MaxRetries cfg)%Z ∧ events = sent k ++ [wait k]).
Proof.
  cbv zeta. rewrite api.doWithRetry_body.
  destruct (api.retry_loop_trace h baseURL ctx method path body result zero cfg
              (Z.to_nat (api.MaxRetries cfg + 1)) 0 w [] Hnew ltac:(lia)) as (m & Hm & [(Hn & ->)|(Hlt & Hpos & ->)]);
    (destruct m as [|k]; [lia|]); exists k; (split; [lia|]); rewrite api.schedule_explicit by lia; [by left|].
  right. split; [lia|]. rewrite api.delay_explicit by (lia || (apply api.delay_fits; lia)).
  by replace (0 + Z.of_nat (S k) - 1)%Z with (Z.of_nat k) by lia.
Qed.

(** C10: The answer that decides: with waits that are not cut short, the call
    concludes from the first answer that is not to be tried again, or from the
    answer number [MaxRetries + 1]; earlier answers leave no trace and later
    ones are not asked for.  So the loop never ends with its error about
    exhausted retries. *)
Theorem doWithRetry_decides {A} (baseURL method path : string) (ctx : Context) (body : option json)
    (result : option (decoder A)) (zero : A) (cfg : api.RetryConfig) (answers : list (res Response))
    (i : nat) (a : res Response)
    (Hi : answers !! i = Some a) (Hmax : (Z.of_nat i ≤ api.MaxRetries cfg)%Z)
    (Hpre : ∀ j b, j < i → answers !! j = Some b → api.retryable b = true)
    (Hlast : Z.of_nat i = api.MaxRetries cfg ∨ api.retryable a = false) :
  api.doWithRetry scripted baseURL ctx method path (Ok <$> body) result zero cfg answers
  = (api.conclude method path result zero a, drop (S i) answers).
Proof. rewrite api.doWithRetry_body. apply api.retry_loop_script; try done; try lia. Qed.


(** The waits double: as long as [BaseDelay * 2^(attempt-1)] fits 64 bits
    it is the wait before retry [attempt], and with the default configuration
    the five waits are 1, 2, 4, 8 and 16 seconds. *)
Theorem delay_doubles (cfg : api.RetryConfig) (attempt : Z)
    (Ha : (1 ≤ attempt ≤ 63)%Z)
    (Hb : (0 ≤ api.BaseDelay cfg)%Z) (Hfit : (api.BaseDelay cfg * 2 ^ (attempt - 1) < 2 ^ 63)%Z) :
  api.delay cfg attempt = (api.BaseDelay cfg * 2 ^ (attempt - 1))%Z ∧
  map (api.delay api.DefaultRetryConfig) [1; 2; 3; 4; 5]%Z = map (Z.mul Second) [1; 2; 4; 8; 16]%Z.
Proof. split; [apply api.delay_explicit; [done|lia|done]|reflexivity]. Qed.

(** *** The theorems at concrete calls *)

Definition http_status (code : Z) (body : string) : res Response := Ok (mkResponse code body None).

Lemma doWithRetry_schedule_witness :
  let r := mkRequest "POST" "https://panel/x" true None in
  let wait k := Waited (Second * 2 ^ Z.of_nat k)%Z in
  let sent k := Sent r :: flat_map (λ i, [wait i; Sent r]) (seq 0 k) in
  let events := (api.doWithRetry (tracing scripted) "https://panel" Background "POST" "/x" None
                   (A := unit) None tt api.DefaultRetryConfig
                   ([http_status 503 ""; http_status 429 ""; http_status 500 ""; http_status 200 ""], [])).2.2 in
  events = [Sent r; Waited (1 * Second); Sent r; Waited (2 * Second); Sent r; Waited (4 * Second); Sent r] ∧
  ∃ k : nat, (Z.of_nat k ≤ 5)%Z ∧
    (events = sent k ∨ (Z.of_nat k < 5)%Z ∧ events = sent k ++ [wait k]).
Proof.
  cbv zeta. split; [vm_compute; reflexivity|].
  apply (doWithRetry_schedule scripted "https://panel" "POST" "/x" Background None None tt api.DefaultRetryConfig);
    [vm_compute; discriminate|vm_compute; discriminate|vm_compute; reflexivity|reflexivity].
Defined.

Lemma doWithRetry_decides_witness :
  api.doWithRetry scripted "https://panel" Background "POST" "/x" None (A := unit) None tt api.DefaultRetryConfig
    [http_status 503 "busy"; http_status 404 "no"; http_status 200 ""]
  = ((tt, Some (HTTPError 404 "no")), [http_status 200 ""]).
Proof.
  apply (doWithRetry_decides "https://panel" "POST" "/x" Background None None tt api.DefaultRetryConfig
           [http_status 503 "busy"; http_status 404 "no"; http_status 200 ""] 1 (http_status 404 "no")); [reflexivity|vm_compute; discriminate| |right; reflexivity].
  intros [|j] b Hj; [|lia]. intros [= <-]. reflexivity.
Defined.

Lemma delay_doubles_witness :
  api.delay (api.mkRetryConfig 9 Millisecond) 7 = (Millisecond * 64)%Z ∧
  map (api.delay api.DefaultRetryConfig) [1; 2; 3; 4; 5]%Z = map (Z.mul Second) [1; 2; 4; 8; 16]%Z.
Proof.
  apply (delay_doubles (api.mkRetryConfig 9 Millisecond) 7);
    [split; vm_compute; discriminate|vm_compute; discriminate|vm_compute; reflexivity].
Defined.

(** A refused connection is final at the first attempt. *)
Example refused_is_final :
  (api.doWithRetry scripted "https://panel" Background "POST" "/x" None (A := unit) None tt api.DefaultRetryConfig
     [Err (URLError "Post" "https://panel/x" (NetError "connect: connection refused" false false));
      http_status 200 ""]).2 = [http_status 200 ""].
Proof. reflexivity. Qed.
