(* ===== verification/State.v ===== *)
(** * State: internal/state/state.go.

    The agent's state is a JSON file; it is replaced through a temporary file
    and a rename.  The theorems follow the file system through every call, so
    they cover a crash between any two of them. *)

From Stdlib Require Import Ascii NArith ZArith.
From S2P Require Import Prelude GoStrings Utf8 GoFmt GoPath GoError GoOs Json JsonRoundTrip.

Module state.

(** [path] is the unexported field; a nil map never survives [LoadState]. *)
Record AgentState : Type := mkAgentState {
  NodeID : string;
  CertPath : string;
  KeyPath : string;
  LastKnownRevisions : gmap string Z;
  path : string;
}.

Definition dec_AgentState : decoder AgentState := dec_struct "AgentState" "state.AgentState"
  [ mk_field "node_id" dec_string NodeID
      (λ v s, mkAgentState v (CertPath s) (KeyPath s) (LastKnownRevisions s) (path s));
    mk_field "cert_path" dec_string CertPath
      (λ v s, mkAgentState (NodeID s) v (KeyPath s) (LastKnownRevisions s) (path s));
    mk_field "key_path" dec_string KeyPath
      (λ v s, mkAgentState (NodeID s) (CertPath s) v (LastKnownRevisions s) (path s));
    mk_field "last_known_revisions" (dec_map "map[string]int" 0%Z (dec_int "int")) LastKnownRevisions
      (λ v s, mkAgentState (NodeID s) (CertPath s) (KeyPath s) v (path s)) ].

(** A map is written with its keys sorted. *)
Definition enc_revisions (m : gmap string Z) : json :=
  JObj (foldr (λ kv : string * Z, map_set kv.1 (enc_int kv.2)) [] (map_to_list m)).

Definition enc_AgentState (s : AgentState) : json := JObj (
  member "node_id" (enc_string (NodeID s)) ++
  member "cert_path" (enc_string (CertPath s)) ++
  member "key_path" (enc_string (KeyPath s)) ++
  member "last_known_revisions" (enc_revisions (LastKnownRevisions s))).

Definition empty_state (path : string) : AgentState := mkAgentState "" "" "" ∅ path.

Section State.
Context {W : Type} `{FileSystem W}.

Definition LoadState (p : string) : M W (res AgentState) :=
  r ← ReadFile p;
  match r with
  | Err err =>
      if errors_Is is_NotExist err then mret (Ok (empty_state p))
      else mret (Err (wrapf ("read state file " +:+ p +:+ ": ") err))
  | Ok data =>
      match Unmarshal dec_AgentState data (empty_state p) with
      | (_, Some err) => mret (Err (wrapf ("parse state file " +:+ p +:+ ": ") err))
      | (s, None) => mret (Ok s)
      end
  end.

(** How [Save] reports the error of a call. *)
Definition save_error (what : string) (err : error) : error := wrapf ("state: " +:+ what +:+ " temp: ") err.

Definition Save (s : AgentState) : M W (res unit) :=
  if String.eqb (path s) "" then mret (Err (ErrorString "state: no path set — was LoadState called?")) else
  let data := MarshalIndent (enc_AgentState s) in
  tmpPath <- CreateTemp (Dir (path s)) ".routestack-state-*.tmp" orelse save_error "create" ;;
  _ <- fill_temp save_error tmpPath data mode_0600 orelse id ;;
  r ← Rename tmpPath (path s);
  match r with
  | Err err => discard false tmpPath (wrapf ("state: rename temp → " +:+ path s +:+ ": ") err)
  | Ok _ => mret (Ok tt)
  end.

Definition exists_ (p : string) : M W bool := r ← Stat p; mret (is_ok r).

Definition IsEnrolled (s : AgentState) : M W bool :=
  if String.eqb (NodeID s) "" || String.eqb (CertPath s) "" || String.eqb (KeyPath s) "" then mret false else
  cert ← exists_ (CertPath s);
  if (cert : bool) then exists_ (KeyPath s) else mret false.
End State.

(** ** Lemmas: the file's content *)

Lemma map_set_perm k v m : k ∉ m.*1 → map_set k v m ≡ₚ (k, v) :: m.
Proof.
  induction m as [|[k1 v1] m IH]; intros Hk; cbn [map_set]; [done|].
  rewrite fmap_cons, not_elem_of_cons in Hk. destruct Hk as [Hne Hk].
  destruct (String.compare k k1) eqn:E; [|done|].
  - by apply String.compare_eq_iff in E.
  - rewrite IH by done. constructor.
Qed.

Definition enc_entry (kv : string * Z) : string * json := (kv.1, enc_int kv.2).

Lemma revisions_perm (l : list (string * Z)) :
  NoDup l.*1 → foldr (λ kv : string * Z, map_set kv.1 (enc_int kv.2)) [] l ≡ₚ map enc_entry l.
Proof.
  induction l as [|[k z] l IH]; [done|]. rewrite fmap_cons, NoDup_cons. intros [Hk Hnd].
  cbn [foldr map fst snd]. rewrite map_set_perm; [by rewrite IH|].
  intros Hin. apply Hk. rewrite IH in Hin by done.
  replace (map enc_entry l).*1 with l.*1 in Hin; [done|]. clear. induction l; simpl; by f_equal.
Qed.

(** Inserting the entries of an encoded map, in any order. *)
Lemma dec_map_entries st path (kvs : list (string * json)) (l : list (string * Z)) (m0 : gmap string Z) :
  kvs ≡ₚ map enc_entry l → NoDup l.*1 → (∀ kv, kv ∈ l → in_int64 kv.2 = true) → m0 = ∅ →
  dec_map "map[string]int" 0%Z (dec_int "int") st path (JObj kvs) m0 = (list_to_map l, None).
Proof.
  intros Hp Hnd Hin ->. unfold dec_map.
  assert (∃ l', kvs = map enc_entry l' ∧ l' ≡ₚ l) as (l' & -> & Hl').
  { apply Permutation_map_inv in Hp as (l' & -> & ?). exists l'. by split. }
  assert (Hnd' : NoDup l'.*1) by (by rewrite Hl').
  rewrite <-(list_to_map_proper l' l Hnd' Hl').
  assert (Hin' : ∀ kv, kv ∈ l' → in_int64 kv.2 = true) by (intros kv ?; apply Hin; by rewrite <-Hl').
  clear Hp Hnd Hin Hl' l. rewrite <-(map_union_empty (list_to_map l')). generalize (∅ : gmap string Z) as m.
  induction l' as [|[k z] l IH]; intros m; cbn [map fold_left]; [by rewrite list_to_map_nil, map_empty_union|].
  rewrite fmap_cons, NoDup_cons in Hnd'. destruct Hnd' as [Hk Hnd].
  unfold enc_entry at 2, enc_int. cbn [fst snd dec_int]. rewrite ParseInt_itoa by (apply (Hin' (k, z)); by left).
  cbn [first_error]. rewrite IH; [|done|intros kv ?; apply Hin'; by right]. f_equal.
  simpl. rewrite <-insert_union_l. symmetry. apply insert_union_r. by apply not_elem_of_list_to_map_1.
Qed.

(** What can be stored: valid text and 64-bit revisions. *)
Definition storable (s : AgentState) : Prop :=
  valid_utf8 (NodeID s) = true ∧ valid_utf8 (CertPath s) = true ∧ valid_utf8 (KeyPath s) = true ∧
  ∀ k z, LastKnownRevisions s !! k = Some z → valid_utf8 k = true ∧ in_int64 z = true.

Lemma yields_AgentState : yields dec_AgentState storable.
Proof.
  unfold dec_AgentState. apply yields_struct. repeat (apply List.Forall_cons; [|]); [| | | |apply List.Forall_nil];
    [eapply yields_field; [exact yields_string|..]..|eapply yields_field; [apply yields_map; [apply yields_int|done]|..]];
    unfold storable; simpl; naive_solver.
Qed.

(** Whatever the state file holds, what is loaded can be stored. *)
Lemma LoadState_storable {W} `{FileSystem W} p (w : W) st : (LoadState p w).1 = Ok st → storable st.
Proof.
  assert (H0 : storable (empty_state p)) by (split_and!; try done; intros k z Hk; by rewrite lookup_empty in Hk).
  unfold LoadState, mbind, M_bind, mret, M_ret. destruct (ReadFile p w) as [[data|e] w1]; cbn [fst].
  - pose proof (Unmarshal_yields _ data (empty_state p) _ yields_AgentState H0) as Hy.
    destruct (Unmarshal _ data _) as [s [e|]]; [done|]. by intros [= <-].
  - destruct (errors_Is is_NotExist e); [|done]. by intros [= <-].
Qed.

Lemma revisions_ok (m : gmap string Z) :
  (∀ k z, m !! k = Some z → valid_utf8 k = true ∧ in_int64 z = true) → json_ok (enc_revisions m).
Proof.
  intros Hm. unfold enc_revisions. cbn [json_ok]. apply foldr_and_Forall.
  rewrite revisions_perm by apply NoDup_fst_map_to_list. apply Forall_map, Forall_forall.
  intros [k z] Hin%elem_of_map_to_list. cbn [enc_entry fst snd]. split; [by apply (Hm k z)|].
  apply json_number_itoa.
Qed.

Lemma nesting_revisions m : nesting (enc_revisions m) ≤ 1.
Proof.
  unfold enc_revisions. cbn [nesting]. apply le_n_S. apply foldr_max_Forall.
  rewrite revisions_perm by apply NoDup_fst_map_to_list. by apply Forall_map, Forall_true.
Qed.

Lemma Unmarshal_state s p :
  storable s → Unmarshal dec_AgentState (MarshalIndent (enc_AgentState s)) (empty_state p)
  = (mkAgentState (NodeID s) (CertPath s) (KeyPath s) (LastKnownRevisions s) p, None).
Proof.
  intros (Hn & Hc & Hk & Hr). unfold Unmarshal. rewrite parse_MarshalIndent.
  - unfold enc_AgentState, dec_AgentState, member, enc_string. cbn [app].
    set (rv := LastKnownRevisions s) in *. clearbody rv.
    assert (Hd : dec_map "map[string]int" 0%Z (dec_int "int") "AgentState" ["last_known_revisions"] (enc_revisions rv) ∅
                 = (rv, None)).
    { rewrite <-(list_to_map_to_list rv) at 2. apply dec_map_entries; try done.
      - apply revisions_perm, NoDup_fst_map_to_list.
      - apply NoDup_fst_map_to_list.
      - intros [k z] Hin%elem_of_map_to_list. by apply (Hr k z). }
    unfold dec_struct.
    do 3 (erewrite dec_members_step; [|reflexivity|reflexivity]).
    erewrite dec_members_step; [reflexivity|reflexivity|]. unfold mk_field. cbn [snd app LastKnownRevisions empty_state].
    by rewrite Hd.
  - unfold enc_AgentState, member, enc_string. cbn [app json_ok foldr fst snd]. split_and!; try done.
    by apply revisions_ok.
  - unfold enc_AgentState, member, enc_string. cbn [app nesting foldr snd].
    pose proof (nesting_revisions (LastKnownRevisions s)). unfold max_nesting. lia.
Qed.

(** Decoding leaves the path alone. *)
Lemma Unmarshal_path data p : path (Unmarshal dec_AgentState data (empty_state p)).1 = p.
Proof.
  unfold Unmarshal. destruct (parse_document data) as [j|m]; [|done]. apply (dec_struct_keeps path).
  intros f Hf st pa j' s. repeat (apply elem_of_cons in Hf as [->|Hf]; [unfold mk_field; cbn [snd]; by repeat case_match|]).
  by apply elem_of_nil in Hf.
Qed.

(** ** Lemmas: the file system *)

Section Atomic.
Context {W : Type} {FS : FileSystem W} {FI : Files W}.

Lemma Save_unwatched s w log : unwatched (Save s (w, log)) = Save s w.
Proof.
  unfold Save. destruct (String.eqb (path s) ""); [done|]. unfold try_or at 1 3.
  cbn [CreateTemp watching]. unfold watched. cbn [fst snd].
  destruct (CreateTemp _ _ w) as [[tmp|e] w1]; [|done]. unfold try_or.
  pose proof (fill_temp_unwatched save_error tmp (MarshalIndent (enc_AgentState s)) mode_0600 w1 (log ++ [w1])) as HF.
  destruct (fill_temp _ _ _ _ (w1, _)) as [r2 [w2 log2]]. unfold unwatched in HF. cbn [fst snd] in HF. rewrite <-HF.
  destruct r2 as [[]|e]; [|done]. unfold mbind, M_bind, mret, M_ret. cbn [Rename watching]. unfold watched. cbn [fst snd].
  destruct (Rename tmp (path s) w2) as [[[]|e] w3]; [done|]. apply discard_unwatched.
Qed.
End Atomic.
End state.

(** ** Properties *)

Section Properties.
Context {W : Type} {FS : FileSystem W} {FI : Files W}.

(** The run of [Save]: what is seen on the way, and at the end. *)
Lemma Save_run (s : state.AgentState) (w : W)
    (Hpath : HasSuffix (state.path s) temp_suffix = false) :
  let new := (MarshalIndent (state.enc_AgentState s), mode_0600) in
  let run := state.Save s (w, []) in
  (∀ w', w' ∈ run.2.2 → intact (state.path s) new w w') ∧
  intact (state.path s) new w run.2.1 ∧
  files run.2.1 !! state.path s = (if is_ok run.1 then Some new else files w !! state.path s).
Proof.
  cbv zeta. unfold state.Save. destruct (String.eqb_spec (state.path s) "") as [|Hne].
  { split; [|split; [by apply intact_same|done]]. intros w' Hin. by apply elem_of_nil in Hin. }
  set (data := MarshalIndent _). unfold try_or at 1 3 5 7. cbn [CreateTemp watching]. unfold watched. cbn [fst snd].
  pose proof (create_spec (Dir (state.path s)) ".routestack-state-" w) as HC.
  assert (E : ".routestack-state-" +:+ "*" +:+ temp_suffix = ".routestack-state-*.tmp") by reflexivity.
  rewrite E in HC.
  destruct (CreateTemp _ _ w) as [[tmp|e] w1]; cbn [fst snd app] in *.
  2: { split; [|split; [by apply intact_same|by rewrite HC]]. intros w' Hin%list_elem_of_singleton. subst w'. by apply intact_same. }
  destruct HC as (Hfree & Hsuf & H1).
  assert (Hneq : state.path s ≠ tmp) by congruence.
  assert (F1 : framed tmp w w1) by by eapply framed_insert.
  destruct (fill_temp_passes state.save_error tmp data mode_0600 w1 [w1] mode_0600) as [(more & Hlog & Hall & Hend) Hfill];
    [rewrite H1; apply lookup_insert_eq|].
  unfold try_or. destruct (fill_temp state.save_error tmp data mode_0600 (w1, [w1])) as [r2 [w2 log]]; cbn [fst snd] in *.
  subst log. assert (F2 : framed tmp w w2) by by eapply framed_trans.
  assert (Hbefore : ∀ w', w' ∈ [w1] ++ more → intact (state.path s) (data, mode_0600) w w').
  { intros w' Hin. apply elem_of_app in Hin as [->%list_elem_of_singleton|Hin]; [by eapply intact_framed|].
    rewrite Forall_forall in Hall. eapply intact_framed; [done|done|done|]. apply (framed_trans tmp w w1 w'); [done|by apply Hall]. }
  destruct r2 as [[]|e]; cbn [fst snd id is_ok]; [|split; [done|split; [by apply (intact_framed tmp)|by eapply framed_lookup]]].
  specialize (Hfill eq_refl). unfold mbind, M_bind, mret, M_ret. cbn [Rename watching]. unfold watched. cbn [fst snd].
  pose proof (rename_spec tmp (state.path s) w2 _ Hfill) as HR.
  destruct (Rename tmp (state.path s) w2) as [[[]|e] w3]; cbn [fst snd is_ok] in *.
  - split; [|split; [by eapply intact_renamed|by rewrite HR, lookup_insert_eq]]. intros w' Hin. apply elem_of_app in Hin as [Hin|Hin].
    + by apply Hbefore.
    + apply list_elem_of_singleton in Hin as ->. by eapply intact_renamed.
  - assert (F3 : framed tmp w w3) by (eapply framed_trans; [done|by apply framed_eq]).
    set (err := wrapf _ e).
    destruct (discard_passes false tmp err w3 (([w1] ++ more) ++ [w3]) w F3) as [Hr (more' & Hlog & Hall' & Hend')].
    destruct (discard false tmp err (w3, _)) as [r4 [w4 log4]]; cbn [fst snd] in *. subst r4 log4.
    cbn [is_ok]. split; [|split; [by apply (intact_framed tmp)|by eapply framed_lookup]].
    intros w' Hin. rewrite (elem_of_app (_ ++ _)), elem_of_app in Hin. destruct Hin as [[Hin|Hin]|Hin].
    + by apply Hbefore.
    + apply list_elem_of_singleton in Hin as ->. by eapply intact_framed.
    + rewrite Forall_forall in Hall'. eapply intact_framed; [done|done|done|]. by apply Hall'.
Qed.

Lemma Save_file (s : state.AgentState) (w : W) (Hpath : HasSuffix (state.path s) temp_suffix = false) :
  intact (state.path s) (MarshalIndent (state.enc_AgentState s), mode_0600) w (state.Save s w).2 ∧
  files (state.Save s w).2 !! state.path s =
  (if is_ok (state.Save s w).1 then Some (MarshalIndent (state.enc_AgentState s), mode_0600)
   else files w !! state.path s).
Proof. rewrite <-(state.Save_unwatched s w []). apply (Save_run s w Hpath). Qed.

(** A state that was saved is what is read. *)
Lemma LoadState_saved (s : state.AgentState) (w : W) :
  state.storable s →
  files w !! state.path s = Some (MarshalIndent (state.enc_AgentState s), mode_0600) →
  is_ok (ReadFile (state.path s) w).1 = true → (state.LoadState (state.path s) w).1 = Ok s.
Proof.
  intros Hs Hfile Hread. unfold state.LoadState, mbind, M_bind, mret, M_ret.
  pose proof (read_ok (state.path s) w) as HR. destruct (ReadFile (state.path s) w) as [[data|e] w2]; [|done].
  cbn [fst] in HR. destruct HR as [m HR]. rewrite Hfile in HR. injection HR as <- <-.
  rewrite state.Unmarshal_state by done. by destruct s.
Qed.

(** C11: Saving is atomic: after every call [Save] makes to the file system,
    and so wherever a crash interrupts it, the state file has the content and
    mode it had before or exactly the new state with mode 0600, and no other
    file but the temporary one has changed; in the end it is the new state
    when [Save] returns nil and the old one when it returns an error. *)
Theorem Save_atomic (s : state.AgentState) (w : W)
    (Hpath : HasSuffix (state.path s) temp_suffix = false) :
  let new := (MarshalIndent (state.enc_AgentState s), mode_0600) in
  let run := state.Save s (w, []) in
  (∀ w', w' ∈ run.2.2 → intact (state.path s) new w w') ∧
  files run.2.1 !! state.path s = (if is_ok run.1 then Some new else files w !! state.path s).
Proof. destruct (Save_run s w Hpath) as (Hall & _ & Hend). by split. Qed.

(** C12: What was saved is what is loaded: after a successful [Save] of valid
    text and 64-bit revisions, [LoadState], if the file can be read, returns
    the same state. *)
Theorem Save_LoadState_roundtrip (s : state.AgentState) (w : W)
    (Hs : state.storable s) (Hpath : HasSuffix (state.path s) temp_suffix = false)
    (Hok : (state.Save s w).1 = Ok tt)
    (Hread : is_ok (ReadFile (state.path s) (state.Save s w).2).1 = true) :
  (state.LoadState (state.path s) (state.Save s w).2).1 = Ok s.
Proof.
  destruct (Save_file s w Hpath) as [_ Hfile]. rewrite Hok in Hfile. by apply LoadState_saved.
Qed.

(** An agent counts as enrolled exactly when it has an id and two paths,
    and both files can be found; a host without a state file has an empty
    state, which is not enrolled. *)
Theorem IsEnrolled_iff (s : state.AgentState) (p : string) (w : W) :
  ((state.IsEnrolled s w).1 = true ↔
   state.NodeID s ≠ "" ∧ state.CertPath s ≠ "" ∧ state.KeyPath s ≠ "" ∧
   is_ok (Stat (state.CertPath s) w).1 = true ∧
   is_ok (Stat (state.KeyPath s) (Stat (state.CertPath s) w).2).1 = true) ∧
  (files w !! p = None →
   (state.LoadState p w).1 = Ok (state.empty_state p) ∧
   (state.IsEnrolled (state.empty_state p) w).1 = false).
Proof.
  split.
  - unfold state.IsEnrolled, state.exists_, mbind, M_bind, mret, M_ret.
    destruct (String.eqb_spec (state.NodeID s) ""); [simpl; naive_solver|].
    destruct (String.eqb_spec (state.CertPath s) ""); [simpl; naive_solver|].
    destruct (String.eqb_spec (state.KeyPath s) ""); [simpl; naive_solver|]. cbn [orb].
    destruct (Stat (state.CertPath s) w) as [[[]|e] w1]; cbn [is_ok fst snd]; [|naive_solver].
    destruct (Stat (state.KeyPath s) w1) as [[[]|e] w2]; cbn [is_ok fst snd]; naive_solver.
  - intros Hp. split; [|done]. destruct (read_missing p w Hp) as (e & He & Hne).
    unfold state.LoadState, mbind, M_bind, mret, M_ret. destruct (ReadFile p w) as [r w1]. cbn [fst] in He.
    by rewrite He, Hne.
Qed.
End Properties.

(** *** The theorems at a concrete file system *)

Definition sample_state : state.AgentState :=
  state.mkAgentState "node-1" "/etc/routestack/agent/cert.pem" "/etc/routestack/agent/key.pem"
    {["web" := 7%Z; "db" := (-1)%Z]} "/var/lib/routestack/state.json".

Definition sample_fs : FileTable := {["/var/lib/routestack/state.json" := ("{}", mode_0600)]}.

Lemma Save_atomic_witness :
  let new := (MarshalIndent (state.enc_AgentState sample_state), mode_0600) in
  (state.Save sample_state (sample_fs, [])).1 = Ok tt ∧
  (∀ w', w' ∈ (state.Save sample_state (sample_fs, [])).2.2 →
     intact "/var/lib/routestack/state.json" new sample_fs w') ∧
  (state.Save sample_state (sample_fs, [])).2.1 !! "/var/lib/routestack/state.json" = Some new.
Proof.
  cbv zeta. split; [vm_compute; reflexivity|].
  pose proof (Save_atomic sample_state sample_fs eq_refl) as [Hc Hf]. split; [exact Hc|].
  etransitivity; [exact Hf|]. vm_compute. reflexivity.
Defined.

Lemma Save_LoadState_roundtrip_witness :
  (state.LoadState "/var/lib/routestack/state.json" (state.Save sample_state sample_fs).2).1 = Ok sample_state.
Proof.
  apply (Save_LoadState_roundtrip sample_state sample_fs).
  - split_and!; [reflexivity..|]. intros k z Hk.
    assert (forallb (λ kv : string * Z, valid_utf8 kv.1 && in_int64 kv.2)
              (map_to_list (state.LastKnownRevisions sample_state)) = true) as Hall by (vm_compute; reflexivity).
    rewrite forallb_True in Hall. apply elem_of_map_to_list in Hk. apply andb_true_iff. exact (Hall (k, z) Hk).
  - reflexivity.
  - vm_compute. reflexivity.
  - vm_compute. reflexivity.
Defined.
