(* ===== verification/Config.v ===== *)
(** * Config: internal/filesystem/paths.go and internal/agent/config.go.

    The canonical paths, the configuration with its defaults, and loading it.
    The YAML parser is third-party code and a parameter. *)

From Stdlib Require Import Ascii NArith ZArith.
From S2P Require Import Prelude GoStrings GoPath GoError GoOs.

Module filesystem.

Definition ConfigDir : string := "/etc/routestack".
Definition ServicesDir : string := "/etc/routestack/services".
Definition NftablesDir : string := "/etc/routestack/nftables".
Definition AgentConfigDir : string := "/etc/routestack/agent".
Definition BackupDir : string := "/var/lib/routestack/backups".
Definition StateFile : string := "/var/lib/routestack/state.json".
Definition ComponentsDir : string := "/var/lib/routestack/components".
Definition CertsDir : string := "/etc/letsencrypt".
Definition LockFilePath : string := "/etc/routestack/components.lock.yaml".
Definition SystemdDir : string := "/etc/systemd/system".
Definition LogDir : string := "/var/log/routestack".
Definition RunDir : string := "/run/routestack".

Definition DefaultCertPath : string := ConfigDir +:+ "/agent/cert.pem".
Definition DefaultKeyPath : string := ConfigDir +:+ "/agent/key.pem".

Definition AllowedWritePrefixes : list string :=
  [ServicesDir; NftablesDir; BackupDir; StateFile; ComponentsDir; CertsDir; SystemdDir; LogDir; RunDir].

End filesystem.

Module config.

Record AgentConfig : Type := mkAgentConfig { Version : string; NodeID : string }.

Record ControllerConfig : Type := mkControllerConfig {
  URL : string;
  CACertPath : string;
  HeartbeatIntervalSec : Z;
  OperationPollTimeoutSec : Z;
  ConnectTimeoutSec : Z;
  RequestTimeoutSec : Z;
}.

Record PathsConfig : Type := mkPathsConfig {
  ConfigDir : string;
  BackupDir : string;
  StateFile : string;
  LogFile : string;
  NftablesConfig : string;
}.

Record SystemConfig : Type := mkSystemConfig { SSHPort : Z; PublicInterface : string }.

Record Config : Type := mkConfig {
  Agent : AgentConfig;
  Controller : ControllerConfig;
  Paths : PathsConfig;
  System : SystemConfig;
}.

(** [if x == "" { x = d }] and [if n <= 0 { n = d }]. *)
Definition or_string (s d : string) : string := if String.eqb s "" then d else s.
Definition or_int (n d : Z) : Z := if (n <=? 0)%Z then d else n.

(** The configuration is changed in place; an error leaves it as it was. *)
Definition applyDefaults (c : Config) : res Config :=
  if String.eqb (URL (Controller c)) "" then Err (ErrorString "controller.url is required") else
  let a := Agent c in let k := Controller c in let p := Paths c in let s := System c in
  Ok (mkConfig
    (mkAgentConfig (or_string (Version a) "0.1.0") (NodeID a))
    (mkControllerConfig (URL k) (CACertPath k)
       (or_int (HeartbeatIntervalSec k) 30) (or_int (OperationPollTimeoutSec k) 30)
       (or_int (ConnectTimeoutSec k) 10) (or_int (RequestTimeoutSec k) 60))
    (mkPathsConfig
       (or_string (ConfigDir p) filesystem.ServicesDir)
       (or_string (BackupDir p) filesystem.BackupDir)
       (or_string (StateFile p) filesystem.StateFile)
       (or_string (LogFile p) (filesystem.LogDir +:+ "/agent.log"))
       (or_string (NftablesConfig p) (filesystem.NftablesDir +:+ "/routestack.nft")))
    (mkSystemConfig (or_int (SSHPort s) 22) (PublicInterface s))).

(** [yaml.Unmarshal] into a zero configuration. *)
Class Yaml := { yaml_Unmarshal : string → res Config }.

Definition LoadConfig {W} `{FileSystem W} `{Yaml} (path : string) : M W (res Config) :=
  data <- ReadFile path orelse wrapf ("read config " +:+ path +:+ ": ") ;;
  mret (cfg <-? yaml_Unmarshal data orelse wrapf ("parse config " +:+ path +:+ ": ") ;;
        cfg <-? applyDefaults cfg orelse wrapf "validate config: " ;;
        Ok cfg).

(** What the rest of the agent relies on. *)
Definition complete (c : Config) : Prop :=
  URL (Controller c) ≠ "" ∧ Version (Agent c) ≠ "" ∧
  (0 < HeartbeatIntervalSec (Controller c))%Z ∧ (0 < OperationPollTimeoutSec (Controller c))%Z ∧
  (0 < ConnectTimeoutSec (Controller c))%Z ∧ (0 < RequestTimeoutSec (Controller c))%Z ∧
  (0 < SSHPort (System c))%Z ∧
  ConfigDir (Paths c) ≠ "" ∧ BackupDir (Paths c) ≠ "" ∧ StateFile (Paths c) ≠ "" ∧
  LogFile (Paths c) ≠ "" ∧ NftablesConfig (Paths c) ≠ "".

Lemma or_string_ne s d : d ≠ "" → or_string s d ≠ "".
Proof. unfold or_string. by destruct (String.eqb_spec s ""). Qed.

Lemma or_string_id s d : s ≠ "" → or_string s d = s.
Proof. unfold or_string. by destruct (String.eqb_spec s ""). Qed.

Lemma or_int_pos n d : (0 < d)%Z → (0 < or_int n d)%Z.
Proof. unfold or_int. by destruct (Z.leb_spec n 0). Qed.

Lemma or_int_id n d : (0 < n)%Z → or_int n d = n.
Proof. unfold or_int. destruct (Z.leb_spec n 0); [lia|done]. Qed.

Lemma applyDefaults_complete c c' : applyDefaults c = Ok c' → complete c'.
Proof.
  unfold applyDefaults. destruct (String.eqb_spec (URL (Controller c)) ""); [done|]. intros [= <-].
  unfold complete. cbn. split_and!; try done; solve [by apply or_string_ne|by apply or_int_pos].
Qed.

Lemma LoadConfig_complete {W} `{FileSystem W} `{Yaml} path (w w' : W) c :
  LoadConfig path w = (Ok c, w') → complete c.
Proof.
  unfold LoadConfig, try_or, mret, M_ret. destruct (ReadFile path w) as [[data|e] w1]; [|done]. unfold rtry.
  destruct (yaml_Unmarshal data) as [raw|e]; [|done]. destruct (applyDefaults raw) as [cfg|e] eqn:Ea; [|done].
  intros [= <- _]. by eapply applyDefaults_complete.
Qed.

Lemma applyDefaults_fixed c : complete c → applyDefaults c = Ok c.
Proof.
  intros (Hu & Hv & H1 & H2 & H3 & H4 & H5 & P1 & P2 & P3 & P4 & P5). unfold applyDefaults.
  destruct (String.eqb_spec (URL (Controller c)) ""); [done|].
  rewrite !or_string_id, !or_int_id by done. by destruct c as [[] [] [] []].
Qed.
End config.

(** ** Properties *)

(** A configuration is accepted exactly when it names a controller, and
    then everything the agent relies on is filled in: positive intervals and
    port, paths and a version.  The accepted configurations that change
    nothing are exactly the complete ones, so applying the defaults twice is
    applying them once. *)
Theorem applyDefaults_correct (c c' : config.Config) :
  (is_ok (config.applyDefaults c) = true ↔ config.URL (config.Controller c) ≠ "") ∧
  (config.applyDefaults c = Ok c' → config.complete c' ∧ config.applyDefaults c' = Ok c') ∧
  (config.applyDefaults c = Ok c ↔ config.complete c).
Proof.
  split_and!.
  - unfold config.applyDefaults. by destruct (String.eqb_spec (config.URL (config.Controller c)) "").
  - intros H. apply config.applyDefaults_complete in H. split; [done|by apply config.applyDefaults_fixed].
  - split; [apply config.applyDefaults_complete|apply config.applyDefaults_fixed].
Qed.

(** Loading fails, without a configuration, when the file cannot be read or
    parsed or names no controller; otherwise every field of the file that is
    set is kept, and the state file is the canonical one unless another is
    named. *)
Theorem LoadConfig_keeps {W} `{FileSystem W} `{config.Yaml} (path data : string) (raw : config.Config) (w : W)
    (Hread : (ReadFile path w).1 = Ok data) (Hyaml : config.yaml_Unmarshal data = Ok raw)
    (Hurl : config.URL (config.Controller raw) ≠ "") :
  ∃ cfg, (config.LoadConfig path w).1 = Ok cfg ∧ config.complete cfg ∧
    config.URL (config.Controller cfg) = config.URL (config.Controller raw) ∧
    config.CACertPath (config.Controller cfg) = config.CACertPath (config.Controller raw) ∧
    (∀ n, config.HeartbeatIntervalSec (config.Controller raw) = n → (0 < n)%Z →
          config.HeartbeatIntervalSec (config.Controller cfg) = n) ∧
    (config.StateFile (config.Paths cfg) = config.StateFile (config.Paths raw) ∨
     config.StateFile (config.Paths raw) = "" ∧ config.StateFile (config.Paths cfg) = filesystem.StateFile).
Proof.
  unfold config.LoadConfig, try_or, mret, M_ret. destruct (ReadFile path w) as [r w']. cbn [fst] in Hread. subst r.
  cbn [fst]. rewrite Hyaml. cbn [rtry].
  destruct (config.applyDefaults raw) as [cfg|e] eqn:Ea.
  2: { unfold config.applyDefaults in Ea. by destruct (String.eqb_spec (config.URL (config.Controller raw)) ""). }
  exists cfg. split; [done|]. split; [by eapply config.applyDefaults_complete|].
  unfold config.applyDefaults in Ea. destruct (String.eqb_spec (config.URL (config.Controller raw)) ""); [done|].
  injection Ea as <-. cbn. split_and!; try done.
  - intros m <- Hm. by apply config.or_int_id.
  - unfold config.or_string. destruct (String.eqb_spec (config.StateFile (config.Paths raw)) ""); auto.
Qed.

Definition raw_config : config.Config := config.mkConfig (config.mkAgentConfig "" "")
  (config.mkControllerConfig "https://panel" "" 15 0 0 0) (config.mkPathsConfig "" "" "" "" "")
  (config.mkSystemConfig 0 "").

Lemma LoadConfig_keeps_witness :
  ∃ cfg, (config.LoadConfig (H0 := {| config.yaml_Unmarshal := λ _, Ok raw_config |}) "/c.yaml"
            ({["/c.yaml" := ("agent: {}", mode_0600)]} : FileTable)).1 = Ok cfg ∧ config.complete cfg ∧
    config.URL (config.Controller cfg) = "https://panel" ∧
    config.CACertPath (config.Controller cfg) = "" ∧
    (∀ n, 15%Z = n → (0 < n)%Z → config.HeartbeatIntervalSec (config.Controller cfg) = n) ∧
    (config.StateFile (config.Paths cfg) = "" ∨
     "" = "" ∧ config.StateFile (config.Paths cfg) = filesystem.StateFile).
Proof.
  apply (LoadConfig_keeps (H0 := {| config.yaml_Unmarshal := λ _, Ok raw_config |}) "/c.yaml" "agent: {}" raw_config);
    [vm_compute; reflexivity|reflexivity|discriminate].
Defined.
