(* ===== verification/Heartbeat.v ===== *)
(** * Heartbeat: internal/api/heartbeat.go and its platform files.

    What the agent tells the control plane about its host: the capabilities,
    the system and four metrics read from /proc, and the request that carries
    them.  The host is the interface [heartbeat.Host]. *)

From Stdlib Require Import Ascii NArith ZArith.
From Stdlib Require Import Floats.SpecFloat.
From S2P Require Import Prelude GoStrings GoFmt GoFloat GoError GoOs Json Http Api.

Module heartbeat.

(** ** Messages *)

Record ServiceStatus : Type := mkServiceStatus {
  ServiceID : string;
  ServiceType : string;
  ActualState : string;
  ActiveRevision : Z;
  PID : Z;
  PortListening : bool;
}.

Record SystemMetrics : Type := mkSystemMetrics {
  CPUPercent : float64;
  MemoryUsedMB : Z;
  DiskFreeGB : float64;
  LoadAvg1m : float64;
}.

Record HeartbeatRequest : Type := mkHeartbeatRequest {
  NodeID : string;
  AgentVersion : string;
  OS : string;
  Architecture : string;
  KernelVersion : string;
  Capabilities : list string;
  Services : list ServiceStatus;
  System : SystemMetrics;
}.

Definition enc_ServiceStatus (s : ServiceStatus) : json := JObj (
  member "service_id" (enc_string (ServiceID s)) ++
  member "type" (enc_string (ServiceType s)) ++
  member "actual_state" (enc_string (ActualState s)) ++
  member "active_revision" (enc_int (ActiveRevision s)) ++
  member "pid" (enc_int (PID s)) ++
  member "port_listening" (JBool (PortListening s))).

(** A float that is not a number cannot be encoded. *)
Definition enc_float (f : float64) : res json :=
  match json_float f with
  | Ok t => Ok (JNum t)
  | Err t => Err (JSONError ("json: unsupported value: " +:+ t))
  end.

Definition enc_SystemMetrics (m : SystemMetrics) : res json :=
  cpu <-? enc_float (CPUPercent m) orelse id ;;
  disk <-? enc_float (DiskFreeGB m) orelse id ;;
  load <-? enc_float (LoadAvg1m m) orelse id ;;
  Ok (JObj (
    member "cpu_percent" cpu ++
    member "memory_used_mb" (enc_int (MemoryUsedMB m)) ++
    member "disk_free_gb" disk ++
    member "load_avg_1m" load)).

(** A slice that was never appended to is nil, which is written as null. *)
Definition enc_slice (l : list json) : json := match l with [] => JNull | _ => JArr l end.

Definition enc_HeartbeatRequest (r : HeartbeatRequest) : res json :=
  system <-? enc_SystemMetrics (System r) orelse id ;;
  Ok (JObj (
    member "node_id" (enc_string (NodeID r)) ++
    member "agent_version" (enc_string (AgentVersion r)) ++
    member "os" (enc_string (OS r)) ++
    member "architecture" (enc_string (Architecture r)) ++
    member "kernel_version" (enc_string (KernelVersion r)) ++
    member "capabilities" (enc_slice (map enc_string (Capabilities r))) ++
    member "services" (enc_slice (map enc_ServiceStatus (Services r))) ++
    member "system" system)).

(** ** The host *)

(** [exec.LookPath], the two system calls, sleeping, and a file opened for
    reading as what its readers get: the bytes before the end of the file or
    a read error, which ends them as well. *)
Class Host (W : Type) := {
  LookPath : string → M W (res string);
  Open : string → M W (res string);
  Uname : M W (res (list Z * list Z));
  Statfs : string → M W (res (Z * Z));
  Sleep : Z → M W unit;
}.

(** [charsToString]: signed bytes up to the first zero. *)
Fixpoint charsToString (ca : list Z) : string :=
  match ca with
  | [] => EmptyString
  | c :: ca' => if (c =? 0)%Z then EmptyString else String (mk (Z.to_N (c mod 256))) (charsToString ca')
  end.

Section Host.
Context {W : Type} `{FileSystem W} `{Host W}.

(** The binaries looked for, in order. *)
Definition binaries : list string :=
  ["xray"; "amnezia-wg"; "amnezia-wg-go"; "haproxy"; "3proxy"; "telemt"; "mtproto-proxy"; "nft"].

Fixpoint look_all (bins : list string) : M W (list string) :=
  match bins with
  | [] => mret []
  | bin :: rest =>
      r ← LookPath bin;
      caps ← look_all rest;
      mret (if is_ok r then bin :: caps else caps)
  end.

(** A kernel module that is loaded adds a capability. *)
Definition module_cap (path cap : string) : M W (list string) :=
  r ← Stat path; mret (if is_ok r then [cap] else []).

Definition DetectCapabilities : M W (list string) :=
  caps ← look_all binaries;
  awg ← module_cap "/sys/module/amneziawg" "amneziawg-kernel";
  nft ← module_cap "/sys/module/nf_tables" "nftables-kernel";
  mret (caps ++ awg ++ nft).

(** The first line with the prefix decides. *)
Fixpoint pretty_name (lines : list string) : string :=
  match lines with
  | [] => ""
  | line :: rest =>
      if HasPrefix line "PRETTY_NAME=" then TrimByte (TrimPrefix line "PRETTY_NAME=") (mk 34)
      else pretty_name rest
  end.

Definition readOSRelease : M W string :=
  f ← Open "/etc/os-release";
  mret (match f with Err _ => "" | Ok data => pretty_name (scan_lines data) end).

Definition or_default (s d : string) : string := if String.eqb s "" then d else s.

(** Operating system, architecture and kernel. *)
Definition CollectSystemInfo : M W (string * string * string) :=
  osName ← readOSRelease;
  uts ← Uname;
  let '(arch, kernel) := match uts with
                         | Ok (machine, release) => (charsToString machine, charsToString release)
                         | Err _ => ("", "")
                         end in
  mret (or_default osName "Linux", or_default arch "unknown", or_default kernel "unknown").

(** *** Processor time *)

Record cpuStat : Type := mkCpuStat { total : Z; idle : Z }.

(** The loop over the fields after "cpu", from index [i]. *)
Fixpoint add_ticks (i : nat) (fields : list string) (s : cpuStat) : cpuStat :=
  match fields with
  | [] => s
  | f :: rest =>
      let val := (ParseUint f).1 in
      add_ticks (S i) rest
        (mkCpuStat (wrapu64 (total s + val)) (if Nat.eqb i 3 then val else idle s))
  end.

(** The statistics of a first line, or the error. *)
Definition parse_cpu_line (line : string) : res cpuStat :=
  let bad := Err (ErrorString "unexpected /proc/stat format") in
  match Fields line with
  | name :: ticks =>
      if (length ticks <? 4)%nat || negb (String.eqb name "cpu") then bad
      else Ok (add_ticks 0 ticks (mkCpuStat 0 0))
  | [] => bad
  end.

Definition readCPUStat : M W (res cpuStat) :=
  data <- Open "/proc/stat" orelse id ;;
  mret (match scan_lines data with
        | [] => Err (ErrorString "empty /proc/stat")
        | line :: _ => parse_cpu_line line
        end).

(** The share of busy ticks between two samples, in percent with one decimal. *)
Definition cpu_usage (stat1 stat2 : cpuStat) : float64 :=
  let idle := wrapu64 (idle stat2 - idle stat1) in
  let total := wrapu64 (total stat2 - total stat1) in
  if (total =? 0)%Z then f_zero
  else
    let usage := f_mul (f_sub (f_of_Z 1) (f_div (f_of_Z idle) (f_of_Z total))) (f_of_Z 100) in
    f_div (f_Round (f_mul usage (f_of_Z 10))) (f_of_Z 10).

Definition cpuPercent : M W float64 :=
  r1 ← readCPUStat;
  match r1 with
  | Err _ => mret f_zero
  | Ok stat1 =>
      _ ← Sleep (1 * Second);
      r2 ← readCPUStat;
      mret (match r2 with Err _ => f_zero | Ok stat2 => cpu_usage stat1 stat2 end)
  end.

(** *** Memory *)

(** The first line of the key with a second field decides. *)
Fixpoint meminfo_value (key : string) (lines : list string) : Z :=
  match lines with
  | [] => 0%Z
  | line :: rest =>
      if HasPrefix line (key +:+ ":") then
        match Fields line with
        | _ :: v :: _ => (ParseInt v).1
        | _ => meminfo_value key rest
        end
      else meminfo_value key rest
  end.

Definition procMeminfoField (key : string) : M W Z :=
  f ← Open "/proc/meminfo";
  mret (match f with Err _ => 0%Z | Ok data => meminfo_value key (scan_lines data) end).

Definition used_mb (total avail : Z) : Z :=
  if (total =? 0)%Z then 0%Z else Z.quot (wrap64 (total - avail)) 1024.

Definition memoryUsedMB : M W Z :=
  total ← procMeminfoField "MemTotal";
  avail ← procMeminfoField "MemAvailable";
  mret (used_mb total avail).

(** *** Disk and load *)

Definition diskFreeGB (path : string) : M W float64 :=
  st ← Statfs path;
  mret (match st with
        | Err _ => f_zero
        | Ok (bavail, bsize) =>
            f_div (f_of_Z (wrapu64 (bavail * wrapu64 bsize))) (f_of_Z (1024 * 1024 * 1024))
        end).

Definition load_of (data : string) : float64 :=
  match Fields data with [] => f_zero | f :: _ => (ParseFloat f).1 end.

Definition loadAvg1m : M W float64 :=
  r ← ReadFile "/proc/loadavg";
  mret (match r with Err _ => f_zero | Ok data => load_of data end).

Definition CollectSystemMetrics : M W SystemMetrics :=
  cpu ← cpuPercent;
  mem ← memoryUsedMB;
  disk ← diskFreeGB "/";
  load ← loadAvg1m;
  mret (mkSystemMetrics cpu mem disk load).
End Host.

(** The stubs of other platforms. *)
Definition other_SystemInfo (goarch : string) : string * string * string := ("Development", goarch, "unknown").
Definition other_SystemMetrics : SystemMetrics := mkSystemMetrics f_zero 0 f_zero f_zero.

(** ** Lemmas *)

Lemma enc_float_ok f : is_ok (enc_float f) = f_finite f.
Proof. unfold enc_float. destruct f as [s|s| |s m e]; try done. unfold json_float. by destruct (decimal_of m e). Qed.

(** Encoding fails exactly on a metric that is not a number. *)
Lemma enc_SystemMetrics_ok m :
  is_ok (enc_SystemMetrics m) = f_finite (CPUPercent m) && f_finite (DiskFreeGB m) && f_finite (LoadAvg1m m).
Proof.
  unfold enc_SystemMetrics. rewrite <- !enc_float_ok.
  destruct (enc_float (CPUPercent m)) as [c|e]; [|done]. simpl.
  destruct (enc_float (DiskFreeGB m)) as [d|e]; [|done]. simpl. by destruct (enc_float (LoadAvg1m m)).
Qed.

(** The utilization stays a number through every step of its computation. *)
Lemma cpu_usage_finite s1 s2 : f_finite (cpu_usage s1 s2) = true.
Proof.
  unfold cpu_usage. pose proof (wrapu64_range (idle s2 - idle s1)) as Hi.
  pose proof (wrapu64_range (total s2 - total s1)) as Ht.
  set (i := wrapu64 (idle s2 - idle s1)) in *. set (t := wrapu64 (total s2 - total s1)) in *.
  destruct (Z.eqb_spec t 0) as [|Hne]; [done|].
  assert (H10 : coarse (-49) (f_of_Z 10)) by (vm_compute; done).
  assert (Hq : sized 119 (f_div (f_of_Z i) (f_of_Z t))).
  { apply (sized_div 65 (-53)); [apply (sized_of_Z 64); lia|apply coarse_of_Z; lia|lia]. }
  assert (Hs : sized 121 (f_sub (f_of_Z 1) (f_div (f_of_Z i) (f_of_Z t)))).
  { apply (sized_sub 119); [apply (sized_mono 2); [lia|apply (sized_of_Z 1); lia]|done|lia]. }
  assert (Hm : sized 130 (f_mul (f_sub (f_of_Z 1) (f_div (f_of_Z i) (f_of_Z t))) (f_of_Z 100))).
  { apply (sized_mul 121 8); [done|apply (sized_of_Z 7); lia|lia]. }
  apply (sized_finite (138 + 49 + 1)). apply (sized_div 138 (-49)); [|done|lia].
  apply (sized_Round 136); [|lia]. apply (sized_mul 130 5); [done|apply (sized_of_Z 4); lia|lia].
Qed.

Lemma used_mb_range t a : in_int64 (used_mb t a) = true.
Proof.
  unfold used_mb. destruct (t =? 0)%Z; [done|]. pose proof (wrap64_range (t - a)) as Hr.
  apply in_int64_spec in Hr. apply in_int64_spec. unfold int64_min, int64_max in *.
  pose proof (Z.quot_rem (wrap64 (t - a)) 1024 ltac:(lia)). pose proof (Z.rem_bound_abs (wrap64 (t - a)) 1024 ltac:(lia)).
  lia.
Qed.

Section Metrics.
Context {W : Type} `{FileSystem W} `{Host W}.

Lemma cpuPercent_finite (w : W) : f_finite (cpuPercent w).1 = true.
Proof.
  unfold cpuPercent, mbind, M_bind, mret, M_ret. destruct (readCPUStat w) as [[s1|e] w1]; [|done].
  destruct (Sleep _ w1) as [u w2]. destruct (readCPUStat w2) as [[s2|e] w3]; [|done]. apply cpu_usage_finite.
Qed.

Lemma diskFreeGB_finite path (w : W) : f_finite (diskFreeGB path w).1 = true.
Proof.
  unfold diskFreeGB, mbind, M_bind, mret, M_ret. destruct (Statfs path w) as [[[bavail bsize]|e] w1]; [|done].
  pose proof (wrapu64_range (bavail * wrapu64 bsize)).
  apply (sized_finite (65 + 53 + 1)). apply (sized_div 65 (-53)); [apply (sized_of_Z 64); lia|vm_compute; done|lia].
Qed.

Lemma memoryUsedMB_range (w : W) : in_int64 (memoryUsedMB w).1 = true.
Proof.
  unfold memoryUsedMB, mbind, M_bind, mret, M_ret. destruct (procMeminfoField _ w) as [t w1].
  destruct (procMeminfoField _ w1) as [a w2]. apply used_mb_range.
Qed.

Lemma look_all_pure (found : string → bool) bins (w : W) :
  (∀ bin, is_ok (LookPath bin w).1 = found bin ∧ (LookPath bin w).2 = w) →
  look_all bins w = (List.filter found bins, w).
Proof.
  intros Hp. induction bins as [|bin bins IH]; [done|]. cbn [look_all List.filter]. unfold mbind, M_bind, mret, M_ret.
  destruct (Hp bin) as [Hf Hw]. destruct (LookPath bin w) as [r w1]. cbn [fst snd] in *. subst w1. rewrite IH, Hf.
  by destruct (found bin).
Qed.
End Metrics.

(** *** Files under /proc *)

(** A line of /proc/meminfo. *)
Definition meminfo_line (kv : string * Z) (pad : nat) : string :=
  kv.1 +:+ ":" +:+ spaces (S pad) +:+ itoa kv.2 +:+ " kB".

Definition key_char (a : ascii) : bool := graphic a && negb (Ascii.eqb a ":").

(** The entries that can be written: keys that are words without a colon,
    values of 64 bits, lines within the scanner's limit. *)
Definition meminfo_entry (e : (string * Z) * nat) : Prop :=
  e.1.1 ≠ "" ∧ all_bytes key_char e.1.1 = true ∧ in_int64 e.1.2 = true ∧ (0 ≤ e.1.2)%Z ∧
  GoStrings.fits (meminfo_line e.1 e.2) = true.

Definition meminfo_text (es : list ((string * Z) * nat)) : string :=
  concat_strings (map (λ e, meminfo_line e.1 e.2 +:+ String (mk 10) EmptyString) es).

(** The value of the first entry of a key. *)
Definition entry_value (key : string) (es : list ((string * Z) * nat)) : Z :=
  from_option (λ e : (string * Z) * nat, e.1.2) 0%Z (head (filter (λ e, e.1.1 = key) es)).

Lemma byte_impl f g : forallb (λ n, implb (f (ascii_of_nat n)) (g (ascii_of_nat n))) (seq 0 256) = true →
  ∀ a, f a = true → g a = true.
Proof.
  intros H a Ha. pose proof (ascii_all (λ a, implb (f a) (g a)) H a) as Hi. cbv beta in Hi. by rewrite Ha in Hi.
Qed.

Lemma digits_word z : (0 ≤ z)%Z → word (itoa z).
Proof.
  intros Hz. rewrite itoa_digits by done. destruct (pretty_N_head (Z.to_N z)) as (a & s & Heq & _). split; [by rewrite Heq|].
  eapply all_bytes_impl; [|apply pretty_N_digits]. apply byte_impl. vm_compute. done.
Qed.

Lemma key_graphic s : all_bytes key_char s = true → all_bytes graphic s = true.
Proof. apply all_bytes_impl. intros a. unfold key_char. by rewrite andb_true_iff; intros []. Qed.

Lemma meminfo_Fields e : meminfo_entry e → Fields (meminfo_line e.1 e.2) = [e.1.1 +:+ ":"; itoa e.1.2; "kB"].
Proof.
  intros (Hne & Hk & Hv & H0 & _). unfold meminfo_line. rewrite <- app_str_assoc.
  rewrite Fields_word; [f_equal|].
  - change (" kB") with (spaces 1 +:+ "kB"). rewrite Fields_word by by apply digits_word. reflexivity.
  - split; [by destruct e.1.1|]. rewrite all_bytes_app, key_graphic by done. reflexivity.
Qed.

(** Keys without a colon are told apart by their lines. *)
Lemma key_prefix k1 k2 s :
  all_bytes key_char k1 = true → all_bytes key_char k2 = true →
  HasPrefix (k1 +:+ ":" +:+ s) (k2 +:+ ":") = String.eqb k1 k2.
Proof.
  revert k2. induction k1 as [|a k1 IH]; intros [|b k2]; cbn [all_bytes]; rewrite ?andb_true_iff; intros H1 H2.
  - apply (HasPrefix_app ":" s).
  - destruct H2 as [Hb _]. unfold key_char in Hb. rewrite andb_true_iff, negb_true_iff in Hb. destruct Hb as [_ Hb].
    rewrite app_nil_str, !app_cons_str. cbn [HasPrefix]. by rewrite Hb.
  - destruct H1 as [Ha _]. unfold key_char in Ha. rewrite andb_true_iff, negb_true_iff in Ha. destruct Ha as [_ Ha].
    rewrite app_nil_str, !app_cons_str. cbn [HasPrefix]. by rewrite Ascii.eqb_sym, Ha.
  - rewrite (app_cons_str a k1), (app_cons_str b k2). cbn [HasPrefix]. rewrite IH by tauto.
    rewrite (Ascii.eqb_sym b a).
    destruct (Ascii.eqb_spec a b), (String.eqb_spec k1 k2), (String.eqb_spec (String a k1) (String b k2)); naive_solver.
Qed.

Lemma meminfo_value_entries key es :
  all_bytes key_char key = true → Forall meminfo_entry es →
  meminfo_value key (map (λ e, meminfo_line e.1 e.2) es) = entry_value key es.
Proof.
  intros Hkey. unfold entry_value. induction 1 as [|e es He _ IH]; [done|]. cbn [map meminfo_value].
  rewrite meminfo_Fields by done. unfold meminfo_line at 1. destruct He as (_ & Hk & Hv & _).
  rewrite key_prefix by done. rewrite filter_cons. destruct (String.eqb_spec e.1.1 key) as [->|Hne].
  - rewrite decide_True by done. cbn. by rewrite ParseInt_itoa.
  - rewrite decide_False by done. exact IH.
Qed.
Lemma entry_value_range key es : Forall meminfo_entry es → (0 ≤ entry_value key es ≤ int64_max)%Z.
Proof.
  intros Hes. unfold entry_value. induction Hes as [|e es (_ & _ & Hv & H0 & _) _ IH]; [done|].
  rewrite filter_cons. case_decide; [|done]. cbn. apply in_int64_spec in Hv. lia.
Qed.

Lemma used_mb_div t a : (0 ≤ t ≤ int64_max)%Z → (a ≤ t)%Z → (0 ≤ a ≤ int64_max)%Z → used_mb t a = ((t - a) / 1024)%Z.
Proof.
  intros Ht Hle Ha. unfold used_mb. destruct (Z.eqb_spec t 0) as [->|]; [by replace a with 0%Z by lia|].
  rewrite wrap64_id by (apply in_int64_spec; unfold int64_min, int64_max in *; lia).
  apply Z.quot_div_nonneg; lia.
Qed.

(** The scanner delivers the lines that were written. *)
Lemma meminfo_no_newline e : meminfo_entry e → without (mk 10) (meminfo_line e.1 e.2) = true.
Proof.
  intros (_ & Hk & Hv & H0 & _). unfold meminfo_line, without. rewrite !all_bytes_app, !andb_true_iff.
  assert (Hg : ∀ s, all_bytes graphic s = true → all_bytes (λ a, negb (Ascii.eqb a (mk 10))) s = true).
  { intros s. apply all_bytes_impl, byte_impl. vm_compute. done. }
  split_and!; [apply Hg, key_graphic, Hk|done| |apply Hg, (digits_word e.1.2 H0)|done].
  cbn [spaces all_bytes]. apply andb_true_iff. split; [done|]. induction e.2 as [|n IH]; [done|]. exact IH.
Qed.

Lemma drop_cr_kB s : drop_cr (s +:+ " kB") = s +:+ " kB".
Proof.
  unfold drop_cr, TrimSuffix. destruct (HasSuffix _ _) eqn:E; [|done].
  apply HasSuffix_spec in E as [p E]. exfalso. apply (f_equal bytes_of), (f_equal last) in E.
  rewrite !bytes_of_app, !last_app in E. discriminate.
Qed.

Lemma scan_meminfo es :
  Forall meminfo_entry es → scan_lines (meminfo_text es) = map (λ e, meminfo_line e.1 e.2) es.
Proof.
  intros Hes. unfold scan_lines, meminfo_text. induction Hes as [|e es He _ IH]; [done|]. cbn [map].
  rewrite concat_strings_cons, app_str_assoc, (app_cons_str (mk 10) ""), app_nil_str.
  rewrite Split_app_sep by by apply meminfo_no_newline.
  destruct (Split _ (mk 10)) as [|p ps] eqn:E; [by apply Split_ne in E|]. cbn [scan].
  replace (GoStrings.fits (meminfo_line e.1 e.2)) with true by (symmetry; apply He).
  unfold meminfo_line at 1. rewrite <- !app_str_assoc, drop_cr_kB, !app_str_assoc. f_equal. exact IH.
Qed.

(** *** The first line of /proc/stat *)

Definition cpu_line (ticks : list Z) : string := "cpu" +:+ concat_strings (map (λ t, " " +:+ itoa t) ticks).

Lemma Fields_ticks w ticks :
  word w → Forall (λ t, (0 ≤ t ≤ max_uint64)%Z) ticks →
  Fields (w +:+ concat_strings (map (λ t, " " +:+ itoa t) ticks)) = w :: map itoa ticks.
Proof.
  intros Hw Ht. revert w Hw. induction Ht as [|t ticks Ht _ IH]; intros w Hw; cbn [map].
  - cbn. rewrite app_str_nil_r. by apply Fields_last.
  - rewrite concat_strings_cons, app_str_assoc. change (" " +:+ ?s) with (spaces 1 +:+ s).
    rewrite Fields_word by done. f_equal. apply IH, digits_word. lia.
Qed.

Lemma add_ticks_spec i ticks s :
  Forall (λ t, (0 ≤ t ≤ max_uint64)%Z) ticks → wrapu64 (total s) = total s →
  add_ticks i (map itoa ticks) s =
    mkCpuStat (wrapu64 (total s + foldr Z.add 0%Z ticks))
      (if decide (i ≤ 3 < i + length ticks) then nth (3 - i) ticks 0%Z else idle s).
Proof.
  intros Ht. revert i s. induction Ht as [|t ticks Ht _ IH]; intros i s Hs; cbn [map add_ticks foldr length].
  - rewrite Z.add_0_r, Hs, decide_False by lia. by destruct s.
  - rewrite itoa_digits, ParseUint_pretty by (unfold max_uint64 in *; lia). cbn [fst]. rewrite Z2N.id by lia.
    rewrite IH by apply Zmod_mod. cbn [total idle]. f_equal.
    + unfold wrapu64. rewrite Zplus_mod_idemp_l. f_equal. lia.
    + destruct (Nat.eqb_spec i 3) as [->|Hne].
      * rewrite decide_False, decide_True by lia. done.
      * destruct (decide (S i ≤ 3 < S i + length ticks)).
        -- rewrite decide_True by lia. by replace (3 - i) with (S (3 - S i)) by lia.
        -- by rewrite decide_False by lia.
Qed.

Lemma parse_cpu_line_spec ticks :
  Forall (λ t, (0 ≤ t ≤ max_uint64)%Z) ticks → 4 ≤ length ticks →
  parse_cpu_line (cpu_line ticks) = Ok (mkCpuStat (wrapu64 (foldr Z.add 0%Z ticks)) (nth 3 ticks 0%Z)).
Proof.
  intros Ht Hlen. unfold parse_cpu_line, cpu_line. rewrite Fields_ticks by (done || by split).
  rewrite length_map, (proj2 (Nat.ltb_ge _ _)) by done. cbn [orb negb String.eqb].
  rewrite add_ticks_spec by done. rewrite decide_True by lia. done.
Qed.
End heartbeat.

(** ** Properties *)

Section Properties.
Context {W : Type} {FS : FileSystem W} {HO : heartbeat.Host W}.

(** C33: Whatever the files under /proc hold and the system calls return, the
    utilization and the free space are numbers and the memory fits 64 bits; so
    a heartbeat can be encoded exactly when /proc/loadavg is not the text of an
    infinity or of no number. *)
Theorem metrics_encodable (w : W) :
  let m := (heartbeat.CollectSystemMetrics w).1 in
  f_finite (heartbeat.CPUPercent m) = true ∧ f_finite (heartbeat.DiskFreeGB m) = true ∧
  in_int64 (heartbeat.MemoryUsedMB m) = true ∧
  is_ok (heartbeat.enc_SystemMetrics m) = f_finite (heartbeat.LoadAvg1m m).
Proof.
  cbv zeta. rewrite heartbeat.enc_SystemMetrics_ok.
  unfold heartbeat.CollectSystemMetrics, mbind, M_bind, mret, M_ret.
  pose proof (heartbeat.cpuPercent_finite w) as H1. destruct (heartbeat.cpuPercent w) as [cpu w1].
  pose proof (heartbeat.memoryUsedMB_range w1) as H2. destruct (heartbeat.memoryUsedMB w1) as [mem w2].
  pose proof (heartbeat.diskFreeGB_finite "/" w2) as H3. destruct (heartbeat.diskFreeGB "/" w2) as [disk w3].
  destruct (heartbeat.loadAvg1m w3) as [load w4]. cbn [fst snd heartbeat.CPUPercent heartbeat.DiskFreeGB
    heartbeat.MemoryUsedMB heartbeat.LoadAvg1m] in *. by rewrite H1, H3.
Qed.

(** C34: The memory in use, from the text of /proc/meminfo: of entries whose first
    [MemTotal] is positive and not less than the first [MemAvailable], which
    counts as zero when it is missing, the difference in MiB, rounded down. *)
Theorem meminfo_used (es : list ((string * Z) * nat)) (w : W)
    (Hes : Forall heartbeat.meminfo_entry es)
    (Hopen : heartbeat.Open "/proc/meminfo" w = (Ok (heartbeat.meminfo_text es), w))
    (Hle : (heartbeat.entry_value "MemAvailable" es ≤ heartbeat.entry_value "MemTotal" es)%Z) :
  heartbeat.memoryUsedMB w =
    (((heartbeat.entry_value "MemTotal" es - heartbeat.entry_value "MemAvailable" es) / 1024)%Z, w).
Proof.
  unfold heartbeat.memoryUsedMB, heartbeat.procMeminfoField, mbind, M_bind, mret, M_ret. rewrite Hopen. cbn [fst snd].
  rewrite Hopen, heartbeat.scan_meminfo, !heartbeat.meminfo_value_entries by done. f_equal.
  apply heartbeat.used_mb_div; [apply heartbeat.entry_value_range; done|done|apply heartbeat.entry_value_range; done].
Qed.
End Properties.

(** C35: The line of /proc/stat is the sum of its counters, modulo 2^64, and the
    fourth of them; and between two samples the utilization is 100 when no
    tick was idle, 0 when all were and 0 when there was none. *)
Theorem cpu_utilization (ticks : list Z) (s1 s2 : heartbeat.cpuStat)
    (Ht : Forall (λ t, (0 ≤ t ≤ max_uint64)%Z) ticks) (Hlen : 4 ≤ length ticks) :
  heartbeat.parse_cpu_line (heartbeat.cpu_line ticks)
    = Ok (heartbeat.mkCpuStat (wrapu64 (foldr Z.add 0%Z ticks)) (nth 3 ticks 0%Z)) ∧
  (let idle := wrapu64 (heartbeat.idle s2 - heartbeat.idle s1) in
   let total := wrapu64 (heartbeat.total s2 - heartbeat.total s1) in
   (total = 0%Z → heartbeat.cpu_usage s1 s2 = f_of_Z 0) ∧
   (total ≠ 0%Z → idle = 0%Z → heartbeat.cpu_usage s1 s2 = f_of_Z 100) ∧
   (total ≠ 0%Z → idle = total → heartbeat.cpu_usage s1 s2 = f_of_Z 0)).
Proof.
  split; [by apply heartbeat.parse_cpu_line_spec|].
  unfold heartbeat.cpu_usage. pose proof (wrapu64_range (heartbeat.total s2 - heartbeat.total s1)) as Hr.
  set (idle := wrapu64 (heartbeat.idle s2 - heartbeat.idle s1)).
  set (total := wrapu64 (heartbeat.total s2 - heartbeat.total s1)) in *.
  cbv zeta. split_and!; intros Ht0; [by rewrite Ht0| |]; intros Hi; rewrite (proj2 (Z.eqb_neq _ _) Ht0);
    pose proof (coarse_of_Z total ltac:(lia)) as Hc.
  - rewrite Hi. change (f_of_Z 0) with (S754_zero false).
    rewrite (f_sub_div_zero false (-53) (f_of_Z 1)); [vm_compute; reflexivity|vm_compute; discriminate|done].
  - rewrite Hi, (f_div_self _ _ Hc). vm_compute. reflexivity.
Qed.

(** *** A concrete host *)

Definition sample_meminfo : list ((string * Z) * nat) :=
  [(("MemTotal", 2014356%Z), 7); (("MemFree", 151224%Z), 8); (("MemAvailable", 1321404%Z), 3)].

#[local] Instance sample_host : heartbeat.Host unit := {|
  heartbeat.LookPath bin w := (if String.eqb bin "xray" then Ok "/usr/bin/xray" else Err (ErrorString "not found"), w);
  heartbeat.Open p w := (if String.eqb p "/proc/meminfo" then Ok (heartbeat.meminfo_text sample_meminfo)
                         else Err (ErrorString "no such file"), w);
  heartbeat.Uname w := (Ok ([120; 56; 54; 0]%Z, [54; 46; 56; 0; 1]%Z), w);
  heartbeat.Statfs _ w := (Ok (2621440, 4096)%Z, w);
  heartbeat.Sleep _ w := (tt, w);
|}.

Lemma meminfo_used_witness :
  heartbeat.memoryUsedMB tt =
    (((heartbeat.entry_value "MemTotal" sample_meminfo
       - heartbeat.entry_value "MemAvailable" sample_meminfo) / 1024)%Z, tt).
Proof.
  apply (meminfo_used (W := unit) sample_meminfo tt).
  - repeat constructor; try discriminate; vm_compute; (reflexivity || discriminate).
  - reflexivity.
  - vm_compute. discriminate.
Defined.

Example sample_memory : (heartbeat.memoryUsedMB tt).1 = 676%Z.
Proof. vm_compute. reflexivity. Qed.

Example sample_disk : (heartbeat.diskFreeGB "/" tt).1 = f_of_Z 10.
Proof. vm_compute. reflexivity. Qed.

Lemma cpu_utilization_witness :
  let s1 := heartbeat.mkCpuStat 100 40 in let s2 := heartbeat.mkCpuStat 200 40 in
  heartbeat.parse_cpu_line "cpu 10 0 5 40" = Ok (heartbeat.mkCpuStat 55 40) ∧
  heartbeat.cpu_usage s1 s2 = f_of_Z 100.
Proof.
  destruct (cpu_utilization [10; 0; 5; 40]%Z (heartbeat.mkCpuStat 100 40) (heartbeat.mkCpuStat 200 40))
    as [H1 (_ & H2 & _)]; [|simpl; lia|].
  { repeat (apply Forall_cons; split; [unfold max_uint64; lia|]). apply Forall_nil. exact I. }
  split; [exact H1|]. apply H2; [vm_compute; discriminate|reflexivity].
Defined.

(** The counters of the kernel may go back a little; then the difference wraps
    around and the "percentage" is far out of its range. *)
Example idle_goes_back :
  SFltb (heartbeat.cpu_usage (heartbeat.mkCpuStat 1000 500) (heartbeat.mkCpuStat 1100 499))
        (f_of_Z (-1000000000000000)) = true.
Proof. vm_compute. reflexivity. Qed.
