(* ===== verification/Observe.v ===== *)
(** * Observe: worlds with a trail, for statements about what a run does.

    A program over an abstract world can be run in [Observed L W], the world
    together with a list of entries.  Every call is [lifted], which leaves the
    trail alone, except those under observation, which are [noted] in it: the
    exchanges of a transport ([observing]), or the calls of a client.  Nothing
    is assumed of the world underneath. *)

From Stdlib Require Import ZArith.
From S2P Require Import Prelude GoStrings GoError GoOs Json Http Executor Health Firewall Certs Api Heartbeat.

Record Observed (L W : Type) : Type := observed { under : W; trail : list L }.
Arguments observed {L W}.
Arguments under {L W}.
Arguments trail {L W}.

Definition lifted {L W A} (c : M W A) : M (Observed L W) A :=
  λ w, let '(a, u) := c (under w) in (a, observed u (trail w)).

Definition noted {L W A} (entry : A → L) (c : M W A) : M (Observed L W) A :=
  λ w, let '(a, u) := c (under w) in (a, observed u (trail w ++ [entry a])).

(** ** The interfaces of the agent in such a world *)

Section Lifted.
Context {L W : Type}.

#[export] Instance lifted_clock `{Clock W} : Clock (Observed L W) := {| Now := lifted Now |}.
#[export] Instance lifted_timer `{Timer W} : Timer (Observed L W) := {|
  SelectAfter := λ ctx d, lifted (SelectAfter ctx d);
|}.
#[export] Instance lifted_logger `{executor.Logger W} : executor.Logger (Observed L W) := {|
  executor.Log := λ l, lifted (executor.Log l);
|}.
#[export] Instance lifted_dialer `{health.Dialer W} : health.Dialer (Observed L W) := {|
  health.DialTCP := λ ctx t a, lifted (health.DialTCP ctx t a);
|}.
#[export] Instance lifted_iptables `{firewall.CommandRunner W} : firewall.CommandRunner (Observed L W) := {|
  firewall.Run := λ ctx n l, lifted (firewall.Run ctx n l);
  firewall.Output := λ ctx n l, lifted (firewall.Output ctx n l);
|}.
#[export] Instance lifted_certbot `{certs.commandRunner W} : certs.commandRunner (Observed L W) := {|
  certs.Run := λ ctx n l, lifted (certs.Run ctx n l);
|}.
#[export] Instance lifted_files `{FileSystem W} : FileSystem (Observed L W) := {|
  ReadFile := λ p, lifted (ReadFile p);
  Stat := λ p, lifted (Stat p);
  CreateTemp := λ dir pat, lifted (CreateTemp dir pat);
  Write := λ tmp data, lifted (Write tmp data);
  Chmod := λ tmp perm, lifted (Chmod tmp perm);
  Close := λ tmp, lifted (Close tmp);
  Remove := λ p, lifted (Remove p);
  Rename := λ p q, lifted (Rename p q);
|}.
#[export] Instance lifted_host `{heartbeat.Host W} : heartbeat.Host (Observed L W) := {|
  heartbeat.LookPath := λ p, lifted (heartbeat.LookPath p);
  heartbeat.Open := λ p, lifted (heartbeat.Open p);
  heartbeat.Uname := lifted heartbeat.Uname;
  heartbeat.Statfs := λ p, lifted (heartbeat.Statfs p);
  heartbeat.Sleep := λ d, lifted (heartbeat.Sleep d);
|}.

(** A transport that is not observed, and one whose exchanges are. *)
Definition lifted_http (h : HttpClient W) : HttpClient (Observed L W) := {|
  NewRequest := NewRequest h;
  Do := λ ctx r, lifted (Do h ctx r);
|}.
Definition observing (entry : Request → res Response → L) (h : HttpClient W) : HttpClient (Observed L W) := {|
  NewRequest := NewRequest h;
  Do := λ ctx r, noted (entry r) (Do h ctx r);
|}.
End Lifted.

(** ** The exchanges of one call of the controller's client *)

(** The answers to one and the same request, sent until one of them decides:
    at most six, each but the last one to be tried again, and none only if
    the URL of the request is refused before it is sent. *)
Definition burst {W} (h : HttpClient W) (r : Request) (answers : list (res Response)) : Prop :=
  length answers ≤ 6 ∧ (answers = [] → is_Some (NewRequest h (Method r) (URL r))) ∧
  ∀ i a, answers !! i = Some a → S i < length answers → api.retryable a = true.

(** ** Laws *)

(** What a call adds to the trail. *)
Definition adds {L W A} (c : M (Observed L W) A) (w : Observed L W) (es : list L) : Prop :=
  trail (c w).2 = trail w ++ es.

Lemma trail_lifted {L W A} (c : M W A) (w : Observed L W) : trail (lifted c w).2 = trail w.
Proof. unfold lifted. by destruct (c (under w)). Qed.

Lemma trail_noted {L W A} (entry : A → L) (c : M W A) (w : Observed L W) :
  adds (noted entry c) w [entry (noted entry c w).1].
Proof. unfold adds, noted. by destruct (c (under w)). Qed.

(** The observed program is the program: it returns the same, up to [f], and
    leaves the same world underneath. *)
Definition mirrors {L W A B} (f : A → B) (c' : M (Observed L W) B) (c : M W A) : Prop :=
  ∀ w, (c' w).1 = f (c (under w)).1 ∧ under (c' w).2 = (c (under w)).2.

Lemma mirrors_lifted {L W A} (c : M W A) : mirrors (L := L) id (lifted c) c.
Proof. intros w. unfold lifted. by destruct (c (under w)). Qed.

Lemma mirrors_noted {L W A} (entry : A → L) (c : M W A) : mirrors id (noted entry c) c.
Proof. intros w. unfold noted. by destruct (c (under w)). Qed.

Lemma mirrors_ret {L W A B} (f : A → B) a : mirrors (L := L) (W := W) f (mret (f a)) (mret a).
Proof. done. Qed.

Lemma mirrors_bind {L W A B A' B'} (f : A → B) (g : A' → B') (c' : M (Observed L W) B) (c : M W A)
    (k' : B → M (Observed L W) B') (k : A → M W A') :
  mirrors f c' c → (∀ a, mirrors g (k' (f a)) (k a)) → mirrors g (c' ≫= k') (c ≫= k).
Proof.
  intros Hc Hk w. unfold mbind, M_bind. specialize (Hc w).
  destruct (c' w) as [b w1], (c (under w)) as [a u]. cbn [fst snd] in *. destruct Hc as [-> <-]. apply Hk.
Qed.

(** ** What [doWithRetry] exchanges *)

Section Exchanges.
Context {L W : Type} `{Timer W} (entry : Request → res Response → L) (h : HttpClient W) (baseURL : string).
Context {A : Type}.
Variables (ctx : Context) (method path : string) (body : option json) (result : option (decoder A)) (zero : A).

Lemma retry_loop_exchanges cfg n attempt (w : Observed L W) :
  (0 ≤ attempt)%Z →
  let q := api.retry_loop (observing entry h) baseURL ctx method path body result zero cfg n attempt w in
  ∃ answers, trail q.2 = trail w ++ map (entry (api.request baseURL method path body)) answers ∧
    length answers ≤ n ∧
    (answers = [] → n = 0 ∨ (0 < attempt)%Z ∨ is_Some (NewRequest h method (baseURL +:+ path))) ∧
    (∀ i a, answers !! i = Some a → S i < length answers → api.retryable a = true) ∧
    (q.1.2 = None → answers ≠ []) ∧
    ∀ a, last answers = Some a →
      q.1 = api.conclude method path result zero a ∨ q.1.2 ≠ None ∧ api.retryable a = true.
Proof.
  revert attempt w. induction n as [|n IH]; intros attempt w Ha; cbv zeta.
  { exists []. rewrite app_nil_r. split_and!; try done. by left. }
  cbn [api.retry_loop]. unfold mbind, M_bind, mret, M_ret.
  set (pre := if (0 <? attempt)%Z then _ else _).
  assert (∃ o w1, pre w = (o, w1) ∧ trail w1 = trail w ∧ (o ≠ None → (0 < attempt)%Z)) as (o & w1 & -> & Ht & Ho).
  { unfold pre. destruct (Z.ltb_spec 0 attempt); [|by exists None, w].
    cbn [SelectAfter lifted_timer]. pose proof (trail_lifted (SelectAfter ctx (api.delay cfg attempt)) w) as Hl.
    destruct (lifted _ w) as [o w1]. by exists o, w1. }
  destruct o as [err|].
  { exists []. rewrite app_nil_r. specialize (Ho ltac:(done)). split_and!; try done; [simpl; lia|]. intros _. right. by left. }
  cbn [NewRequest observing]. destruct (NewRequest h method _) as [err|] eqn:En.
  { exists []. rewrite app_nil_r. split_and!; try done; [simpl; lia|]. intros _. by do 2 right. }
  cbn [Do observing]. pose proof (trail_noted (entry (api.request baseURL method path body))
    (Do h ctx (api.request baseURL method path body)) w1) as Hn. unfold adds in Hn.
  destruct (noted _ _ w1) as [answer w2]. cbn [fst snd] in *. rewrite Ht in Hn.
  destruct (api.retryable answer && _)%bool eqn:Er.
  - apply andb_true_iff in Er as [Er _].
    destruct (IH (attempt + 1)%Z w2 ltac:(lia)) as (answers & Htr & Hlen & _ & Hre & Hnone & Hlast).
    exists (answer :: answers). rewrite Htr, Hn, <-app_assoc. split_and!; try done; [simpl; lia| |].
    + intros [|i] a; [by intros [= <-]|]. intros Hi ?. apply (Hre i a Hi). simpl in *. lia.
    + destruct answers as [|b answers]; [|exact Hlast]. intros a [= <-]. right. split; [|done].
      intros Hc. by apply Hnone in Hc.
  - exists [answer]. split_and!; try done; [simpl; lia| |].
    + intros i a Hi. apply lookup_lt_Some in Hi. simpl in *. lia.
    + intros a [= <-]. by left.
Qed.

(** A call with the client's configuration, from its start. *)
Lemma doWithRetry_exchanges (w : Observed L W) :
  let q := api.doWithRetry (observing entry h) baseURL ctx method path (Ok <$> body) result zero
             api.DefaultRetryConfig w in
  ∃ answers, adds (api.doWithRetry (observing entry h) baseURL ctx method path (Ok <$> body) result zero
                     api.DefaultRetryConfig) w (map (entry (api.request baseURL method path body)) answers) ∧
    burst h (api.request baseURL method path body) answers ∧
    (q.1.2 = None → answers ≠ []) ∧
    ∀ a, last answers = Some a →
      q.1 = api.conclude method path result zero a ∨ q.1.2 ≠ None ∧ api.retryable a = true.
Proof.
  cbv zeta. unfold adds. rewrite api.doWithRetry_body.
  destruct (retry_loop_exchanges api.DefaultRetryConfig 6 0 w ltac:(done)) as (answers & Ht & Hlen & Hnil & Hre & Hnone & Hlast).
  exists answers. split; [exact Ht|]. split; [|by split]. split; [done|]. split; [|done].
  intros E. destruct (Hnil E) as [?|[?|?]]; [done|lia|done].
Qed.
End Exchanges.
