(* ===== verification/Agent.v ===== *)
(** * Agent: internal/agent/agent.go, the operation loop.

    One turn of [operationPollLoop] claims an operation, executes it and
    reports its completion.  The control plane is the interface
    [agent.APIClient], of which nothing is assumed: [agent.calling] records the
    calls of any client in a trail, and the theorems are about that record over
    any number of turns.  [agent.http_api] is the client the program uses. *)

From Stdlib Require Import Ascii NArith ZArith.
From S2P Require Import Prelude GoStrings GoFmt Redact GoError Json Http Docker Service Executor Tunnel.
From S2P Require Import Health Firewall Certs Handlers Main Api Config Heartbeat Observe.

Module agent.
Import executor.

Class APIClient (W : Type) := {
  Heartbeat : Context → res json → M W (bool * option error);
  ClaimOperation : Context → string → M W (option api.Operation * option error);
  CompleteOperation : Context → string → api.CompleteRequest → M W (option error);
}.

(** The client of package api implements it. *)
Definition http_api {W} `{Timer W} (h : HttpClient W) (baseURL : string) : APIClient W := {|
  Heartbeat := api.Heartbeat h baseURL;
  ClaimOperation := api.ClaimOperation h baseURL;
  CompleteOperation := api.CompleteOperation h baseURL;
|}.

(** Whether the context is done, as the loop asks without blocking. *)
Class Cancellation (W : Type) := { Done : Context → M W bool }.

(** How one turn of the loop ends. *)
Inductive next (W : Type) : Type :=
| Stop
| Crashed
| Continue (e : Executor W).
Arguments Stop {W}.
Arguments Crashed {W}.
Arguments Continue {W}.

(** [time.Duration(sec) * time.Second]. *)
Definition seconds (sec : Z) : Z := wrap64 (sec * Second).

(** [time.NewTicker] panics unless the interval is positive. *)
Definition ticker_panics (d : Z) : bool := (d <=? 0)%Z.

Definition operation_of (op : api.Operation) : Operation :=
  mkOperation (api.ID op) (api.OpType op) (api.Data op).

(** What is reported of an operation: the error's text or the result's status
    and message; the result's data is not part of it. *)
Definition completion (op : Operation) (result : option Result) (execErr : option error) : api.CompleteRequest :=
  let '(status, errMsg) :=
    match execErr, result with
    | Some err, _ => ("failed", Error err)
    | None, Some r => (Status r, Message r)
    | None, None => ("success", "")
    end in
  api.mkCompleteRequest (ID op) status (RedactSecrets errMsg).

Section Loop.
Context {W : Type} `{Clock W} `{Logger W} `{UnicodeTables} `{Timer W} `{Cancellation W} {AC : APIClient W}.
Variables (cfg : config.Config) (nodeID : string) (ctx : Context).

Definition report (op : Operation) (req : api.CompleteRequest) : M W unit :=
  now ← Now;
  reportErr ← CompleteOperation (WithTimeout ctx now (30 * Second)) (ID op) req;
  match reportErr with
  | Some err => Log (mkLog LevelError "failed to report operation completion"
                       [("op_id", ID op); ("error", Error err)])
  | None => mret tt
  end.

(** One turn of the loop. *)
Definition poll_once (e : Executor W) : M W (next W) :=
  done ← Done ctx;
  if (done : bool) then mret Stop else
  now ← Now;
  let pollCtx := WithTimeout ctx now (seconds (config.OperationPollTimeoutSec (config.Controller cfg))) in
  resp ← ClaimOperation pollCtx nodeID;
  match resp with
  | (_, Some err) =>
      _ ← Log (mkLog Warn "operation claim failed" [("error", Error err)]);
      stop ← SelectAfter ctx (5 * Second);
      mret (match stop with Some _ => Stop | None => Continue e end)
  | (None, None) => mret (Continue e)
  | (Some claimed, None) =>
      let op := operation_of claimed in
      _ ← Log (mkLog Info "claimed operation" [("op_id", ID op); ("op_type", OpType op)]);
      r ← Execute e ctx op;
      match r with
      | (Panic, _) => mret Crashed
      | (Return result execErr, e') =>
          _ ← report op (completion op result execErr);
          mret (Continue e')
      end
  end.

(** At most [n] turns. *)
Fixpoint poll (n : nat) (e : Executor W) : M W (next W) :=
  match n with
  | O => mret (Continue e)
  | S n' =>
      r ← poll_once e;
      match r with Continue e' => poll n' e' | other => mret other end
  end.

Definition operationPollLoop (n : nat) (e : Executor W) : M W (next W) :=
  _ ← Log (mkLog Info "operation poller started" []);
  poll n e.
End Loop.

(** ** Runs under observation *)

#[global] Instance lifted_cancellation {L W} `{Cancellation W} : Cancellation (Observed L W) := {|
  Done := λ ctx, lifted (Done ctx);
|}.

(** A report of an operation: for its id, with a known status and without a
    UUID standing alone in its text. *)
Definition proper_report (op : Operation) (req : api.CompleteRequest) : Prop :=
  api.CompleteID req = ID op ∧ api.Status req ∈ ["success"; "degraded"; "failed"] ∧ no_uuid (api.Result req).

(** What one turn of the loop adds to a trail, where [claimed] says what a claim
    with a given outcome adds and [completed] what a report adds. *)
Inductive turn {L : Type} (claimed : option api.Operation * option error → list L → Prop)
    (completed : string → api.CompleteRequest → list L → Prop) : list L → Prop :=
| turn_over : turn claimed completed []
| turn_idle answer es :
    claimed answer es → (∀ op, answer ≠ (Some op, None)) → turn claimed completed es
| turn_worked op req es fs :
    claimed (Some op, None) es → proper_report (operation_of op) req → completed (api.ID op) req fs →
    turn claimed completed (es ++ fs).

Section Turns.
Context {L W : Type} {CK : Clock W} {LG : Logger W} {UT : UnicodeTables} {TM : Timer W} {CN : Cancellation W}
  {AC : APIClient (Observed L W)}.
Variables (cfg : config.Config) (nodeID : string) (ctx : Context).
Implicit Types w : Observed L W.

(** The trails of two worlds are the same. *)
Definition quiet w w' : Prop := trail w' = trail w.

#[global] Instance quiet_preorder : PreOrder quiet.
Proof. split; [done|]. unfold quiet. intros w1 w2 w3. congruence. Qed.

Lemma quiet_now w : quiet w (Now w).2.
Proof. exact (trail_lifted Now w). Qed.
Lemma quiet_log l w : quiet w (Log l w).2.
Proof. exact (trail_lifted (Log l) w). Qed.
Lemma quiet_timer c d w : quiet w (SelectAfter c d w).2.
Proof. exact (trail_lifted (SelectAfter c d) w). Qed.
Lemma quiet_done c w : quiet w (Done c w).2.
Proof. exact (trail_lifted (Done c) w). Qed.

(** Handlers answer, and add nothing to the trail. *)
Definition well_behaved (e : Executor (Observed L W)) : Prop :=
  ∀ t h, handlers e !! t = Some h → handlers.total_handler h ∧ ∀ c op w, quiet w (h c op w).2.

Lemma finish_quiet op start out w : quiet w (finish op start out w).2.
Proof.
  unfold finish, mbind, M_bind, mret, M_ret. pose proof (quiet_now w) as HN.
  destruct (Now w) as [stop w1]. cbn [snd] in HN.
  destruct out as [[r|] [e|]]; cbn [fst snd]; try exact HN;
    match goal with |- context [Log ?l w1] => pose proof (quiet_log l w1) as HL; destruct (Log l w1) as [u w2] end;
    cbn [fst snd] in *; by etransitivity.
Qed.

(** Executing adds no more than the handlers do, and keeps them registered. *)
Lemma Execute_quiet e op w :
  well_behaved e → quiet w (Execute e ctx op w).2 ∧ well_behaved (Execute e ctx op w).1.2.
Proof.
  intros He. unfold Execute, mbind, M_bind, mret, M_ret.
  destruct (handlers e !! OpType op) as [h|] eqn:Eh; [|by split].
  destruct (seen e !! ID op).
  { pose proof (quiet_log (mkLog Warn "duplicate operation skipped" (op_attrs op)) w) as HL.
    by destruct (Log _ w). }
  destruct (He _ _ Eh) as [Htot Hq]. pose proof (quiet_now w) as H1. destruct (Now w) as [n1 w1].
  pose proof (quiet_now w1) as H2. destruct (Now w1) as [n2 w2]. pose proof (quiet_now w2) as H3.
  destruct (Now w2) as [n3 w3]. cbn [fst snd] in *.
  set (c := WithTimeout _ _ _). specialize (Hq c op w3). destruct (h c op w3) as [out w4]. cbn [fst snd] in *.
  pose proof (finish_quiet op n3 out w4) as HF. destruct (finish op n3 out w4) as [o w5]. cbn [fst snd] in *.
  split; [|done]. repeat (etransitivity; [eassumption|]). done.
Qed.

Lemma completion_proper e op w r err :
  well_behaved e → (Execute e ctx op w).1.1 = Return r err → proper_report op (completion op r err).
Proof.
  intros He E. pose proof (main.Execute_answers e ctx op w (λ h Hh, proj1 (He _ h Hh))) as HA. rewrite E in HA.
  unfold completion. destruct err as [err|], r as [r|]; try done; (split; [done|split; [|apply redacted]]); [|exact HA].
  apply handlers.failed_known.
Qed.

Section Client.
Variables (claimed : option api.Operation * option error → list L → Prop)
  (completed : string → api.CompleteRequest → list L → Prop).
Hypothesis claim_adds : ∀ c w, ∃ es, adds (ClaimOperation c nodeID) w es ∧ claimed (ClaimOperation c nodeID w).1 es.
Hypothesis complete_adds : ∀ c id req w, ∃ es, adds (CompleteOperation c id req) w es ∧ completed id req es.

Lemma report_adds op req w : ∃ es, adds (report ctx op req) w es ∧ completed (ID op) req es.
Proof.
  unfold report, adds, mbind, M_bind, mret, M_ret. pose proof (quiet_now w) as HN.
  destruct (Now w) as [now w1]. cbn [snd] in *.
  match goal with |- context [CompleteOperation ?c ?i req w1] =>
    destruct (complete_adds c i req w1) as (es & HC & Hes); unfold adds in HC;
    destruct (CompleteOperation c i req w1) as [err w2] end.
  exists es. split; [|exact Hes]. unfold quiet in *. cbn [snd] in *. destruct err as [err|]; cbn [snd]; [|congruence].
  match goal with |- context [Log ?l w2] => pose proof (quiet_log l w2) as HL; destruct (Log l w2) as [u w3] end.
  unfold quiet in HL. cbn [snd] in *. congruence.
Qed.

(** What a turn does with what was claimed. *)
Lemma claimed_turn e op w es :
  well_behaved e → claimed (Some op, None) es →
  let k := (r ← Execute e ctx (operation_of op);
            match r with
            | (Panic, _) => mret Crashed
            | (Return result execErr, e') =>
                _ ← report ctx (operation_of op) (completion (operation_of op) result execErr); mret (Continue e')
            end) in
  (k w).1 ≠ Crashed ∧ (∀ e', (k w).1 = Continue e' → well_behaved e') ∧
  ∃ fs, adds k w fs ∧ turn claimed completed (es ++ fs).
Proof.
  intros He Hes. cbv zeta. unfold adds, mbind, M_bind, mret, M_ret.
  destruct (Execute_quiet e (operation_of op) w He) as [HE Hwb].
  pose proof (completion_proper e (operation_of op) w) as Hp.
  pose proof (main.Execute_answers e ctx (operation_of op) w (λ h Hh, proj1 (He _ h Hh))) as HA.
  destruct (Execute e ctx _ w) as [[[r err|] e'] w2]; cbn [fst snd] in *; [|done].
  specialize (Hp r err He eq_refl).
  destruct (report_adds (operation_of op) (completion (operation_of op) r err) w2) as (fs & HR & Hfs). unfold adds in HR.
  destruct (report ctx _ _ w2) as [u w3]. unfold quiet in HE. cbn [fst snd] in *.
  split_and!; [done|by intros e'' [= <-]|]. exists fs. split; [congruence|]. by econstructor.
Qed.

(** After a failed claim the loop waits. *)
Lemma backoff_turn e answer err w w3 es :
  well_behaved e → trail w3 = trail w ++ es → claimed (answer, Some err) es →
  let k := let '(_, w4) := Log (mkLog Warn "operation claim failed" [("error", Error err)]) w3 in
           let '(stop, w5) := SelectAfter ctx (5 * Second) w4 in
           (match stop with Some _ => Stop | None => Continue e end, w5) in
  k.1 ≠ Crashed ∧ (∀ e', k.1 = Continue e' → well_behaved e') ∧
  ∃ es, trail k.2 = trail w ++ es ∧ turn claimed completed es.
Proof.
  intros He Hw Hes. cbv zeta.
  match goal with |- context [Log ?l w3] => pose proof (quiet_log l w3) as HL; destruct (Log l w3) as [u w4] end.
  pose proof (quiet_timer ctx (5 * Second) w4) as HT. destruct (SelectAfter ctx (5 * Second) w4) as [o w5].
  unfold quiet in *. cbn [fst snd] in *. split_and!; [by destruct o|destruct o; [done|by intros e' [= <-]]|].
  exists es. split; [congruence|]. by eapply turn_idle.
Qed.

Lemma poll_once_turn e w :
  well_behaved e →
  (poll_once cfg nodeID ctx e w).1 ≠ Crashed ∧
  (∀ e', (poll_once cfg nodeID ctx e w).1 = Continue e' → well_behaved e') ∧
  ∃ es, adds (poll_once cfg nodeID ctx e) w es ∧ turn claimed completed es.
Proof.
  intros He. unfold poll_once, adds, mbind, M_bind, mret, M_ret.
  pose proof (quiet_done ctx w) as HD. destruct (Done ctx w) as [[] w1]; unfold quiet in HD; cbn [fst snd] in *.
  { split_and!; [done|done|]. exists []. rewrite app_nil_r. split; [done|constructor]. }
  pose proof (quiet_now w1) as HN. destruct (Now w1) as [now w2]. unfold quiet in HN. cbn [fst snd] in *.
  match goal with |- context [ClaimOperation ?c nodeID w2] =>
    destruct (claim_adds c w2) as (es & HC & Hes); unfold adds in HC;
    destruct (ClaimOperation c nodeID w2) as [[answer cerr] w3] end.
  cbn [fst snd] in *. rewrite HN, HD in HC. destruct cerr as [err|], answer as [op|]; cbn zeta beta iota.
  - by eapply backoff_turn.
  - by eapply backoff_turn.
  - match goal with |- context [Log ?l w3] => pose proof (quiet_log l w3) as HL; destruct (Log l w3) as [u w4] end.
    unfold quiet in HL. cbn [snd] in HL. destruct (claimed_turn e op w4 es He Hes) as (Hnc & Hwb & fs & HF & Ht).
    split_and!; [exact Hnc|exact Hwb|]. exists (es ++ fs). split; [|done].
    unfold adds in HF. etransitivity; [exact HF|]. by rewrite HL, HC, app_assoc.
  - split_and!; [done|by intros e' [= <-]|]. exists es. split; [done|]. by eapply turn_idle.
Qed.

Lemma poll_turns n e w :
  well_behaved e →
  (poll cfg nodeID ctx n e w).1 ≠ Crashed ∧
  ∃ turns, adds (poll cfg nodeID ctx n e) w (concat turns) ∧ length turns ≤ n ∧ Forall (turn claimed completed) turns.
Proof.
  unfold adds. revert e w. induction n as [|n IH]; intros e w He.
  { split; [done|]. exists []. rewrite app_nil_r. by split_and!. }
  cbn [poll]. unfold mbind, M_bind, mret, M_ret.
  destruct (poll_once_turn e w He) as (Hnc & Hwb & es & Hes & Ht). unfold adds in Hes.
  destruct (poll_once cfg nodeID ctx e w) as [r w1]. cbn [fst snd] in *.
  destruct r as [| |e']; [|done|].
  - split; [done|]. exists [es]. cbn [concat]. rewrite app_nil_r. split_and!; [done|simpl; lia|by constructor].
  - destruct (IH e' w1 (Hwb e' eq_refl)) as (Hnc' & turns & Htr & Hlen & Hall). split; [done|].
    exists (es :: turns). cbn [concat]. split_and!; [by rewrite Htr, Hes, app_assoc|simpl; lia|by constructor].
Qed.

Lemma loop_turns n e w :
  well_behaved e →
  (operationPollLoop cfg nodeID ctx n e w).1 ≠ Crashed ∧
  ∃ turns, adds (operationPollLoop cfg nodeID ctx n e) w (concat turns) ∧ length turns ≤ n ∧
    Forall (turn claimed completed) turns.
Proof.
  intros He. unfold operationPollLoop, adds, mbind, M_bind.
  pose proof (quiet_log (mkLog Info "operation poller started" []) w) as HL.
  destruct (Log _ w) as [u w1]. unfold quiet in HL. cbn [snd] in HL. rewrite <-HL. by apply poll_turns.
Qed.
End Client.
End Turns.

(** ** The calls of the loop *)

(** A claim or a report as the client was called, with what it returned. *)
Inductive call : Type :=
| Claim (nodeID : string) (answer : option api.Operation * option error)
| Complete (id : string) (req : api.CompleteRequest) (answer : option error).

(** Any client, its claims and reports noted. *)
Definition calling {W} `{APIClient W} : APIClient (Observed call W) := {|
  Heartbeat := λ ctx req, lifted (Heartbeat ctx req);
  ClaimOperation := λ ctx nodeID, noted (Claim nodeID) (ClaimOperation ctx nodeID);
  CompleteOperation := λ ctx id req, noted (Complete id req) (CompleteOperation ctx id req);
|}.

(** Every claim that yields an operation is followed, at once, by the one
    report of that operation; nothing else is reported. *)
Inductive orderly (nodeID : string) : list call → Prop :=
| orderly_nil : orderly nodeID []
| orderly_idle answer cs :
    (∀ op, answer ≠ (Some op, None)) → orderly nodeID cs → orderly nodeID (Claim nodeID answer :: cs)
| orderly_done op req answer cs :
    proper_report (operation_of op) req → orderly nodeID cs →
    orderly nodeID (Claim nodeID (Some op, None) :: Complete (api.ID op) req answer :: cs).

Lemma turns_orderly nodeID turns :
  Forall (turn (λ answer es, es = [Claim nodeID answer]) (λ id req es, ∃ answer, es = [Complete id req answer])) turns →
  orderly nodeID (concat turns).
Proof.
  induction 1 as [|t turns Ht _ IH]; [constructor|]. cbn [concat].
  destruct Ht as [|answer es -> Ha|op req es fs -> Hp [answer ->]]; cbn [app]; [done|by constructor|by constructor].
Qed.

(** The executor with its handlers lifted. *)
Definition lift_executor {L W} (e : Executor W) : Executor (Observed L W) :=
  mkExecutor ((λ (h : Handler W) c op, lifted (h c op)) <$> handlers e) (seen e) (defaultTimeout e).

Definition lift_next {L W} (r : next W) : next (Observed L W) :=
  match r with Stop => Stop | Crashed => Crashed | Continue e => Continue (lift_executor e) end.

Section Mirror.
Context {L W : Type} {CK : Clock W} {LG : Logger W} {UT : UnicodeTables} {TM : Timer W} {CN : Cancellation W}.

Lemma mirrors_finish op start out :
  mirrors (L := L) (W := W) id (finish op start out) (finish op start out).
Proof.
  unfold finish. eapply mirrors_bind; [apply mirrors_lifted|]. intros stop. cbv zeta.
  destruct out as [[r|] [e|]]; try (by intros w); (eapply mirrors_bind; [apply mirrors_lifted|by intros u w]).
Qed.

Lemma mirrors_Execute e ctx op :
  mirrors (L := L) (λ r : outcome * Executor W, (r.1, lift_executor r.2))
    (Execute (lift_executor e) ctx op) (Execute e ctx op).
Proof.
  unfold Execute. cbn [lift_executor handlers seen]. rewrite lookup_fmap.
  destruct (handlers e !! OpType op) as [h|]; cbn [fmap option_fmap option_map]; [|by intros w].
  destruct (seen e !! ID op).
  { eapply mirrors_bind; [apply mirrors_lifted|]. by intros u w. }
  eapply mirrors_bind; [apply mirrors_lifted|]. intros now. cbv zeta.
  eapply mirrors_bind; [apply mirrors_lifted|]. intros now2.
  eapply mirrors_bind; [apply mirrors_lifted|]. intros start.
  eapply mirrors_bind; [apply mirrors_lifted|]. intros out.
  eapply mirrors_bind; [apply mirrors_finish|]. by intros o w.
Qed.

Context {AC : APIClient W} {AC' : APIClient (Observed L W)}.
Hypotheses (same_claim : ∀ c n, mirrors id (ClaimOperation (APIClient := AC') c n) (ClaimOperation c n))
  (same_complete : ∀ c i r, mirrors id (CompleteOperation (APIClient := AC') c i r) (CompleteOperation c i r)).

Lemma mirrors_report ctx op req : mirrors id (report (W := Observed L W) ctx op req) (report ctx op req).
Proof.
  unfold report. eapply mirrors_bind; [apply mirrors_lifted|]. intros now.
  eapply mirrors_bind; [apply same_complete|]. intros [err|]; [apply mirrors_lifted|by intros w].
Qed.

Lemma mirrors_poll_once cfg nodeID ctx e :
  mirrors lift_next (poll_once cfg nodeID ctx (lift_executor (L := L) e)) (poll_once cfg nodeID ctx e).
Proof.
  unfold poll_once. eapply mirrors_bind; [apply mirrors_lifted|]. intros [|]; [by intros w|].
  eapply mirrors_bind; [apply mirrors_lifted|]. intros now. cbv zeta.
  eapply mirrors_bind; [apply same_claim|]. intros [[op|] [err|]]; cbn [id].
  1, 3: eapply mirrors_bind; [apply mirrors_lifted|]; intros u;
        eapply mirrors_bind; [apply mirrors_lifted|]; intros [x|];
        [by intros w|by intros w].
  - eapply mirrors_bind; [apply mirrors_lifted|]. intros u.
    eapply mirrors_bind; [apply mirrors_Execute|]. intros [[r err|] e']; cbn [fst snd];
      [|by intros w].
    eapply mirrors_bind; [apply mirrors_report|]. intros v. by intros w.
  - by intros w.
Qed.

Lemma mirrors_loop cfg nodeID ctx n e :
  mirrors lift_next (operationPollLoop cfg nodeID ctx n (lift_executor (L := L) e)) (operationPollLoop cfg nodeID ctx n e).
Proof.
  unfold operationPollLoop. eapply mirrors_bind; [apply mirrors_lifted|]. intros u. clear u. revert e.
  induction n as [|n IH]; intros e; cbn [poll]; [by intros w|].
  eapply mirrors_bind; [apply mirrors_poll_once|]. intros [| |e']; cbn [lift_next];
    [by intros w|by intros w|apply IH].
Qed.
End Mirror.

Lemma lift_well_behaved {L W} {CK : Clock W} {LG : Logger W} {UT : UnicodeTables} (e : Executor W) :
  (∀ t h, handlers e !! t = Some h → handlers.total_handler h) → well_behaved (lift_executor (L := L) e).
Proof.
  intros He t h. cbn [handlers lift_executor]. rewrite lookup_fmap. intros (h0 & Hh & ->)%fmap_Some. split.
  - intros c op w. specialize (He t h0 Hh c op (under w)). unfold lifted. by destruct (h0 c op (under w)).
  - intros c op w. apply trail_lifted.
Qed.
End agent.

(** ** Properties *)

Section Properties.
Context {W : Type} {CK : Clock W} {LG : executor.Logger W} {UT : UnicodeTables} {TM : Timer W}
  {CN : agent.Cancellation W} {AC : agent.APIClient W}.

(** C4: Whatever the client, its answers and the environment, as long as the
    handlers answer: every claim that yields an operation is followed at once
    by exactly one call of [CompleteOperation], for that operation, with a
    known status and a text in which no UUID stands alone; nothing else is
    completed, and the loop does not crash, however many turns it makes.
    Whether a call reaches the controller is the client's business.  The calls
    are those of the loop itself: observing them changes neither what it
    returns nor the world it leaves. *)
Theorem each_claim_reported_once (cfg : config.Config) (nodeID : string) (ctx : Context) (n : nat)
    (e : executor.Executor W) (w : W)
    (He : ∀ t h, executor.handlers e !! t = Some h → handlers.total_handler h) :
  let run := agent.operationPollLoop (AC := agent.calling) cfg nodeID ctx n (agent.lift_executor e) (observed w []) in
  let loop := agent.operationPollLoop cfg nodeID ctx n e w in
  loop.1 ≠ agent.Crashed ∧ agent.orderly nodeID (trail run.2) ∧
  run.1 = agent.lift_next loop.1 ∧ under run.2 = loop.2.
Proof.
  cbv zeta. destruct (agent.mirrors_loop (AC' := agent.calling) (λ c n, mirrors_noted _ _) (λ c i r, mirrors_noted _ _)
    cfg nodeID ctx n e (observed w [])) as [Hr Hu]. cbn [under] in *.
  destruct (agent.loop_turns (AC := agent.calling) cfg nodeID ctx (λ answer es, es = [agent.Claim nodeID answer])
    (λ id req es, ∃ answer, es = [agent.Complete id req answer])) with (n := n) (e := agent.lift_executor (L := agent.call) e)
    (w := observed (L := agent.call) w []) as (Hnc & turns & Ht & _ & Hall).
  - intros c w0. by eexists; split; [apply trail_noted|].
  - intros c id req w0. eexists. split; [apply trail_noted|]. by eexists.
  - by apply agent.lift_well_behaved.
  - unfold adds in Ht. rewrite Ht. rewrite Hr in Hnc. split_and!; [|by apply agent.turns_orderly|done|done].
    intros Hc. apply Hnc. by rewrite Hc.
Qed.

(** C40: An operation that is handed out again within the hour is reported as a
    success, [already processed], whatever became of it the first time: the
    report of a claimed operation whose id is still remembered does not depend
    on how it ended. *)
Theorem replayed_claim_reports_success (cfg : config.Config) (nodeID : string) (ctx : Context)
    (e : executor.Executor W) (op : api.Operation) (w w1 w2 w3 : W) (now : Z)
    (Hdone : agent.Done ctx w = (false, w1)) (Hnow : Now w1 = (now, w2))
    (Hclaim : agent.ClaimOperation (WithTimeout ctx now
                (agent.seconds (config.OperationPollTimeoutSec (config.Controller cfg)))) nodeID w2
              = ((Some op, None), w3))
    (Ht : is_Some (executor.handlers e !! api.OpType op))
    (Hseen : is_Some (executor.seen e !! api.ID op)) :
  let run := agent.poll_once (AC := agent.calling) cfg nodeID ctx (agent.lift_executor e) (observed w []) in
  (agent.poll_once cfg nodeID ctx e w).1 = agent.Continue e ∧ run.1 = agent.Continue (agent.lift_executor e) ∧
  ∃ answer, trail run.2 =
    [agent.Claim nodeID (Some op, None);
     agent.Complete (api.ID op) (api.mkCompleteRequest (api.ID op) "success" "already processed") answer].
Proof.
  cbv zeta. destruct (agent.mirrors_poll_once (AC' := agent.calling) (λ c n, mirrors_noted _ _) (λ c i r, mirrors_noted _ _)
    cfg nodeID ctx e (observed w [])) as [Hr _]. cbn [under] in Hr.
  assert (Hp : (agent.poll_once cfg nodeID ctx e w).1 = agent.Continue e).
  { unfold agent.poll_once, mbind, M_bind, mret, M_ret. rewrite Hdone, Hnow, Hclaim. cbn zeta beta iota.
    destruct (executor.Log _ w3) as [u w4]. rewrite (executor.Execute_seen e ctx (agent.operation_of op)) by done.
    by destruct (agent.report ctx (agent.operation_of op) _ _). }
  rewrite Hp in Hr. split; [done|]. split; [exact Hr|]. clear Hr Hp.
  unfold agent.poll_once, mbind, M_bind, mret, M_ret.
  cbn [agent.Done agent.lifted_cancellation Now lifted_clock agent.ClaimOperation agent.calling].
  unfold lifted at 1. cbn [under]. rewrite Hdone. cbn [under trail]. unfold lifted at 1. cbn [under]. rewrite Hnow.
  unfold noted at 1. cbn [under trail]. rewrite Hclaim. cbn [app].
  match goal with |- context [executor.Log ?l ?v] =>
    pose proof (agent.quiet_log l v) as HL; destruct (executor.Log l v) as [u w4] end.
  rewrite (executor.Execute_seen (agent.lift_executor e) ctx (agent.operation_of op));
    [|cbn; rewrite lookup_fmap; destruct Ht as [h ->]; by eexists|done].
  match goal with |- context [executor.Log ?l w4] =>
    pose proof (agent.quiet_log l w4) as HL2; destruct (executor.Log l w4) as [u' w5] end.
  unfold agent.quiet in *. cbn [fst snd trail] in *.
  set (req := agent.completion _ _ _).
  destruct (agent.report_adds (AC := agent.calling) ctx (λ id req es, ∃ answer, es = [agent.Complete id req answer]))
    with (op := agent.operation_of op) (req := req) (w := w5) as (es & HR & answer & ->).
  { intros c id r v. eexists. split; [apply trail_noted|]. by eexists. }
  unfold adds in HR. destruct (agent.report ctx _ req w5) as [u'' w6]. cbn [fst snd] in *.
  exists answer. rewrite HR, HL2, HL. reflexivity.
Qed.
End Properties.

(** What an operation computes is lost when it is in the result's data: a
    successful COLLECT_STATUS has the status of the container as its data, and
    is reported with an empty result. *)
Theorem collected_status_not_reported {W} {CK : Clock W} {LG : executor.Logger W} {UT : UnicodeTables}
    {CC : service.ContainerClient W} (e : executor.Executor W) (ctx : Context) (op : executor.Operation) (w : W)
    (r : executor.Result)
    (Hop : executor.OpType op = executor.OpCollectStatus)
    (Hh : executor.handlers e !! executor.OpCollectStatus = Some handlers.NewCollectStatusHandler)
    (Hnew : executor.seen e !! executor.ID op = None)
    (Hrun : (executor.Execute e ctx op w).1.1 = executor.Return (Some r) None)
    (Hs : executor.Status r = "success") :
  ∃ st, executor.ResultData r = Marshal (service.enc_Status st) ∧
        agent.completion op (Some r) None = api.mkCompleteRequest (executor.ID op) "success" "".
Proof.
  apply executor.Execute_returns in Hrun as (h & c & w0 & m & w1 & Hh' & Hm & ->); [|done].
  rewrite Hop in Hh'. pose proof (eq_trans (eq_sym Hh) Hh') as [= <-]. revert Hm Hs.
  unfold handlers.NewCollectStatusHandler, handlers.on_service, handlers.with_payload, handlers.report, handlers.fail,
    handlers.failed, handlers.result_of, mbind, M_bind, mret, M_ret.
  destruct (handlers.payload _ _ _ _) as [sid|err]; [|done].
  destruct (String.eqb (id sid) ""); [done|].
  destruct (service.CollectStatus c sid w0) as [[st|err] w2]; intros [= <- <-] Hs; [|done].
  by exists st.
Qed.

(** C39: The heartbeat ticker starts and the intervals are exact for every
    configuration with the defaults applied whose intervals are at most
    9223372036 seconds; one more second wraps around, and the ticker
    panics. *)
Theorem intervals_exact (cfg : config.Config)
    (Hc : config.complete cfg)
    (Hh : (config.HeartbeatIntervalSec (config.Controller cfg) ≤ 9223372036)%Z)
    (Ho : (config.OperationPollTimeoutSec (config.Controller cfg) ≤ 9223372036)%Z) :
  agent.seconds (config.HeartbeatIntervalSec (config.Controller cfg))
    = (config.HeartbeatIntervalSec (config.Controller cfg) * Second)%Z ∧
  agent.ticker_panics (agent.seconds (config.HeartbeatIntervalSec (config.Controller cfg))) = false ∧
  agent.seconds (config.OperationPollTimeoutSec (config.Controller cfg))
    = (config.OperationPollTimeoutSec (config.Controller cfg) * Second)%Z ∧
  agent.ticker_panics (agent.seconds 9223372037) = true.
Proof.
  destruct Hc as (_ & _ & H1 & H2 & _). unfold agent.seconds, Second.
  rewrite !wrap64_id by (apply in_int64_spec; unfold int64_min, int64_max; lia).
  split_and!; try done. unfold agent.ticker_panics. apply Z.leb_gt. lia.
Qed.

(** *** A concrete control plane: it hands out the operations of a list and
    shuts the agent down when there are no more. *)

Record plane : Type := mkPlane {
  todo : list api.Operation;
  handed_out : list string;
  completed : list api.CompleteRequest;
}.

#[local] Instance plane_clock : Clock plane := {| Now w := (0%Z, w) |}.
#[local] Instance plane_logger : executor.Logger plane := {| executor.Log _ w := (tt, w) |}.
#[local] Instance plane_timer : Timer plane := {| SelectAfter _ _ w := (None, w) |}.
#[local] Instance plane_done : agent.Cancellation plane :=
  {| agent.Done _ w := (match todo w with [] => true | _ => false end, w) |}.
#[local] Instance plane_client : agent.APIClient plane := {|
  agent.Heartbeat _ _ w := ((true, None), w);
  agent.ClaimOperation _ _ w :=
    match todo w with
    | [] => ((None, Some (ErrorString "no more")), w)
    | op :: rest => ((Some op, None), mkPlane rest (handed_out w ++ [api.ID op]) (completed w))
    end;
  agent.CompleteOperation _ _ req w := (None, mkPlane (todo w) (handed_out w) (completed w ++ [req]));
|}.
#[local] Instance plane_containers : service.ContainerClient plane := {|
  service.Inspect _ _ w := (Ok (docker.mkContainerState "c1" "" (docker.mkRunState "running" true 0 "" "" None) ""
                                 (docker.mkContainerConfig "" ∅)), w);
  service.Create _ _ w := (Err (ErrorString "unused"), w);
  service.Start _ _ w := (Ok tt, w);
  service.Stop _ _ _ w := (Ok tt, w);
  service.Remove _ _ _ w := (Ok tt, w);
  service.Logs _ _ _ w := (Ok "", w);
|}.

#[local] Existing Instance latin1_tables.

Definition plane_executor : executor.Executor plane :=
  executor.mkExecutor {[executor.OpCollectStatus := handlers.NewCollectStatusHandler]} ∅ (5 * executor.Minute).

Definition plane_op : api.Operation :=
  api.mkApiOperation "op-1" executor.OpCollectStatus (Some (JObj [("service_id", JStr "web")])).

Definition plane_config : config.Config := 
  match config.applyDefaults raw_config with Ok c => c | Err _ => raw_config end.
Definition plane_seen : executor.Executor plane := executor.mark plane_executor "op-1" 0.

Lemma plane_total t h : executor.handlers plane_executor !! t = Some h → handlers.total_handler h.
Proof.
  unfold plane_executor. cbn [executor.handlers]. intros Hh.
  destruct (decide (t = executor.OpCollectStatus)) as [->|Hne];
    [rewrite lookup_singleton_eq in Hh; injection Hh as <-|by rewrite lookup_singleton_ne in Hh].
  intros c op. apply handlers.answers_on_service; intros v. apply handlers.answers_report; intros st.
  by apply handlers.answers_result.
Qed.

Definition plane_work : plane := mkPlane [plane_op; plane_op] [] [].

Lemma each_claim_reported_once_witness :
  let run := agent.operationPollLoop (AC := agent.calling) plane_config "n" Background 5
               (agent.lift_executor plane_executor) (observed plane_work []) in
  agent.orderly "n" (trail run.2) ∧ length (trail run.2) = 4 ∧
  (agent.operationPollLoop plane_config "n" Background 5 plane_executor plane_work).1 ≠ agent.Crashed.
Proof.
  destruct (each_claim_reported_once plane_config "n" Background 5 plane_executor plane_work plane_total)
    as (Hc & Ho & _). split; [exact Ho|]. split; [vm_compute; reflexivity|exact Hc].
Defined.

Lemma replayed_claim_reports_success_witness :
  let run := agent.poll_once (AC := agent.calling) plane_config "n" Background (agent.lift_executor plane_seen)
               (observed plane_work []) in
  (agent.poll_once plane_config "n" Background plane_seen plane_work).1 = agent.Continue plane_seen ∧
  run.1 = agent.Continue (agent.lift_executor plane_seen) ∧
  ∃ answer, trail run.2 =
    [agent.Claim "n" (Some plane_op, None);
     agent.Complete "op-1" (api.mkCompleteRequest "op-1" "success" "already processed") answer].
Proof.
  eapply (replayed_claim_reports_success plane_config "n" Background plane_seen plane_op plane_work);
    [reflexivity|reflexivity|reflexivity|by eexists|by eexists].
Defined.

Definition plane_status : service.Status :=
  service.mkStatus "web" "routestack-web" "c1" true "running" 0 "" "" false.
Definition plane_result : executor.Result :=
  executor.mkResult "success" "" (Marshal (service.enc_Status plane_status)).

Lemma collected_status_not_reported_witness :
  ∃ st, executor.ResultData plane_result = Marshal (service.enc_Status st) ∧
    agent.completion (agent.operation_of plane_op) (Some plane_result) None
      = api.mkCompleteRequest (executor.ID (agent.operation_of plane_op)) "success" "".
Proof.
  apply (collected_status_not_reported plane_executor Background (agent.operation_of plane_op) (mkPlane [] [] [])
    plane_result); [reflexivity|reflexivity|reflexivity|vm_compute; reflexivity|reflexivity].
Defined.

Lemma intervals_exact_witness :
  agent.seconds (config.HeartbeatIntervalSec (config.Controller plane_config))
    = (config.HeartbeatIntervalSec (config.Controller plane_config) * Second)%Z ∧
  agent.ticker_panics (agent.seconds (config.HeartbeatIntervalSec (config.Controller plane_config))) = false ∧
  agent.seconds (config.OperationPollTimeoutSec (config.Controller plane_config))
    = (config.OperationPollTimeoutSec (config.Controller plane_config) * Second)%Z ∧
  agent.ticker_panics (agent.seconds 9223372037) = true.
Proof.
  apply (intervals_exact plane_config); [by apply (config.applyDefaults_complete raw_config)|vm_compute; discriminate|vm_compute; discriminate].
Defined.
