(* ===== verification/Frame.v ===== *)
(** * Frame: what the wired agent leaves alone, and what it reports.

    The handlers reach the world through the interfaces of the managers only,
    so a relation between worlds that those calls keep is kept by every
    operation.  With the relation that two worlds have the same trail, the turns
    of [Agent] apply to the executor that [main.wire] builds, and the trail of
    HTTP exchanges with the controller is the conversation of the agent. *)

From Stdlib Require Import ZArith.
From S2P Require Import Prelude GoStrings Redact GoError Json Http Docker Service Executor Components Tunnel.
From S2P Require Import Health Firewall Certs Handlers Main Api Config Heartbeat Observe Agent.

Create HintDb keeps.

Module frame.

Section Keeps.
Context {W : Type} (R : relation W) `{!PreOrder R}.

(** A program that moves the world along [R]. *)
Definition keeps {A} (c : M W A) : Prop := ∀ w, R w (c w).2.

Lemma keeps_ret {A} (a : A) : keeps (mret a).
Proof. intros w. reflexivity. Qed.

Lemma keeps_bind {A B} (c : M W A) (k : A → M W B) : keeps c → (∀ a, keeps (k a)) → keeps (c ≫= k).
Proof.
  intros Hc Hk w. unfold mbind, M_bind. specialize (Hc w). destruct (c w) as [a w']. etransitivity; [exact Hc|apply Hk].
Qed.

Lemma keeps_try {E A B} (c : M W (result E A)) h (k : A → M W (result E B)) :
  keeps c → (∀ a, keeps (k a)) → keeps (try_or c h k).
Proof.
  intros Hc Hk w. unfold try_or. specialize (Hc w). destruct (c w) as [[a|e] w']; [|exact Hc].
  etransitivity; [exact Hc|apply Hk].
Qed.

Lemma keeps_with_payload {A} (p : res A) k : (∀ a, keeps (k a)) → keeps (handlers.with_payload p k).
Proof. intros Hk. destruct p; [apply Hk|apply keeps_ret]. Qed.

Lemma keeps_report {A} (c : M W (res A)) pre k : keeps c → (∀ a, keeps (k a)) → keeps (handlers.report c pre k).
Proof. intros Hc Hk. apply keeps_bind; [done|]. intros [a|e]; [apply Hk|apply keeps_ret]. Qed.

Lemma keeps_on_service {A} (p : res A) sid k : (∀ a, keeps (k a)) → keeps (handlers.on_service p sid k).
Proof. intros Hk. apply keeps_with_payload. intros a. destruct (String.eqb _ _); [apply keeps_ret|apply Hk]. Qed.
End Keeps.

#[export] Hint Resolve keeps_ret : keeps.

(** Follows the program, by its calls and its case distinctions. *)
Ltac keeps_step :=
  lazymatch goal with
  | |- keeps _ (mret _) => apply keeps_ret; exact _
  | |- keeps _ (mbind _ _) => apply keeps_bind; [exact _| |intros]
  | |- keeps _ (try_or _ _ _) => apply keeps_try; [exact _| |intros]
  | |- keeps _ (handlers.with_payload _ _) => apply keeps_with_payload; [exact _|intros]
  | |- keeps _ (handlers.report _ _ _) => apply keeps_report; [exact _| |intros]
  | |- keeps _ (handlers.on_service _ _ _) => apply keeps_on_service; [exact _|intros]
  | |- keeps _ (match ?x with _ => _ end) => destruct x
  | |- keeps _ (let _ := _ in _) => cbv zeta
  end.
Ltac keeps := repeat first [ solve [ eauto with keeps typeclass_instances ] | keeps_step ].

(** ** The Docker client *)
Section Docker.
Context {W : Type} (R : relation W) `{!PreOrder R} `{UnicodeTables}.
Variable (c : docker.Client W).
Hypothesis keeps_Do : ∀ ctx r, keeps R (Do (docker.httpClient c) ctx r).
Hint Resolve keeps_Do : keeps.

Lemma keeps_do ctx method path body : keeps R (docker.do c ctx method path body).
Proof. intros w. unfold docker.do. destruct (NewRequest _ _ _); [reflexivity|apply keeps_Do]. Qed.
Hint Resolve keeps_do : keeps.

Lemma keeps_expect_status what r : keeps R r → keeps R (docker.expect_status what r).
Proof. intros Hr. unfold docker.expect_status. keeps. Qed.
Hint Resolve keeps_expect_status : keeps.

Lemma keeps_Inspect ctx id : keeps R (docker.Inspect c ctx id).
Proof. unfold docker.Inspect. keeps. Qed.
Lemma keeps_Create ctx spec : keeps R (docker.Create c ctx spec).
Proof. unfold docker.Create, docker.doJSON. keeps. Qed.
Lemma keeps_Start ctx id : keeps R (docker.Start c ctx id).
Proof. unfold docker.Start. keeps. Qed.
Lemma keeps_Stop ctx id t : keeps R (docker.Stop c ctx id t).
Proof. unfold docker.Stop. keeps. Qed.
Lemma keeps_Remove ctx id f : keeps R (docker.Remove c ctx id f).
Proof. unfold docker.Remove. keeps. Qed.
Lemma keeps_Adopt ctx id : keeps R (docker.Adopt c ctx id).
Proof. unfold docker.Adopt, docker.doJSON. keeps. Qed.
Lemma keeps_Logs ctx id n : keeps R (docker.Logs c ctx id n).
Proof. unfold docker.Logs. keeps. Qed.
Lemma keeps_List ctx labels : keeps R (docker.List c ctx labels).
Proof. unfold docker.List. keeps. Qed.
Lemma keeps_Pull ctx image : keeps R (docker.Pull c ctx image).
Proof. unfold docker.Pull. keeps. Qed.
Lemma keeps_InspectImage ctx image : keeps R (docker.InspectImage c ctx image).
Proof. unfold docker.InspectImage. keeps. Qed.
Lemma keeps_Exec ctx id cmd : keeps R (docker.Exec c ctx id cmd).
Proof. unfold docker.Exec, docker.doJSON. keeps. Qed.
Hint Resolve keeps_Inspect keeps_List : keeps.

Lemma keeps_try_candidates ctx name cs : keeps R (docker.try_candidates c ctx name cs).
Proof. induction cs; cbn [docker.try_candidates]; keeps. Qed.
Hint Resolve keeps_try_candidates : keeps.

Lemma keeps_FindContainer ctx name : keeps R (docker.FindContainer c ctx name).
Proof. unfold docker.FindContainer. keeps. Qed.
End Docker.

(** ** The managers, over their interfaces *)
Section Managers.
Context {W : Type} (R : relation W) `{!PreOrder R}.

Section Services.
Context {CC : service.ContainerClient W} {GM : GoMaps}.
Hypotheses (k_inspect : ∀ ctx n, keeps R (service.Inspect ctx n))
  (k_create : ∀ ctx s, keeps R (service.Create ctx s)) (k_start : ∀ ctx n, keeps R (service.Start ctx n))
  (k_stop : ∀ ctx n t, keeps R (service.Stop ctx n t)) (k_remove : ∀ ctx n f, keeps R (service.Remove ctx n f))
  (k_logs : ∀ ctx n t, keeps R (service.Logs ctx n t)).
Hint Resolve k_inspect k_create k_start k_stop k_remove k_logs : keeps.

Lemma keeps_NewApplyServiceRevisionHandler ctx op : keeps R (handlers.NewApplyServiceRevisionHandler ctx op).
Proof. unfold handlers.NewApplyServiceRevisionHandler, service.ApplyRevision, service.remove_existing. keeps. Qed.
Lemma keeps_NewCollectStatusHandler ctx op : keeps R (handlers.NewCollectStatusHandler ctx op).
Proof. unfold handlers.NewCollectStatusHandler, service.CollectStatus. keeps. Qed.
Lemma keeps_NewCollectLogsHandler ctx op : keeps R (handlers.NewCollectLogsHandler ctx op).
Proof. unfold handlers.NewCollectLogsHandler, service.CollectLogs. keeps. Qed.
End Services.

Section Images.
Context {IC : installer.ImageClient W}.
Hypotheses (k_pull : ∀ ctx i, keeps R (installer.Pull ctx i))
  (k_image : ∀ ctx i, keeps R (installer.InspectImage ctx i)).
Hint Resolve k_pull k_image : keeps.

Lemma keeps_NewInstallComponentHandler ctx op : keeps R (handlers.NewInstallComponentHandler ctx op).
Proof. unfold handlers.NewInstallComponentHandler, installer.Install. keeps. Qed.
End Images.

Section Tunnels.
Context {CE : tunnel.ContainerExec W}.
Hypotheses (k_found : ∀ ctx n, keeps R (tunnel.Inspect ctx n)) (k_exec : ∀ ctx n l, keeps R (tunnel.Exec ctx n l)).
Hint Resolve k_found k_exec : keeps.

Lemma keeps_run_helper verb ctx req : keeps R (tunnel.run_helper verb ctx req).
Proof. unfold tunnel.run_helper. keeps. Qed.
Hint Resolve keeps_run_helper : keeps.

Lemma keeps_NewCreateTunnelHandler ctx op : keeps R (handlers.NewCreateTunnelHandler ctx op).
Proof. unfold handlers.NewCreateTunnelHandler, tunnel.Create. keeps. Qed.
Lemma keeps_NewRemoveTunnelHandler ctx op : keeps R (handlers.NewRemoveTunnelHandler ctx op).
Proof. unfold handlers.NewRemoveTunnelHandler, tunnel.Remove. keeps. Qed.
End Tunnels.

Section Checks.
Context {CI : health.ContainerInspector W} {DI : health.Dialer W} {CK : Clock W}.
Hypotheses (k_state : ∀ ctx n, keeps R (health.Inspect ctx n)) (k_dial : ∀ ctx t a, keeps R (health.DialTCP ctx t a))
  (k_now : keeps R Now).
Hint Resolve k_state k_dial k_now : keeps.

Lemma keeps_probe_all ctx t ports h : keeps R (health.probe_all ctx t ports h).
Proof. revert h. induction ports; intros h; cbn [health.probe_all]; unfold health.probePort; keeps. Qed.

Lemma keeps_Check ctx sid opts : keeps R (health.Check ctx sid opts).
Proof.
  unfold health.Check. keeps. intros w. pose proof (k_now w) as Hn. destruct (Now w) as [now w1].
  match goal with |- context [health.probe_all ?c ?t ?p ?h w1] =>
    pose proof (keeps_probe_all c t p h w1) as Hp; destruct (health.probe_all c t p h w1) as [[checks healthy] w2] end.
  cbn [snd] in *. by etransitivity.
Qed.
Hint Resolve keeps_Check : keeps.

Lemma keeps_NewRunHealthCheckHandler ctx op : keeps R (handlers.NewRunHealthCheckHandler ctx op).
Proof. unfold handlers.NewRunHealthCheckHandler. keeps. Qed.
End Checks.

Section Processes.
Context {UT : UnicodeTables} {RU : firewall.CommandRunner W} {CB : certs.commandRunner W}.
Hypotheses (k_run : ∀ ctx n l, keeps R (firewall.Run ctx n l)) (k_output : ∀ ctx n l, keeps R (firewall.Output ctx n l))
  (k_certbot : ∀ ctx n l, keeps R (certs.Run ctx n l)).
Hint Resolve k_run k_output k_certbot : keeps.

Lemma keeps_add_rules ctx i rules : keeps R (firewall.add_rules ctx i rules).
Proof. revert i. induction rules; intros i; cbn [firewall.add_rules]; keeps. Qed.
Hint Resolve keeps_add_rules : keeps.

Lemma keeps_ensureChain ctx : keeps R (firewall.ensureChain ctx).
Proof. unfold firewall.ensureChain. keeps. Qed.
Hint Resolve keeps_ensureChain : keeps.

Lemma keeps_NewApplyFirewallRevisionHandler ctx op : keeps R (handlers.NewApplyFirewallRevisionHandler ctx op).
Proof. unfold handlers.NewApplyFirewallRevisionHandler, firewall.ApplyRevision. keeps. Qed.
Lemma keeps_NewManageCertificateHandler path ctx op : keeps R (handlers.NewManageCertificateHandler path ctx op).
Proof. unfold handlers.NewManageCertificateHandler, certs.Manage. keeps. Qed.
End Processes.
End Managers.

(** ** The container handlers and the wired executor *)
Section Wired.
Context {W : Type} (R : relation W) `{!PreOrder R} {UT : UnicodeTables} {GM : GoMaps} {CK : Clock W}
  {LG : executor.Logger W} {DI : health.Dialer W} {RU : firewall.CommandRunner W} {CB : certs.commandRunner W}.

(** The calls through which the handlers reach the world keep [R]. *)
Record environment (h : HttpClient W) : Prop := mkEnvironment {
  env_now : keeps R Now;
  env_do : ∀ ctx r, keeps R (Do h ctx r);
  env_dial : ∀ ctx t a, keeps R (health.DialTCP ctx t a);
  env_run : ∀ ctx n l, keeps R (firewall.Run ctx n l);
  env_output : ∀ ctx n l, keeps R (firewall.Output ctx n l);
  env_certbot : ∀ ctx n l, keeps R (certs.Run ctx n l);
}.

Variable (c : docker.Client W).
Hypothesis env : environment (docker.httpClient c).

Lemma keeps_findAndAdopt ctx name : keeps R (handlers.findAndAdopt c ctx name).
Proof.
  pose proof (keeps_FindContainer R c (env_do _ env)). pose proof (keeps_Adopt R c (env_do _ env)).
  unfold handlers.findAndAdopt. keeps.
Qed.
Hint Resolve keeps_findAndAdopt : keeps.

Lemma keeps_on_container ctx op k : (∀ id name, keeps R (k id name)) → keeps R (handlers.on_container c ctx op k).
Proof. intros Hk. unfold handlers.on_container. keeps. Qed.

(** What every operation keeps. *)
Lemma keeps_docker_table : Forall (λ th : string * executor.Handler W, ∀ ctx op, keeps R (th.2 ctx op)) (main.docker_table c).
Proof.
  pose proof (env_do _ env) as Hdo.
  pose proof (keeps_Start R c Hdo). pose proof (keeps_Stop R c Hdo).
  unfold main.docker_table. repeat (constructor; [cbn [snd]; intros ctx op|]); [..|done].
  - unfold handlers.NewDockerStartHandler. apply keeps_on_container. intros. keeps.
  - unfold handlers.NewDockerStopHandler. apply keeps_on_container. intros. keeps.
  - unfold handlers.NewDockerRestartHandler. apply keeps_on_container. intros. keeps.
  - apply keeps_NewInstallComponentHandler; [exact _|apply (keeps_Pull R c Hdo)|apply (keeps_InspectImage R c Hdo)].
  - apply keeps_NewApplyServiceRevisionHandler;
      [exact _|apply (keeps_Inspect R c Hdo)|apply (keeps_Create R c Hdo)|done|done|apply (keeps_Remove R c Hdo)].
  - apply keeps_NewCollectStatusHandler; [exact _|apply (keeps_Inspect R c Hdo)].
  - apply keeps_NewCollectLogsHandler; [exact _|apply (keeps_Logs R c Hdo)].
  - apply keeps_NewCreateTunnelHandler; [exact _|apply (keeps_Inspect R c Hdo)|apply (keeps_Exec R c Hdo)].
  - apply keeps_NewRemoveTunnelHandler; [exact _|apply (keeps_Inspect R c Hdo)|apply (keeps_Exec R c Hdo)].
  - apply keeps_NewRunHealthCheckHandler; [exact _|apply (keeps_Inspect R c Hdo)|apply (env_dial _ env)|apply (env_now _ env)].
Qed.

Lemma keeps_core_table : Forall (λ th : string * executor.Handler W, ∀ ctx op, keeps R (th.2 ctx op)) main.core_table.
Proof.
  unfold main.core_table. repeat (constructor; [cbn [snd]; intros ctx op|]); [..|done].
  - apply keeps_NewApplyFirewallRevisionHandler; [exact _|apply (env_run _ env)|apply (env_output _ env)].
  - apply keeps_NewManageCertificateHandler; [exact _|apply (env_certbot _ env)].
Qed.

Lemma keeps_wired e t h : main.wire (Some c) = Ok e → executor.handlers e !! t = Some h → ∀ ctx op, keeps R (h ctx op).
Proof.
  intros Hw Hh. destruct (main.wired_handler _ _ _ _ Hw Hh) as (Hin & _). cbn [main.table] in Hin.
  pose proof keeps_docker_table as HD. pose proof keeps_core_table as HC. rewrite Forall_forall in HD, HC.
  apply elem_of_app in Hin as [Hin|Hin]; [apply (HD _ Hin)|apply (HC _ Hin)].
Qed.
End Wired.

(** ** The conversation with the controller *)

(** The operation a claim's answer hands out, if it does. *)
Definition handed_out (answer : res Response) : option api.Operation :=
  match answer with
  | Err _ => None
  | Ok resp =>
      if decide (ReadErr resp = None ∧ (StatusCode resp < 400)%Z) then
        match Unmarshal api.dec_ClaimResponse (RespBody resp) None with
        | (Some op, None) => Some op
        | _ => None
        end
      else None
  end.

Definition claim_request (url nodeID : string) : Request :=
  mkRequest "POST" (url +:+ "/internal/agent/v1/operations/claim") true
    (Some (Marshal (JObj [("node_id", enc_string nodeID)]))).

Definition report_request (url id : string) (req : api.CompleteRequest) : Request :=
  mkRequest "POST" (url +:+ "/internal/agent/v1/operations/" +:+ id +:+ "/complete") true
    (Some (Marshal (api.enc_CompleteRequest req))).

(** The exchanges of one turn: a claim, and if its last answer hands out an
    operation, the report of that operation. *)
Inductive exchanged {W} (h : HttpClient W) (url nodeID : string) : list (Request * res Response) → Prop :=
| exchanged_nothing : exchanged h url nodeID []
| exchanged_claim answers :
    burst h (claim_request url nodeID) answers → last answers ≫= handed_out = None →
    exchanged h url nodeID (map (pair (claim_request url nodeID)) answers)
| exchanged_work answers op req replies :
    burst h (claim_request url nodeID) answers → last answers ≫= handed_out = Some op →
    agent.proper_report (agent.operation_of op) req → burst h (report_request url (api.ID op) req) replies →
    exchanged h url nodeID
      (map (pair (claim_request url nodeID)) answers ++ map (pair (report_request url (api.ID op) req)) replies).

Lemma handed_out_conclude path answer :
  handed_out answer =
  match api.conclude MethodPost path (Some api.dec_ClaimResponse) None answer with
  | (Some op, None) => Some op
  | _ => None
  end.
Proof.
  unfold handed_out, api.conclude. destruct answer as [resp|e]; [|done]. destruct (ReadErr resp) as [e|].
  { by rewrite decide_False by naive_solver. }
  destruct (Z.leb_spec 400 (StatusCode resp)).
  - rewrite decide_False; [done|]. lia.
  - rewrite decide_True by (split; [done|lia]). by destruct (Unmarshal _ _ _) as [[op|] [e|]].
Qed.

Lemma handed_out_retryable answer : api.retryable answer = true → handed_out answer = None.
Proof.
  unfold api.retryable, handed_out. destruct answer as [resp|e]; [|done].
  destruct (ReadErr resp) as [e|]; [by rewrite decide_False by naive_solver|].
  intros Hs. rewrite decide_False; [done|]. intros [_ Hlt]. unfold api.isRetryableStatus in Hs.
  destruct (Z.leb_spec 500 (StatusCode resp)); [lia|]. rewrite orb_true_iff, !Z.eqb_eq in Hs. lia.
Qed.

Section Conversation.
Context {W : Type} {TM : Timer W} (h : HttpClient W) (url nodeID : string).

(** The client of package api, its exchanges observed. *)
Definition observed_api : agent.APIClient (Observed (Request * res Response) W) :=
  agent.http_api (observing pair h) url.

Lemma claim_exchanges c (w : Observed (Request * res Response) W) :
  ∃ es, adds (agent.ClaimOperation (APIClient := observed_api) c nodeID) w es ∧
    ∃ answers, es = map (pair (claim_request url nodeID)) answers ∧ burst h (claim_request url nodeID) answers ∧
      last answers ≫= handed_out =
        match (agent.ClaimOperation (APIClient := observed_api) c nodeID w).1 with (Some op, None) => Some op | _ => None end.
Proof.
  destruct (doWithRetry_exchanges pair h url c MethodPost "/internal/agent/v1/operations/claim"
    (Some (api.enc_ClaimRequest nodeID)) (Some api.dec_ClaimResponse) None w) as (answers & Ht & Hb & Hnone & Hlast).
  eexists. split; [exact Ht|]. exists answers. split; [done|]. split; [exact Hb|].
  change (agent.ClaimOperation (APIClient := observed_api) c nodeID w) with
    (api.doWithRetry (observing pair h) url c MethodPost "/internal/agent/v1/operations/claim"
       (Ok <$> Some (api.enc_ClaimRequest nodeID)) (Some api.dec_ClaimResponse) None api.DefaultRetryConfig w).
  destruct (api.doWithRetry _ _ _ _ _ _ _ _ _ w) as [[o e] w1]. cbn [fst snd] in *.
  destruct (last answers) as [a|] eqn:El; simpl.
  - destruct (Hlast a eq_refl) as [Hc|[Herr Hr]].
    + rewrite (handed_out_conclude "/internal/agent/v1/operations/claim"). by rewrite <- Hc.
    + rewrite handed_out_retryable by done. by destruct o, e.
  - apply last_None in El. destruct e as [e|]; [by destruct o|]. by specialize (Hnone eq_refl).
Qed.

Lemma complete_exchanges c id req (w : Observed (Request * res Response) W) :
  ∃ es, adds (agent.CompleteOperation (APIClient := observed_api) c id req) w es ∧
    ∃ replies, es = map (pair (report_request url id req)) replies ∧ burst h (report_request url id req) replies.
Proof.
  destruct (doWithRetry_exchanges pair h url c MethodPost ("/internal/agent/v1/operations/" +:+ id +:+ "/complete")
    (Some (api.enc_CompleteRequest req)) (A := unit) None tt w) as (replies & Ht & Hb & _ & _).
  eexists. split; [|by exists replies]. revert Ht. unfold adds. cbn [agent.CompleteOperation observed_api agent.http_api].
  unfold api.CompleteOperation, mbind, M_bind, mret, M_ret. cbn [fmap option_fmap option_map].
  by destruct (api.doWithRetry _ _ _ _ _ _ _ _ _ w).
Qed.
End Conversation.

(** ** The wired executor in an observed world *)
Section Reports.
Context {L W : Type} {CK : Clock W} {LG : executor.Logger W} {UT : UnicodeTables} {GM : GoMaps}
  {DI : health.Dialer W} {RU : firewall.CommandRunner W} {CB : certs.commandRunner W}.

(** The Docker daemon, iptables and Certbot are not the controller. *)
Lemma lifted_environment (socket : HttpClient W) : environment (W := Observed L W) agent.quiet (lifted_http socket).
Proof. split; intros; intros w; apply trail_lifted. Qed.

Lemma wired_well_behaved (socket : HttpClient W) (e : executor.Executor (Observed L W)) :
  main.wire (Some (docker.NewClient (lifted_http socket))) = Ok e → agent.well_behaved e.
Proof.
  intros Hw t h Hh. split; [by destruct (main.wired_handler _ _ _ _ Hw Hh) as (_ & ? & _)|].
  intros cx op w. exact (keeps_wired agent.quiet (docker.NewClient (lifted_http socket)) (lifted_environment socket) e t h Hw Hh cx op w).
Qed.
End Reports.
End frame.

(** ** Properties *)

(** C3: The conversation of the operation loop of the agent as [run] wires it,
    with the HTTP client of package api, against any controller, Docker
    daemon, iptables and Certbot: the loop does not crash, and every turn is
    one claim, sent up to six times, and, exactly when its last answer hands
    out an operation, the report of that operation, sent up to six times and
    at least once unless the operation's id makes a URL that is refused.  The
    report names the operation's id, has one of the statuses [success],
    [degraded] and [failed], and a result text in which no UUID stands
    alone; nothing else is sent. *)
Theorem wired_agent_reports {W : Type} {CK : Clock W} {LG : executor.Logger W} {UT : UnicodeTables} {GM : GoMaps}
    {TM : Timer W} {CN : agent.Cancellation W} {DI : health.Dialer W} {RU : firewall.CommandRunner W}
    {CB : certs.commandRunner W} (controller socket : HttpClient W) (url : string)
    (cfg : config.Config) (nodeID : string) (ctx : Context) (n : nat)
    (e : executor.Executor (Observed (Request * res Response) W)) (w : W)
    (Hwire : main.wire (Some (docker.NewClient (lifted_http socket))) = Ok e) :
  let run := agent.operationPollLoop (AC := agent.http_api (observing pair controller) url)
               cfg nodeID ctx n e (observed w []) in
  run.1 ≠ agent.Crashed ∧
  ∃ turns, trail run.2 = concat turns ∧ length turns ≤ n ∧ Forall (frame.exchanged controller url nodeID) turns.
Proof.
  cbv zeta. destruct (agent.loop_turns (AC := frame.observed_api controller url) cfg nodeID ctx
    (λ answer es, ∃ answers, es = map (pair (frame.claim_request url nodeID)) answers ∧
       burst controller (frame.claim_request url nodeID) answers ∧
       last answers ≫= frame.handed_out = match answer with (Some op, None) => Some op | _ => None end)
    (λ id req es, ∃ replies, es = map (pair (frame.report_request url id req)) replies ∧
       burst controller (frame.report_request url id req) replies))
    with (n := n) (e := e) (w := observed (L := Request * res Response) w []) as (Hnc & turns & Ht & Hlen & Hall).
  - apply frame.claim_exchanges.
  - apply frame.complete_exchanges.
  - by eapply frame.wired_well_behaved.
  - split; [exact Hnc|]. exists turns. split_and!; [exact Ht|done|]. eapply Forall_impl; [exact Hall|].
    intros t [|[[op|] [err|]] es (answers & -> & Hb & Hl) Ha|op req es fs (answers & -> & Hb & Hl) Hp (replies & -> & Hr)];
      try by constructor. by destruct (Ha op).
Qed.

(** *** The theorem at a concrete host: a controller that hands out three
    operations and refuses the first report, a daemon that answers every
    request with 404, no iptables and no Certbot. *)
Section Desk.
#[local] Existing Instances latin1_tables sorted_maps.
Notation desk := (list (res Response)).
#[local] Instance desk_clock : Clock desk := {| Now := λ w, (0%Z, w) |}.
#[local] Instance desk_logger : executor.Logger desk := {| executor.Log := λ _ w, (tt, w) |}.
#[local] Instance desk_done : agent.Cancellation desk :=
  {| agent.Done := λ _ w, (match w with [] => true | _ => false end, w) |}.
#[local] Instance desk_dialer : health.Dialer desk :=
  {| health.DialTCP := λ _ _ _ w, (Err (ErrorString "connection refused"), w) |}.
#[local] Instance desk_iptables : firewall.CommandRunner desk := {|
  firewall.Run := λ _ _ _ w, (Err (ErrorString "exit status 1"), w);
  firewall.Output := λ _ _ _ w, (Err (ErrorString "exit status 1"), w);
|}.
#[local] Instance desk_certbot : certs.commandRunner desk :=
  {| certs.Run := λ _ _ _ w, (("", Some (ErrorString "exit status 1")), w) |}.

Definition desk_socket : HttpClient desk :=
  mkHttpClient desk (λ _ _, None) (λ _ _ w, (Ok (mkResponse 404 "no such container" None), w)).

Definition desk_executor : executor.Executor (Observed (Request * res Response) desk) :=
  match main.wire (Some (docker.NewClient (lifted_http desk_socket))) with
  | Ok e => e
  | Err _ => executor.NewExecutor
  end.

Definition claim_answer (id opType : string) (data : json) : res Response :=
  Ok (mkResponse 200 (Marshal (JObj [("operation", JObj [("id", JStr id); ("type", JStr opType); ("data", data)])])) None).

Definition desk_answers : desk :=
  [ claim_answer "op-1" "COLLECT_STATUS" (JObj [("service_id", JStr "web")]);
    Ok (mkResponse 503 "busy" None); Ok (mkResponse 204 "" None);
    Ok (mkResponse 200 "{}" None);
    claim_answer "op-2" "APPLY_FIREWALL_REVISION" (JObj [("revision", JNum "1")]); Ok (mkResponse 403 "no" None);
    claim_answer "op-3" "123e4567-e89b-12d3-a456-426614174000" JNull; Ok (mkResponse 204 "" None) ].

Lemma wired_agent_reports_witness :
  let run := agent.operationPollLoop (AC := agent.http_api (observing pair scripted) "https://panel")
               plane_config "n" Background 9 desk_executor (observed desk_answers []) in
  (run.1 ≠ agent.Crashed ∧
   ∃ turns, trail run.2 = concat turns ∧ length turns ≤ 9 ∧
     Forall (frame.exchanged scripted "https://panel" "n") turns) ∧
  map (λ x : Request * res Response, TrimPrefix (URL x.1) "https://panel/internal/agent/v1/operations/") (trail run.2)
    = ["claim"; "op-1/complete"; "op-1/complete"; "claim"; "claim"; "op-2/complete"; "claim"; "op-3/complete"].
Proof.
  split; [|vm_compute; reflexivity].
  apply (wired_agent_reports scripted desk_socket "https://panel" plane_config "n" Background 9 desk_executor desk_answers).
  reflexivity.
Defined.
End Desk.
