(* ===== verification/Runtime.v ===== *)
(** * Runtime: internal/agent/agent.go, the rest of it: the heartbeat loop and
    the life of the process.

    [runtime.heartbeatLoop] sends a heartbeat at the start and one at each
    tick, which is shown of the HTTP exchanges of the client.  [Run] starts it and the operation loop of [Agent] as goroutines and
    waits for the shutdown; the goroutines, the signals and the clock
    interleave, so this part is a transition system. *)

From Stdlib Require Import Ascii NArith ZArith.
From S2P Require Import Prelude GoStrings GoFmt GoFloat GoError GoOs Json Http Executor Api Config Heartbeat Observe Agent.

Module runtime.
Import executor.

(** The agent's view of its persistent state. *)
Record StateStore (W : Type) : Type := mkStore {
  IsEnrolled : M W bool;
  NodeID : string;
  Save : M W (res unit);
}.
Arguments mkStore {W}.
Arguments IsEnrolled {W}.
Arguments NodeID {W}.
Arguments Save {W}.

(** [select] on [ctx.Done()] and the ticker's channel: whether it was a tick. *)
Class Ticker (W : Type) := { NextTick : Context → Z → M W bool }.

Section Heartbeats.
Context {W : Type} `{Logger W} `{FileSystem W} `{heartbeat.Host W} {AC : agent.APIClient W} `{Ticker W}.
Variables (cfg : config.Config) (st : StateStore W) (version : string) (ctx : Context) (caps : list string).

(** What a heartbeat says; the services are not filled in. *)
Definition heartbeat_request : M W heartbeat.HeartbeatRequest :=
  info ← heartbeat.CollectSystemInfo;
  metrics ← heartbeat.CollectSystemMetrics;
  mret (heartbeat.mkHeartbeatRequest (NodeID st) version info.1.1 info.1.2 info.2 caps [] metrics).

(** A float in a log record. *)
Definition log_float (f : float64) : string := match json_float f with Ok t | Err t => t end.

Definition sendHeartbeat : M W unit :=
  req ← heartbeat_request;
  r ← agent.Heartbeat ctx (heartbeat.enc_HeartbeatRequest req);
  match r.2 with
  | Some err => Log (mkLog Warn "heartbeat failed" [("error", Error err)])
  | None =>
      let m := heartbeat.System req in
      Log (mkLog Debug "heartbeat sent"
             [("node_id", NodeID st); ("cpu_percent", log_float (heartbeat.CPUPercent m));
              ("memory_used_mb", itoa (heartbeat.MemoryUsedMB m))])
  end.

(** At most [n] turns of the loop, and whether it has ended. *)
Fixpoint beat (interval : Z) (n : nat) : M W bool :=
  match n with
  | O => mret false
  | S n' =>
      tick ← NextTick ctx interval;
      if (tick : bool) then _ ← sendHeartbeat; beat interval n' else mret true
  end.

(** The loop, or [None] when creating the ticker panics. *)
Definition heartbeatLoop (n : nat) : M W (option bool) :=
  let interval := agent.seconds (config.HeartbeatIntervalSec (config.Controller cfg)) in
  if agent.ticker_panics interval then mret None
  else
    _ ← sendHeartbeat;
    ended ← beat interval n;
    mret (Some ended).

(** [Run] up to the start of the goroutines: the capabilities, or the error. *)
Definition Run_start : M W (res (list string)) :=
  enrolled ← IsEnrolled st;
  if negb enrolled
  then mret (Err (ErrorString "agent is not enrolled: run 'routestack-agent enroll' first"))
  else
    _ ← Log (mkLog Info "agent starting"
               [("version", version); ("node_id", NodeID st); ("controller", config.URL (config.Controller cfg))]);
    caps ← heartbeat.DetectCapabilities;
    _ ← Log (mkLog Info "detected capabilities" [("capabilities", FmtSlice caps)]);
    mret (Ok caps).
End Heartbeats.

(** ** Shutdown

    [Run] serves until its context is done, then waits for both goroutines or
    for 30 seconds, and returns nil in either case. *)
Inductive phase : Type :=
| Serving
| Stopping (since : Z)
| Returned (since : Z) (graceful : bool).

Record run : Type := mkRun {
  phase_of : phase;
  time : Z;
  cancelled : bool;         (* a signal was caught, or the caller's context is done *)
  beating : bool;           (* the heartbeat goroutine runs *)
  polling : bool;           (* the operation goroutine runs *)
}.

Definition grace : Z := 30 * Second.

(** The goroutines end only when the context is done. *)
Inductive run_step : run → run → Prop :=
| run_time r t :
    (time r ≤ t)%Z → run_step r (mkRun (phase_of r) t (cancelled r) (beating r) (polling r))
| run_cancel r :
    run_step r (mkRun (phase_of r) (time r) true (beating r) (polling r))
| run_heartbeat_ends r :
    cancelled r = true → run_step r (mkRun (phase_of r) (time r) true false (polling r))
| run_poller_ends r :
    cancelled r = true → run_step r (mkRun (phase_of r) (time r) true (beating r) false)
| run_shutdown r :
    phase_of r = Serving → cancelled r = true →
    run_step r (mkRun (Stopping (time r)) (time r) true (beating r) (polling r))
| run_graceful r since :
    phase_of r = Stopping since → beating r = false → polling r = false →
    run_step r (mkRun (Returned since true) (time r) (cancelled r) false false)
| run_timeout r since :
    phase_of r = Stopping since → (since + grace ≤ time r)%Z →
    run_step r (mkRun (Returned since false) (time r) (cancelled r) (beating r) (polling r)).

Definition started (t : Z) : run := mkRun Serving t false true true.

Inductive run_reachable (t : Z) : run → Prop :=
| run_init : run_reachable t (started t)
| run_next r r' : run_reachable t r → run_step r r' → run_reachable t r'.

(** What holds in every state. *)
Definition run_inv (r : run) : Prop :=
  (cancelled r = false → phase_of r = Serving ∧ beating r = true ∧ polling r = true) ∧
  match phase_of r with
  | Serving => True
  | Stopping since => (since ≤ time r)%Z
  | Returned since graceful =>
      (since ≤ time r)%Z ∧
      if graceful then beating r = false ∧ polling r = false else (since + grace ≤ time r)%Z
  end.

Lemma run_inv_step r r' : run_step r r' → run_inv r → run_inv r'.
Proof.
  intros Hs [H1 H2]. destruct Hs as [r t Ht|r|r Hc|r Hc|r Hp Hc|r since Hp Hb Hq|r since Hp Ht];
    unfold run_inv; simpl; rewrite ?Hp in *; (split; [|repeat case_match; naive_solver lia]);
    try done; intros Hf; specialize (H1 Hf); naive_solver.
Qed.

Lemma run_reachable_inv t r : run_reachable t r → run_inv r.
Proof. induction 1 as [|r r' _ IH Hs]; [done|]. by eapply run_inv_step. Qed.

(** ** What the heartbeat loop does *)

(** An exchange with the controller, or what the ticker said. *)
Inductive beat_event : Type :=
| Exchange (r : Request) (answer : res Response)
| Tick (tick : bool).

#[global] Instance noted_ticker {W} `{Ticker W} : Ticker (Observed beat_event W) := {|
  NextTick := λ ctx d, noted Tick (NextTick ctx d);
|}.

Definition lift_store {L W} (st : StateStore W) : StateStore (Observed L W) :=
  mkStore (lifted (IsEnrolled st)) (NodeID st) (lifted (Save st)).

Definition beat_request (url : string) (body : json) : Request :=
  mkRequest "POST" (url +:+ "/internal/agent/v1/heartbeat") true (Some (Marshal body)).

(** What one heartbeat sends: a request of this agent, repeated while the
    answers ask for it, or nothing if it cannot be encoded. *)
Inductive beaten {W} (h : HttpClient W) (url nodeID version : string) (caps : list string) : list beat_event → Prop :=
| beaten_sent r body answers :
    heartbeat.NodeID r = nodeID → heartbeat.AgentVersion r = version →
    heartbeat.Capabilities r = caps → heartbeat.Services r = [] →
    heartbeat.enc_HeartbeatRequest r = Ok body → burst h (beat_request url body) answers →
    beaten h url nodeID version caps (map (Exchange (beat_request url body)) answers)
| beaten_unencodable r err :
    heartbeat.NodeID r = nodeID → heartbeat.AgentVersion r = version →
    heartbeat.Capabilities r = caps → heartbeat.Services r = [] →
    heartbeat.enc_HeartbeatRequest r = Err err →
    beaten h url nodeID version caps [].

(** Calls that add nothing to a trail. *)
Section Still.
Context {L W : Type} {FS : FileSystem W} {HO : heartbeat.Host W}.

Definition still {A} (c : M (Observed L W) A) : Prop := ∀ w, trail (c w).2 = trail w.

Lemma still_ret {A} (a : A) : still (mret a).
Proof. done. Qed.

Lemma still_lifted {A} (c : M W A) : still (lifted c).
Proof. intros w. apply trail_lifted. Qed.

Lemma still_bind {A B} (c : M (Observed L W) A) (k : A → M (Observed L W) B) :
  still c → (∀ a, still (k a)) → still (c ≫= k).
Proof.
  intros Hc Hk w. unfold mbind, M_bind. specialize (Hc w). destruct (c w) as [a w1]. cbn [snd] in Hc.
  etransitivity; [apply Hk|exact Hc].
Qed.

Lemma still_try {E A B} (c : M (Observed L W) (result E A)) h (k : A → M (Observed L W) (result E B)) :
  still c → (∀ a, still (k a)) → still (try_or c h k).
Proof.
  intros Hc Hk w. unfold try_or. specialize (Hc w). destruct (c w) as [[a|e] w1]; [|exact Hc].
  cbn [snd] in Hc. etransitivity; [apply Hk|exact Hc].
Qed.

Lemma info_still : still heartbeat.CollectSystemInfo.
Proof.
  apply still_bind; [apply still_bind; [apply still_lifted|intros a; apply still_ret]|]. intros name.
  apply still_bind; [apply still_lifted|]. intros [[m r]|e]; apply still_ret.
Qed.

Lemma metrics_still : still heartbeat.CollectSystemMetrics.
Proof.
  assert (Hs : still heartbeat.readCPUStat)
    by (apply still_try; [apply still_lifted|intros a; apply still_ret]).
  assert (Hf : ∀ key, still (heartbeat.procMeminfoField key))
    by (intros key; apply still_bind; [apply still_lifted|intros a; apply still_ret]).
  apply still_bind; [|intros cpu; apply still_bind; [|intros mem; apply still_bind; [|intros disk; apply still_bind]]].
  - apply still_bind; [exact Hs|]. intros [s1|e]; [|apply still_ret].
    apply still_bind; [apply still_lifted|intros u]. apply still_bind; [exact Hs|]. intros [s2|e]; apply still_ret.
  - apply still_bind; [apply Hf|intros t]. apply still_bind; [apply Hf|intros a; apply still_ret].
  - apply still_bind; [apply still_lifted|intros a; apply still_ret].
  - apply still_bind; [apply still_lifted|intros a; apply still_ret].
  - intros load. apply still_ret.
Qed.
End Still.

Section Observed.
Context {W : Type} {LG : Logger W} {FS : FileSystem W} {HO : heartbeat.Host W} {TM : Timer W} {TK : Ticker W}.
Variables (h : HttpClient W) (url : string).
#[local] Instance observed_api : agent.APIClient (Observed beat_event W) := agent.http_api (observing Exchange h) url.
Variables (cfg : config.Config) (st : StateStore W) (version : string) (ctx : Context) (caps : list string).
Implicit Types w : Observed beat_event W.

Lemma sendHeartbeat_adds w :
  ∃ es, adds (sendHeartbeat (lift_store st) version ctx caps) w es ∧ beaten h url (NodeID st) version caps es.
Proof.
  unfold sendHeartbeat, heartbeat_request, adds, mbind, M_bind, mret, M_ret.
  pose proof (info_still w) as HI. destruct (heartbeat.CollectSystemInfo w) as [info w1].
  pose proof (metrics_still w1) as HM. destruct (heartbeat.CollectSystemMetrics w1) as [m w2]. cbn [fst snd] in *.
  set (r := heartbeat.mkHeartbeatRequest _ _ _ _ _ _ _ _).
  assert (Hb : ∃ es, adds (agent.Heartbeat ctx (heartbeat.enc_HeartbeatRequest r)) w2 es ∧
                     beaten h url (NodeID st) version caps es).
  { destruct (heartbeat.enc_HeartbeatRequest r) as [body|err] eqn:Er.
    - destruct (doWithRetry_exchanges Exchange h url ctx MethodPost "/internal/agent/v1/heartbeat" (Some body)
        (Some api.dec_HeartbeatResponse) false w2) as (answers & Ht & Hb & _).
      eexists. split; [exact Ht|]. by apply (beaten_sent h url (NodeID st) version caps r body answers).
    - exists []. split; [unfold adds; by rewrite app_nil_r|].
      by apply (beaten_unencodable h url (NodeID st) version caps r err). }
  destruct Hb as (es & Ht & Hb). unfold adds in Ht. destruct (agent.Heartbeat ctx _ w2) as [[ok err] w3].
  cbn [fst snd] in *. exists es. split; [|exact Hb]. rewrite HM, HI in Ht. rewrite <-Ht.
  destruct err as [err|]; apply (trail_lifted (Log _) w3).
Qed.

Lemma beat_adds interval n w :
  ∃ beats, adds (beat (lift_store st) version ctx caps interval n) w
      (concat (map (cons (Tick true)) beats)
       ++ if (beat (lift_store st) version ctx caps interval n w).1 then [Tick false] else []) ∧
    Forall (beaten h url (NodeID st) version caps) beats ∧ length beats ≤ n ∧
    ((beat (lift_store st) version ctx caps interval n w).1 = false → length beats = n).
Proof.
  unfold adds. revert w. induction n as [|n IH]; intros w; cbn [beat]; unfold mbind, M_bind, mret, M_ret.
  { exists []. cbn. rewrite app_nil_r. by split_and!. }
  pose proof (trail_noted Tick (NextTick ctx interval) w) as HT. unfold adds in HT.
  cbn [NextTick noted_ticker]. destruct (noted Tick _ w) as [[] w1]; cbn [fst snd] in *.
  - destruct (sendHeartbeat_adds w1) as (es & HS & Hes). unfold adds in HS.
    destruct (sendHeartbeat _ _ _ _ w1) as [u w2]. cbn [snd] in HS.
    destruct (IH w2) as (beats & HB & Hall & Hle & Heq). exists (es :: beats).
    rewrite HB, HS, HT. cbn [map concat]. split_and!; [by rewrite <-!app_assoc|by constructor|simpl; lia|].
    intros Hf. simpl. by rewrite (Heq Hf).
  - exists []. split_and!; [done|done|simpl; lia|done].
Qed.
End Observed.
End runtime.

(** ** Properties *)

(** C5: The heartbeat loop over the HTTP client of package api, against any
    controller, ticker and host: one heartbeat goes out at the start and one
    after each tick of the ticker, whatever the answers to the earlier ones
    were, until the ticker's channel loses to the end of the context.  A
    heartbeat is one request with the node's id, the version, the capabilities
    found at the start and no service, sent up to six times, and at least once
    unless its URL is refused or its metrics cannot be encoded. *)
Theorem heartbeats_per_tick {W : Type} {LG : executor.Logger W} {FS : FileSystem W} {HO : heartbeat.Host W}
    {TM : Timer W} {TK : runtime.Ticker W} (controller : HttpClient W) (url : string)
    (cfg : config.Config) (st : runtime.StateStore W) (version : string) (ctx : Context) (caps : list string)
    (n : nat) (w : W)
    (Hi : agent.ticker_panics (agent.seconds (config.HeartbeatIntervalSec (config.Controller cfg))) = false) :
  let run := runtime.heartbeatLoop (AC := agent.http_api (observing runtime.Exchange controller) url)
               cfg (runtime.lift_store st) version ctx caps n (observed w []) in
  ∃ first beats ended,
    run.1 = Some ended ∧
    trail run.2 = first ++ concat (map (cons (runtime.Tick true)) beats) ++ (if ended then [runtime.Tick false] else []) ∧
    Forall (runtime.beaten controller url (runtime.NodeID st) version caps) (first :: beats) ∧
    length beats ≤ n ∧ (ended = false → length beats = n).
Proof.
  cbv zeta. unfold runtime.heartbeatLoop, mbind, M_bind, mret, M_ret. rewrite Hi.
  destruct (runtime.sendHeartbeat_adds controller url st version ctx caps (observed w [])) as (first & HS & Hfirst).
  unfold adds, runtime.observed_api in HS.
  destruct (runtime.sendHeartbeat _ version ctx caps (observed w [])) as [u w1]. cbn [snd trail app] in HS.
  match goal with |- context [runtime.beat _ version ctx caps ?d n w1] =>
    destruct (runtime.beat_adds controller url st version ctx caps d n w1) as (beats & HB & Hall & Hle & Heq);
    unfold adds, runtime.observed_api in HB, Heq;
    destruct (runtime.beat _ version ctx caps d n w1) as [ended w2] end.
  cbn [fst snd] in *. exists first, beats, ended. split_and!; [done|by rewrite HB, HS|by constructor|done|done].
Qed.

(** *** Concrete runs *)

(** Scripted answers of the controller. *)
Notation radio := (list (res Response)).

#[local] Instance radio_logger : executor.Logger radio := {| executor.Log _ w := (tt, w) |}.
#[local] Instance radio_files : FileSystem radio := {|
  ReadFile _ w := (Ok "0.15 0.10 0.05 1/100 1234", w);
  Stat _ w := (Ok tt, w); CreateTemp _ _ w := (Err (ErrorString "read-only"), w); Write _ _ w := (Ok tt, w);
  Chmod _ _ w := (Ok tt, w); Close _ w := (Ok tt, w); Remove _ w := (Ok tt, w); Rename _ _ w := (Ok tt, w);
|}.
#[local] Instance radio_host : heartbeat.Host radio := {|
  heartbeat.LookPath _ w := (Err (ErrorString "not found"), w);
  heartbeat.Open _ w := (Err (ErrorString "no such file"), w);
  heartbeat.Uname w := (Err (ErrorString "failed"), w);
  heartbeat.Statfs _ w := (Err (ErrorString "failed"), w);
  heartbeat.Sleep _ w := (tt, w);
|}.
(** It ticks while there are answers left. *)
#[local] Instance radio_ticker : runtime.Ticker radio :=
  {| runtime.NextTick _ _ w := (match w with [] => false | _ => true end, w) |}.

Definition radio_store : runtime.StateStore radio :=
  runtime.mkStore (λ w, (true, w)) "node-1" (λ w, (Ok tt, w)).

Definition radio_config : config.Config :=
  match config.applyDefaults raw_config with Ok c => c | Err _ => raw_config end.

(** The first heartbeat is refused, the second one is answered at the second
    attempt. *)
Definition radio_answers : radio :=
  [ Ok (mkResponse 403 "no" None); Ok (mkResponse 503 "busy" None); Ok (mkResponse 200 "{}" None) ].

Definition radio_run : option bool * Observed runtime.beat_event radio :=
  runtime.heartbeatLoop (AC := agent.http_api (observing runtime.Exchange scripted) "https://panel")
    radio_config (runtime.lift_store radio_store) "1.0" Background ["nft"] 5 (observed radio_answers []).

Lemma heartbeats_per_tick_witness :
  (∃ first beats ended,
    radio_run.1 = Some ended ∧
    trail radio_run.2
      = first ++ concat (map (cons (runtime.Tick true)) beats) ++ (if ended then [runtime.Tick false] else []) ∧
    Forall (runtime.beaten scripted "https://panel" "node-1" "1.0" ["nft"]) (first :: beats) ∧
    length beats ≤ 5 ∧ (ended = false → length beats = 5)) ∧
  map (λ ev, match ev with runtime.Exchange r _ => Method r | runtime.Tick b => if b then "tick" else "done" end)
    (trail radio_run.2) = ["POST"; "tick"; "POST"; "POST"; "done"].
Proof.
  split; [|vm_compute; reflexivity].
  apply (heartbeats_per_tick scripted "https://panel" radio_config radio_store "1.0" Background ["nft"] 5 radio_answers).
  vm_compute. reflexivity.
Defined.
