(* ===== verification/Command.v ===== *)
(** * Command: cmd/routestack-agent/main.go, the command line.

    [command.main] dispatches on the arguments; [command.cmdRun] loads
    configuration and state, builds the client and the executor and starts the
    agent; [command.cmdEnroll] enrolls the node and records its identity.  An
    exit is a value. *)

From Stdlib Require Import Ascii NArith ZArith.
From S2P Require Import Prelude GoStrings Utf8 GoFmt GoPath GoError GoOs Json JsonRoundTrip Http Docker.
From S2P Require Import Executor Health Firewall Certs Handlers Main Api State Config Enroll Heartbeat Agent Runtime.

Module command.
Import executor.

(** The environment and the two streams. *)
Class Console (W : Type) := {
  Getenv : string → M W string;
  Stdout : string → M W unit;
  Stderr : string → M W unit;
}.

(** How a command ends: it returns, the process exits or panics, or the agent
    serves, with what it was built from. *)
Inductive ending (W : Type) : Type :=
| Finished
| Exit (code : Z)
| Panicked (msg : string)
| Serving (cfg : config.Config) (st : state.AgentState) (client : HttpClient W) (e : Executor W)
    (caps : list string).
Arguments Finished {W}.
Arguments Exit {W}.
Arguments Panicked {W}.
Arguments Serving {W}.

(** ** Flags: [flag.FlagSet.Parse] for string flags, with [ExitOnError] *)

Inductive parsed : Type :=
| Flags (values : gmap string string)
| FlagExit (code : Z).

(** The name and the value of a flag argument, the dashes removed. *)
Definition split_flag (name : string) : string * option string :=
  match Split name "=" with
  | [] => (name, None)
  | [_] => (name, None)
  | n :: rest => (n, Some (join "=" rest))
  end.

(** The argument without its dashes; [None] ends the flags. *)
Definition dashed (s : string) : option string :=
  match s with
  | String "-" (String "-" EmptyString) => None
  | String "-" (String "-" name) => Some name
  | String "-" (String a name) => Some (String a name)
  | _ => None
  end.

Fixpoint parse_flags (values : gmap string string) (args : list string) : parsed :=
  match args with
  | [] => Flags values
  | s :: rest =>
      match dashed s with
      | None => Flags values
      | Some name =>
          if String.eqb name "" || HasPrefix name "-" || HasPrefix name "=" then FlagExit 2
          else
            let '(n, v) := split_flag name in
            match values !! n with
            | None => FlagExit (if String.eqb n "help" || String.eqb n "h" then 0 else 2)
            | Some _ =>
                match v, rest with
                | Some value, _ => parse_flags (<[n := value]> values) rest
                | None, value :: rest' => parse_flags (<[n := value]> values) rest'
                | None, [] => FlagExit 2
                end
            end
      end
  end.

(** The value of a defined flag. *)
Definition flag_value (values : gmap string string) (n : string) : string := default "" (values !! n).

Section Commands.
Context {W : Type} `{UnicodeTables} `{GoMaps} `{Clock W} `{Logger W} `{Timer W} `{FileSystem W} `{config.Yaml}
  {CR : enroll.Crypto W} {TR : enroll.Transports W} `{health.Dialer W} `{firewall.CommandRunner W}
  `{certs.commandRunner W} `{heartbeat.Host W} `{Console W}.
(** The transport to the Docker socket, and the variables set at build time. *)
Variables (socket : HttpClient W) (version commit : string).

Definition defaultConfigPath : M W string :=
  p ← Getenv "ROUTESTACK_CONFIG";
  mret (if String.eqb p "" then filesystem.AgentConfigDir +:+ "/config.yaml" else p).

(** [stateAdapter]. *)
Definition stateAdapter (s : state.AgentState) : runtime.StateStore W :=
  runtime.mkStore (state.IsEnrolled s) (state.NodeID s) (state.Save s).

(** [if err != nil { logger.Error(msg, ...); os.Exit(1) }]. *)
Definition or_exit {A} (c : M W (res A)) (msg : string) (more : list (string * string))
    (k : A → M W (ending W)) : M W (ending W) :=
  r ← c;
  match r with
  | Ok a => k a
  | Err err => _ ← Log (mkLog LevelError msg (("error", Error err) :: more)); mret (Exit 1)
  end.

Definition cmdRun (args : list string) : M W (ending W) :=
  path ← defaultConfigPath;
  match parse_flags {["config" := path]} args with
  | FlagExit code => mret (Exit code)
  | Flags values =>
      or_exit (config.LoadConfig (flag_value values "config")) "failed to load config" [] (λ cfg,
      loaded ← state.LoadState (config.StateFile (config.Paths cfg));
      match loaded with
      | Err err =>
          _ ← Log (mkLog LevelError "failed to load state"
                     [("error", Error err); ("path", config.StateFile (config.Paths cfg))]);
          _ ← Log (mkLog LevelError "state file may be corrupted — remove it and re-enroll" []);
          mret (Exit 1)
      | Ok st =>
          enrolled ← state.IsEnrolled st;
          if negb enrolled then
            _ ← Log (mkLog LevelError "agent not enrolled"
                       [("hint", "run 'routestack-agent enroll --token <token> --controller <url>'")]);
            mret (Exit 1)
          else
            or_exit (enroll.NewClient (state.CertPath st) (state.KeyPath st) (config.CACertPath (config.Controller cfg))
                       (agent.seconds (config.ConnectTimeoutSec (config.Controller cfg)))
                       (agent.seconds (config.RequestTimeoutSec (config.Controller cfg))))
              "failed to create API client" [] (λ apiClient,
            match main.wire (Some (docker.NewClient socket)) with
            | Err msg => mret (Panicked msg)
            | Ok e =>
                or_exit (runtime.Run_start cfg (stateAdapter st) version) "agent failed" [] (λ caps,
                mret (Serving cfg st apiClient e caps))
            end)
      end)
  end.

(** The path of the CA certificate. *)
Definition ca_path (cfg : config.Config) : string :=
  if String.eqb (config.CACertPath (config.Controller cfg)) ""
  then filesystem.AgentConfigDir +:+ "/ca.pem" else config.CACertPath (config.Controller cfg).

(** The state with the identity the controller gave. *)
Definition with_identity (nodeID : string) (st : state.AgentState) : state.AgentState :=
  state.mkAgentState nodeID filesystem.DefaultCertPath filesystem.DefaultKeyPath
    (state.LastKnownRevisions st) (state.path st).

(** The last steps of [cmdEnroll]: the state is loaded, changed and saved. *)
Definition record_identity (cfg : config.Config) (resp : api.EnrollResponse) : M W (ending W) :=
  or_exit (state.LoadState (config.StateFile (config.Paths cfg))) "failed to load state after enrollment" [] (λ st,
  let st := with_identity (api.NodeID resp) st in
  or_exit (state.Save st) "failed to save state" [] (λ _,
  _ ← Log (mkLog Info "enrollment complete"
             [("node_id", api.NodeID resp); ("cert_path", state.CertPath st); ("key_path", state.KeyPath st)]);
  _ ← Stdout ("Enrolled as node " +:+ api.NodeID resp +:+ String (mk 10) "");
  mret Finished)).

(** What [cmdEnroll] does with the flags' values. *)
Definition enroll_node (token controllerURL configPath : string) : M W (ending W) :=
  if String.eqb token "" || String.eqb controllerURL "" then
    _ ← Stderr ("error: --token and --controller are required" +:+ String (mk 10) "");
    mret (Exit 1)
  else
    or_exit (config.LoadConfig configPath) "failed to load config" [] (λ cfg,
    found ← Stat (ca_path cfg);
    match found with
    | Err _ =>
        _ ← Log (mkLog LevelError "CA certificate not found"
                   [("path", ca_path cfg); ("hint", "place the controller CA certificate at this path")]);
        mret (Exit 1)
    | Ok _ =>
        _ ← Log (mkLog Info "enrolling with controller" [("url", controllerURL)]);
        now ← Now;
        r ← enroll.Enroll (WithTimeout Background now (120 * Second)) controllerURL token (ca_path cfg);
        match r with
        | enroll.Panic msg => mret (Panicked msg)
        | enroll.Return (Err err) =>
            _ ← Log (mkLog LevelError "enrollment failed" [("error", Error err)]); mret (Exit 1)
        | enroll.Return (Ok resp) => record_identity cfg resp
        end
    end).

Definition cmdEnroll (args : list string) : M W (ending W) :=
  path ← defaultConfigPath;
  match parse_flags {["token" := ""; "controller" := ""; "config" := path]} args with
  | FlagExit code => mret (Exit code)
  | Flags values =>
      enroll_node (flag_value values "token") (flag_value values "controller") (flag_value values "config")
  end.

Definition nl : string := String (mk 10) "".
Definition usage : string :=
  "Usage:" +:+ nl +:+
  "  routestack-agent run [--config <path>]" +:+ nl +:+
  "  routestack-agent enroll --token <token> --controller <url> [--config <path>]" +:+ nl +:+
  "  routestack-agent version" +:+ nl.

Definition printUsage : M W unit := Stderr usage.

(** The process, from [os.Args]. *)
Definition main (args : list string) : M W (ending W) :=
  let wrong := _ ← printUsage; mret (Exit 1) in
  match args with
  | _ :: cmd :: rest =>
      if String.eqb cmd "run" then cmdRun rest
      else if String.eqb cmd "enroll" then cmdEnroll rest
      else if String.eqb cmd "version" then
        _ ← Stdout ("routestack-agent " +:+ version +:+ " (" +:+ commit +:+ ")" +:+ nl); mret Finished
      else wrong
  | _ => wrong
  end.
End Commands.

(** ** Lemmas *)

Section Outcomes.
Context {W : Type} {LG : Logger W}.

(** A command that does not exit went on. *)
Lemma or_exit_on {A} (c : M W (res A)) msg more (k : A → M W (ending W)) w :
  (or_exit c msg more k w).1 ≠ Exit 1 →
  ∃ a w1, c w = (Ok a, w1) ∧ or_exit c msg more k w = k a w1.
Proof.
  unfold or_exit, mbind, M_bind, mret, M_ret. destruct (c w) as [[a|e] w1]; [by eauto|].
  by destruct (Log _ w1).
Qed.

Lemma exits_1 : (1 ∈ [0; 1; 2])%Z.
Proof. set_solver. Qed.
End Outcomes.

(** Wrong flags exit with 2, a request for help with 0. *)
Lemma parse_flags_exits vals args code : parse_flags vals args = FlagExit code → (code ∈ [0; 1; 2])%Z.
Proof.
  assert (H0 : (0 ∈ [0; 1; 2])%Z) by set_solver. assert (H2 : (2 ∈ [0; 1; 2])%Z) by set_solver.
  revert vals. induction args as [args IH] using (induction_ltof1 _ length). intros vals. unfold ltof in IH.
  destruct args as [|s rest]; [done|]. cbn [parse_flags]. destruct (dashed s) as [name|]; [|done].
  destruct (_ || _ || _); [by intros [= <-]|]. destruct (split_flag name) as [n v].
  destruct (vals !! n); [|by intros [= <-]; destruct (_ || _)].
  destruct v as [value|]; [apply IH; simpl; lia|]. destruct rest as [|value rest']; [by intros [= <-]|apply IH; simpl; lia].
Qed.

Section Enrolled.
Context {W : Type} {UT : UnicodeTables} {CK : Clock W} {LG : Logger W} {TM : Timer W} {FS : FileSystem W}
  {FI : Files W} {YM : config.Yaml} {CR : enroll.Crypto W} {TR : enroll.Transports W} {CO : Console W}.

(** Logging and printing do not change files. *)
Definition prints_only : Prop :=
  (∀ l w, files (Log l w).2 = files w) ∧ (∀ s w, files (Stdout s w).2 = files w).

(** Paths the agent's own files do not use. *)
Definition own_path (p : string) : Prop :=
  HasSuffix p temp_suffix = false ∧ p ≠ enroll.keyPath ∧ p ≠ enroll.certPath.

(** An enrollment from [w] reaches the controller's answer [resp] to the request
    for the key [priv], in the world [w7]: the configuration is read, the CA
    certificate found, a key made, and the controller asked over a transport
    that trusts this CA, with the token and the request for the key, within two
    minutes. *)
Definition answered (token url path : string) (w : W) (cfg : config.Config) (priv : enroll.PrivateKey)
    (resp : api.EnrollResponse) (w7 : W) : Prop :=
  ∃ w1 w2 w3 now w4 csr w5 client w6,
    config.LoadConfig path w = (Ok cfg, w1) ∧ Stat (ca_path cfg) w1 = (Ok tt, w2) ∧
    Log (mkLog Info "enrolling with controller" [("url", url)]) w2 = (tt, w3) ∧ Now w3 = (now, w4) ∧
    enroll.GenerateKeyAndCSR "" w4 = (Ok (priv, csr), w5) ∧
    enroll.NewClientWithCA (ca_path cfg) (10 * Second) (60 * Second) w5 = (Ok client, w6) ∧
    api.Enroll client url (WithTimeout Background now (120 * Second)) (api.mkEnrollRequest token csr "") w6
      = ((resp, None), w7).

(** What a finished enrollment went through. *)
Lemma enroll_node_steps token url path w :
  (enroll_node token url path w).1 = Finished →
  ∃ cfg resp priv pem w7, answered token url path w cfg priv resp w7 ∧ enroll.key_pem priv = Ok pem ∧
    valid_utf8 (api.NodeID resp) = true ∧ (enroll.save_identity priv resp w7).1 = enroll.Return (Ok resp) ∧
    enroll_node token url path w = record_identity cfg resp (enroll.save_identity priv resp w7).2.
Proof.
  unfold enroll_node. destruct (_ || _); [unfold mbind, M_bind, mret, M_ret; by destruct (Stderr _ w)|].
  intros Hfin. destruct (or_exit_on _ _ _ _ _ ltac:(rewrite Hfin; done)) as (cfg & w1 & Hload & E). rewrite E in *. clear E.
  unfold mbind, M_bind, mret, M_ret in *.
  destruct (Stat (ca_path cfg) w1) as [[[]|e] w2] eqn:Es; [|by destruct (Log _ w2)].
  destruct (Log _ w2) as [[] w3] eqn:El. destruct (Now w3) as [now w4] eqn:En.
  destruct (enroll.Enroll_steps (WithTimeout Background now (120 * Second)) url token (ca_path cfg) w4)
    as [Hbad|(priv & csr & w5 & client & w6 & resp & w7 & Hg & Hc & He & Htext & E)].
  - destruct (enroll.Enroll _ _ _ _ w4) as [[[r|e]|m] w5]; [by destruct (Hbad r)|by destruct (Log _ w5)|done].
  - assert (Ha : answered token url path w cfg priv resp w7)
      by (by exists w1, w2, w3, now, w4, csr, w5, client, w6).
    rewrite E in *. destruct (enroll.key_pem priv) as [pem|m] eqn:Ek.
    + pose proof (save_identity_spec priv resp w7 pem Ek) as [_ Hid].
      destruct (enroll.save_identity priv resp w7) as [[[r|e]|m] w8] eqn:Ei; [|by destruct (Log _ w8)|done].
      cbn [fst snd] in *. destruct Hid as (-> & _ & _). exists cfg, resp, priv, pem, w7. rewrite Ei. by split_and!.
    + exfalso. unfold enroll.save_identity in Hfin. by rewrite Ek in Hfin.
Qed.

Lemma IsEnrolled_found st w :
  (∀ p w, is_Some (files w !! p) → is_ok (Stat p w).1 = true) →
  is_Some (files w !! state.CertPath st) → is_Some (files w !! state.KeyPath st) →
  state.CertPath st ≠ "" → state.KeyPath st ≠ "" →
  (state.IsEnrolled st w).1 = negb (String.eqb (state.NodeID st) "").
Proof.
  intros Hstat Hc Hk Nc Nk. unfold state.IsEnrolled, state.exists_, mbind, M_bind, mret, M_ret.
  destruct (String.eqb_spec (state.NodeID st) ""); [done|].
  destruct (String.eqb_spec (state.CertPath st) ""); [done|]. destruct (String.eqb_spec (state.KeyPath st) ""); [done|].
  cbn [orb]. pose proof (Hstat _ _ Hc) as H1. pose proof (stat_same (state.CertPath st) w) as Hs.
  destruct (Stat (state.CertPath st) w) as [r1 w1]. cbn [fst snd] in *. rewrite H1.
  rewrite <- Hs in Hk. pose proof (Hstat _ _ Hk) as H2. destruct (Stat (state.KeyPath st) w1) as [r2 w2]. exact H2.
Qed.

(** What it takes to count as enrolled. *)
Lemma IsEnrolled_true st w :
  (state.IsEnrolled st w).1 = true →
  state.NodeID st ≠ "" ∧ is_ok (Stat (state.CertPath st) w).1 = true ∧
  Stat (state.KeyPath st) (Stat (state.CertPath st) w).2 = (Ok tt, (state.IsEnrolled st w).2).
Proof.
  unfold state.IsEnrolled, state.exists_, mbind, M_bind, mret, M_ret.
  destruct (String.eqb_spec (state.NodeID st) ""); [done|]. destruct (_ || _)%bool; [done|].
  destruct (Stat (state.CertPath st) w) as [[u|e] w1]; cbn [is_ok fst snd]; [|done].
  destruct (Stat (state.KeyPath st) w1) as [[[]|e] w2]; by cbn.
Qed.

Lemma LoadState_path p w st : (state.LoadState p w).1 = Ok st → state.path st = p.
Proof.
  unfold state.LoadState, mbind, M_bind, mret, M_ret. destruct (ReadFile p w) as [[data|e] w1]; cbn [fst].
  - pose proof (state.Unmarshal_path data p) as Hp. destruct (Unmarshal _ data _) as [s [e|]]; [done|].
    intros [= <-]. exact Hp.
  - destruct (errors_Is is_NotExist e); [|done]. by intros [= <-].
Qed.

Lemma LoadState_files p w : files (state.LoadState p w).2 = files w.
Proof.
  unfold state.LoadState, mbind, M_bind, mret, M_ret. pose proof (read_same p w) as Hr.
  destruct (ReadFile p w) as [[data|e] w1]; cbn [snd] in *; repeat case_match; done.
Qed.

(** Recording the identity leaves key and certificate alone, and the state. *)
Lemma record_identity_files cfg resp w :
  prints_only → own_path (config.StateFile (config.Paths cfg)) → valid_utf8 (api.NodeID resp) = true →
  (record_identity cfg resp w).1 = Finished →
  let w' := (record_identity cfg resp w).2 in
  files w' !! enroll.keyPath = files w !! enroll.keyPath ∧
  files w' !! enroll.certPath = files w !! enroll.certPath ∧
  ∃ old, (state.LoadState (config.StateFile (config.Paths cfg)) w).1 = Ok old ∧
    let st := state.mkAgentState (api.NodeID resp) filesystem.DefaultCertPath filesystem.DefaultKeyPath
                (state.LastKnownRevisions old) (config.StateFile (config.Paths cfg)) in
    state.storable st ∧
    files w' !! config.StateFile (config.Paths cfg) = Some (MarshalIndent (state.enc_AgentState st), mode_0600).
Proof.
  intros [Hlog Hout] (Hsuf & Hkey & Hcert) Htext. cbv zeta. unfold record_identity. intros Hfin.
  destruct (or_exit_on _ _ _ _ _ ltac:(rewrite Hfin; done)) as (st & w1 & Hload & E). rewrite E in *. clear E.
  pose proof (LoadState_files (config.StateFile (config.Paths cfg)) w) as HF1. rewrite Hload in HF1. cbn [snd] in HF1.
  pose proof (LoadState_path (config.StateFile (config.Paths cfg)) w st) as Hp. rewrite Hload in Hp. specialize (Hp eq_refl).
  pose proof (state.LoadState_storable (config.StateFile (config.Paths cfg)) w st) as Hs. rewrite Hload in Hs.
  destruct (Hs eq_refl) as (_ & _ & _ & Hrevs). clear Hs.
  set (st' := with_identity (api.NodeID resp) st) in *.
  destruct (or_exit_on _ _ _ _ _ ltac:(rewrite Hfin; done)) as (u & w2 & Hsave & E). rewrite E in *. clear E.
  assert (Hp' : state.path st' = config.StateFile (config.Paths cfg)) by exact Hp.
  destruct (Save_file st' w1 ltac:(by rewrite Hp')) as [Hi Hf]. rewrite Hsave, Hp' in *. cbn [fst snd is_ok] in *.
  unfold mbind, M_bind, mret, M_ret.
  match goal with |- context [Log ?l w2] => pose proof (Hlog l w2) as Hl; destruct (Log l w2) as [v w3] end.
  match goal with |- context [Stdout ?s w3] => pose proof (Hout s w3) as Ho; destruct (Stdout s w3) as [v' w4] end.
  cbn [snd] in *. assert (HF : files w4 = files w2) by congruence.
  cbn [snd]. rewrite HF, <- HF1. split_and!.
  - apply (intact_other _ _ _ _ _ Hi); [reflexivity|congruence].
  - apply (intact_other _ _ _ _ _ Hi); [reflexivity|congruence].
  - exists st. split; [by rewrite Hload|]. split; [by split_and!|]. rewrite Hf. unfold st', with_identity. by rewrite Hp.
Qed.
End Enrolled.
End command.

(** ** Properties *)

(** C15: From enrollment to the next start: when [enroll] ends normally, a key
    was made and the controller gave an answer to the request for it; the key
    file holds that key and the certificate file the certificate of the answer,
    both with mode 0600; and the state file holds the node id of the answer,
    the two paths and the revisions known before.  So any later start that
    finds these files loads that state and counts as enrolled, exactly when the
    controller gave the node an id. *)
Theorem enrolled_then_runs {W : Type} {UT : UnicodeTables} {CK : Clock W} {LG : executor.Logger W} {TM : Timer W}
    {FS : FileSystem W} {FI : Files W} {YM : config.Yaml} {CR : enroll.Crypto W} {TR : enroll.Transports W}
    {CO : command.Console W} (token url path : string) (cfg : config.Config) (w : W)
    (Hprints : command.prints_only)
    (Hstat : ∀ p w, is_Some (files w !! p) → is_ok (Stat p w).1 = true)
    (Hcfg : (config.LoadConfig path w).1 = Ok cfg)
    (Hown : command.own_path (config.StateFile (config.Paths cfg)))
    (Hrun : (command.enroll_node token url path w).1 = command.Finished) :
  let w' := (command.enroll_node token url path w).2 in
  ∃ priv resp w7 pem old,
    command.answered token url path w cfg priv resp w7 ∧ enroll.key_pem priv = Ok pem ∧
    (state.LoadState (config.StateFile (config.Paths cfg)) (enroll.save_identity priv resp w7).2).1 = Ok old ∧
    files w' !! "/etc/routestack/agent/key.pem" = Some (pem, mode_0600) ∧
    files w' !! "/etc/routestack/agent/cert.pem" = Some (api.Certificate resp, mode_0600) ∧
    ∀ w2, files w2 = files w' → is_ok (ReadFile (config.StateFile (config.Paths cfg)) w2).1 = true →
      let st := state.mkAgentState (api.NodeID resp) "/etc/routestack/agent/cert.pem" "/etc/routestack/agent/key.pem"
                  (state.LastKnownRevisions old) (config.StateFile (config.Paths cfg)) in
      (state.LoadState (config.StateFile (config.Paths cfg)) w2).1 = Ok st ∧
      (state.IsEnrolled st w2).1 = negb (String.eqb (api.NodeID resp) "").
Proof.
  cbv zeta.
  destruct (command.enroll_node_steps _ _ _ _ Hrun) as (c & resp & priv & pem & w7 & Ha & Hpem & Htext & Hok & E).
  assert (c = cfg) as ->.
  { destruct Ha as (w1 & _ & _ & _ & _ & _ & _ & _ & _ & Hc & _). rewrite Hc in Hcfg. by injection Hcfg. }
  rewrite E in *. exists priv, resp, w7, pem.
  destruct (command.record_identity_files cfg resp _ Hprints Hown Htext Hrun) as (Hk & Hc & old & Hold & Hs & Hst).
  destruct (save_identity_spec priv resp w7 pem Hpem) as [_ Hid]. rewrite Hok in Hid. destruct Hid as (_ & Hk1 & Hc1).
  exists old. split_and!; [done|done|done|by etransitivity; [exact Hk|]|by etransitivity; [exact Hc|]|].
  intros w2 Hw2 Hr. split.
  - apply (LoadState_saved _ w2 Hs); [rewrite Hw2; exact Hst|exact Hr].
  - rewrite Hk1 in Hk. rewrite Hc1 in Hc. apply command.IsEnrolled_found; [done| | |discriminate|discriminate]; rewrite Hw2;
      [exact (mk_is_Some _ _ Hc)|exact (mk_is_Some _ _ Hk)].
Qed.

(** C16: How [run] ends.  It goes on to serve only with a complete
    configuration, read from the file the flags name, and with the state read
    from the file this configuration names, which has a node id and whose
    certificate and key were found just then; it serves with the client made
    from these files and the executor with one handler for each of the twelve
    operation types and no operation marked as done.  Otherwise the process
    exits, with 1 unless the flags are wrong or ask for help; up to this point
    it does not panic, and it never just returns. *)
Theorem run_serves_enrolled {W : Type} {UT : UnicodeTables} {GM : GoMaps} {CK : Clock W} {LG : executor.Logger W}
    {TM : Timer W} {FS : FileSystem W} {YM : config.Yaml} {CR : enroll.Crypto W} {TR : enroll.Transports W}
    {DI : health.Dialer W} {RU : firewall.CommandRunner W} {CB : certs.commandRunner W} {HO : heartbeat.Host W}
    {CO : command.Console W} (socket : HttpClient W) (version : string) (args : list string) (w : W) :
  match (command.cmdRun socket version args w).1 with
  | command.Serving cfg st client e caps =>
      ∃ path w0 vals w1 w2 w3 w4,
        command.defaultConfigPath w = (path, w0) ∧
        command.parse_flags {["config" := path]} args = command.Flags vals ∧
        config.LoadConfig (command.flag_value vals "config") w0 = (Ok cfg, w1) ∧ config.complete cfg ∧
        state.LoadState (config.StateFile (config.Paths cfg)) w1 = (Ok st, w2) ∧
        state.NodeID st ≠ "" ∧ is_ok (Stat (state.CertPath st) w2).1 = true ∧
        Stat (state.KeyPath st) (Stat (state.CertPath st) w2).2 = (Ok tt, w3) ∧
        enroll.NewClient (state.CertPath st) (state.KeyPath st) (config.CACertPath (config.Controller cfg))
          (agent.seconds (config.ConnectTimeoutSec (config.Controller cfg)))
          (agent.seconds (config.RequestTimeoutSec (config.Controller cfg))) w3 = (Ok client, w4) ∧
        main.wire (Some (docker.NewClient socket)) = Ok e ∧ executor.seen e = ∅ ∧
        (∀ t, is_Some (executor.handlers e !! t) ↔ t ∈ main.docker_types ++ main.core_types) ∧
        runtime.Run_start cfg (command.stateAdapter st) version w4 = (Ok caps, (command.cmdRun socket version args w).2)
  | command.Exit code => code ∈ [0; 1; 2]%Z
  | command.Finished => False
  | command.Panicked _ => False
  end.
Proof.
  unfold command.cmdRun, command.or_exit, mbind, M_bind, mret, M_ret.
  destruct (command.defaultConfigPath w) as [path w0].
  destruct (command.parse_flags _ args) as [vals|code] eqn:Ef; [|by apply command.parse_flags_exits in Ef].
  destruct (config.LoadConfig _ w0) as [[cfg|err] w1] eqn:Ec; [|destruct (executor.Log _ w1); apply command.exits_1].
  destruct (state.LoadState _ w1) as [[st|err] w2] eqn:El.
  2: { destruct (executor.Log _ w2) as [u w3]. destruct (executor.Log _ w3). apply command.exits_1. }
  pose proof (command.IsEnrolled_true st w2) as Hi. destruct (state.IsEnrolled st w2) as [enrolled w3].
  destruct enrolled; cbn [negb]; [|destruct (executor.Log _ w3); apply command.exits_1].
  destruct (enroll.NewClient _ _ _ _ _ w3) as [[client|err] w4] eqn:En; [|destruct (executor.Log _ w4); apply command.exits_1].
  destruct (main.wire_ok (Some (docker.NewClient socket))) as (e & Hw & Hs & _ & Hall). rewrite Hw.
  destruct (runtime.Run_start _ _ _ w4) as [[caps|err] w5] eqn:Er; [|destruct (executor.Log _ w5); apply command.exits_1].
  cbn [fst snd] in *. destruct (Hi eq_refl) as (Hid & Hcert & Hkey).
  assert (Hcomplete : config.complete cfg) by (eapply config.LoadConfig_complete; by rewrite Ec).
  exists path, w0, vals, w1, w2, w3, w4. split_and!; try assumption; try reflexivity. intros t. apply Hall.
Qed.

(** *** The theorem at a concrete host: a controller that answers, a
    configuration file and a CA certificate. *)
Section Host.
#[local] Existing Instance latin1_tables.
#[local] Instance host_clock : Clock FileTable := {| Now := λ w, (0%Z, w) |}.
#[local] Instance host_log : executor.Logger FileTable := {| executor.Log := λ _ w, (tt, w) |}.
#[local] Instance host_timer : Timer FileTable := {| SelectAfter := λ _ _ w, (None, w) |}.
#[local] Instance host_yaml : config.Yaml := {| config.yaml_Unmarshal := λ _, Ok raw_config |}.
#[local] Instance host_crypto : enroll.Crypto FileTable := {|
  enroll.PrivateKey := string;
  enroll.Certificate_ := unit;
  enroll.GenerateKey := λ w, (Ok "k1", w);
  enroll.CreateCertificateRequest := λ t k w, (Ok (enroll.CommonName t +:+ k), w);
  enroll.MarshalPKCS8PrivateKey := λ k, Ok k;
  enroll.EncodePEM := λ t b, "-----BEGIN " +:+ t +:+ "-----" +:+ b;
  enroll.AppendCertsFromPEM := λ p, HasPrefix p "-----BEGIN CERTIFICATE";
  enroll.LoadX509KeyPair := λ _ _ w, (Ok tt, w);
|}.
Definition enroll_answer : string :=
  MarshalIndent (JObj (member "node_id" (enc_string "node-1") ++ member "certificate" (enc_string "cert-1"))).
#[local] Instance host_transports : enroll.Transports FileTable := {|
  enroll.NewTransport := λ _ _ _ _, mkHttpClient _ (λ _ _, None) (λ _ _ w, (Ok (mkResponse 200 enroll_answer None), w));
|}.
#[local] Instance host_console : command.Console FileTable := {|
  command.Getenv := λ _ w, ("", w);
  command.Stdout := λ _ w, (tt, w);
  command.Stderr := λ _ w, (tt, w);
|}.

Definition host : FileTable :=
  {["/c.yaml" := ("controller: {url: https://panel}", mode_0600);
    "/etc/routestack/agent/ca.pem" := ("-----BEGIN CERTIFICATE-----", mode_0600)]}.

Definition host_config : config.Config :=
  match config.applyDefaults raw_config with Ok c => c | Err _ => raw_config end.

Lemma enrolled_then_runs_witness :
  let w' := (command.enroll_node "t" "https://panel" "/c.yaml" host).2 in
  (∃ priv resp w7 pem old,
    command.answered "t" "https://panel" "/c.yaml" host host_config priv resp w7 ∧ enroll.key_pem priv = Ok pem ∧
    (state.LoadState (config.StateFile (config.Paths host_config)) (enroll.save_identity priv resp w7).2).1 = Ok old ∧
    files w' !! "/etc/routestack/agent/key.pem" = Some (pem, mode_0600) ∧
    files w' !! "/etc/routestack/agent/cert.pem" = Some (api.Certificate resp, mode_0600) ∧
    ∀ w2, files w2 = files w' → is_ok (ReadFile (config.StateFile (config.Paths host_config)) w2).1 = true →
      let st := state.mkAgentState (api.NodeID resp) "/etc/routestack/agent/cert.pem" "/etc/routestack/agent/key.pem"
                  (state.LastKnownRevisions old) (config.StateFile (config.Paths host_config)) in
      (state.LoadState (config.StateFile (config.Paths host_config)) w2).1 = Ok st ∧
      (state.IsEnrolled st w2).1 = negb (String.eqb (api.NodeID resp) "")) ∧
  (state.LoadState filesystem.StateFile w').1 =
    Ok (state.mkAgentState "node-1" filesystem.DefaultCertPath filesystem.DefaultKeyPath ∅ filesystem.StateFile).
Proof.
  split; [|vm_compute; reflexivity].
  apply (enrolled_then_runs "t" "https://panel" "/c.yaml" host_config host).
  - done.
  - intros p w [c Hc]. change (w !! p = Some c) in Hc. simpl. by rewrite Hc.
  - vm_compute. reflexivity.
  - split; [reflexivity|split; discriminate].
  - vm_compute. reflexivity.
Defined.
End Host.
